(** * GIPS: shader-annotation loader and pipeline change requests

    A shallow embedding of
    - [App::handlePCR] (src/gips_app.cpp): the pipeline change requests
      and the renumbering of the show index, and
    - [Node::load] in its two dialect variants: the analysis of the
      lexeme stream (annotation comments, uniform declarations, pass
      declarations) and the assembly of the per-pass shader sources,
    - the rest of the bookkeeping of [App] (src/gips_app.cpp): input
      files, the position of the image on the screen, the size of a
      loaded image, the alpha channel of a pattern, and the test image
      of the first version of the application,
    - the context menu of a node (src/gips_ui.cpp) and the file
      fingerprints of file_util.h.

    Layout: all definitions first (Part I), then the lemmas and theorems
    (Part II). *)

From Stdlib Require Import ZArith List String Ascii Bool Lia.
From Stdlib Require Import Numbers.DecimalString.
Import ListNotations.

Open Scope string_scope.
Open Scope list_scope.
Open Scope Z_scope.

(* ===================================================================== *)
(** * Part I: definitions                                                 *)
(* ===================================================================== *)

(* --------------------------------------------------------------------- *)
(** ** Lists used as vectors                                              *)
(* --------------------------------------------------------------------- *)

(** [std::vector::insert(begin() + i, x)]. *)
Definition insert_at {A} (i : nat) (x : A) (l : list A) : list A :=
  firstn i l ++ x :: skipn i l.

(** [std::vector::erase(begin() + i)]. *)
Definition remove_at {A} (i : nat) (l : list A) : list A :=
  firstn i l ++ skipn (S i) l.

(** In-place update of the element at index [i] (a write through a
    pointer or reference to [l[i]]). *)
Fixpoint modify_nth {A} (i : nat) (f : A -> A) (l : list A) : list A :=
  match l, i with
  | [], _ => []
  | x :: r, O => f x :: r
  | x :: r, S j => x :: modify_nth j f r
  end.

(* --------------------------------------------------------------------- *)
(** ** The application: pipeline change requests (src/gips_app.cpp)       *)
(* --------------------------------------------------------------------- *)

Module PipelineChangeRequest.

Inductive Type_ :=
| None | InsertNode | ReloadNode | RemoveNode | MoveNode
| UpdateSource | LoadImage | SaveResult.

Record t := {
  type : Type_;
  nodeIndex : Z;
  targetIndex : Z;
  path : string
}.

End PipelineChangeRequest.

(** What [handlePCR] reaches outside of the pipeline bookkeeping: node
    loading (which compiles on the GPU), image loading, and the check of
    the file extension of a save path. *)
Class AppExtern (Node : Type) := {
  loadNode : string -> option Node;
  reloadNode : Node -> Node;
  updateImage : bool;
  loadImage : string -> bool;
  isSaveImageFile : string -> bool
}.

Module Pipeline.
Section WithNode.
Context {Node : Type} `{AppExtern Node}.

(** Modelled from the spec: the [Pipeline] class, which is not among
    the source files: "ordered sequence of Nodes, dirty flag"; every
    structural edit sets the flag. *)
Record t := {
  m_nodes : list Node;
  m_changed : bool
}.

Definition nodeCount (p : t) : Z := Z.of_nat (List.length (m_nodes p)).

Definition markAsChanged (p : t) : t :=
  {| m_nodes := m_nodes p; m_changed := true |}.

(** Modelled from the spec: [Pipeline::addNode(filename, index)]; the
    pipeline class is not among the source files.  The spec: "loads and
    classifies/compiles a new Node; on success, inserts at atIndex (or
    appends if atIndex is out of range)".  The boolean is the success of
    the call. *)
Definition addNode (p : t) (filename : string) (index : Z) : t * bool :=
  match loadNode filename with
  | Some n =>
      if (0 <=? index) && (index <? nodeCount p)
      then ({| m_nodes := insert_at (Z.to_nat index) n (m_nodes p);
               m_changed := true |}, true)
      else ({| m_nodes := m_nodes p ++ [n]; m_changed := true |}, true)
  | Datatypes.None => (p, false)
  end.

(** Modelled from the spec: [Pipeline::addNode(filename)] without an
    index appends ("insert at end"). *)
Definition addNodeAtEnd (p : t) (filename : string) : t * bool :=
  addNode p filename (-1).

(** Modelled from the spec: [Pipeline::removeNode(index)], "deletes the
    Node at index". *)
Definition removeNode (p : t) (index : Z) : t :=
  {| m_nodes := remove_at (Z.to_nat index) (m_nodes p); m_changed := true |}.

(** Modelled from the spec: [Pipeline::moveNode(from, to)], "relocates a
    Node": the node leaves its place and is put back at the target
    index. *)
Definition moveNode (p : t) (fromIndex toIndex : Z) : t :=
  match nth_error (m_nodes p) (Z.to_nat fromIndex) with
  | Some n =>
      {| m_nodes := insert_at (Z.to_nat toIndex) n
                      (remove_at (Z.to_nat fromIndex) (m_nodes p));
         m_changed := true |}
  | Datatypes.None => p
  end.

(** [m_pipeline.node(i).reload(vs)]. *)
Definition reloadNodeAt (p : t) (index : Z) : t :=
  {| m_nodes := modify_nth (Z.to_nat index) reloadNode (m_nodes p);
     m_changed := m_changed p |}.

End WithNode.
Arguments t : clear implicits.
End Pipeline.

Module App.
Section WithNode.
Context {Node : Type} `{AppExtern Node}.

Record t := {
  m_pcr : PipelineChangeRequest.t;
  m_pipeline : Pipeline.t Node;
  m_showIndex : Z
}.

Definition withPipeline (a : t) (p : Pipeline.t Node) : t :=
  {| m_pcr := m_pcr a; m_pipeline := p; m_showIndex := m_showIndex a |}.

Definition withShowIndex (a : t) (i : Z) : t :=
  {| m_pcr := m_pcr a; m_pipeline := m_pipeline a; m_showIndex := i |}.

(** "reset PCR" at the end of [handlePCR]. *)
Definition resetPCR (a : t) : t :=
  {| m_pcr := {| PipelineChangeRequest.type := PipelineChangeRequest.None;
                 PipelineChangeRequest.nodeIndex := 0;
                 PipelineChangeRequest.targetIndex := 0;
                 PipelineChangeRequest.path := EmptyString |};
     m_pipeline := m_pipeline a;
     m_showIndex := m_showIndex a |}.

(** The [switch] of [App::handlePCR].  The result is [inl] for the early
    [return true] of the SaveResult case (the request is kept), and
    [inr (a', done)] when control reaches "reset PCR". *)
Definition dispatchPCR (a : t) : t + (t * bool) :=
  let pcr := m_pcr a in
  let nodeIndex := PipelineChangeRequest.nodeIndex pcr in
  let targetIndex := PipelineChangeRequest.targetIndex pcr in
  let path := PipelineChangeRequest.path pcr in
  let validNodeIndex :=
    (0 <? nodeIndex) && (nodeIndex <=? Pipeline.nodeCount (m_pipeline a)) in
  match PipelineChangeRequest.type pcr with
  | PipelineChangeRequest.InsertNode =>
      if validNodeIndex then
        let '(p', ok) := Pipeline.addNode (m_pipeline a) path (nodeIndex - 1) in
        let a1 := withPipeline a p' in
        inr (if ok && (nodeIndex <=? m_showIndex a)
             then withShowIndex a1 (m_showIndex a + 1) else a1, true)
      else
        let oldNodeCount := Pipeline.nodeCount (m_pipeline a) in
        let '(p', ok) := Pipeline.addNodeAtEnd (m_pipeline a) path in
        let a1 := withPipeline a p' in
        inr (if ok && (m_showIndex a =? oldNodeCount)
             then withShowIndex a1 (m_showIndex a + 1) else a1, true)
  | PipelineChangeRequest.ReloadNode =>
      if validNodeIndex
      then inr (withPipeline a
                  (Pipeline.reloadNodeAt (m_pipeline a) (nodeIndex - 1)), true)
      else inr (a, false)
  | PipelineChangeRequest.RemoveNode =>
      if validNodeIndex then
        let a1 := withPipeline a
                    (Pipeline.removeNode (m_pipeline a) (nodeIndex - 1)) in
        inr (if nodeIndex <=? m_showIndex a
             then withShowIndex a1 (m_showIndex a - 1) else a1, true)
      else inr (a, false)
  | PipelineChangeRequest.MoveNode =>
      if validNodeIndex && negb (nodeIndex =? targetIndex)
         && (0 <? targetIndex)
         && (targetIndex <=? Pipeline.nodeCount (m_pipeline a))
      then
        let a1 := withPipeline a
                    (Pipeline.moveNode (m_pipeline a)
                       (nodeIndex - 1) (targetIndex - 1)) in
        inr (if (Z.min nodeIndex targetIndex <? m_showIndex a)
                && (m_showIndex a <? Z.max nodeIndex targetIndex)
             then if nodeIndex <? targetIndex
                  then withShowIndex a1 (m_showIndex a - 1)
                  else withShowIndex a1 (m_showIndex a + 1)
             else a1, true)
      else inr (a, false)
  | PipelineChangeRequest.UpdateSource =>
      inr (if updateImage
           then withPipeline a (Pipeline.markAsChanged (m_pipeline a))
           else a, false)
  | PipelineChangeRequest.LoadImage =>
      inr (if loadImage path
           then withPipeline a (Pipeline.markAsChanged (m_pipeline a))
           else a, false)
  | PipelineChangeRequest.SaveResult =>
      if isSaveImageFile path then inl a else inr (a, false)
  | PipelineChangeRequest.None => inr (a, false)
  end.

(** [bool App::handlePCR()]. *)
Definition handlePCR (a : t) : t * bool :=
  match PipelineChangeRequest.type (m_pcr a) with
  | PipelineChangeRequest.None => (a, false)
  | _ =>
      match dispatchPCR a with
      | inl a' => (a', true)
      | inr (a', done) => (resetPCR a', done)
      end
  end.

(** The requests as the UI layer files them ([requestInsertNode] and
    its siblings fill the single request slot). *)
Definition request (a : t) (ty : PipelineChangeRequest.Type_)
    (nodeIndex targetIndex : Z) (path : string) : t :=
  {| m_pcr := {| PipelineChangeRequest.type := ty;
                 PipelineChangeRequest.nodeIndex := nodeIndex;
                 PipelineChangeRequest.targetIndex := targetIndex;
                 PipelineChangeRequest.path := path |};
     m_pipeline := m_pipeline a;
     m_showIndex := m_showIndex a |}.

Definition insert (a : t) (source : string) (atIndex : Z) : t :=
  fst (handlePCR (request a PipelineChangeRequest.InsertNode atIndex 0 source)).

Definition remove (a : t) (index : Z) : t :=
  fst (handlePCR (request a PipelineChangeRequest.RemoveNode index 0 EmptyString)).

Definition move (a : t) (fromIndex toIndex : Z) : t :=
  fst (handlePCR (request a PipelineChangeRequest.MoveNode fromIndex toIndex EmptyString)).

Definition nodes (a : t) : list Node := Pipeline.m_nodes (m_pipeline a).

(** The node shown at 1-based stage [i] ([None] for the input image
    stage 0 and for stages beyond the end). *)
Definition nodeAtStage (a : t) (i : Z) : option Node :=
  if 0 <? i then nth_error (nodes a) (Z.to_nat (i - 1)) else Datatypes.None.

End WithNode.
Arguments t : clear implicits.
End App.

(* --------------------------------------------------------------------- *)
(** ** Renumbering rules as the specification words them                  *)
(* --------------------------------------------------------------------- *)

(** insert: "if the active-stage index was >= the insertion point, it
    increments by one". *)
Definition spec_insert_showIndex (insertionPoint showIndex : Z) : Z :=
  if insertionPoint <=? showIndex then showIndex + 1 else showIndex.

(** move: "if the active-stage index lies strictly between from and to,
    it shifts by one in the direction opposite to the moved node's
    direction of travel; if it equals from it travels with the node to
    to". *)
Definition spec_move_showIndex (from to showIndex : Z) : Z :=
  if (Z.min from to <? showIndex) && (showIndex <? Z.max from to)
  then (if from <? to then showIndex - 1 else showIndex + 1)
  else if showIndex =? from then to else showIndex.

(* --------------------------------------------------------------------- *)
(** ** A concrete application for examples                                *)
(* --------------------------------------------------------------------- *)

(** Nodes are identified by their file name; every load succeeds. *)
Definition testAppExtern : AppExtern string := {|
  loadNode := fun filename => Some filename;
  reloadNode := fun n => n;
  updateImage := true;
  loadImage := fun _ => true;
  isSaveImageFile := fun _ => true
|}.

Definition testApp (nodes : list string) (showIndex : Z) : App.t string := {|
  App.m_pcr := {| PipelineChangeRequest.type := PipelineChangeRequest.None;
                  PipelineChangeRequest.nodeIndex := 0;
                  PipelineChangeRequest.targetIndex := 0;
                  PipelineChangeRequest.path := EmptyString |};
  App.m_pipeline := {| Pipeline.m_nodes := nodes; Pipeline.m_changed := false |};
  App.m_showIndex := showIndex
|}.

(* --------------------------------------------------------------------- *)
(** ** Characters and strings of the C library                            *)
(* --------------------------------------------------------------------- *)

Definition between (lo hi : nat) (c : ascii) : bool :=
  let n := nat_of_ascii c in ((lo <=? n) && (n <=? hi))%nat.

Definition isdigit (c : ascii) : bool := between 48 57 c.
Definition isupper (c : ascii) : bool := between 65 90 c.
Definition islower (c : ascii) : bool := between 97 122 c.
Definition isalnum (c : ascii) : bool := isdigit c || isupper c || islower c.
Definition isspace (c : ascii) : bool :=
  between 9 13 c || (nat_of_ascii c =? 32)%nat.

Definition tolower (c : ascii) : ascii :=
  if isupper c then ascii_of_nat (nat_of_ascii c + 32) else c.

(** Modelled from the spec: [StringUtil::isident]; string_util is not
    among the source files.  Keys and values are "identifier runs",
    i.e. letters, digits and the underscore. *)
Definition isident (c : ascii) : bool := isalnum c || (c =? "_")%char.

(** The line feed, and the decimal rendering of an [int] by [<<]. *)
Definition nl : string := String (ascii_of_nat 10) EmptyString.

Definition dec (n : Z) : string := NilEmpty.string_of_int (Z.to_int n).

(** [tok.contains(c)]. *)
Fixpoint contains (c : ascii) (s : string) : bool :=
  match s with
  | EmptyString => false
  | String d r => (d =? c)%char || contains c r
  end.

(** Modelled from the spec: [StringUtil::skipWhitespace] and
    [StringUtil::trimTrailingWhitespace] (string_util is not among the
    source files); the description is the remaining text "trimmed of
    surrounding whitespace". *)
Fixpoint skipWhitespace (s : string) : string :=
  match s with
  | String c r => if isspace c then skipWhitespace r else s
  | EmptyString => EmptyString
  end.

Fixpoint trimTrailingWhitespace (s : string) : string :=
  match s with
  | EmptyString => EmptyString
  | String c r =>
      match trimTrailingWhitespace r with
      | EmptyString => if isspace c then EmptyString else String c EmptyString
      | r' => String c r'
      end
  end.

(* --------------------------------------------------------------------- *)
(** ** What [Node::load] reaches outside of itself                        *)
(* --------------------------------------------------------------------- *)

(** The outcome of [Shader::compile] or [Program::link]:
    [good()], [haveLog()] and [getLog()]. *)
Record GLStatus := {
  good : bool;
  haveLog : bool;
  getLog : string
}.

(** The C library and the GL driver.
    - [strtof t] is the value returned by [strtof(t, &end)] together
      with the test [end && !*end] (the whole of [t] was consumed);
    - [autoFormat lo hi] is the format string "%.<vscale>f" computed
      from the bounds in the "auto-scale format" step;
    - [fs_compile src] and [prog_link src] are the results of compiling
      the fragment shader text [src] and of linking it against the
      fixed vertex shader. *)
Class Extern := {
  float : Type;
  fzero : float;
  fone : float;
  strtof : string -> float * bool;
  autoFormat : float -> float -> string;
  fs_compile : string -> GLStatus;
  prog_link : string -> GLStatus
}.

(* --------------------------------------------------------------------- *)
(** ** Enumerations                                                       *)
(* --------------------------------------------------------------------- *)

Module GLSLToken.

Inductive t :=
| Other | Ignored | Uniform | Float | Vec2 | Vec3 | Vec4
| RunSingle | RunPass1 | RunPass2 | RunPass3 | RunPass4
| OpenParens | CloseParens.

(** The integer values of the [enum class]. *)
Definition code (x : t) : Z :=
  match x with
  | Other => 0 | Ignored => -1 | Uniform => 10
  | Float => 1 | Vec2 => 2 | Vec3 => 3 | Vec4 => 4
  | RunSingle => 99
  | RunPass1 => 100 | RunPass2 => 200 | RunPass3 => 300 | RunPass4 => 400
  | OpenParens => 90 | CloseParens => 91
  end.

Definition eqb (x y : t) : bool := code x =? code y.

End GLSLToken.

Module PassInput.
Inductive t := Coord | RGB | RGBA.
Definition isCoord (x : t) : bool :=
  match x with Coord => true | _ => false end.
End PassInput.

Module PassOutput.
Inductive t := RGB | RGBA.
Definition isRGB (x : t) : bool :=
  match x with RGB => true | RGBA => false end.
End PassOutput.

(** From gips_core.h, as the loader and the UI use them. *)
Module ParameterType.
Inductive t := Toggle | Value | Value2 | Value3 | Value4 | RGB | RGBA.
End ParameterType.

Module CoordMapMode.
Inductive t := None | Pixel | Relative.
End CoordMapMode.

(** Modelled from the spec: the constant [MaxPasses] of gips_core.h
    ("MaxPasses=4"). *)
Definition MaxPasses : Z := 4.

(** [tokenMap]; the entry with the null name carries the default. *)
Definition tokenMap : list (string * GLSLToken.t) :=
  [ ("in",        GLSLToken.Ignored);
    ("uniform",   GLSLToken.Uniform);
    ("float",     GLSLToken.Float);
    ("vec2",      GLSLToken.Vec2);
    ("vec3",      GLSLToken.Vec3);
    ("vec4",      GLSLToken.Vec4);
    ("run",       GLSLToken.RunSingle);
    ("run_pass1", GLSLToken.RunPass1);
    ("run_pass2", GLSLToken.RunPass2);
    ("run_pass3", GLSLToken.RunPass3);
    ("run_pass4", GLSLToken.RunPass4);
    ("(",         GLSLToken.OpenParens);
    (")",         GLSLToken.CloseParens);
    ("){",        GLSLToken.CloseParens) ].

Definition tokenMapDefault : GLSLToken.t := GLSLToken.Other.

(** Modelled from the spec: [StringUtil::lookup] (string_util is not
    among the source files): the value of the first entry whose name is
    the token, the default otherwise. *)
Fixpoint lookup (map : list (string * GLSLToken.t)) (s : string)
  : GLSLToken.t :=
  match map with
  | [] => tokenMapDefault
  | (name, v) :: r => if (name =? s)%string then v else lookup r s
  end.

(* --------------------------------------------------------------------- *)
(** ** Diagnostics                                                        *)
(* --------------------------------------------------------------------- *)

(** One constructor per [err << ...] statement of [Node::load];
    [render] gives the text that the statement writes. *)
Inductive Diag :=
| OnlyInParamComment (key : string)
| RequiresValue (key : string)
| RequiresNumeric (key : string)
| IncompatibleFormat (key name : string)
| BadCoordMode (value : string)
| BadFilterMode (value : string)
| UnrecognizedToken (key : string)
| UnsupportedUniform (token : string)
| NoRunFunction
| PassesMissing
| DriverLog (log : string).

Definition render (d : Diag) : string :=
  (match d with
   | OnlyInParamComment key =>
       "(GIPS) '@" ++ key ++ "' token is only valid inside a parameter comment" ++ nl
   | RequiresValue key =>
       "(GIPS) '@" ++ key ++ "' token requires a value" ++ nl
   | RequiresNumeric key =>
       "(GIPS) '@" ++ key ++ "' token requires a numeric value" ++ nl
   | IncompatibleFormat key name =>
       "(GIPS) '@" ++ key
       ++ "' format is incompatible with uniform data type of parameter '"
       ++ name ++ "'" ++ nl
   | BadCoordMode value =>
       "(GIPS) unrecognized coordinate mapping mode '" ++ value ++ "'" ++ nl
   | BadFilterMode value =>
       "(GIPS) unrecognized texture filtering mode '" ++ value ++ "'" ++ nl
   | UnrecognizedToken key =>
       "(GIPS) unrecognized token '@" ++ key ++ "'" ++ nl
   | UnsupportedUniform token =>
       "(GIPS) uniform variable '" ++ token ++ "' has unsupported data type" ++ nl
   | NoRunFunction =>
       "(GIPS) no valid 'run' or 'run_pass1' function found" ++ nl
   | PassesMissing =>
       "(GIPS) intermediate passes are missing, truncating pipeline" ++ nl
   | DriverLog log => log ++ nl
   end)%string.

(** [err.str()]. *)
Definition renderAll (err : list Diag) : string :=
  fold_right (fun d acc => (render d ++ acc)%string) EmptyString err.

(* --------------------------------------------------------------------- *)
(** ** Annotation tokens in comments (the same text in both variants)     *)
(* --------------------------------------------------------------------- *)

(** What the tokenizer loop of [Node::load] sees: a comment, as
    [tok.extractToken()] returns it after [extendUntil] (delimiters
    included), or any other token [tok.token()].  The tokenizer itself
    (string_util) is outside of [Node::load]; the loader is modelled on
    the stream of lexemes it yields.  Strings are C strings: they hold
    no NUL character. *)
Inductive Lexeme :=
| Comment (multiLineComment : bool) (comment : string)
| Token (token : string).

(** [for (pos = key; StringUtil::isident( *pos); ++pos) { *pos = tolower( *pos); }]:
    the lower-cased identifier run and what follows it. *)
Fixpoint spanIdent (s : string) : string * string :=
  match s with
  | String c r =>
      if isident c
      then let (k, r') := spanIdent r in (String (tolower c) k, r')
      else (EmptyString, s)
  | EmptyString => (EmptyString, EmptyString)
  end.

(** From the character after an [@]: the key, the value if an [=]
    follows the key, and the text after the token; the character that
    ends the token, if there is one, is overwritten by NUL and skipped. *)
Definition splitToken (s : string) : string * option string * string :=
  let (key, r1) := spanIdent s in
  let (value, r2) :=
    match r1 with
    | String c r =>
        if (c =? "=")%char
        then let (v, r') := spanIdent r in (Some v, r')
        else (@Datatypes.None string, r1)
    | EmptyString => (@Datatypes.None string, r1)
    end in
  (key, value, match r2 with String _ r => r | EmptyString => EmptyString end).

(** The C string that starts at the head of a buffer: the characters in
    front of the first NUL.  The buffer of a C string ends with a NUL,
    which the list leaves out. *)
Fixpoint cstring (buf : list ascii) : string :=
  match buf with
  | [] => EmptyString
  | c :: r => if (c =? zero)%char then EmptyString else String c (cstring r)
  end.

(** [&buf[i]] read as a C string, and [buf[i]]. *)
Definition cstringAt (buf : list ascii) (i : nat) : string :=
  cstring (skipn i buf).

Definition charAt (buf : list ascii) (i : nat) : ascii := nth i buf zero.

(** The comment text that is searched, on the buffer that
    [tok.extractToken()] returns:
    [if (multiLineComment) { comment[strlen(comment) - 2] = '\0'; }],
    [content = &comment[2]], and [++content] when [content[0]] is [!].
    The first component is the character in front of the text
    ([content[-1]]).  In a multi-line comment of three characters the
    NUL is written in front of [content], so that the third character
    is the text. *)
Definition commentContent (multiLineComment : bool) (comment : string)
  : ascii * string :=
  let buf := list_ascii_of_string comment in
  let buf := if multiLineComment
             then modify_nth (String.length comment - 2) (fun _ => zero) buf
             else buf in
  let content := if (charAt buf 2 =? "!")%char then 3%nat else 2%nat in
  (charAt buf (content - 1), cstringAt buf content).

Section TokenLoop.
Context {State : Type}.
Variable evalToken : State -> string -> option string -> State.

(** The "search for @key=value tokens" loop.  [kept] is the text in
    front of [pos], [prev] its last character ([pos[-1]]), [rest] the
    text from [pos] on.  Every turn drops at least one character of
    [rest], so [String.length rest] turns suffice. *)
Fixpoint tokenLoop (fuel : nat) (st : State) (prev : ascii)
    (kept rest : string) : State * string :=
  match fuel with
  | O => (st, (kept ++ rest)%string)
  | S fuel' =>
      match rest with
      | EmptyString => (st, kept)
      | String c r =>
          if (c =? "@")%char then
            if isalnum prev
            then tokenLoop fuel' st c (kept ++ String c EmptyString)%string r
            else
              let '(key, value, r') := splitToken r in
              tokenLoop fuel' (evalToken st key value) prev kept r'
          else tokenLoop fuel' st c (kept ++ String c EmptyString)%string r
      end
  end.

(** The loop on a comment text; the result is the state and the text
    that is left once the tokens are deleted. *)
Definition extractTokens (st : State) (prev : ascii) (content : string)
  : State * string :=
  tokenLoop (String.length content) st prev EmptyString content.

End TokenLoop.

(** The helpers of the comment loop ([isKey], [needParam], [needNum]
    and [setParamType], and [isValue] and [needValue] in the richer
    variant) are declared [static const auto ... = [&] ...]: they are
    created once in the process, in the first turn of the comment loop
    that is ever run, and they hold references to [key], [value],
    [isNum], [keyMatched], [param], [paramDataType] and [err] of the
    execution of [Node::load] that runs this turn.  In that execution
    the variables that the helpers refer to are its own.  In every
    later execution the helpers still refer to the variables of the
    execution that has created them, and that execution has returned:
    the language gives the call of a helper no meaning then. *)
Inductive Helpers :=
| OwnHelpers       (* no earlier execution has evaluated a token *)
| ForeignHelpers.  (* an earlier execution has created the helpers *)

(** Whether the comment loop finds a token in a comment of the
    lexemes, that is whether an execution on them calls the helpers. *)
Definition evaluatesToken (lexemes : list Lexeme) : bool :=
  existsb (fun x =>
             match x with
             | Comment multiLineComment comment =>
                 let (prev, content) :=
                   commentContent multiLineComment comment in
                 fst (extractTokens (fun _ _ _ => true) false prev content)
             | Token _ => false
             end) lexemes.

(** The helpers that the execution behind one on [lexemes] finds. *)
Definition helpersAfter (h : Helpers) (lexemes : list Lexeme) : Helpers :=
  match h with
  | ForeignHelpers => ForeignHelpers
  | OwnHelpers =>
      if evaluatesToken lexemes then ForeignHelpers else OwnHelpers
  end.

(* --------------------------------------------------------------------- *)
(** ** Parameters and passes                                              *)
(* --------------------------------------------------------------------- *)

Module GParameter.
Section WithExtern.
Context `{Extern}.

(** The [Parameter] class, without the uniform locations (they are
    handles of the GL driver). *)
Record t := {
  m_name : string;
  m_desc : string;
  m_type : ParameterType.t;
  m_value : list float;
  m_minValue : float;
  m_maxValue : float;
  m_format : string
}.

(** Modelled from the spec: the member initialisers of [Parameter]
    (gips_core.h is not among the source files): empty texts, "prior
    defaults of 0" for the four values, and the range 0 to 1. *)
Definition fresh : t :=
  {| m_name := EmptyString; m_desc := EmptyString;
     m_type := ParameterType.Value;
     m_value := [fzero; fzero; fzero; fzero];
     m_minValue := fzero; m_maxValue := fone;
     m_format := EmptyString |}.

Definition set_name (v : string) (p : t) : t :=
  {| m_name := v; m_desc := m_desc p; m_type := m_type p;
     m_value := m_value p; m_minValue := m_minValue p;
     m_maxValue := m_maxValue p; m_format := m_format p |}.

Definition set_desc (v : string) (p : t) : t :=
  {| m_name := m_name p; m_desc := v; m_type := m_type p;
     m_value := m_value p; m_minValue := m_minValue p;
     m_maxValue := m_maxValue p; m_format := m_format p |}.

Definition set_type (v : ParameterType.t) (p : t) : t :=
  {| m_name := m_name p; m_desc := m_desc p; m_type := v;
     m_value := m_value p; m_minValue := m_minValue p;
     m_maxValue := m_maxValue p; m_format := m_format p |}.

Definition set_value (v : list float) (p : t) : t :=
  {| m_name := m_name p; m_desc := m_desc p; m_type := m_type p;
     m_value := v; m_minValue := m_minValue p;
     m_maxValue := m_maxValue p; m_format := m_format p |}.

Definition set_minValue (v : float) (p : t) : t :=
  {| m_name := m_name p; m_desc := m_desc p; m_type := m_type p;
     m_value := m_value p; m_minValue := v;
     m_maxValue := m_maxValue p; m_format := m_format p |}.

Definition set_maxValue (v : float) (p : t) : t :=
  {| m_name := m_name p; m_desc := m_desc p; m_type := m_type p;
     m_value := m_value p; m_minValue := m_minValue p;
     m_maxValue := v; m_format := m_format p |}.

Definition set_format (v : string) (p : t) : t :=
  {| m_name := m_name p; m_desc := m_desc p; m_type := m_type p;
     m_value := m_value p; m_minValue := m_minValue p;
     m_maxValue := m_maxValue p; m_format := v |}.

(** [m_value[i] = f]. *)
Definition set_valueAt (i : Z) (f : float) (p : t) : t :=
  set_value (modify_nth (Z.to_nat i) (fun _ => f) (m_value p)) p.

(** The "auto-scale format" step on one parameter. *)
Definition finalize (p : t) : t :=
  let fmt := autoFormat (m_minValue p) (m_maxValue p) in
  if (m_format p =? EmptyString)%string
  then set_format fmt p
  else set_format (fmt ++ " " ++ m_format p)%string p.

End WithExtern.
Arguments t {_}.
End GParameter.

Module Pass.
(** The settings of [m_passes[i]] that the loader writes (the program
    and the uniform locations are handles of the GL driver). *)
Record t := {
  texFilter : bool;
  coordMode : CoordMapMode.t
}.
Definition set_texFilter (v : bool) (p : t) : t :=
  {| texFilter := v; coordMode := coordMode p |}.
Definition set_coordMode (v : CoordMapMode.t) (p : t) : t :=
  {| texFilter := texFilter p; coordMode := v |}.
End Pass.

(** [a[i] = v] on an array seen as a function of the index. *)
Definition upd {A} (a : Z -> A) (i : Z) (v : A) : Z -> A :=
  fun j => if j =? i then v else a j.

(* --------------------------------------------------------------------- *)
(** ** [Node::load], the richer variant (coord and filter annotations)    *)
(* --------------------------------------------------------------------- *)

Module V2.
Section WithExtern.
Context `{Extern}.

Abbreviation GParameter := (@GParameter.t _).
Abbreviation Pass := Pass.t.

(** The local variables of [Node::load] that the analysis loop reads and
    writes, and the member [m_passes].  [param] points into [newParams]
    and is kept as an index; [inputs], [outputs] and [m_passes] are
    arrays of [MaxPasses] entries. *)
Record LoadState := {
  newParams : list GParameter;
  err : list Diag;
  param : option nat;
  paramDataType : GLSLToken.t;
  paramValueIndex : Z;
  inParamStatement : bool;
  currentPass : Z;
  passMask : Z;
  singlePass : bool;
  inputs : Z -> PassInput.t;
  outputs : Z -> PassOutput.t;
  texFilter : bool;
  coordMode : CoordMapMode.t;
  tt : list GLSLToken.t;
  m_passes : Z -> Pass
}.

Definition set_newParams (v : list GParameter) (s : LoadState) : LoadState :=
  {| newParams := v; err := err s; param := param s;
     paramDataType := paramDataType s;
     paramValueIndex := paramValueIndex s;
     inParamStatement := inParamStatement s;
     currentPass := currentPass s; passMask := passMask s;
     singlePass := singlePass s; inputs := inputs s;
     outputs := outputs s; texFilter := texFilter s;
     coordMode := coordMode s; tt := tt s; m_passes := m_passes s |}.

Definition set_err (v : list Diag) (s : LoadState) : LoadState :=
  {| newParams := newParams s; err := v; param := param s;
     paramDataType := paramDataType s;
     paramValueIndex := paramValueIndex s;
     inParamStatement := inParamStatement s;
     currentPass := currentPass s; passMask := passMask s;
     singlePass := singlePass s; inputs := inputs s;
     outputs := outputs s; texFilter := texFilter s;
     coordMode := coordMode s; tt := tt s; m_passes := m_passes s |}.

Definition set_param (v : option nat) (s : LoadState) : LoadState :=
  {| newParams := newParams s; err := err s; param := v;
     paramDataType := paramDataType s;
     paramValueIndex := paramValueIndex s;
     inParamStatement := inParamStatement s;
     currentPass := currentPass s; passMask := passMask s;
     singlePass := singlePass s; inputs := inputs s;
     outputs := outputs s; texFilter := texFilter s;
     coordMode := coordMode s; tt := tt s; m_passes := m_passes s |}.

Definition set_paramDataType (v : GLSLToken.t) (s : LoadState) : LoadState :=
  {| newParams := newParams s; err := err s; param := param s;
     paramDataType := v; paramValueIndex := paramValueIndex s;
     inParamStatement := inParamStatement s;
     currentPass := currentPass s; passMask := passMask s;
     singlePass := singlePass s; inputs := inputs s;
     outputs := outputs s; texFilter := texFilter s;
     coordMode := coordMode s; tt := tt s; m_passes := m_passes s |}.

Definition set_paramValueIndex (v : Z) (s : LoadState) : LoadState :=
  {| newParams := newParams s; err := err s; param := param s;
     paramDataType := paramDataType s; paramValueIndex := v;
     inParamStatement := inParamStatement s;
     currentPass := currentPass s; passMask := passMask s;
     singlePass := singlePass s; inputs := inputs s;
     outputs := outputs s; texFilter := texFilter s;
     coordMode := coordMode s; tt := tt s; m_passes := m_passes s |}.

Definition set_inParamStatement (v : bool) (s : LoadState) : LoadState :=
  {| newParams := newParams s; err := err s; param := param s;
     paramDataType := paramDataType s;
     paramValueIndex := paramValueIndex s; inParamStatement := v;
     currentPass := currentPass s; passMask := passMask s;
     singlePass := singlePass s; inputs := inputs s;
     outputs := outputs s; texFilter := texFilter s;
     coordMode := coordMode s; tt := tt s; m_passes := m_passes s |}.

Definition set_currentPass (v : Z) (s : LoadState) : LoadState :=
  {| newParams := newParams s; err := err s; param := param s;
     paramDataType := paramDataType s;
     paramValueIndex := paramValueIndex s;
     inParamStatement := inParamStatement s; currentPass := v;
     passMask := passMask s; singlePass := singlePass s;
     inputs := inputs s; outputs := outputs s; texFilter := texFilter s;
     coordMode := coordMode s; tt := tt s; m_passes := m_passes s |}.

Definition set_passMask (v : Z) (s : LoadState) : LoadState :=
  {| newParams := newParams s; err := err s; param := param s;
     paramDataType := paramDataType s;
     paramValueIndex := paramValueIndex s;
     inParamStatement := inParamStatement s;
     currentPass := currentPass s; passMask := v;
     singlePass := singlePass s; inputs := inputs s;
     outputs := outputs s; texFilter := texFilter s;
     coordMode := coordMode s; tt := tt s; m_passes := m_passes s |}.

Definition set_singlePass (v : bool) (s : LoadState) : LoadState :=
  {| newParams := newParams s; err := err s; param := param s;
     paramDataType := paramDataType s;
     paramValueIndex := paramValueIndex s;
     inParamStatement := inParamStatement s;
     currentPass := currentPass s; passMask := passMask s;
     singlePass := v; inputs := inputs s; outputs := outputs s;
     texFilter := texFilter s; coordMode := coordMode s; tt := tt s;
     m_passes := m_passes s |}.

Definition set_inputs (v : Z -> PassInput.t) (s : LoadState) : LoadState :=
  {| newParams := newParams s; err := err s; param := param s;
     paramDataType := paramDataType s;
     paramValueIndex := paramValueIndex s;
     inParamStatement := inParamStatement s;
     currentPass := currentPass s; passMask := passMask s;
     singlePass := singlePass s; inputs := v; outputs := outputs s;
     texFilter := texFilter s; coordMode := coordMode s; tt := tt s;
     m_passes := m_passes s |}.

Definition set_outputs (v : Z -> PassOutput.t) (s : LoadState) : LoadState :=
  {| newParams := newParams s; err := err s; param := param s;
     paramDataType := paramDataType s;
     paramValueIndex := paramValueIndex s;
     inParamStatement := inParamStatement s;
     currentPass := currentPass s; passMask := passMask s;
     singlePass := singlePass s; inputs := inputs s; outputs := v;
     texFilter := texFilter s; coordMode := coordMode s; tt := tt s;
     m_passes := m_passes s |}.

Definition set_texFilter (v : bool) (s : LoadState) : LoadState :=
  {| newParams := newParams s; err := err s; param := param s;
     paramDataType := paramDataType s;
     paramValueIndex := paramValueIndex s;
     inParamStatement := inParamStatement s;
     currentPass := currentPass s; passMask := passMask s;
     singlePass := singlePass s; inputs := inputs s;
     outputs := outputs s; texFilter := v; coordMode := coordMode s;
     tt := tt s; m_passes := m_passes s |}.

Definition set_coordMode (v : CoordMapMode.t) (s : LoadState) : LoadState :=
  {| newParams := newParams s; err := err s; param := param s;
     paramDataType := paramDataType s;
     paramValueIndex := paramValueIndex s;
     inParamStatement := inParamStatement s;
     currentPass := currentPass s; passMask := passMask s;
     singlePass := singlePass s; inputs := inputs s;
     outputs := outputs s; texFilter := texFilter s; coordMode := v;
     tt := tt s; m_passes := m_passes s |}.

Definition set_tt (v : list GLSLToken.t) (s : LoadState) : LoadState :=
  {| newParams := newParams s; err := err s; param := param s;
     paramDataType := paramDataType s;
     paramValueIndex := paramValueIndex s;
     inParamStatement := inParamStatement s;
     currentPass := currentPass s; passMask := passMask s;
     singlePass := singlePass s; inputs := inputs s;
     outputs := outputs s; texFilter := texFilter s;
     coordMode := coordMode s; tt := v; m_passes := m_passes s |}.

Definition set_m_passes (v : Z -> Pass) (s : LoadState) : LoadState :=
  {| newParams := newParams s; err := err s; param := param s;
     paramDataType := paramDataType s;
     paramValueIndex := paramValueIndex s;
     inParamStatement := inParamStatement s;
     currentPass := currentPass s; passMask := passMask s;
     singlePass := singlePass s; inputs := inputs s;
     outputs := outputs s; texFilter := texFilter s;
     coordMode := coordMode s; tt := tt s; m_passes := v |}.

Definition addErr (d : Diag) (s : LoadState) : LoadState :=
  set_err (err s ++ [d]) s.

(** A write through [param]. *)
Definition onParam (f : GParameter -> GParameter) (s : LoadState)
  : LoadState :=
  match param s with
  | Some i => set_newParams (modify_nth i f (newParams s)) s
  | Datatypes.None => s
  end.

(** [param->m_name]. *)
Definition paramName (s : LoadState) : string :=
  match param s with
  | Some i =>
      match nth_error (newParams s) i with
      | Some p => GParameter.m_name p
      | Datatypes.None => EmptyString
      end
  | Datatypes.None => EmptyString
  end.

(** The helper lambdas of the comment loop.  They are conditions with
    side effects (on [err], on [keyMatched], on the parameter), so a
    condition maps the state to its truth value and the next state.
    The lambdas are declared [static] in the source and capture by
    reference (see [Helpers]): the conditions below read and write the
    variables of the execution that has created them, and
    [evalTokenWith] further down tells the executions apart. *)
Record KeyEval := {
  st : LoadState;
  keyMatched : bool
}.

Definition Cond := KeyEval -> bool * KeyEval.

Definition onSt (f : LoadState -> LoadState) (e : KeyEval) : KeyEval :=
  {| st := f (st e); keyMatched := keyMatched e |}.

Definition cor (a b : Cond) : Cond :=
  fun e => let (r, e') := a e in if r then (true, e') else b e'.

Definition cand (a b : Cond) : Cond :=
  fun e => let (r, e') := a e in if r then b e' else (false, e').

Definition ifC (c : Cond) (thenC elseC : KeyEval -> KeyEval) : KeyEval -> KeyEval :=
  fun e => let (r, e') := c e in if r then thenC e' else elseC e'.

Definition isKey (key t : string) : Cond :=
  fun e =>
    let matched := (key =? t)%string in
    (matched, {| st := st e; keyMatched := keyMatched e || matched |}).

Definition needParam (key : string) : Cond :=
  fun e =>
    match param (st e) with
    | Some _ => (true, e)
    | Datatypes.None => (false, onSt (addErr (OnlyInParamComment key)) e)
    end.

Definition needValue (key : string) (value : option string) : Cond :=
  fun e =>
    match value with
    | Some _ => (true, e)
    | Datatypes.None => (false, onSt (addErr (RequiresValue key)) e)
    end.

Definition needNum (key : string) (isNum : bool) : Cond :=
  fun e =>
    if isNum then (true, e)
    else (false, onSt (addErr (RequiresNumeric key)) e).

Definition setParamType (key : string) (dt : GLSLToken.t)
    (pt : ParameterType.t) (fail : bool) : Cond :=
  fun e =>
    if negb (GLSLToken.eqb (paramDataType (st e)) dt)
    then (false,
          if fail
          then onSt (fun s => addErr (IncompatibleFormat key (paramName s)) s) e
          else e)
    else (true, onSt (onParam (GParameter.set_type pt)) e).

Definition notKeyMatched : Cond := fun e => (negb (keyMatched e), e).

(** [value] where it is known to be present ([needValue] has passed). *)
Definition valueText (value : option string) : string :=
  match value with Some v => v | Datatypes.None => EmptyString end.

Definition setCoordMode (value : string) (s : LoadState) : LoadState :=
  if (value =? "pixel")%string then set_coordMode CoordMapMode.Pixel s
  else if (value =? "none")%string then set_coordMode CoordMapMode.None s
  else if (value =? "relative")%string || (value =? "rel")%string
  then set_coordMode CoordMapMode.Relative s
  else addErr (BadCoordMode value) s.

Definition setTexFilter (value : string) (s : LoadState) : LoadState :=
  if (value =? "1")%string || (value =? "on")%string
     || (value =? "linear")%string || (value =? "bilinear")%string
  then set_texFilter true s
  else if (value =? "0")%string || (value =? "off")%string
          || (value =? "nearest")%string || (value =? "point")%string
  then set_texFilter false s
  else addErr (BadFilterMode value) s.

Local Notation "a ||| b" := (cor a b) (at level 50, left associativity).
Local Notation "a &&& b" := (cand a b) (at level 40, left associativity).

(** "at this point, key and value have been extracted; now parse
    them": one turn of the comment loop from there to the deletion of
    the token. *)
Definition evalToken (s : LoadState) (key : string) (value : option string)
  : LoadState :=
  let fval := match value with
              | Some v => fst (strtof v) | Datatypes.None => fzero end in
  let isNum := match value with
               | Some v => snd (strtof v) | Datatypes.None => false end in
  st (ifC ((isKey key "min" ||| isKey key "off")
             &&& needParam key &&& needNum key isNum)
        (onSt (onParam (GParameter.set_minValue fval)))
     (ifC ((isKey key "max" ||| isKey key "on")
             &&& needParam key &&& needNum key isNum)
        (onSt (onParam (GParameter.set_maxValue fval)))
     (ifC (isKey key "unit" &&& needParam key &&& needValue key value)
        (onSt (onParam (GParameter.set_format (valueText value))))
     (ifC ((isKey key "toggle" ||| isKey key "switch") &&& needParam key)
        (fun e => snd (setParamType key GLSLToken.Float
                         ParameterType.Toggle true e))
     (ifC (isKey key "color" &&& needParam key)
        (fun e => snd ((setParamType key GLSLToken.Vec3
                          ParameterType.RGB false
                        ||| setParamType key GLSLToken.Vec4
                              ParameterType.RGBA true) e))
     (ifC ((isKey key "coord" ||| isKey key "coords" ||| isKey key "map")
             &&& needValue key value)
        (onSt (setCoordMode (valueText value)))
     (ifC ((isKey key "filter" ||| isKey key "filt")
             &&& needValue key value)
        (onSt (setTexFilter (valueText value)))
     (ifC notKeyMatched
        (onSt (addErr (UnrecognizedToken key)))
        (fun e => e))))))))
     {| st := s; keyMatched := false |}).

(** The comment branch of the tokenizer loop. *)
Definition handleComment (s : LoadState) (multiLineComment : bool)
    (comment : string) : LoadState :=
  let (prev, content) := commentContent multiLineComment comment in
  let (s1, content') := extractTokens evalToken s prev content in
  let desc := trimTrailingWhitespace (skipWhitespace content') in
  let s2 := match param s1 with
            | Some _ =>
                if (desc =? EmptyString)%string then s1
                else onParam (GParameter.set_desc desc) s1
            | Datatypes.None => s1
            end in
  set_param Datatypes.None s2.

(** [tt[i]]. *)
Definition ttAt (s : LoadState) (i : nat) : GLSLToken.t :=
  nth i (tt s) GLSLToken.Other.

(** "add token type to history". *)
Definition pushHistory (newTT : GLSLToken.t) (s : LoadState) : LoadState :=
  set_tt [newTT; ttAt s 0; ttAt s 1; ttAt s 2] s.

Definition hasParam (s : LoadState) : bool :=
  match param s with Some _ => true | Datatypes.None => false end.

Definition isUniformType (x : GLSLToken.t) : bool :=
  GLSLToken.eqb x GLSLToken.Float || GLSLToken.eqb x GLSLToken.Vec2
  || GLSLToken.eqb x GLSLToken.Vec3 || GLSLToken.eqb x GLSLToken.Vec4.

(** "set a default parameter type based on the data type". *)
Definition defaultType (dt : GLSLToken.t) (p : GParameter) : GParameter :=
  match dt with
  | GLSLToken.Float => GParameter.set_type ParameterType.Value p
  | GLSLToken.Vec2 => GParameter.set_type ParameterType.Value2 p
  | GLSLToken.Vec3 => GParameter.set_type ParameterType.Value3 p
  | GLSLToken.Vec4 => GParameter.set_type ParameterType.Value4 p
  | _ => p
  end.

(** "check for new uniform", taken when [tt[2]] is [Uniform]. *)
Definition newUniform (s : LoadState) (token : string) : LoadState :=
  if isUniformType (ttAt s 1) then
    let p := defaultType (ttAt s 1)
               (GParameter.set_name token GParameter.fresh) in
    set_inParamStatement true
      (set_paramValueIndex (-1)
         (set_paramDataType (ttAt s 1)
            (set_param (Some (List.length (newParams s)))
               (set_newParams (newParams s ++ [p]) s))))
  else
    set_inParamStatement false (addErr (UnsupportedUniform token) s).

(** "check if we can parse the token as a number". *)
Definition parseDefault (s : LoadState) (token : string) : LoadState :=
  if hasParam s && inParamStatement s
     && (0 <=? paramValueIndex s) && (paramValueIndex s <? 4)
  then
    let (f, whole) := strtof token in
    if whole
    then set_paramValueIndex (paramValueIndex s + 1)
           (onParam (GParameter.set_valueAt (paramValueIndex s) f) s)
    else s
  else s.

Definition isPassPattern (s : LoadState) : bool :=
  (GLSLToken.eqb (ttAt s 3) GLSLToken.Vec3
   || GLSLToken.eqb (ttAt s 3) GLSLToken.Vec4)
  && (GLSLToken.eqb (ttAt s 2) GLSLToken.RunSingle
      || GLSLToken.eqb (ttAt s 2) GLSLToken.RunPass1
      || GLSLToken.eqb (ttAt s 2) GLSLToken.RunPass2
      || GLSLToken.eqb (ttAt s 2) GLSLToken.RunPass3
      || GLSLToken.eqb (ttAt s 2) GLSLToken.RunPass4)
  && GLSLToken.eqb (ttAt s 1) GLSLToken.OpenParens
  && (GLSLToken.eqb (ttAt s 0) GLSLToken.Vec2
      || GLSLToken.eqb (ttAt s 0) GLSLToken.Vec3
      || GLSLToken.eqb (ttAt s 0) GLSLToken.Vec4).

(** The first [switch] of the pass definition: the pass index and the
    single-pass flag. *)
Definition selectPass (s : LoadState) : LoadState :=
  match ttAt s 2 with
  | GLSLToken.RunSingle => set_singlePass true (set_currentPass 0 s)
  | GLSLToken.RunPass1 => set_singlePass false (set_currentPass 0 s)
  | GLSLToken.RunPass2 => set_currentPass 1 s
  | GLSLToken.RunPass3 => set_currentPass 2 s
  | GLSLToken.RunPass4 => set_currentPass 3 s
  | _ => s
  end.

Definition inputOf (x : GLSLToken.t) (old : PassInput.t) : PassInput.t :=
  match x with
  | GLSLToken.Vec2 => PassInput.Coord
  | GLSLToken.Vec3 => PassInput.RGB
  | GLSLToken.Vec4 => PassInput.RGBA
  | _ => old
  end.

Definition outputOf (x : GLSLToken.t) (old : PassOutput.t) : PassOutput.t :=
  match x with
  | GLSLToken.Vec3 => PassOutput.RGB
  | GLSLToken.Vec4 => PassOutput.RGBA
  | _ => old
  end.

(** "check pass definition", taken when the history matches. *)
Definition passDefinition (s : LoadState) : LoadState :=
  let s1 := selectPass s in
  let cp := currentPass s1 in
  let s2 := set_passMask (Z.lor (passMask s1) (Z.shiftl 1 cp)) s1 in
  if MaxPasses <=? cp then s2
  else
    let s3 := set_inputs
                (upd (inputs s2) cp (inputOf (ttAt s2 0) (inputs s2 cp))) s2 in
    let s4 := set_outputs
                (upd (outputs s3) cp (outputOf (ttAt s3 3) (outputs s3 cp))) s3 in
    set_m_passes
      (upd (m_passes s4) cp
         (Pass.set_coordMode (coordMode s4)
            (Pass.set_texFilter (texFilter s4) (m_passes s4 cp)))) s4.

(** The branch of the tokenizer loop for a token that is no comment. *)
Definition handleToken (s : LoadState) (token : string) : LoadState :=
  let newTT := lookup tokenMap token in
  if GLSLToken.eqb newTT GLSLToken.Ignored then s
  else
    let s := pushHistory newTT s in
    if GLSLToken.eqb (ttAt s 2) GLSLToken.Uniform then newUniform s token
    else if hasParam s && inParamStatement s
            && (paramValueIndex s <? 0) && contains "=" token
    then set_paramValueIndex 0 s
    else
      let s := parseDefault s token in
      if contains ";" token then set_inParamStatement false s
      else if isPassPattern s then passDefinition s
      else s.

Definition handleLexeme (s : LoadState) (x : Lexeme) : LoadState :=
  match x with
  | Comment multiLineComment comment => handleComment s multiLineComment comment
  | Token token => handleToken s token
  end.

(** The local variables at the start of [Node::load].  The arrays
    [inputs] and [outputs] are not initialised in the source and
    [m_passes] is a member that outlives the call: their contents at
    entry are arguments. *)
Definition initial (inputs0 : Z -> PassInput.t) (outputs0 : Z -> PassOutput.t)
    (passes0 : Z -> Pass) : LoadState :=
  {| newParams := []; err := []; param := Datatypes.None;
     paramDataType := GLSLToken.Other; paramValueIndex := -1;
     inParamStatement := false; currentPass := 0; passMask := 0;
     singlePass := false; inputs := inputs0; outputs := outputs0;
     texFilter := true; coordMode := CoordMapMode.Pixel;
     tt := [GLSLToken.Other; GLSLToken.Other; GLSLToken.Other; GLSLToken.Other];
     m_passes := passes0 |}.

(** "analyze the GLSL code": the tokenizer loop. *)
Definition analyze (lexemes : list Lexeme) (s : LoadState) : LoadState :=
  fold_left handleLexeme lexemes s.

(** *** Assembly of the fragment shaders *)

(** The name of the entry point that [main] calls. *)
Definition entryPoint (singlePass : bool) (currentPass : Z) : string :=
  ("run" ++ (if negb (currentPass =? 0)%Z || negb singlePass
             then "_pass" ++ dec (currentPass + 1) else EmptyString))%string.

Definition entryArgument (input : PassInput.t) : string :=
  match input with
  | PassInput.Coord => "(gips_pos)"
  | PassInput.RGB => "(color.rgb)"
  | PassInput.RGBA => "(color)"
  end.

(** "fragment shader assembly: output statement generation". *)
Definition outputStatement (singlePass : bool) (currentPass : Z)
    (input : PassInput.t) (output : PassOutput.t) : string :=
  ("  gips_frag = "
   ++ (if PassOutput.isRGB output then "vec4(" else EmptyString)
   ++ entryPoint singlePass currentPass
   ++ entryArgument input
   ++ (if PassOutput.isRGB output
       then (if PassInput.isCoord input then ", 1.0)" else ", color.a)")
       else EmptyString)
   ++ ";" ++ nl ++ "}" ++ nl)%string.

(** "fragment shader assembly: boilerplate" and "add user code". *)
Definition boilerplate (currentPass : Z) (input : PassInput.t)
    (code : string) : string :=
  ("#version 330 core" ++ nl
   ++ "#line 8000 0" ++ nl
   ++ "in vec2 gips_pos;" ++ nl
   ++ "out vec4 gips_frag;" ++ nl
   ++ "uniform sampler2D gips_tex;" ++ nl
   ++ "uniform vec2 gips_image_size;" ++ nl
   ++ (if PassInput.isCoord input
       then "uniform vec4 gips_map2tex;" ++ nl
            ++ "vec4 pixel(in vec2 pos) {" ++ nl
            ++ "  return texture(gips_tex, gips_map2tex.xy + pos * gips_map2tex.zw);" ++ nl
            ++ "}" ++ nl
       else EmptyString)
   ++ "#line 1 " ++ dec (currentPass + 1) ++ nl ++ code)%string.

(** "fragment shader assembly: main() function prologue". *)
Definition prologue (input : PassInput.t) : string :=
  (nl ++ "#line 9000 0" ++ nl
   ++ "void main() {" ++ nl
   ++ (if negb (PassInput.isCoord input)
       then "  vec4 color = texture(gips_tex, gips_pos);" ++ nl
       else EmptyString))%string.

(** All that one turn of the pass loop writes to the stream [shader]. *)
Definition passText (singlePass : bool) (currentPass : Z)
    (input : PassInput.t) (output : PassOutput.t) (code : string) : string :=
  (boilerplate currentPass input code
   ++ prologue input
   ++ outputStatement singlePass currentPass input output)%string.

(** The state of the pass loop: the variables of the analysis, the
    contents of the stream [shader], and the texts handed to
    [fs.compile], in order.  [shader.clear()] resets the error flags of
    the stream, not its contents: the text of a pass is written behind
    the texts of the passes before it. *)
Record Gen := {
  vars : LoadState;
  shader : string;
  compiled : list string
}.

Definition logged (r : GLStatus) (s : LoadState) : LoadState :=
  if haveLog r then addErr (DriverLog (getLog r)) s else s.

(** One turn of the "generate code for the passes" loop, up to the
    increment of [currentPass].  The boolean is [false] when the turn
    leaves through [goto load_finalize]. *)
Definition passBody (code : string) (g : Gen) : Gen * bool :=
  let s := vars g in
  let cp := currentPass s in
  let s1 := set_passMask (Z.land (passMask s) (Z.lnot (Z.shiftl 1 cp))) s in
  let input := inputs s1 cp in
  let output := outputs s1 cp in
  let s2 := if negb (PassInput.isCoord input)
            then set_m_passes
                   (upd (m_passes s1) cp
                      (Pass.set_coordMode CoordMapMode.None (m_passes s1 cp))) s1
            else s1 in
  let text := (shader g ++ passText (singlePass s2) cp input output code)%string in
  let fs := fs_compile text in
  let s3 := logged fs s2 in
  if negb (good fs)
  then ({| vars := s3; shader := text; compiled := compiled g ++ [text] |},
        false)
  else
    let prog := prog_link text in
    let s4 := logged prog s3 in
    ({| vars := s4; shader := text; compiled := compiled g ++ [text] |},
     good prog).

Definition passDeclared (s : LoadState) : bool :=
  (currentPass s <? MaxPasses)
  && negb (Z.land (Z.shiftr (passMask s) (currentPass s)) 1 =? 0).

(** The pass loop.  [currentPass] starts at 0 and grows by one per turn
    while it is below [MaxPasses], so [MaxPasses] turns suffice. *)
Fixpoint passLoop (fuel : nat) (code : string) (g : Gen) : Gen * bool :=
  match fuel with
  | O => (g, true)
  | S fuel' =>
      if passDeclared (vars g) then
        let (g1, ok) := passBody code g in
        if ok
        then passLoop fuel' code
               {| vars := set_currentPass (currentPass (vars g1) + 1) (vars g1);
                  shader := shader g1; compiled := compiled g1 |}
        else (g1, false)
      else (g, true)
  end.

(** What [Node::load] leaves in the node, and the texts it compiled. *)
Record Result := {
  m_passCount : Z;
  m_errors : string;
  errors : list Diag;
  m_params : list GParameter;
  passes : Z -> Pass;
  sources : list string
}.

(** [load_finalize]. *)
Definition finish (passCount : Z) (g : Gen) : Result :=
  {| m_passCount := passCount;
     m_errors := renderAll (err (vars g));
     errors := err (vars g);
     m_params := newParams (vars g);
     passes := m_passes (vars g);
     sources := compiled g |}.

(** [Node::load] from "finalize parameters" to the end. *)
Definition generate (code : string) (s : LoadState) : Result :=
  let s := set_newParams (map GParameter.finalize (newParams s)) s in
  if Z.land (passMask s) 1 =? 0
  then finish 0 {| vars := addErr NoRunFunction s;
                   shader := EmptyString; compiled := [] |}
  else
    let (g, ok) := passLoop (Z.to_nat MaxPasses) code
                     {| vars := set_currentPass 0 s;
                        shader := EmptyString; compiled := [] |} in
    if ok then
      let s' := if negb (passMask (vars g) =? 0)
                then addErr PassesMissing (vars g) else vars g in
      finish (currentPass s')
        {| vars := s'; shader := shader g; compiled := compiled g |}
    else finish 0 g.

(** The texts that this version of [Node::load] analyses.  It does not
    read the file: [code] is ["DUMMY"], or one of two texts that are
    built in when the file name is [saturation] or [ripple]. *)
Definition saturationCode : string :=
  ("uniform float saturation = 1.0;  // @min=0 @max=5"
   ++ nl ++ "uniform vec3 key = vec3(.299, .587, .114);  // grayscale downmix"
   ++ nl ++ "uniform float invert;  // invert luminance @toggle"
   ++ nl ++ "uniform float sign = 1.0;  // invert chrominance @toggle @off=1 @on=-1"
   ++ nl ++ "vec3 run(vec3 c) {"
   ++ nl ++ "  float luma = dot(c, key / (key.r + key.g + key.b));"
   ++ nl ++ "  vec3 chroma = c - vec3(luma);"
   ++ nl ++ "  if (invert > 0.5) { luma = 1.0 - luma; }"
   ++ nl ++ "  return vec3(luma) + chroma * saturation * sign;"
   ++ nl ++ "}"
   ++ nl)%string.

Definition rippleCode : string :=
  ("uniform float amplitude;  // @min=0 @max=0.2"
   ++ nl ++ "uniform float frequency = 50.0;  // @min=0 @max=200"
   ++ nl ++ "uniform float phase;  // @min=0 @max=6.28"
   ++ nl ++ "uniform vec2 center;  // @min=-2 @max=2"
   ++ nl ++ "// @coord=rel"
   ++ nl ++ "vec4 run(vec2 pos) {"
   ++ nl ++ "  vec2 tp = pos - center;"
   ++ nl ++ "  float d = length(tp);"
   ++ nl ++ "  vec2 n = tp / d;"
   ++ nl ++ "  d += amplitude * sin(frequency * d + phase);"
   ++ nl ++ "  return pixel(n * d + center);"
   ++ nl ++ "}"
   ++ nl)%string.

Definition builtinCode (filename : string) : string :=
  let code := "DUMMY" in
  let code := if (filename =? "saturation")%string
              then saturationCode else code in
  let code := if (filename =? "ripple")%string then rippleCode else code in
  code.

(** [bool Node::load(filename, vs)] on the shader text [code] whose
    lexemes are [lexemes]; the returned boolean is [0 < m_passCount].
    The source picks [code] by the file name ([builtinCode]); what it
    does with the text does not depend on where the text comes from,
    so the text and its lexemes are the arguments here. *)
Definition load (code : string) (lexemes : list Lexeme)
    (inputs0 : Z -> PassInput.t) (outputs0 : Z -> PassOutput.t)
    (passes0 : Z -> Pass) : Result :=
  generate code (analyze lexemes (initial inputs0 outputs0 passes0)).

Definition loadSucceeds (r : Result) : bool := 0 <? m_passCount r.

(** *** Executions and the static helpers

    [evalToken], and with it [handleComment], [analyze] and [load], are
    the execution that has created the helpers.  The functions below
    are any execution: with the helpers of an earlier execution the
    evaluation of a token has no result, and neither has what comes
    behind it. *)
Definition evalTokenWith (h : Helpers) (s : option LoadState) (key : string)
    (value : option string) : option LoadState :=
  match h, s with
  | OwnHelpers, Some s => Some (evalToken s key value)
  | _, _ => Datatypes.None
  end.

Definition handleCommentWith (h : Helpers) (s : LoadState)
    (multiLineComment : bool) (comment : string) : option LoadState :=
  let (prev, content) := commentContent multiLineComment comment in
  let (s1, content') :=
    extractTokens (evalTokenWith h) (Some s) prev content in
  match s1 with
  | Some s1 =>
      let desc := trimTrailingWhitespace (skipWhitespace content') in
      let s2 := match param s1 with
                | Some _ =>
                    if (desc =? EmptyString)%string then s1
                    else onParam (GParameter.set_desc desc) s1
                | Datatypes.None => s1
                end in
      Some (set_param Datatypes.None s2)
  | Datatypes.None => Datatypes.None
  end.

Definition handleLexemeWith (h : Helpers) (s : option LoadState)
    (x : Lexeme) : option LoadState :=
  match s with
  | Some s =>
      match x with
      | Comment multiLineComment comment =>
          handleCommentWith h s multiLineComment comment
      | Token token => Some (handleToken s token)
      end
  | Datatypes.None => Datatypes.None
  end.

Definition analyzeWith (h : Helpers) (lexemes : list Lexeme)
    (s : LoadState) : option LoadState :=
  fold_left (handleLexemeWith h) lexemes (Some s).

Definition loadWith (h : Helpers) (code : string) (lexemes : list Lexeme)
    (inputs0 : Z -> PassInput.t) (outputs0 : Z -> PassOutput.t)
    (passes0 : Z -> Pass) : option Result :=
  option_map (generate code)
    (analyzeWith h lexemes (initial inputs0 outputs0 passes0)).

End WithExtern.
End V2.

(* --------------------------------------------------------------------- *)
(** ** [Node::load], the older variant (rgb and rgba annotations)         *)
(* --------------------------------------------------------------------- *)

Module V1.
Section WithExtern.
Context `{Extern}.

Abbreviation GParameter := (@GParameter.t _).

Record LoadState := {
  newParams : list GParameter;
  err : list Diag;
  param : option nat;
  paramDataType : GLSLToken.t;
  paramValueIndex : Z;
  inParamStatement : bool;
  currentPass : Z;
  passMask : Z;
  singlePass : bool;
  inputs : Z -> PassInput.t;
  outputs : Z -> PassOutput.t;
  tt : list GLSLToken.t
}.

Definition set_newParams (v : list GParameter) (s : LoadState) : LoadState :=
  {| newParams := v; err := err s; param := param s;
     paramDataType := paramDataType s;
     paramValueIndex := paramValueIndex s;
     inParamStatement := inParamStatement s;
     currentPass := currentPass s; passMask := passMask s;
     singlePass := singlePass s; inputs := inputs s;
     outputs := outputs s; tt := tt s |}.

Definition set_err (v : list Diag) (s : LoadState) : LoadState :=
  {| newParams := newParams s; err := v; param := param s;
     paramDataType := paramDataType s;
     paramValueIndex := paramValueIndex s;
     inParamStatement := inParamStatement s;
     currentPass := currentPass s; passMask := passMask s;
     singlePass := singlePass s; inputs := inputs s;
     outputs := outputs s; tt := tt s |}.

Definition set_param (v : option nat) (s : LoadState) : LoadState :=
  {| newParams := newParams s; err := err s; param := v;
     paramDataType := paramDataType s;
     paramValueIndex := paramValueIndex s;
     inParamStatement := inParamStatement s;
     currentPass := currentPass s; passMask := passMask s;
     singlePass := singlePass s; inputs := inputs s;
     outputs := outputs s; tt := tt s |}.

Definition set_paramDataType (v : GLSLToken.t) (s : LoadState) : LoadState :=
  {| newParams := newParams s; err := err s; param := param s;
     paramDataType := v; paramValueIndex := paramValueIndex s;
     inParamStatement := inParamStatement s;
     currentPass := currentPass s; passMask := passMask s;
     singlePass := singlePass s; inputs := inputs s;
     outputs := outputs s; tt := tt s |}.

Definition set_paramValueIndex (v : Z) (s : LoadState) : LoadState :=
  {| newParams := newParams s; err := err s; param := param s;
     paramDataType := paramDataType s; paramValueIndex := v;
     inParamStatement := inParamStatement s;
     currentPass := currentPass s; passMask := passMask s;
     singlePass := singlePass s; inputs := inputs s;
     outputs := outputs s; tt := tt s |}.

Definition set_inParamStatement (v : bool) (s : LoadState) : LoadState :=
  {| newParams := newParams s; err := err s; param := param s;
     paramDataType := paramDataType s;
     paramValueIndex := paramValueIndex s; inParamStatement := v;
     currentPass := currentPass s; passMask := passMask s;
     singlePass := singlePass s; inputs := inputs s;
     outputs := outputs s; tt := tt s |}.

Definition set_currentPass (v : Z) (s : LoadState) : LoadState :=
  {| newParams := newParams s; err := err s; param := param s;
     paramDataType := paramDataType s;
     paramValueIndex := paramValueIndex s;
     inParamStatement := inParamStatement s; currentPass := v;
     passMask := passMask s; singlePass := singlePass s;
     inputs := inputs s; outputs := outputs s; tt := tt s |}.

Definition set_passMask (v : Z) (s : LoadState) : LoadState :=
  {| newParams := newParams s; err := err s; param := param s;
     paramDataType := paramDataType s;
     paramValueIndex := paramValueIndex s;
     inParamStatement := inParamStatement s;
     currentPass := currentPass s; passMask := v;
     singlePass := singlePass s; inputs := inputs s;
     outputs := outputs s; tt := tt s |}.

Definition set_singlePass (v : bool) (s : LoadState) : LoadState :=
  {| newParams := newParams s; err := err s; param := param s;
     paramDataType := paramDataType s;
     paramValueIndex := paramValueIndex s;
     inParamStatement := inParamStatement s;
     currentPass := currentPass s; passMask := passMask s;
     singlePass := v; inputs := inputs s; outputs := outputs s;
     tt := tt s |}.

Definition set_inputs (v : Z -> PassInput.t) (s : LoadState) : LoadState :=
  {| newParams := newParams s; err := err s; param := param s;
     paramDataType := paramDataType s;
     paramValueIndex := paramValueIndex s;
     inParamStatement := inParamStatement s;
     currentPass := currentPass s; passMask := passMask s;
     singlePass := singlePass s; inputs := v; outputs := outputs s;
     tt := tt s |}.

Definition set_outputs (v : Z -> PassOutput.t) (s : LoadState) : LoadState :=
  {| newParams := newParams s; err := err s; param := param s;
     paramDataType := paramDataType s;
     paramValueIndex := paramValueIndex s;
     inParamStatement := inParamStatement s;
     currentPass := currentPass s; passMask := passMask s;
     singlePass := singlePass s; inputs := inputs s; outputs := v;
     tt := tt s |}.

Definition set_tt (v : list GLSLToken.t) (s : LoadState) : LoadState :=
  {| newParams := newParams s; err := err s; param := param s;
     paramDataType := paramDataType s;
     paramValueIndex := paramValueIndex s;
     inParamStatement := inParamStatement s;
     currentPass := currentPass s; passMask := passMask s;
     singlePass := singlePass s; inputs := inputs s;
     outputs := outputs s; tt := v |}.

Definition addErr (d : Diag) (s : LoadState) : LoadState :=
  set_err (err s ++ [d]) s.

Definition onParam (f : GParameter -> GParameter) (s : LoadState)
  : LoadState :=
  match param s with
  | Some i => set_newParams (modify_nth i f (newParams s)) s
  | Datatypes.None => s
  end.

Definition paramName (s : LoadState) : string :=
  match param s with
  | Some i =>
      match nth_error (newParams s) i with
      | Some p => GParameter.m_name p
      | Datatypes.None => EmptyString
      end
  | Datatypes.None => EmptyString
  end.

Record KeyEval := {
  st : LoadState;
  keyMatched : bool
}.

Definition Cond := KeyEval -> bool * KeyEval.

Definition onSt (f : LoadState -> LoadState) (e : KeyEval) : KeyEval :=
  {| st := f (st e); keyMatched := keyMatched e |}.

Definition cor (a b : Cond) : Cond :=
  fun e => let (r, e') := a e in if r then (true, e') else b e'.

Definition cand (a b : Cond) : Cond :=
  fun e => let (r, e') := a e in if r then b e' else (false, e').

Definition ifC (c : Cond) (thenC elseC : KeyEval -> KeyEval)
  : KeyEval -> KeyEval :=
  fun e => let (r, e') := c e in if r then thenC e' else elseC e'.

Definition isKey (key t : string) : Cond :=
  fun e =>
    let matched := (key =? t)%string in
    (matched, {| st := st e; keyMatched := keyMatched e || matched |}).

Definition needParam (key : string) : Cond :=
  fun e =>
    match param (st e) with
    | Some _ => (true, e)
    | Datatypes.None => (false, onSt (addErr (OnlyInParamComment key)) e)
    end.

Definition needNum (key : string) (isNum : bool) : Cond :=
  fun e =>
    if isNum then (true, e)
    else (false, onSt (addErr (RequiresNumeric key)) e).

(** Here [setParamType] returns nothing and always reports. *)
Definition setParamType (key : string) (dt : GLSLToken.t)
    (pt : ParameterType.t) (s : LoadState) : LoadState :=
  if negb (GLSLToken.eqb (paramDataType s) dt)
  then addErr (IncompatibleFormat key (paramName s)) s
  else onParam (GParameter.set_type pt) s.

Definition notKeyMatched : Cond := fun e => (negb (keyMatched e), e).

Local Notation "a ||| b" := (cor a b) (at level 50, left associativity).
Local Notation "a &&& b" := (cand a b) (at level 40, left associativity).

Definition evalToken (s : LoadState) (key : string) (value : option string)
  : LoadState :=
  let fval := match value with
              | Some v => fst (strtof v) | Datatypes.None => fzero end in
  let isNum := match value with
               | Some v => snd (strtof v) | Datatypes.None => false end in
  st (ifC ((isKey key "min" ||| isKey key "off")
             &&& needParam key &&& needNum key isNum)
        (onSt (onParam (GParameter.set_minValue fval)))
     (ifC ((isKey key "max" ||| isKey key "on")
             &&& needParam key &&& needNum key isNum)
        (onSt (onParam (GParameter.set_maxValue fval)))
     (ifC (isKey key "rgb" &&& needParam key)
        (onSt (setParamType key GLSLToken.Vec3 ParameterType.RGB))
     (ifC (isKey key "rgba" &&& needParam key)
        (onSt (setParamType key GLSLToken.Vec4 ParameterType.RGBA))
     (ifC notKeyMatched
        (onSt (addErr (UnrecognizedToken key)))
        (fun e => e)))))
     {| st := s; keyMatched := false |}).

Definition handleComment (s : LoadState) (multiLineComment : bool)
    (comment : string) : LoadState :=
  let (prev, content) := commentContent multiLineComment comment in
  let (s1, content') := extractTokens evalToken s prev content in
  let desc := trimTrailingWhitespace (skipWhitespace content') in
  let s2 := match param s1 with
            | Some _ =>
                if (desc =? EmptyString)%string then s1
                else onParam (GParameter.set_desc desc) s1
            | Datatypes.None => s1
            end in
  set_param Datatypes.None s2.

Definition ttAt (s : LoadState) (i : nat) : GLSLToken.t :=
  nth i (tt s) GLSLToken.Other.

Definition pushHistory (newTT : GLSLToken.t) (s : LoadState) : LoadState :=
  set_tt [newTT; ttAt s 0; ttAt s 1; ttAt s 2] s.

Definition hasParam (s : LoadState) : bool :=
  match param s with Some _ => true | Datatypes.None => false end.

Definition isUniformType (x : GLSLToken.t) : bool :=
  GLSLToken.eqb x GLSLToken.Float
  || GLSLToken.eqb x GLSLToken.Vec3 || GLSLToken.eqb x GLSLToken.Vec4.

Definition defaultType (dt : GLSLToken.t) (p : GParameter) : GParameter :=
  match dt with
  | GLSLToken.Float => GParameter.set_type ParameterType.Value p
  | GLSLToken.Vec3 => GParameter.set_type ParameterType.RGB p
  | GLSLToken.Vec4 => GParameter.set_type ParameterType.RGBA p
  | _ => p
  end.

Definition newUniform (s : LoadState) (token : string) : LoadState :=
  if isUniformType (ttAt s 1) then
    let p := defaultType (ttAt s 1)
               (GParameter.set_name token GParameter.fresh) in
    set_inParamStatement true
      (set_paramValueIndex (-1)
         (set_paramDataType (ttAt s 1)
            (set_param (Some (List.length (newParams s)))
               (set_newParams (newParams s ++ [p]) s))))
  else
    set_inParamStatement false (addErr (UnsupportedUniform token) s).

Definition parseDefault (s : LoadState) (token : string) : LoadState :=
  if hasParam s && inParamStatement s
     && (0 <=? paramValueIndex s) && (paramValueIndex s <? 4)
  then
    let (f, whole) := strtof token in
    if whole
    then set_paramValueIndex (paramValueIndex s + 1)
           (onParam (GParameter.set_valueAt (paramValueIndex s) f) s)
    else s
  else s.

Definition isPassPattern (s : LoadState) : bool :=
  (GLSLToken.eqb (ttAt s 3) GLSLToken.Vec3
   || GLSLToken.eqb (ttAt s 3) GLSLToken.Vec4)
  && (GLSLToken.eqb (ttAt s 2) GLSLToken.RunSingle
      || GLSLToken.eqb (ttAt s 2) GLSLToken.RunPass1
      || GLSLToken.eqb (ttAt s 2) GLSLToken.RunPass2
      || GLSLToken.eqb (ttAt s 2) GLSLToken.RunPass3
      || GLSLToken.eqb (ttAt s 2) GLSLToken.RunPass4)
  && GLSLToken.eqb (ttAt s 1) GLSLToken.OpenParens
  && (GLSLToken.eqb (ttAt s 0) GLSLToken.Vec2
      || GLSLToken.eqb (ttAt s 0) GLSLToken.Vec3
      || GLSLToken.eqb (ttAt s 0) GLSLToken.Vec4).

Definition selectPass (s : LoadState) : LoadState :=
  match ttAt s 2 with
  | GLSLToken.RunSingle => set_singlePass true (set_currentPass 0 s)
  | GLSLToken.RunPass1 => set_singlePass false (set_currentPass 0 s)
  | GLSLToken.RunPass2 => set_currentPass 1 s
  | GLSLToken.RunPass3 => set_currentPass 2 s
  | GLSLToken.RunPass4 => set_currentPass 3 s
  | _ => s
  end.

(** Here the pass is entered into [passMask] last. *)
Definition passDefinition (s : LoadState) : LoadState :=
  let s1 := selectPass s in
  let cp := currentPass s1 in
  if MaxPasses <=? cp then s1
  else
    let s2 := set_inputs
                (upd (inputs s1) cp
                   (V2.inputOf (ttAt s1 0) (inputs s1 cp))) s1 in
    let s3 := set_outputs
                (upd (outputs s2) cp
                   (V2.outputOf (ttAt s2 3) (outputs s2 cp))) s2 in
    set_passMask (Z.lor (passMask s3) (Z.shiftl 1 cp)) s3.

Definition handleToken (s : LoadState) (token : string) : LoadState :=
  let newTT := lookup tokenMap token in
  if GLSLToken.eqb newTT GLSLToken.Ignored then s
  else
    let s := pushHistory newTT s in
    if GLSLToken.eqb (ttAt s 2) GLSLToken.Uniform then newUniform s token
    else if hasParam s && inParamStatement s
            && (paramValueIndex s <? 0) && contains "=" token
    then set_paramValueIndex 0 s
    else
      let s := parseDefault s token in
      if contains ";" token then set_inParamStatement false s
      else if isPassPattern s then passDefinition s
      else s.

Definition handleLexeme (s : LoadState) (x : Lexeme) : LoadState :=
  match x with
  | Comment multiLineComment comment => handleComment s multiLineComment comment
  | Token token => handleToken s token
  end.

Definition initial (inputs0 : Z -> PassInput.t) (outputs0 : Z -> PassOutput.t)
  : LoadState :=
  {| newParams := []; err := []; param := Datatypes.None;
     paramDataType := GLSLToken.Other; paramValueIndex := -1;
     inParamStatement := false; currentPass := 0; passMask := 0;
     singlePass := false; inputs := inputs0; outputs := outputs0;
     tt := [GLSLToken.Other; GLSLToken.Other; GLSLToken.Other; GLSLToken.Other] |}.

(** The tokenizer loop.  The parameters it collects are stored in the
    node as they are ([m_params = newParams]); this variant has no
    format step. *)
Definition analyze (lexemes : list Lexeme) (s : LoadState) : LoadState :=
  fold_left handleLexeme lexemes s.

(** The helpers are static in this variant as well: [evalToken],
    [handleComment] and [analyze] are the execution that has created
    them, and the functions below are any execution. *)
Definition evalTokenWith (h : Helpers) (s : option LoadState) (key : string)
    (value : option string) : option LoadState :=
  match h, s with
  | OwnHelpers, Some s => Some (evalToken s key value)
  | _, _ => Datatypes.None
  end.

Definition handleCommentWith (h : Helpers) (s : LoadState)
    (multiLineComment : bool) (comment : string) : option LoadState :=
  let (prev, content) := commentContent multiLineComment comment in
  let (s1, content') :=
    extractTokens (evalTokenWith h) (Some s) prev content in
  match s1 with
  | Some s1 =>
      let desc := trimTrailingWhitespace (skipWhitespace content') in
      let s2 := match param s1 with
                | Some _ =>
                    if (desc =? EmptyString)%string then s1
                    else onParam (GParameter.set_desc desc) s1
                | Datatypes.None => s1
                end in
      Some (set_param Datatypes.None s2)
  | Datatypes.None => Datatypes.None
  end.

Definition handleLexemeWith (h : Helpers) (s : option LoadState)
    (x : Lexeme) : option LoadState :=
  match s with
  | Some s =>
      match x with
      | Comment multiLineComment comment =>
          handleCommentWith h s multiLineComment comment
      | Token token => Some (handleToken s token)
      end
  | Datatypes.None => Datatypes.None
  end.

Definition analyzeWith (h : Helpers) (lexemes : list Lexeme)
    (s : LoadState) : option LoadState :=
  fold_left (handleLexemeWith h) lexemes (Some s).

End WithExtern.
End V1.

(* --------------------------------------------------------------------- *)
(** ** A concrete C library and driver for examples                       *)
(* --------------------------------------------------------------------- *)

(** Numbers are integers written in decimal digits; [testStrtof] reads
    the leading digits and tells whether nothing is left. *)
Fixpoint leadingDigits (acc : Z) (s : string) : Z * string :=
  match s with
  | String c r =>
      if isdigit c
      then leadingDigits (10 * acc + (Z.of_nat (nat_of_ascii c) - 48)) r
      else (acc, s)
  | EmptyString => (acc, EmptyString)
  end.

Definition testStrtof (s : string) : Z * bool :=
  let (v, r) := leadingDigits 0 s in (v, (r =? EmptyString)%string).

(** A driver that accepts every shader without a log. *)
Definition accepted : GLStatus :=
  {| good := true; haveLog := false; getLog := EmptyString |}.

Definition testExtern : Extern := {|
  float := Z;
  fzero := 0;
  fone := 1;
  strtof := testStrtof;
  autoFormat := fun _ _ => "%.2f";
  fs_compile := fun _ => accepted;
  prog_link := fun _ => accepted
|}.

(** Contents of the arrays at entry, for examples. *)
Definition inputs0 : Z -> PassInput.t := fun _ => PassInput.RGBA.
Definition outputs0 : Z -> PassOutput.t := fun _ => PassOutput.RGBA.
Definition passes0 : Z -> Pass.t :=
  fun _ => {| Pass.texFilter := true; Pass.coordMode := CoordMapMode.None |}.

(** The lexemes of [uniform vec3 c = vec3(1,0,0);]. *)
Definition uniformVec3 : list Lexeme :=
  [Token "uniform"; Token "vec3"; Token "c"; Token "=";
   Token "vec3"; Token "("; Token "1"; Token ","; Token "0"; Token ",";
   Token "0"; Token ");"].

(** The text [<out> <name>(<in> x){ return <out>(0); }] and its lexemes. *)
Definition passCode (out name inp : string) : string :=
  (out ++ " " ++ name ++ "(" ++ inp ++ " x){ return " ++ out ++ "(0); }"
   ++ nl)%string.

Definition passDecl (out name inp : string) : list Lexeme :=
  [Token out; Token name; Token "("; Token inp; Token "x"; Token "){";
   Token "return"; Token out; Token "("; Token "0"; Token ");"; Token "}"].

(** The text of [uniformVec3]. *)
Definition uniformVec3Code : string :=
  ("uniform vec3 c = vec3(1,0,0);" ++ nl)%string.

(** [vec4 run(vec2 x){ ... }] with no comment at all. *)
Definition coordShader : list Lexeme := passDecl "vec4" "run" "vec2".

(** [run_pass1] to [run_pass3] and no [run_pass4]. *)
Definition threePasses : list Lexeme :=
  passDecl "vec4" "run_pass1" "vec4" ++ passDecl "vec4" "run_pass2" "vec4"
  ++ passDecl "vec4" "run_pass3" "vec4".

Definition threePassesCode : string :=
  (passCode "vec4" "run_pass1" "vec4" ++ passCode "vec4" "run_pass2" "vec4"
   ++ passCode "vec4" "run_pass3" "vec4")%string.

(** [run_pass1] and [run_pass3], [run_pass2] missing. *)
Definition gapAtTwo : list Lexeme :=
  passDecl "vec4" "run_pass1" "vec4" ++ passDecl "vec4" "run_pass3" "vec4".

Definition gapAtTwoCode : string :=
  (passCode "vec4" "run_pass1" "vec4"
   ++ passCode "vec4" "run_pass3" "vec4")%string.

(** The state of the richer variant right behind [uniform float x;]. *)
Definition afterFloatUniform : @V2.LoadState testExtern :=
  @V2.analyze testExtern
    [Token "uniform"; Token "float"; Token "x"; Token ";"]
    (@V2.initial testExtern inputs0 outputs0 passes0).

(** The state of the richer variant at the start of a file. *)
Definition atStart : @V2.LoadState testExtern :=
  @V2.initial testExtern inputs0 outputs0 passes0.

(** The annotation keys of the key table of the specification. *)
Definition documentedKeys : list string :=
  ["min"; "max"; "off"; "on"; "color"; "rgb"; "rgba"; "toggle"; "switch";
   "unit"; "coord"; "coords"; "map"; "filter"; "filt";
   "version"; "gips_version"].

(* --------------------------------------------------------------------- *)
(** ** Declared passes, in the words of the specification                 *)
(* --------------------------------------------------------------------- *)

(** Pass [k] (counted from 0) was declared: its bit is set in the mask. *)
Definition declared (mask k : Z) : bool := Z.testbit mask k.

(** "the length of the contiguous prefix of declared passes starting at
    pass 0". *)
Fixpoint prefixFrom (n : nat) (mask k : Z) : Z :=
  match n with
  | O => k
  | S n' => if declared mask k then prefixFrom n' mask (k + 1) else k
  end.

Definition contiguousPrefix (mask : Z) : Z :=
  prefixFrom (Z.to_nat MaxPasses) mask 0.

(** Some pass behind the contiguous prefix was declared. *)
Definition declaredBehindGap (mask : Z) : bool :=
  existsb (fun k => declared mask k && (contiguousPrefix mask <? k))
    [0; 1; 2; 3].

(** The pass index and the mask at the exit of the pass loop when every
    pass is accepted by the driver. *)
Fixpoint loopEnd (fuel : nat) (mask k : Z) : Z * Z :=
  match fuel with
  | O => (mask, k)
  | S fuel' =>
      if (k <? MaxPasses) && negb (Z.land (Z.shiftr mask k) 1 =? 0)
      then loopEnd fuel' (Z.land mask (Z.lnot (Z.shiftl 1 k))) (k + 1)
      else (mask, k)
  end.

(** The keys of the richer variant, and those of the older one. *)
Definition parameterKeys : list string :=
  ["min"; "max"; "off"; "on"; "unit"; "toggle"; "switch"; "color"].

Definition recognizedKeys : list string :=
  parameterKeys ++ ["coord"; "coords"; "map"; "filter"; "filt"].

Definition olderKeys : list string :=
  ["min"; "max"; "off"; "on"; "rgb"; "rgba"].

(** The types of uniforms that become parameters, in the richer
    variant: the name of the type, its token and the type of the
    parameter that its number of components implies. *)
Definition arityTypes : list (string * (GLSLToken.t * ParameterType.t)) :=
  [("float", (GLSLToken.Float, ParameterType.Value));
   ("vec2", (GLSLToken.Vec2, ParameterType.Value2));
   ("vec3", (GLSLToken.Vec3, ParameterType.Value3));
   ("vec4", (GLSLToken.Vec4, ParameterType.Value4))].

(** A key that asks for a type which the data type [dt] does not
    allow: [toggle] and [switch] are for [float], [color] is for [vec3]
    and [vec4]. *)
Definition incompatibleKey (key : string) (dt : GLSLToken.t) : Prop :=
  ((key = "toggle" \/ key = "switch") /\ dt <> GLSLToken.Float)
  \/ (key = "color" /\ dt <> GLSLToken.Vec3 /\ dt <> GLSLToken.Vec4).

(** The types of uniforms that become parameters, in the older variant:
    the token of the type and the type of the parameter. *)
Definition olderTypes : list (GLSLToken.t * ParameterType.t) :=
  [(GLSLToken.Float, ParameterType.Value);
   (GLSLToken.Vec3, ParameterType.RGB);
   (GLSLToken.Vec4, ParameterType.RGBA)].

(** The key [key] is the colour key for the data type [dt]: [rgb] for
    [vec3], [rgba] for [vec4]. *)
Definition colourKeyFits (key : string) (dt : GLSLToken.t) : bool :=
  ((key =? "rgb")%string && GLSLToken.eqb dt GLSLToken.Vec3)
  || ((key =? "rgba")%string && GLSLToken.eqb dt GLSLToken.Vec4).

(** Two states of the loader that differ in the diagnostics only, and
    two such states of the pass loop. *)
Definition sameVars `{Extern} (s s' : V2.LoadState) : Prop :=
  V2.set_err [] s = V2.set_err [] s'.

Definition sameButErr `{Extern} (g g' : V2.Gen) : Prop :=
  sameVars (V2.vars g) (V2.vars g')
  /\ V2.shader g = V2.shader g'
  /\ V2.compiled g = V2.compiled g'.

(** Diagnostics that are logs of the driver. *)
Definition onlyLogs (ds : list Diag) : Prop :=
  forall d, In d ds -> exists log, d = DriverLog log.

(* --------------------------------------------------------------------- *)
(** ** Files handed to the application (src/gips_app.cpp)                 *)
(* --------------------------------------------------------------------- *)

(** The extension codes of string_util, which is not among the source
    files: [makeExtCode ext] is the code of the extension [ext], and
    [extractExtCode filename] the code of the extension of a file
    name. *)
Class ExtCodes := {
  makeExtCode : string -> Z;
  extractExtCode : string -> Z
}.

Module AppFiles.
Section WithNode.
Context {Node : Type} `{AppExtern Node} `{ExtCodes}.

(** [bool App::isShaderFile(uint32_t extCode)]. *)
Definition isShaderFile (extCode : Z) : bool :=
  (extCode =? makeExtCode "glsl")
  || (extCode =? makeExtCode "frag")
  || (extCode =? makeExtCode "gips").

(** [bool App::isImageFile(uint32_t extCode)]. *)
Definition isImageFile (extCode : Z) : bool :=
  (extCode =? makeExtCode "jpg")
  || (extCode =? makeExtCode "jpeg")
  || (extCode =? makeExtCode "jpe")
  || (extCode =? makeExtCode "png")
  || (extCode =? makeExtCode "tga")
  || (extCode =? makeExtCode "bmp")
  || (extCode =? makeExtCode "psd")
  || (extCode =? makeExtCode "gif")
  || (extCode =? makeExtCode "pgm")
  || (extCode =? makeExtCode "ppm")
  || (extCode =? makeExtCode "pnm").

(** [bool App::isSaveImageFile(uint32_t extCode)]. *)
Definition isSaveImageFile (extCode : Z) : bool :=
  (extCode =? makeExtCode "jpg")
  || (extCode =? makeExtCode "jpeg")
  || (extCode =? makeExtCode "jpe")
  || (extCode =? makeExtCode "png")
  || (extCode =? makeExtCode "tga")
  || (extCode =? makeExtCode "bmp").

(** The image writers of [App::saveResult]. *)
Inductive Writer := Jpg | Png | Tga | Bmp | NoWriter.

(** The [switch] of [App::saveResult] on the extension code of the file
    name: the writer that is called, [NoWriter] for the default branch
    ("unrecognized output file format"). *)
Definition saveWriter (extCode : Z) : Writer :=
  if (extCode =? makeExtCode "jpg")
     || (extCode =? makeExtCode "jpeg")
     || (extCode =? makeExtCode "jpe")
  then Jpg
  else if extCode =? makeExtCode "png" then Png
  else if extCode =? makeExtCode "tga" then Tga
  else if extCode =? makeExtCode "bmp" then Bmp
  else NoWriter.

(** Which branch [handleInputFile] took, with the result of the call it
    made; [Unrecognized] stands for
    [setError("can't open file: unrecognized file type")]. *)
Inductive Outcome :=
| ShaderFile (added : bool)
| ImageFile (loaded : bool)
| Unrecognized.

(** [void App::handleInputFile(const char* filename)]: a file given on
    the command line or dropped on the window.  A shader is inserted
    behind the stage that is shown ([m_showIndex] is the 0-based place
    of the new node) and the show index moves on to it; an image is
    loaded ([loadImage] ends in [uploadImageTexture], which marks the
    pipeline as changed when the upload succeeds). *)
Definition handleInputFile (a : App.t Node) (filename : string)
  : App.t Node * Outcome :=
  let extCode := extractExtCode filename in
  if isShaderFile extCode then
    let '(p', ok) :=
      Pipeline.addNode (App.m_pipeline a) filename (App.m_showIndex a) in
    let a1 := App.withPipeline a p' in
    (if ok then App.withShowIndex a1 (App.m_showIndex a + 1) else a1,
     ShaderFile ok)
  else if isImageFile extCode then
    let ok := loadImage filename in
    (if ok
     then App.withPipeline a (Pipeline.markAsChanged (App.m_pipeline a))
     else a,
     ImageFile ok)
  else (a, Unrecognized).

(** The loop of [App::run] over the files of the command line:
    [for (int i = 1; i < argc; ++i) { handleInputFile(argv[i]); }]. *)
Definition handleInputFiles (a : App.t Node) (files : list string)
  : App.t Node :=
  fold_left (fun a filename => fst (handleInputFile a filename)) files a.

(** "process pipeline changes" and "request to save?" of [App::run]:
    [handlePCR()], and then [saveResult(m_pcr.path.c_str())] when the
    request is still a request to save.  The result is the writer that
    the [switch] of [saveResult] selects for the path, for a save that
    gets as far as the switch. *)
Definition saveAfterPCR (a : App.t Node) : option Writer :=
  let a' := fst (App.handlePCR a) in
  match PipelineChangeRequest.type (App.m_pcr a') with
  | PipelineChangeRequest.SaveResult =>
      Some (saveWriter
              (extractExtCode (PipelineChangeRequest.path (App.m_pcr a'))))
  | _ => Datatypes.None
  end.

End WithNode.
End AppFiles.

(* --------------------------------------------------------------------- *)
(** ** The context menu of a node (src/gips_ui.cpp)                       *)
(* --------------------------------------------------------------------- *)

Module UI.
Section WithNode.
Context {Node : Type} `{AppExtern Node}.

(** The entries of the context menu of a node that file a request for
    the node itself. *)
Inductive MenuItem :=
| MoveUp
| MoveDown
| Reload
| Remove.

(** The request that [TreeNodeForGIPSNode] files for the node at
    [nodeIndex] when the entry [item] of its context menu is selected.
    "move up" is only offered behind the first node and "move down" only
    in front of the last one. *)
Definition contextMenu (a : App.t Node) (nodeIndex : Z) (item : MenuItem)
  : App.t Node :=
  match item with
  | MoveUp =>
      if 1 <? nodeIndex
      then App.request a PipelineChangeRequest.MoveNode
             nodeIndex (nodeIndex - 1) EmptyString
      else a
  | MoveDown =>
      if nodeIndex <? Pipeline.nodeCount (App.m_pipeline a)
      then App.request a PipelineChangeRequest.MoveNode
             nodeIndex (nodeIndex + 1) EmptyString
      else a
  | Reload =>
      App.request a PipelineChangeRequest.ReloadNode nodeIndex 0 EmptyString
  | Remove =>
      App.request a PipelineChangeRequest.RemoveNode nodeIndex 0 EmptyString
  end.

End WithNode.
End UI.

(* --------------------------------------------------------------------- *)
(** ** The image on the screen (src/gips_app.cpp)                         *)
(* --------------------------------------------------------------------- *)

(** [int] arithmetic: the value that an [int] takes for the mathematical
    result [z] of an operation is the 32-bit two's complement value
    congruent to [z].  An overflow is formally undefined in C++; the
    theorems below are stated for the ranges [is_int] in which none
    occurs, where [int32] is the identity. *)
Definition int32 (z : Z) : Z :=
  (z + 2147483648) mod 4294967296 - 2147483648.

Definition is_int (z : Z) : Prop := -2147483648 <= z <= 2147483647.

Module View.

(** The lambda [sanitizePos] of [App::updateImageGeometry], from its two
    local sizes on: [dispSize] is [int(dispSizef)] and [imgSize] is
    [int(float(imgSizeUnscaled) * m_imgZoom + 0.5f)]. *)
Definition sanitizePos (pos dispSize imgSize : Z) : Z :=
  if imgSize <? dispSize
  then Z.quot (int32 (dispSize - imgSize)) 2
  else Z.max (Z.min pos 0) (int32 (dispSize - imgSize)).

(** The members of [App] that panning reads and writes. *)
Record t := {
  m_imgX0 : Z;
  m_imgY0 : Z;
  m_panRefX : Z;
  m_panRefY : Z;
  m_panning : bool
}.

(** [void App::panStart(int x, int y)]. *)
Definition panStart (v : t) (x y : Z) : t :=
  {| m_imgX0 := m_imgX0 v; m_imgY0 := m_imgY0 v;
     m_panRefX := int32 (m_imgX0 v - x);
     m_panRefY := int32 (m_imgY0 v - y);
     m_panning := true |}.

(** [void App::panUpdate(int x, int y)]. *)
Definition panUpdate (v : t) (x y : Z) : t :=
  {| m_imgX0 := int32 (m_panRefX v + x);
     m_imgY0 := int32 (m_panRefY v + y);
     m_panRefX := m_panRefX v; m_panRefY := m_panRefY v;
     m_panning := m_panning v |}.

(** A run of mouse positions handed to [panUpdate] one after the
    other. *)
Definition panUpdates (v : t) (positions : list (Z * Z)) : t :=
  fold_left (fun v p => panUpdate v (fst p) (snd p)) positions v.

End View.

(* --------------------------------------------------------------------- *)
(** ** Loading the input image (src/gips_app.cpp)                         *)
(* --------------------------------------------------------------------- *)

(** The image library and the allocator, as [App::loadImage] uses them:
    [stbi_load filename] is the size of the decoded image ([None] for a
    null result), [malloc size] tells whether the allocation succeeds,
    and [stbir_resize_uint8 w h w' h'] whether resizing from [w] x [h]
    to [w'] x [h'] does. *)
Class ImageLibrary := {
  stbi_load : string -> option (Z * Z);
  malloc : Z -> bool;
  stbir_resize_uint8 : Z -> Z -> Z -> Z -> bool
}.

Module AppImage.
Section WithLibrary.
Context `{ImageLibrary}.

(** The members of [App] that [loadImage] reads. *)
Record Settings := {
  m_imgResize : bool;
  m_targetImgWidth : Z;
  m_targetImgHeight : Z;
  m_imgMaxSize : Z
}.

(** How [loadImage] returns: without a file name (the stored name is
    cleared and the result is [false]), through [setError] with a
    message, or with the result of [uploadImageTexture] for an image of
    the given size. *)
Inductive Outcome :=
| NoFilename
| Error (message : string)
| Upload (width height : Z).

(** "downscaling": the size to which an image that is too large is
    resized, in [int] arithmetic with the truncating division of C. *)
Definition scaledSize (rawWidth rawHeight targetWidth targetHeight : Z)
  : Z * Z :=
  let scaledWidth := targetWidth in
  let scaledHeight :=
    Z.quot (int32 (int32 (rawHeight * scaledWidth) + Z.quot rawWidth 2))
           rawWidth in
  if targetHeight <? scaledHeight then
    let scaledHeight := targetHeight in
    let scaledWidth :=
      Z.quot (int32 (int32 (rawWidth * scaledHeight) + Z.quot rawHeight 2))
             rawHeight in
    (scaledWidth, scaledHeight)
  else (scaledWidth, scaledHeight).

(** [bool App::loadImage(const char* filename)]; the empty string also
    stands for the null pointer. *)
Definition loadImage (cfg : Settings) (filename : string) : Outcome :=
  if (filename =? EmptyString)%string then NoFilename
  else
    match stbi_load filename with
    | None => Error "could not read image file"
    | Some (rawWidth, rawHeight) =>
        let targetWidth :=
          if m_imgResize cfg then m_targetImgWidth cfg else m_imgMaxSize cfg in
        let targetHeight :=
          if m_imgResize cfg then m_targetImgHeight cfg else m_imgMaxSize cfg in
        if (rawWidth <=? targetWidth) && (rawHeight <=? targetHeight)
        then Upload rawWidth rawHeight
        else
          let '(scaledWidth, scaledHeight) :=
            scaledSize rawWidth rawHeight targetWidth targetHeight in
          if negb (malloc (int32 (int32 (scaledWidth * scaledHeight) * 4)))
          then Error "out of memory"
          else if negb (stbir_resize_uint8 rawWidth rawHeight
                          scaledWidth scaledHeight)
          then Error "could not downscale image"
          else Upload scaledWidth scaledHeight
    end.

(** [p[i] = v] where the buffer has an element [i]; a write outside of
    the buffer has no defined result. *)
Definition poke (i : nat) (v : Z) (data : list Z) : option (list Z) :=
  if (i <? List.length data)%nat
  then Some (modify_nth i (fun _ => v) data)
  else None.

(** The loop of [loadPattern] that makes a pattern opaque:
    [for (i = n; i; --i) { *p = 0xFF; p += 4; }] with [p] at the
    offset [offset] of [data]. *)
Fixpoint forceAlpha (i : nat) (offset : nat) (data : list Z)
  : option (list Z) :=
  match i with
  | O => Some data
  | S i' =>
      match poke offset 255 data with
      | Some data' => forceAlpha i' (offset + 4) data'
      | None => None
      end
  end.

(** The alpha fix-up of [loadPattern] on the rendered pattern: the
    pointer starts at [&data[3]] and the count is
    [m_targetImgWidth * m_targetImgHeight]. *)
Definition opaquePattern (width height : Z) (data : list Z)
  : option (list Z) :=
  forceAlpha (Z.to_nat (int32 (width * height))) 3 data.

End WithLibrary.
End AppImage.

(* --------------------------------------------------------------------- *)
(** ** The built-in test image of the first version of the application   *)
(* --------------------------------------------------------------------- *)

Module DummyImage.

(** [uint8_t(v)] for an [int] [v]. *)
Definition uint8_t (v : Z) : Z := v mod 256.

(** The four bytes written through [p] for the pixel [x] of the row
    [y]. *)
Definition pixel (x y : Z) : list Z :=
  [uint8_t x; uint8_t y; uint8_t (Z.lxor x y); 255].

(** The inner loop of "create dummy image" in the older
    [App::loadImage]: the bytes written for [turns] pixels of the row
    [y], from the pixel [x] on. *)
Fixpoint row (turns : nat) (x y : Z) : list Z :=
  match turns with
  | O => []
  | S turns' => pixel x y ++ row turns' (x + 1) y
  end.

(** The outer loop: [turns] rows of [w] pixels from the row [y] on. *)
Fixpoint rows (turns : nat) (w y : Z) : list Z :=
  match turns with
  | O => []
  | S turns' => row (Z.to_nat w) 0 y ++ rows turns' w (y + 1)
  end.

(** The bytes that the two loops write, in order, from the start of the
    buffer of [w * h * 4] bytes; a loop [for (i = 0; i < n; ++i)] makes
    [n] turns, and none when [n] is not positive. *)
Definition image (w h : Z) : list Z := rows (Z.to_nat h) w 0.

(** The size of the buffer: [malloc(w * h * 4)]. *)
Definition bufferSize (w h : Z) : Z := int32 (int32 (w * h) * 4).

End DummyImage.

(* --------------------------------------------------------------------- *)
(** ** File fingerprints (file_util.h)                                    *)
(* --------------------------------------------------------------------- *)

Module FileFingerprint.

(** [class FileFingerprint]: the size and the modification time of a
    file, both [uint64_t] and both 0 until [update] has seen the
    file. *)
Record t := {
  m_size : Z;
  m_mtime : Z
}.

(** [FileFingerprint()]. *)
Definition empty : t := {| m_size := 0; m_mtime := 0 |}.

(** [bool good() const]. *)
Definition good (f : t) : bool :=
  negb (m_size f =? 0) || negb (m_mtime f =? 0).

(** [bool operator== (const FileFingerprint& other) const]. *)
Definition eqb (f other : t) : bool :=
  negb (m_size f =? 0) && negb (m_mtime f =? 0)
  && (m_size f =? m_size other) && (m_mtime f =? m_mtime other).

End FileFingerprint.

(* --------------------------------------------------------------------- *)
(** ** Where the comment loop finds a token                               *)
(* --------------------------------------------------------------------- *)

(** Whether the text [s], with the character [prev] in front of it,
    holds an [@] that starts a token: one whose preceding character is
    not alphanumeric. *)
Fixpoint tokenStart (prev : ascii) (s : string) : bool :=
  match s with
  | EmptyString => false
  | String c r => ((c =? "@")%char && negb (isalnum prev)) || tokenStart c r
  end.

(** The last character of the text [s] with [prev] in front of it. *)
Fixpoint lastChar (prev : ascii) (s : string) : ascii :=
  match s with
  | EmptyString => prev
  | String c r => lastChar c r
  end.

(* --------------------------------------------------------------------- *)
(** ** The contents of the stream [shader]                                *)
(* --------------------------------------------------------------------- *)

(** What the stream [shader] holds after the turns for the passes 0 to
    [n - 1] of the pass loop, for the variables [s] of the analysis: the
    texts of these passes one behind the other. *)
Fixpoint shaderAfter `{Extern} (s : V2.LoadState) (code : string) (n : nat)
  : string :=
  match n with
  | O => EmptyString
  | S n' =>
      (shaderAfter s code n'
       ++ V2.passText (V2.singlePass s) (Z.of_nat n')
            (V2.inputs s (Z.of_nat n')) (V2.outputs s (Z.of_nat n')) code)%string
  end.

(** The driver accepts the text [src]: it compiles and links. *)
Definition driverAccepts `{Extern} (src : string) : Prop :=
  good (fs_compile src) = true /\ good (prog_link src) = true.

(** The names of the entry points of the first pass. *)
Definition firstPassNames : list string := ["run"; "run_pass1"].

(** The lexemes without the tokens [in]. *)
Definition isInToken (x : Lexeme) : bool :=
  match x with
  | Token token => (token =? "in")%string
  | Comment _ _ => false
  end.

Definition withoutIn (lexemes : list Lexeme) : list Lexeme :=
  filter (fun x => negb (isInToken x)) lexemes.

(** The text [s] with every upper-case letter replaced by its
    lower-case letter. *)
Fixpoint lower (s : string) : string :=
  match s with
  | EmptyString => EmptyString
  | String c r => String (tolower c) (lower r)
  end.

(* --------------------------------------------------------------------- *)
(** ** The signature of an entry point                                    *)
(* --------------------------------------------------------------------- *)

(** The names of the entry points with the index of their pass, and the
    types of the argument and of the result of an entry point with what
    they stand for. *)
Definition passEntryPoints : list (string * Z) :=
  [("run", 0); ("run_pass1", 0); ("run_pass2", 1); ("run_pass3", 2);
   ("run_pass4", 3)].

Definition passInputTypes : list (string * PassInput.t) :=
  [("vec2", PassInput.Coord); ("vec3", PassInput.RGB);
   ("vec4", PassInput.RGBA)].

Definition passOutputTypes : list (string * PassOutput.t) :=
  [("vec3", PassOutput.RGB); ("vec4", PassOutput.RGBA)].

(* --------------------------------------------------------------------- *)
(** ** The numbers of a default value                                     *)
(* --------------------------------------------------------------------- *)

(** The numbers among the tokens: the values of the tokens that
    [strtof] reads up to their end, in the order of the tokens. *)
Definition numbersOf `{Extern} (tokens : list string) : list float :=
  flat_map (fun token => let (f, whole) := strtof token in
                         if whole then [f] else []) tokens.

(* --------------------------------------------------------------------- *)
(** ** Further concrete instances for examples                            *)
(* --------------------------------------------------------------------- *)

(** Extension codes for examples: the characters of the extension as
    the digits of a number, and the extension of a file name as the
    text behind its last dot. *)
Fixpoint testExtCode (acc : Z) (ext : string) : Z :=
  match ext with
  | EmptyString => acc
  | String c r => testExtCode (acc * 256 + Z.of_nat (nat_of_ascii c)) r
  end.

Fixpoint afterLastDot (s : string) : string :=
  match s with
  | EmptyString => EmptyString
  | String c r =>
      if contains "." r then afterLastDot r
      else if (c =? ".")%char then r else EmptyString
  end.

Definition testExtCodes : ExtCodes := {|
  makeExtCode := testExtCode 0;
  extractExtCode := fun filename => testExtCode 0 (afterLastDot filename)
|}.

(** An application for examples whose check of a save path is the check
    of its extension code. *)
Definition savingAppExtern : AppExtern string := {|
  loadNode := fun filename => Some filename;
  reloadNode := fun node => node;
  updateImage := true;
  loadImage := fun _ => true;
  isSaveImageFile := fun path =>
    @AppFiles.isSaveImageFile testExtCodes (@extractExtCode testExtCodes path)
|}.

(** An image library for examples: every file holds an image of 3000 x
    2000 pixels, and no allocation fails. *)
Definition testImageLibrary : ImageLibrary := {|
  stbi_load := fun _ => Some (3000, 2000);
  malloc := fun _ => true;
  stbir_resize_uint8 := fun _ _ _ _ => true
|}.

(** Settings for examples: resizing to 1024 x 1024 is on. *)
Definition testSettings : AppImage.Settings := {|
  AppImage.m_imgResize := true;
  AppImage.m_targetImgWidth := 1024;
  AppImage.m_targetImgHeight := 1024;
  AppImage.m_imgMaxSize := 16384
|}.

(** The view at the origin, not panning. *)
Definition testView : View.t := {|
  View.m_imgX0 := 0; View.m_imgY0 := 0;
  View.m_panRefX := 0; View.m_panRefY := 0;
  View.m_panning := false
|}.

(** A text without a pass: a helper function only. *)
Definition helperOnly : list Lexeme :=
  [Token "float"; Token "sq"; Token "("; Token "float"; Token "x";
   Token "){"; Token "return"; Token "x"; Token "*"; Token "x;"; Token "}"].

(** The state of the older variant right behind [uniform vec3 key]. *)
Definition olderAfterVec3 : @V1.LoadState testExtern :=
  @V1.analyze testExtern
    [Token "uniform"; Token "vec3"; Token "key"]
    (@V1.initial testExtern inputs0 outputs0).

(* --------------------------------------------------------------------- *)
(** ** Texts without a coordinate annotation                              *)
(* --------------------------------------------------------------------- *)

(** The text [pat] occurs in the text [text]. *)
Fixpoint occurs (pat text : string) : bool :=
  String.prefix pat text
  || match text with
     | EmptyString => false
     | String _ r => occurs pat r
     end.

(** A tokenizer for examples: the lexemes of the built-in text
    [saturation], split at white space and around parentheses and
    semicolons, and no lexeme for any other text. *)
Definition saturationLexemes : list Lexeme :=
  [Token "uniform"; Token "float"; Token "saturation"; Token "=";
   Token "1.0"; Token ";"; Comment false "// @min=0 @max=5";
   Token "uniform"; Token "vec3"; Token "key"; Token "="; Token "vec3";
   Token "("; Token ".299"; Token ","; Token ".587"; Token ",";
   Token ".114"; Token ")"; Token ";"; Comment false "// grayscale downmix";
   Token "uniform"; Token "float"; Token "invert"; Token ";";
   Comment false "// invert luminance @toggle";
   Token "uniform"; Token "float"; Token "sign"; Token "="; Token "1.0";
   Token ";"; Comment false "// invert chrominance @toggle @off=1 @on=-1";
   Token "vec3"; Token "run"; Token "("; Token "vec3"; Token "c";
   Token ")"; Token "{";
   Token "float"; Token "luma"; Token "="; Token "dot"; Token "(";
   Token "c"; Token ","; Token "key"; Token "/"; Token "(";
   Token "key.r"; Token "+"; Token "key.g"; Token "+"; Token "key.b";
   Token ")"; Token ")"; Token ";";
   Token "vec3"; Token "chroma"; Token "="; Token "c"; Token "-";
   Token "vec3"; Token "("; Token "luma"; Token ")"; Token ";";
   Token "if"; Token "("; Token "invert"; Token ">"; Token "0.5";
   Token ")"; Token "{"; Token "luma"; Token "="; Token "1.0";
   Token "-"; Token "luma"; Token ";"; Token "}";
   Token "return"; Token "vec3"; Token "("; Token "luma"; Token ")";
   Token "+"; Token "chroma"; Token "*"; Token "saturation"; Token "*";
   Token "sign"; Token ";"; Token "}"].

Definition testTokenize (code : string) : list Lexeme :=
  if (code =? V2.saturationCode)%string then saturationLexemes else [].

(* --------------------------------------------------------------------- *)
(** ** Proof automation                                                   *)
(* --------------------------------------------------------------------- *)

(** Case analysis on which of the literal keys an annotation key is. *)
Ltac key_cases key :=
  repeat match goal with
  | |- context [(key =? ?k)%string] =>
      let E := fresh "E" in
      destruct (String.eqb_spec key k) as [E | E]; [subst key; cbn | ]
  end.

(** Unfold the conditions of the key chain down to the state. *)
Ltac unfold_conditions :=
  cbv [V2.ifC V2.cand V2.cor V2.isKey V2.needParam V2.needValue V2.needNum
       V2.notKeyMatched V2.setParamType V2.onSt V2.st V2.keyMatched
       V1.ifC V1.cand V1.cor V1.isKey V1.needParam V1.needNum
       V1.notKeyMatched V1.onSt V1.st V1.keyMatched].

(** Rewrite with the facts about [strtof] among the hypotheses. *)
Ltac use_strtof_facts :=
  repeat match goal with
         | E : strtof _ = _ |- _ => rewrite E
         end.

(** Evaluate the innermost call of the token handler to the state that
    it returns. *)
Ltac eval_innermost_token :=
  match goal with
  | |- context [V2.handleLexeme ?s (Token ?t)] =>
      lazymatch s with
      | context [V2.handleLexeme] => fail
      | _ =>
          let Hx := fresh "Hx" in
          eassert (Hx : V2.handleLexeme s (Token t) = _);
          [ unfold V2.handleLexeme, V2.handleToken, V2.parseDefault;
            cbv beta zeta; use_strtof_facts;
            lazy -[strtof fzero fone autoFormat]; reflexivity
          | rewrite Hx; clear Hx ]
      end
  | |- context [V1.handleLexeme ?s (Token ?t)] =>
      lazymatch s with
      | context [V1.handleLexeme] => fail
      | _ =>
          let Hx := fresh "Hx" in
          eassert (Hx : V1.handleLexeme s (Token t) = _);
          [ unfold V1.handleLexeme, V1.handleToken, V1.parseDefault;
            cbv beta zeta; use_strtof_facts;
            lazy -[strtof fzero fone autoFormat]; reflexivity
          | rewrite Hx; clear Hx ]
      end
  end.

(* ===================================================================== *)
(** * Part II: lemmas and theorems                                        *)
(* ===================================================================== *)

(* --------------------------------------------------------------------- *)
(** ** Vectors                                                            *)
(* --------------------------------------------------------------------- *)

Section Vectors.
Context {A : Type}.
Implicit Types (l : list A) (i k : nat).

Lemma length_insert_at i x l :
  List.length (insert_at i x l) = S (List.length l).
Proof.
  unfold insert_at. rewrite length_app. cbn [List.length].
  rewrite length_firstn, length_skipn. lia.
Qed.

Lemma length_remove_at i l :
  (i < List.length l)%nat ->
  List.length (remove_at i l) = pred (List.length l).
Proof.
  intros Hi. unfold remove_at.
  rewrite length_app, length_firstn, length_skipn. lia.
Qed.

Lemma nth_error_insert_at_eq i x l :
  (i <= List.length l)%nat -> nth_error (insert_at i x l) i = Some x.
Proof.
  intros Hi. unfold insert_at.
  rewrite nth_error_app2 by (rewrite length_firstn; lia).
  rewrite length_firstn.
  replace (i - Nat.min i (List.length l))%nat with 0%nat by lia.
  reflexivity.
Qed.

Lemma nth_error_insert_at_lt i k x l :
  (k < i)%nat -> (i <= List.length l)%nat ->
  nth_error (insert_at i x l) k = nth_error l k.
Proof.
  intros Hk Hi. unfold insert_at.
  rewrite nth_error_app1 by (rewrite length_firstn; lia).
  rewrite nth_error_firstn.
  destruct (Nat.ltb_spec k i); [reflexivity | lia].
Qed.

Lemma nth_error_insert_at_gt i k x l :
  (i <= k)%nat -> (i <= List.length l)%nat ->
  nth_error (insert_at i x l) (S k) = nth_error l k.
Proof.
  intros Hk Hi. unfold insert_at.
  rewrite nth_error_app2 by (rewrite length_firstn; lia).
  rewrite length_firstn.
  replace (S k - Nat.min i (List.length l))%nat with (S (k - i)) by lia.
  cbn [nth_error]. rewrite nth_error_skipn. f_equal. lia.
Qed.

Lemma nth_error_remove_at_lt i k l :
  (k < i)%nat -> nth_error (remove_at i l) k = nth_error l k.
Proof.
  intros Hk. unfold remove_at.
  destruct (Nat.lt_ge_cases k (List.length l)) as [Hlen | Hlen].
  - rewrite nth_error_app1 by (rewrite length_firstn; lia).
    rewrite nth_error_firstn.
    destruct (Nat.ltb_spec k i); [reflexivity | lia].
  - transitivity (@Datatypes.None A).
    + apply nth_error_None.
      rewrite length_app, length_firstn, length_skipn. lia.
    + symmetry. apply nth_error_None. lia.
Qed.

Lemma nth_error_remove_at_ge i k l :
  (i <= k)%nat -> nth_error (remove_at i l) k = nth_error l (S k).
Proof.
  intros Hk. unfold remove_at.
  destruct (Nat.lt_ge_cases i (List.length l)) as [Hlen | Hlen].
  - rewrite nth_error_app2 by (rewrite length_firstn; lia).
    rewrite length_firstn, nth_error_skipn. f_equal. lia.
  - transitivity (@Datatypes.None A).
    + apply nth_error_None.
      rewrite length_app, length_firstn, length_skipn. lia.
    + symmetry. apply nth_error_None. lia.
Qed.

End Vectors.

(* --------------------------------------------------------------------- *)
(** ** Pipeline change requests                                           *)
(* --------------------------------------------------------------------- *)

Section AppProofs.
Context {Node : Type} `{AppExtern Node}.
Implicit Types (a : App.t Node).

Local Abbreviation count a := (Pipeline.nodeCount (App.m_pipeline a)).

Lemma validNodeIndex_true a i :
  0 < i <= count a -> (0 <? i) && (i <=? count a) = true.
Proof.
  intros [H1 H2]. apply andb_true_iff. split.
  - now apply Z.ltb_lt.
  - now apply Z.leb_le.
Qed.

Lemma validNodeIndex_false a i :
  ~ (0 < i <= count a) -> (0 <? i) && (i <=? count a) = false.
Proof.
  intros Hn. apply andb_false_iff.
  destruct (Z.ltb_spec 0 i); [right | left; reflexivity].
  apply Z.leb_gt. lia.
Qed.

Lemma nodeAtStage_nth a k :
  0 < k -> App.nodeAtStage a k = nth_error (App.nodes a) (Z.to_nat (k - 1)).
Proof.
  intros Hk. unfold App.nodeAtStage.
  destruct (Z.ltb_spec 0 k); [reflexivity | lia].
Qed.

Lemma nodeAtStage_input a k : k <= 0 -> App.nodeAtStage a k = Datatypes.None.
Proof.
  intros Hk. unfold App.nodeAtStage.
  destruct (Z.ltb_spec 0 k); [lia | reflexivity].
Qed.

(** What a valid remove request does to the application. *)
Lemma remove_valid a index :
  0 < index <= count a ->
  App.remove a index =
  {| App.m_pcr := App.m_pcr (App.resetPCR a);
     App.m_pipeline := Pipeline.removeNode (App.m_pipeline a) (index - 1);
     App.m_showIndex := if index <=? App.m_showIndex a
                        then App.m_showIndex a - 1 else App.m_showIndex a |}.
Proof.
  intros Hv. unfold App.remove, App.handlePCR, App.dispatchPCR, App.request.
  cbn. rewrite (validNodeIndex_true a index Hv).
  destruct (index <=? App.m_showIndex a); reflexivity.
Qed.

(** C7: a remove request with a valid index deletes the node at that
    index (the stages before it keep their node, the later ones move up
    by one), and the show index is decremented exactly when it was at or
    behind the removed index; it never drops below the input stage 0.
    Removing stage 2 while stage 2 is shown leaves stage 1 shown. *)
Theorem remove_renumbers_show_index a index :
  0 < index <= count a ->
  let a' := App.remove a index in
  App.nodes a' = remove_at (Z.to_nat (index - 1)) (App.nodes a)
  /\ count a' = count a - 1
  /\ (forall k, k < index -> App.nodeAtStage a' k = App.nodeAtStage a k)
  /\ (forall k, index <= k -> App.nodeAtStage a' k = App.nodeAtStage a (k + 1))
  /\ App.m_showIndex a' =
     (if index <=? App.m_showIndex a
      then App.m_showIndex a - 1 else App.m_showIndex a)
  /\ (0 <= App.m_showIndex a -> 0 <= App.m_showIndex a')
  /\ (index = 2 -> App.m_showIndex a = 2 -> App.m_showIndex a' = 1).
Proof.
  intros Hv a'. subst a'. rewrite (remove_valid a index Hv).
  assert (Hnodes : App.nodes
            {| App.m_pcr := App.m_pcr (App.resetPCR a);
               App.m_pipeline := Pipeline.removeNode (App.m_pipeline a) (index - 1);
               App.m_showIndex := if index <=? App.m_showIndex a
                                  then App.m_showIndex a - 1
                                  else App.m_showIndex a |}
          = remove_at (Z.to_nat (index - 1)) (App.nodes a)) by reflexivity.
  unfold Pipeline.nodeCount in Hv.
  split; [| split; [| split; [| split; [| split; [| split]]]]].
  - exact Hnodes.
  - unfold Pipeline.nodeCount. cbn.
    rewrite length_remove_at by lia. lia.
  - intros k Hk. destruct (Z.le_gt_cases k 0) as [Hk0 | Hk0].
    + now rewrite !nodeAtStage_input.
    + rewrite !nodeAtStage_nth by lia. rewrite Hnodes.
      apply nth_error_remove_at_lt. lia.
  - intros k Hk. rewrite !nodeAtStage_nth by lia. rewrite Hnodes.
    rewrite nth_error_remove_at_ge by lia.
    f_equal. lia.
  - reflexivity.
  - cbn. destruct (Z.leb_spec index (App.m_showIndex a)); lia.
  - intros -> Hs. cbn. rewrite Hs. reflexivity.
Qed.

(** What an insert request does when the node loads. *)
Lemma insert_valid a source atIndex n :
  loadNode source = Some n ->
  0 < atIndex <= count a ->
  App.insert a source atIndex =
  {| App.m_pcr := App.m_pcr (App.resetPCR a);
     App.m_pipeline :=
       {| Pipeline.m_nodes :=
            insert_at (Z.to_nat (atIndex - 1)) n (App.nodes a);
          Pipeline.m_changed := true |};
     App.m_showIndex := if atIndex <=? App.m_showIndex a
                        then App.m_showIndex a + 1 else App.m_showIndex a |}.
Proof.
  intros Hload Hv.
  unfold App.insert, App.handlePCR, App.dispatchPCR, App.request.
  cbn. rewrite (validNodeIndex_true a atIndex Hv).
  unfold Pipeline.addNode. rewrite Hload.
  assert (Hin : (0 <=? atIndex - 1) && (atIndex - 1 <? count a) = true).
  { apply andb_true_iff. split; [apply Z.leb_le | apply Z.ltb_lt]; lia. }
  rewrite Hin. cbn.
  destruct (atIndex <=? App.m_showIndex a); reflexivity.
Qed.

Lemma insert_append a source atIndex n :
  loadNode source = Some n ->
  ~ (0 < atIndex <= count a) ->
  App.insert a source atIndex =
  {| App.m_pcr := App.m_pcr (App.resetPCR a);
     App.m_pipeline :=
       {| Pipeline.m_nodes := App.nodes a ++ [n];
          Pipeline.m_changed := true |};
     App.m_showIndex := if App.m_showIndex a =? count a
                        then App.m_showIndex a + 1 else App.m_showIndex a |}.
Proof.
  intros Hload Hv.
  unfold App.insert, App.handlePCR, App.dispatchPCR, App.request.
  cbn. rewrite (validNodeIndex_false a atIndex Hv).
  unfold Pipeline.addNodeAtEnd, Pipeline.addNode. rewrite Hload. cbn.
  destruct (App.m_showIndex a =? count a); reflexivity.
Qed.

(** C6 (amended): when the node loads, an insert request with a valid
    index puts the node at that index and increments the show index
    exactly when it was at or behind the insertion index, so that the
    show index still names the node it named before; with an index out
    of range the node is appended and the show index is incremented
    exactly when it named the last stage (it then follows the end of the
    pipeline).  Inserting at 2 while stage 3 is shown gives stage 4. *)
Theorem insert_renumbers_show_index a source atIndex n :
  loadNode source = Some n ->
  let a' := App.insert a source atIndex in
  (0 < atIndex <= count a ->
     App.nodes a' = insert_at (Z.to_nat (atIndex - 1)) n (App.nodes a)
     /\ App.nodeAtStage a' atIndex = Some n
     /\ App.m_showIndex a' =
        (if atIndex <=? App.m_showIndex a
         then App.m_showIndex a + 1 else App.m_showIndex a)
     /\ App.nodeAtStage a' (App.m_showIndex a')
        = App.nodeAtStage a (App.m_showIndex a))
  /\ (~ (0 < atIndex <= count a) ->
      App.nodes a' = App.nodes a ++ [n]
      /\ App.m_showIndex a' =
         (if App.m_showIndex a =? count a
          then App.m_showIndex a + 1 else App.m_showIndex a))
  /\ (atIndex = 2 -> App.m_showIndex a = 3 -> 2 <= count a ->
      App.m_showIndex a' = 4).
Proof.
  intros Hload a'. subst a'.
  split; [| split].
  - intros Hv. rewrite (insert_valid a source atIndex n Hload Hv).
    unfold Pipeline.nodeCount in Hv. fold (App.nodes a) in Hv.
    split; [reflexivity |]. split; [| split; [reflexivity |]].
    + rewrite nodeAtStage_nth by lia. cbn.
      apply nth_error_insert_at_eq. lia.
    + cbn [App.m_showIndex].
      destruct (Z.leb_spec atIndex (App.m_showIndex a)) as [Hs | Hs].
      * rewrite !nodeAtStage_nth by lia. cbn.
        replace (Z.to_nat (App.m_showIndex a + 1 - 1))
          with (S (Z.to_nat (App.m_showIndex a - 1))) by lia.
        apply nth_error_insert_at_gt; lia.
      * destruct (Z.le_gt_cases (App.m_showIndex a) 0) as [H0 | H0].
        -- now rewrite !nodeAtStage_input.
        -- rewrite !nodeAtStage_nth by lia. cbn.
           apply nth_error_insert_at_lt; lia.
  - intros Hv. rewrite (insert_append a source atIndex n Hload Hv).
    split; reflexivity.
  - intros -> Hs Hc.
    rewrite (insert_valid a source 2 n Hload) by lia.
    cbn. rewrite Hs. reflexivity.
Qed.

(** What a valid move request does to the application. *)
Lemma move_valid a from to n :
  0 < from <= count a -> 0 < to <= count a -> from <> to ->
  nth_error (App.nodes a) (Z.to_nat (from - 1)) = Some n ->
  App.move a from to =
  {| App.m_pcr := App.m_pcr (App.resetPCR a);
     App.m_pipeline :=
       {| Pipeline.m_nodes :=
            insert_at (Z.to_nat (to - 1)) n
              (remove_at (Z.to_nat (from - 1)) (App.nodes a));
          Pipeline.m_changed := true |};
     App.m_showIndex :=
       if (Z.min from to <? App.m_showIndex a)
          && (App.m_showIndex a <? Z.max from to)
       then if from <? to
            then App.m_showIndex a - 1 else App.m_showIndex a + 1
       else App.m_showIndex a |}.
Proof.
  intros Hf Ht Hne Hn.
  unfold App.move, App.handlePCR, App.dispatchPCR, App.request.
  cbn. rewrite (validNodeIndex_true a from Hf).
  assert (Hneq : negb (from =? to) = true).
  { apply negb_true_iff. now apply Z.eqb_neq. }
  rewrite Hneq. cbn [andb].
  unfold Pipeline.moveNode. fold (App.nodes a). rewrite Hn.
  destruct Ht as [Ht1 Ht2].
  apply Z.ltb_lt in Ht1. apply Z.leb_le in Ht2. rewrite Ht1, Ht2. cbn [andb].
  destruct ((Z.min from to <? App.m_showIndex a)
            && (App.m_showIndex a <? Z.max from to));
    [destruct (from <? to) |]; reflexivity.
Qed.

(** C1 (amended): a move request with two valid, distinct indices
    relocates the node from [from] to [to] (the stages in between move
    by one towards [from], the stages outside the span keep their
    node).  A show index strictly between the two shifts by one
    against the direction of travel, and so keeps naming the same node;
    in every other case, the case that it equals [from] included, the
    show index is left as it is. *)
Theorem move_renumbers_show_index a from to :
  0 < from <= count a -> 0 < to <= count a -> from <> to ->
  let a' := App.move a from to in
  count a' = count a
  /\ App.nodeAtStage a' to = App.nodeAtStage a from
  /\ (forall k, k < Z.min from to \/ Z.max from to < k ->
      App.nodeAtStage a' k = App.nodeAtStage a k)
  /\ (forall k, from <= k < to ->
      App.nodeAtStage a' k = App.nodeAtStage a (k + 1))
  /\ (forall k, to < k <= from ->
      App.nodeAtStage a' k = App.nodeAtStage a (k - 1))
  /\ App.m_showIndex a' =
     (if (Z.min from to <? App.m_showIndex a)
         && (App.m_showIndex a <? Z.max from to)
      then if from <? to
           then App.m_showIndex a - 1 else App.m_showIndex a + 1
      else App.m_showIndex a)
  /\ (Z.min from to < App.m_showIndex a < Z.max from to ->
      App.m_showIndex a' =
        (if from <? to then App.m_showIndex a - 1 else App.m_showIndex a + 1)
      /\ App.nodeAtStage a' (App.m_showIndex a')
         = App.nodeAtStage a (App.m_showIndex a))
  /\ (App.m_showIndex a = from -> App.m_showIndex a' = from).
Proof.
  intros Hf Ht Hne a'. subst a'.
  assert (Hlen : (Z.to_nat (from - 1) < List.length (App.nodes a))%nat).
  { unfold Pipeline.nodeCount in Hf. fold (App.nodes a) in Hf. lia. }
  destruct (nth_error (App.nodes a) (Z.to_nat (from - 1))) as [n |] eqn:Hn;
    [| apply nth_error_None in Hn; lia].
  rewrite (move_valid a from to n Hf Ht Hne Hn).
  unfold Pipeline.nodeCount in *. fold (App.nodes a) in *.
  set (l := App.nodes a) in *.
  assert (Hrl : List.length (remove_at (Z.to_nat (from - 1)) l)
                = pred (List.length l)) by (apply length_remove_at; lia).
  split; [| split; [| split; [| split; [| split; [| split; [| split]]]]]].
  - cbn. rewrite length_insert_at, Hrl. lia.
  - rewrite !nodeAtStage_nth by lia. cbn. fold l. rewrite Hn.
    apply nth_error_insert_at_eq. lia.
  - intros k Hk. destruct (Z.le_gt_cases k 0) as [Hk0 | Hk0].
    + now rewrite !nodeAtStage_input.
    + rewrite !nodeAtStage_nth by lia. cbn. fold l.
      destruct Hk as [Hk | Hk].
      * rewrite nth_error_insert_at_lt by lia.
        apply nth_error_remove_at_lt. lia.
      * replace (Z.to_nat (k - 1)) with (S (Z.to_nat (k - 2))) by lia.
        rewrite nth_error_insert_at_gt by lia.
        apply nth_error_remove_at_ge. lia.
  - intros k Hk. rewrite !nodeAtStage_nth by lia. cbn. fold l.
    rewrite nth_error_insert_at_lt by lia.
    rewrite nth_error_remove_at_ge by lia.
    f_equal. lia.
  - intros k Hk. rewrite !nodeAtStage_nth by lia. cbn. fold l.
    replace (Z.to_nat (k - 1)) with (S (Z.to_nat (k - 1 - 1))) by lia.
    rewrite nth_error_insert_at_gt by lia.
    apply nth_error_remove_at_lt. lia.
  - reflexivity.
  - intros [Hlo Hhi]. cbn [App.m_showIndex].
    assert (Hb : (Z.min from to <? App.m_showIndex a)
                 && (App.m_showIndex a <? Z.max from to) = true).
    { apply andb_true_iff. split; now apply Z.ltb_lt. }
    rewrite Hb. split; [reflexivity |].
    destruct (Z.ltb_spec from to) as [Hft | Hft].
    + rewrite !nodeAtStage_nth by lia. cbn. fold l.
      rewrite nth_error_insert_at_lt by lia.
      rewrite nth_error_remove_at_ge by lia.
      f_equal. lia.
    + rewrite !nodeAtStage_nth by lia. cbn. fold l.
      replace (Z.to_nat (App.m_showIndex a + 1 - 1))
        with (S (Z.to_nat (App.m_showIndex a - 1))) by lia.
      rewrite nth_error_insert_at_gt by lia.
      apply nth_error_remove_at_lt. lia.
  - intros Hs. cbn [App.m_showIndex].
    assert (Hb : (Z.min from to <? App.m_showIndex a)
                 && (App.m_showIndex a <? Z.max from to) = false).
    { apply andb_false_iff. rewrite Hs.
      destruct (Z.ltb_spec from to); [left | right]; apply Z.ltb_ge; lia. }
    rewrite Hb. exact Hs.
Qed.

End AppProofs.

(* --------------------------------------------------------------------- *)
(** ** The comment loop                                                   *)
(* --------------------------------------------------------------------- *)

Lemma length_modify_nth {A} i (f : A -> A) (l : list A) :
  List.length (modify_nth i f l) = List.length l.
Proof.
  revert i; induction l as [| x l IH]; intros [| i]; cbn; auto.
Qed.

Lemma nth_error_modify_nth_eq {A} i (f : A -> A) (l : list A) x :
  nth_error l i = Some x -> nth_error (modify_nth i f l) i = Some (f x).
Proof.
  revert i; induction l as [| y l IH]; intros [| i]; cbn; try discriminate.
  - now intros [= ->].
  - apply IH.
Qed.

Section TokenLoopProofs.
Context {State : Type} (evalToken : State -> string -> option string -> State).

(** A property of the state that every evaluated token keeps is kept by
    the whole loop. *)
Lemma tokenLoop_invariant (P : State -> Prop) :
  (forall s key value, P s -> P (evalToken s key value)) ->
  forall fuel s prev kept rest,
    P s -> P (fst (tokenLoop evalToken fuel s prev kept rest)).
Proof.
  intros Hstep. induction fuel as [| fuel IH]; intros s prev kept rest Hs.
  - exact Hs.
  - cbn. destruct rest as [| c r]; [exact Hs |].
    destruct (c =? "@")%char.
    + destruct (isalnum prev).
      * now apply IH.
      * destruct (splitToken r) as [[key value] r'].
        apply IH. now apply Hstep.
    + now apply IH.
Qed.

(** One turn of the loop at an [@] that starts a token. *)
Lemma tokenLoop_at_token fuel s prev kept text :
  isalnum prev = false ->
  tokenLoop evalToken (S fuel) s prev kept (String "@" text) =
  let '(key, value, rest) := splitToken text in
  tokenLoop evalToken fuel (evalToken s key value) prev kept rest.
Proof.
  intros Hprev. cbn. rewrite Hprev. reflexivity.
Qed.

End TokenLoopProofs.

(* --------------------------------------------------------------------- *)
(** ** Executions and the static helpers                                  *)
(* --------------------------------------------------------------------- *)

Section HelperLoops.
Context {State : Type}.
Variable f : State -> string -> option string -> State.
Variable g : option State -> string -> option string -> option State.

(** The text that the loop leaves does not depend on what the
    evaluation of a token does. *)
Lemma tokenLoop_text {State' : Type}
    (f' : State' -> string -> option string -> State') fuel :
  forall st st' prev kept rest,
    snd (tokenLoop f fuel st prev kept rest)
    = snd (tokenLoop f' fuel st' prev kept rest).
Proof.
  induction fuel as [| fuel IH]; intros st st' prev kept rest;
    [reflexivity |].
  cbn [tokenLoop]. destruct rest as [| c r]; [reflexivity |].
  destruct (c =? "@")%char; [| apply IH].
  destruct (isalnum prev); [apply IH |].
  destruct (splitToken r) as [[key value] r']. apply IH.
Qed.

(** With the helpers of the execution itself the loop is the loop of
    [f]. *)
Lemma tokenLoop_own fuel :
  (forall st key value, g (Some st) key value = Some (f st key value)) ->
  forall st prev kept rest,
    tokenLoop g fuel (Some st) prev kept rest
    = (Some (fst (tokenLoop f fuel st prev kept rest)),
       snd (tokenLoop f fuel st prev kept rest)).
Proof.
  intros Hg. induction fuel as [| fuel IH]; intros st prev kept rest;
    [reflexivity |].
  cbn [tokenLoop]. destruct rest as [| c r]; [reflexivity |].
  destruct (c =? "@")%char; [| apply IH].
  destruct (isalnum prev); [apply IH |].
  destruct (splitToken r) as [[key value] r']. rewrite Hg. apply IH.
Qed.

(** With the helpers of an earlier execution the loop has a result
    exactly when it finds no token. *)
Lemma tokenLoop_foreign fuel :
  (forall st key value, g st key value = Datatypes.None) ->
  forall st prev kept rest,
    fst (tokenLoop g fuel Datatypes.None prev kept rest) = Datatypes.None
    /\ fst (tokenLoop (fun _ _ _ => true) fuel true prev kept rest) = true
    /\ fst (tokenLoop g fuel (Some st) prev kept rest)
       = if fst (tokenLoop (fun _ _ _ => true) fuel false prev kept rest)
         then Datatypes.None else Some st.
Proof.
  intros Hg. induction fuel as [| fuel IH]; intros st prev kept rest;
    [now repeat split |].
  cbn [tokenLoop]. destruct rest as [| c r]; [now repeat split |].
  destruct (c =? "@")%char; [| apply IH].
  destruct (isalnum prev); [apply IH |].
  destruct (splitToken r) as [[key value] r']. rewrite !Hg.
  destruct (IH st prev kept r') as (H1 & H2 & _).
  rewrite H1, H2. now repeat split.
Qed.

End HelperLoops.

Section Executions.
Context `{Extern}.
Implicit Types (s : V2.LoadState) (h : Helpers).

Lemma handleCommentWith_own s multi comment :
  V2.handleCommentWith OwnHelpers s multi comment
  = Some (V2.handleComment s multi comment).
Proof.
  unfold V2.handleCommentWith, V2.handleComment, extractTokens.
  destruct (commentContent multi comment) as [prev content].
  rewrite (tokenLoop_own V2.evalToken (V2.evalTokenWith OwnHelpers))
    by reflexivity.
  destruct (tokenLoop V2.evalToken _ s prev EmptyString content)
    as [s1 content'].
  reflexivity.
Qed.

Lemma analyzeWith_own lexemes :
  forall s, V2.analyzeWith OwnHelpers lexemes s = Some (V2.analyze lexemes s).
Proof.
  induction lexemes as [| x lexemes IH]; intros s; [reflexivity |].
  unfold V2.analyzeWith, V2.analyze in *. cbn [fold_left].
  destruct x as [multi comment | token]; cbn [V2.handleLexemeWith V2.handleLexeme].
  - rewrite handleCommentWith_own. apply IH.
  - apply IH.
Qed.

Lemma loadWith_own code lexemes i0 o0 p0 :
  V2.loadWith OwnHelpers code lexemes i0 o0 p0
  = Some (V2.load code lexemes i0 o0 p0).
Proof.
  unfold V2.loadWith, V2.load. now rewrite analyzeWith_own.
Qed.

Lemma handleCommentWith_foreign s multi comment :
  V2.handleCommentWith ForeignHelpers s multi comment
  = if evaluatesToken [Comment multi comment] then Datatypes.None
    else Some (V2.handleComment s multi comment).
Proof.
  unfold V2.handleCommentWith, V2.handleComment, evaluatesToken,
    extractTokens.
  cbn [existsb]. rewrite orb_false_r.
  destruct (commentContent multi comment) as [prev content].
  pose proof (tokenLoop_foreign (V2.evalTokenWith ForeignHelpers)
                (String.length content) (fun _ _ _ => eq_refl)
                s prev EmptyString content) as (_ & _ & Hst).
  pose proof (tokenLoop_text (V2.evalTokenWith ForeignHelpers) V2.evalToken
                (String.length content) (Some s) s prev EmptyString content)
    as Htext.
  destruct (tokenLoop (V2.evalTokenWith ForeignHelpers) _ (Some s) prev
              EmptyString content) as [o content'].
  cbn [fst snd] in Hst, Htext. subst o content'.
  destruct (fst (tokenLoop (fun _ _ _ => true) _ false prev EmptyString
                   content)) eqn:Hfound; [reflexivity |].
  assert (Hsame : fst (tokenLoop V2.evalToken (String.length content) s prev
                         EmptyString content) = s).
  { assert (Hgen : forall fuel st kept rest,
               fst (tokenLoop (fun (_ : bool) (_ : string)
                                   (_ : option string) => true)
                      fuel false prev kept rest) = false ->
               fst (tokenLoop V2.evalToken fuel st prev kept rest) = st);
      [| now apply Hgen].
    clear. intros fuel. revert prev.
    induction fuel as [| fuel IH]; intros prev st kept rest Hf;
      [reflexivity |].
    cbn [tokenLoop] in *. destruct rest as [| c r]; [reflexivity |].
    destruct (c =? "@")%char; [| now apply IH].
    destruct (isalnum prev); [now apply IH |].
    destruct (splitToken r) as [[key value] r'].
    pose proof (tokenLoop_foreign
                  (fun (_ : option bool) (_ : string) (_ : option string) =>
                     @Datatypes.None bool)
                  fuel (fun _ _ _ => eq_refl) true prev kept r')
      as (_ & Htrue & _).
    rewrite Htrue in Hf. discriminate Hf. }
  destruct (tokenLoop V2.evalToken _ s prev EmptyString content)
    as [s1 content'].
  cbn [fst snd] in *. now subst s1.
Qed.

Lemma evaluatesToken_cons x lexemes :
  evaluatesToken (x :: lexemes)
  = evaluatesToken [x] || evaluatesToken lexemes.
Proof. unfold evaluatesToken. cbn [existsb]. now rewrite orb_false_r. Qed.

Lemma analyzeWith_undefined h lexemes :
  fold_left (V2.handleLexemeWith h) lexemes Datatypes.None = Datatypes.None.
Proof. induction lexemes as [| x lexemes IH]; [reflexivity | exact IH]. Qed.

Lemma analyzeWith_foreign lexemes :
  forall s,
    V2.analyzeWith ForeignHelpers lexemes s
    = if evaluatesToken lexemes then Datatypes.None
      else Some (V2.analyze lexemes s).
Proof.
  induction lexemes as [| x lexemes IH]; intros s; [reflexivity |].
  rewrite evaluatesToken_cons.
  unfold V2.analyzeWith, V2.analyze in *. cbn [fold_left].
  destruct x as [multi comment | token];
    cbn [V2.handleLexemeWith V2.handleLexeme].
  - rewrite handleCommentWith_foreign.
    destruct (evaluatesToken [Comment multi comment]); cbn [orb].
    + apply analyzeWith_undefined.
    + apply IH.
  - change (evaluatesToken [Token token]) with false. cbn [orb]. apply IH.
Qed.

End Executions.

Section OlderExecutions.
Context `{Extern}.
Implicit Types (s : V1.LoadState).

Lemma older_handleCommentWith_own s multi comment :
  V1.handleCommentWith OwnHelpers s multi comment
  = Some (V1.handleComment s multi comment).
Proof.
  unfold V1.handleCommentWith, V1.handleComment, extractTokens.
  destruct (commentContent multi comment) as [prev content].
  rewrite (tokenLoop_own V1.evalToken (V1.evalTokenWith OwnHelpers))
    by reflexivity.
  destruct (tokenLoop V1.evalToken _ s prev EmptyString content)
    as [s1 content'].
  reflexivity.
Qed.

Lemma older_analyzeWith_own lexemes :
  forall s, V1.analyzeWith OwnHelpers lexemes s = Some (V1.analyze lexemes s).
Proof.
  induction lexemes as [| x lexemes IH]; intros s; [reflexivity |].
  unfold V1.analyzeWith, V1.analyze in *. cbn [fold_left].
  destruct x as [multi comment | token];
    cbn [V1.handleLexemeWith V1.handleLexeme].
  - rewrite older_handleCommentWith_own. apply IH.
  - apply IH.
Qed.

End OlderExecutions.

(* --------------------------------------------------------------------- *)
(** ** Annotation keys of the richer variant                              *)
(* --------------------------------------------------------------------- *)

Section V2Keys.
Context `{Extern}.
Implicit Types (s : V2.LoadState).

(** What one annotation token can change: the parameters (their number
    is kept), the diagnostics (they grow), and the two sticky modes.  A
    diagnostic for an unrecognized token is only added for a key that
    is none of [recognizedKeys]. *)
Lemma evalToken_frame s key value :
  exists ps e cm tf,
    V2.evalToken s key value =
    V2.set_texFilter tf (V2.set_coordMode cm
      (V2.set_err e (V2.set_newParams ps s)))
    /\ List.length ps = List.length (V2.newParams s)
    /\ exists ds, e = V2.err s ++ ds
       /\ forall k, In (UnrecognizedToken k) ds ->
          k = key /\ ~ In key recognizedKeys.
Proof.
  unfold V2.evalToken. unfold_conditions.
  key_cases key; cbn.
  all: try (destruct (V2.param s) eqn:Hp; cbn).
  all: try (destruct value as [v |]; cbn).
  all: repeat match goal with
       | |- context [if snd (strtof ?v) then _ else _] =>
           destruct (snd (strtof v)); cbn
       | |- context [GLSLToken.eqb ?a ?b] =>
           destruct (GLSLToken.eqb a b); cbn
       end.
  all: unfold V2.setCoordMode, V2.setTexFilter.
  all: repeat match goal with
       | |- context [(?a =? ?b)%string] => destruct (a =? b)%string; cbn
       end.
  all: unfold V2.onParam, V2.addErr; rewrite ?Hp; cbn.
  all: do 4 eexists; split; [reflexivity |].
  all: split; [rewrite ?length_modify_nth; reflexivity |].
  all: try (exists []; split; [now rewrite app_nil_r |];
            intros k []).
  all: try (eexists; split; [reflexivity |]; intros k [Hk | []];
            discriminate Hk).
  all: eexists; split; [reflexivity |]; intros k [[= <-] | []].
  all: split; [reflexivity |].
  all: unfold recognizedKeys, parameterKeys; cbn; intuition congruence.
Qed.

End V2Keys.

(* --------------------------------------------------------------------- *)
(** ** The fuel of the comment loop                                       *)
(* --------------------------------------------------------------------- *)

Lemma append_empty_r (s : string) : (s ++ EmptyString)%string = s.
Proof.
  induction s as [| c r IH]; cbn; [reflexivity | now rewrite IH].
Qed.

Lemma spanIdent_length s :
  (String.length (snd (spanIdent s)) <= String.length s)%nat.
Proof.
  induction s as [| c r IH]; cbn; [lia |].
  destruct (isident c); [| cbn; lia].
  destruct (spanIdent r) as [k r']. cbn in *. lia.
Qed.

Lemma splitToken_length s :
  (String.length (snd (splitToken s)) <= String.length s)%nat.
Proof.
  unfold splitToken.
  pose proof (spanIdent_length s) as H1.
  destruct (spanIdent s) as [key r1]. cbn [snd] in H1.
  destruct r1 as [| c r]; [cbn; lia |].
  destruct (c =? "=")%char.
  - pose proof (spanIdent_length r) as H2.
    destruct (spanIdent r) as [v r']. cbn [snd] in H2.
    destruct r' as [| c' r'']; cbn in *; lia.
  - cbn in *. lia.
Qed.

Section TokenLoopFuel.
Context {State : Type} (evalToken : State -> string -> option string -> State).

(** Every turn of the loop drops a character of the text, so the length
    of the text is enough fuel: more fuel gives the same result, and
    the loop only runs out of fuel on the empty text, where it is
    finished. *)
Lemma tokenLoop_enough fuel1 :
  forall fuel2 s prev kept rest,
    (String.length rest <= fuel1)%nat ->
    (String.length rest <= fuel2)%nat ->
    tokenLoop evalToken fuel1 s prev kept rest
    = tokenLoop evalToken fuel2 s prev kept rest.
Proof.
  induction fuel1 as [| fuel1 IH]; intros fuel2 s prev kept rest H1 H2.
  - destruct rest; [| cbn in H1; lia].
    destruct fuel2; cbn; [reflexivity | now rewrite append_empty_r].
  - destruct fuel2 as [| fuel2].
    + destruct rest; [| cbn in H2; lia].
      cbn. now rewrite append_empty_r.
    + cbn. destruct rest as [| c r]; [reflexivity |].
      cbn in H1, H2.
      destruct (c =? "@")%char; [| apply IH; lia].
      destruct (isalnum prev); [apply IH; lia |].
      pose proof (splitToken_length r) as Hlen.
      destruct (splitToken r) as [[key value] r']. cbn [snd] in Hlen.
      apply IH; lia.
Qed.

Lemma extractTokens_enough fuel s prev content :
  (String.length content <= fuel)%nat ->
  tokenLoop evalToken fuel s prev EmptyString content
  = extractTokens evalToken s prev content.
Proof.
  intros Hf. unfold extractTokens. apply tokenLoop_enough; lia.
Qed.

End TokenLoopFuel.

Section V2Comments.
Context `{Extern}.
Implicit Types (s : V2.LoadState).

Lemma evalToken_passMask s key value :
  V2.passMask (V2.evalToken s key value) = V2.passMask s.
Proof.
  destruct (evalToken_frame s key value) as (ps & e & cm & tf & -> & _).
  reflexivity.
Qed.

Lemma evalToken_param s key value :
  V2.param (V2.evalToken s key value) = V2.param s.
Proof.
  destruct (evalToken_frame s key value) as (ps & e & cm & tf & -> & _).
  reflexivity.
Qed.

(** The part of [handleComment] behind the loop leaves the diagnostics
    and the pass bookkeeping alone. *)
Lemma handleComment_err s multi comment :
  V2.err (V2.handleComment s multi comment) =
  V2.err (fst (extractTokens V2.evalToken s
                 (fst (commentContent multi comment))
                 (snd (commentContent multi comment)))).
Proof.
  unfold V2.handleComment.
  destruct (commentContent multi comment) as [prev content]. cbn [fst snd].
  destruct (extractTokens V2.evalToken s prev content) as [s1 content'].
  cbn [fst]. unfold V2.onParam.
  destruct (V2.param s1);
    [destruct (_ =? _)%string |]; reflexivity.
Qed.

Lemma handleComment_passMask s multi comment :
  V2.passMask (V2.handleComment s multi comment) = V2.passMask s.
Proof.
  unfold V2.handleComment.
  destruct (commentContent multi comment) as [prev content].
  pose proof (tokenLoop_invariant V2.evalToken
                (fun s' => V2.passMask s' = V2.passMask s)) as Hinv.
  specialize (Hinv (fun s' key value Hs =>
                      eq_trans (evalToken_passMask s' key value) Hs)).
  specialize (Hinv (String.length content) s prev EmptyString content eq_refl).
  unfold extractTokens.
  destruct (tokenLoop V2.evalToken _ s prev EmptyString content) as [s1 content'].
  cbn [fst] in Hinv. rewrite <- Hinv. unfold V2.onParam.
  destruct (V2.param s1);
    [destruct (_ =? _)%string |]; reflexivity.
Qed.

(** C4 (amended): in the execution that has created the helpers, the
    keys min, max, off, on, unit, toggle, switch, color, coord, coords,
    map, filter and filt are recognized by the richer variant: a token
    with one of these keys is evaluated and adds no "unrecognized
    token" diagnostic, and whatever such diagnostic a comment adds
    names a key outside of this list.  The keys rgb and rgba are
    recognized by the older variant (together with min, max, off and
    on). *)
Theorem documented_keys_are_recognized s :
  (forall key value,
      In key recognizedKeys ->
      exists s',
        V2.evalTokenWith OwnHelpers (Some s) key value = Some s'
        /\ forall k, In (UnrecognizedToken k) (V2.err s') ->
                     In (UnrecognizedToken k) (V2.err s))
  /\ (forall multi comment,
         exists s',
           V2.handleCommentWith OwnHelpers s multi comment = Some s'
           /\ forall k, In (UnrecognizedToken k) (V2.err s') ->
                        In (UnrecognizedToken k) (V2.err s)
                        \/ ~ In k recognizedKeys)
  /\ (forall (s1 : V1.LoadState) key value,
         In key olderKeys ->
         exists o1 : V1.LoadState,
           V1.evalTokenWith OwnHelpers (Some s1) key value = Some o1
           /\ forall k, In (UnrecognizedToken k) (V1.err o1) ->
                        In (UnrecognizedToken k) (V1.err s1)).
Proof.
  split; [| split].
  - intros key value Hkey. eexists. split; [reflexivity |]. intros k Hin.
    destruct (evalToken_frame s key value)
      as (ps & e & cm & tf & Heq & _ & ds & -> & Hds).
    rewrite Heq in Hin. cbn in Hin.
    apply in_app_or in Hin. destruct Hin as [Hin | Hin]; [exact Hin |].
    destruct (Hds k Hin) as [_ Hno]. contradiction.
  - intros multi comment. rewrite handleCommentWith_own.
    eexists. split; [reflexivity |]. intros k.
    rewrite handleComment_err.
    unfold extractTokens.
    apply (tokenLoop_invariant V2.evalToken
             (fun s' => In (UnrecognizedToken k) (V2.err s') ->
                        In (UnrecognizedToken k) (V2.err s)
                        \/ ~ In k recognizedKeys)); [| now left].
    intros s' key value IH Hin.
    destruct (evalToken_frame s' key value)
      as (ps & e & cm & tf & Heq & _ & ds & -> & Hds).
    rewrite Heq in Hin. cbn in Hin.
    apply in_app_or in Hin. destruct Hin as [Hin | Hin]; [now apply IH |].
    destruct (Hds k Hin) as [-> Hno]. now right.
  - intros s1 key value Hkey. eexists. split; [reflexivity |].
    intros k. revert Hkey.
    unfold olderKeys. cbn [In]. intros Hkey.
    unfold V1.evalToken. unfold_conditions.
    repeat (destruct Hkey as [<- | Hkey]; [cbn | ]); [.. | destruct Hkey].
    all: destruct (V1.param s1) eqn:Hp; cbn.
    all: try (destruct value as [v |]; cbn).
    all: try (destruct (snd (strtof _)); cbn).
    all: unfold V1.setParamType, V1.onParam, V1.addErr; rewrite ?Hp.
    all: try (destruct (GLSLToken.eqb _ _); cbn).
    all: intros Hin; try exact Hin.
    all: apply in_app_or in Hin; destruct Hin as [Hin | [Hin | []]];
         [exact Hin | discriminate Hin].
Qed.

End V2Comments.

(* --------------------------------------------------------------------- *)
(** ** Parameter keys in a comment that belongs to no parameter           *)
(* --------------------------------------------------------------------- *)

Section ParameterKeys.
Context `{Extern}.
Implicit Types (s : V2.LoadState).

Lemma parameter_key_without_parameter s key value :
  V2.param s = Datatypes.None -> In key parameterKeys ->
  V2.evalToken s key value = V2.addErr (OnlyInParamComment key) s.
Proof.
  intros Hp Hkey. unfold parameterKeys in Hkey. cbn in Hkey.
  unfold V2.evalToken. unfold_conditions.
  repeat (destruct Hkey as [<- | Hkey]; [cbn; rewrite Hp; reflexivity |]).
  destruct Hkey.
Qed.

(** When a comment belongs to no parameter: [param] is null at the start
    of the file and behind every comment, and a token only sets it when
    the two tokens in front of it are [uniform] and a supported type. *)
Lemma handleComment_param s multi comment :
  V2.param (V2.handleComment s multi comment) = Datatypes.None.
Proof.
  unfold V2.handleComment.
  destruct (commentContent multi comment) as [prev content].
  destruct (extractTokens V2.evalToken s prev content) as [s1 content'].
  reflexivity.
Qed.

Lemma parseDefault_param s token :
  V2.param (V2.parseDefault s token) = V2.param s.
Proof.
  unfold V2.parseDefault.
  destruct (V2.hasParam s && V2.inParamStatement s
            && (0 <=? V2.paramValueIndex s) && (V2.paramValueIndex s <? 4));
    [| reflexivity].
  destruct (strtof token) as [f whole]. destruct whole; [| reflexivity].
  unfold V2.onParam. destruct (V2.param s) eqn:Hp; cbn; now rewrite ?Hp.
Qed.

Lemma handleToken_param s token :
  V2.param s = Datatypes.None ->
  V2.param (V2.handleToken s token) = Datatypes.None
  \/ (V2.ttAt s 1 = GLSLToken.Uniform
      /\ V2.isUniformType (V2.ttAt s 0) = true).
Proof.
  intros Hp. unfold V2.handleToken.
  destruct (GLSLToken.eqb (lookup tokenMap token) GLSLToken.Ignored);
    [now left |].
  set (s1 := V2.pushHistory (lookup tokenMap token) s).
  assert (H1 : V2.param s1 = Datatypes.None) by exact Hp.
  assert (H2 : V2.ttAt s1 2 = V2.ttAt s 1) by reflexivity.
  assert (H3 : V2.ttAt s1 1 = V2.ttAt s 0) by reflexivity.
  destruct (GLSLToken.eqb (V2.ttAt s1 2) GLSLToken.Uniform) eqn:Hu.
  { unfold V2.newUniform.
    destruct (V2.isUniformType (V2.ttAt s1 1)) eqn:Ht; [| now left].
    right. rewrite <- H2, <- H3. split; [| exact Ht].
    destruct (V2.ttAt s1 2); try discriminate Hu. reflexivity. }
  left.
  destruct (V2.hasParam s1 && V2.inParamStatement s1
            && (V2.paramValueIndex s1 <? 0) && contains "=" token);
    [exact H1 |].
  pose proof (parseDefault_param s1 token) as Hpd. rewrite H1 in Hpd.
  destruct (contains ";" token); [exact Hpd |].
  destruct (V2.isPassPattern (V2.parseDefault s1 token)); [| exact Hpd].
  unfold V2.passDefinition, V2.selectPass.
  destruct (V2.ttAt (V2.parseDefault s1 token) 2);
    match goal with
    | |- context [if ?c then _ else _] => destruct c
    end; exact Hpd.
Qed.

End ParameterKeys.

(* --------------------------------------------------------------------- *)
(** ** Diagnostics do not steer the pass loop                             *)
(* --------------------------------------------------------------------- *)

Section ErrIrrelevant.
Context `{Extern}.
Implicit Types (s : V2.LoadState) (g : V2.Gen).

Lemma passBody_sameButErr code g g' :
  sameButErr g g' ->
  snd (V2.passBody code g) = snd (V2.passBody code g')
  /\ sameButErr (fst (V2.passBody code g)) (fst (V2.passBody code g')).
Proof.
  destruct g as [s sh c], g' as [s' sh' c']. destruct s, s'.
  unfold sameButErr, sameVars. cbn. intros (Hs & <- & <-).
  injection Hs as <- <- <- <- <- <- <- <- <- <- <- <- <- <-.
  unfold V2.passBody, V2.logged. cbn -[V2.passText append].
  destruct (PassInput.isCoord (inputs currentPass));
    cbn -[V2.passText append].
  all: match goal with
       | |- context [fs_compile ?t] =>
           destruct (fs_compile t) as [gd hl lg];
           destruct (prog_link t) as [gd' hl' lg']
       end.
  all: destruct gd, hl, gd', hl';
    cbn -[V2.passText append]; repeat split; reflexivity.
Qed.

Lemma passLoop_sameButErr code fuel :
  forall g g',
    sameButErr g g' ->
    snd (V2.passLoop fuel code g) = snd (V2.passLoop fuel code g')
    /\ sameButErr (fst (V2.passLoop fuel code g))
                  (fst (V2.passLoop fuel code g')).
Proof.
  induction fuel as [| fuel IH]; intros g g' Hg.
  - cbn. now split.
  - cbn.
    assert (Hd : V2.passDeclared (V2.vars g) = V2.passDeclared (V2.vars g')).
    { destruct Hg as (Hs & _). unfold V2.passDeclared.
      apply (f_equal V2.currentPass) in Hs as Hc.
      apply (f_equal V2.passMask) in Hs as Hm.
      cbn in Hc, Hm. now rewrite Hc, Hm. }
    rewrite <- Hd. destruct (V2.passDeclared (V2.vars g)); [| now split].
    destruct (passBody_sameButErr code g g' Hg) as [Hok Hsame].
    destruct (V2.passBody code g) as [g1 ok].
    destruct (V2.passBody code g') as [g1' ok'].
    cbn in Hok, Hsame. subst ok'.
    destruct ok; [| now split].
    apply IH. destruct Hsame as (Hs & Hsh & Hc).
    split; [| split]; cbn; [| exact Hsh | exact Hc].
    apply (f_equal V2.currentPass) in Hs as Hcp. cbn in Hcp.
    rewrite Hcp.
    destruct (V2.vars g1), (V2.vars g1'). cbn in *.
    injection Hs as -> -> -> -> -> -> -> -> -> -> -> -> -> ->.
    reflexivity.
Qed.

(** The pass count, the parameters, the pass settings and the compiled
    texts do not depend on the diagnostics collected so far. *)
Lemma generate_err_irrelevant code s e :
  V2.m_passCount (V2.generate code (V2.set_err e s))
  = V2.m_passCount (V2.generate code s)
  /\ V2.m_params (V2.generate code (V2.set_err e s))
     = V2.m_params (V2.generate code s)
  /\ V2.sources (V2.generate code (V2.set_err e s))
     = V2.sources (V2.generate code s).
Proof.
  unfold V2.generate.
  change (V2.passMask
            (V2.set_newParams
               (map GParameter.finalize (V2.newParams (V2.set_err e s)))
               (V2.set_err e s)))
    with (V2.passMask s).
  change (V2.passMask
            (V2.set_newParams (map GParameter.finalize (V2.newParams s)) s))
    with (V2.passMask s).
  destruct (Z.land (V2.passMask s) 1 =? 0); [now repeat split |].
  match goal with
  | |- context [V2.passLoop ?f code ?g0] =>
      match goal with
      | |- context [V2.passLoop f code ?g0'] =>
          tryif constr_eq g0 g0' then fail else
            pose proof (passLoop_sameButErr code f g0 g0') as Hloop
      end
  end.
  destruct Hloop as [Hok Hsame]; [now repeat split |].
  destruct (V2.passLoop _ code _) as [g1 ok] in Hok, Hsame |- *.
  destruct (V2.passLoop _ code _) as [g1' ok'] in Hok, Hsame |- *.
  cbn in Hok, Hsame. subst ok'. destruct Hsame as (Hs & Hsh & Hc).
  apply (f_equal V2.currentPass) in Hs as Hcp.
  apply (f_equal V2.passMask) in Hs as Hm.
  apply (f_equal V2.newParams) in Hs as Hn.
  cbn in Hcp, Hm, Hn.
  destruct ok; cbn.
  - rewrite Hm. destruct (negb (V2.passMask g1'.(V2.vars) =? 0)); cbn;
      repeat split; auto.
  - repeat split; auto.
Qed.

Lemma generate_sameVars code s s' :
  sameVars s s' ->
  V2.m_passCount (V2.generate code s) = V2.m_passCount (V2.generate code s').
Proof.
  intros Hs.
  destruct (generate_err_irrelevant code s []) as [<- _].
  destruct (generate_err_irrelevant code s' []) as [<- _].
  unfold sameVars in Hs. now rewrite Hs.
Qed.

(** The analysis of the lexemes never reads the diagnostics. *)
Lemma evalToken_sameVars s s' key value :
  sameVars s s' ->
  sameVars (V2.evalToken s key value) (V2.evalToken s' key value).
Proof.
  unfold sameVars. destruct s, s'. cbn.
  intros Hs. injection Hs as <- <- <- <- <- <- <- <- <- <- <- <- <- <-.
  unfold V2.evalToken. unfold_conditions.
  key_cases key; cbn.
  all: try (destruct param as [i |]; cbn).
  all: try (destruct value as [v |]; cbn).
  all: repeat match goal with
       | |- context [if snd (strtof ?v) then _ else _] =>
           destruct (snd (strtof v)); cbn
       | |- context [GLSLToken.eqb ?a ?b] =>
           destruct (GLSLToken.eqb a b); cbn
       end.
  all: unfold V2.setCoordMode, V2.setTexFilter.
  all: repeat match goal with
       | |- context [(?a =? ?b)%string] => destruct (a =? b)%string; cbn
       end.
  all: reflexivity.
Qed.

Lemma parseDefault_sameVars s s' token :
  sameVars s s' ->
  sameVars (V2.parseDefault s token) (V2.parseDefault s' token).
Proof.
  unfold sameVars. destruct s, s'. cbn.
  intros Hs. injection Hs as <- <- <- <- <- <- <- <- <- <- <- <- <- <-.
  unfold V2.parseDefault, V2.hasParam, V2.onParam. cbn.
  destruct (strtof token) as [f whole].
  destruct param as [i |], inParamStatement, (0 <=? paramValueIndex),
    (paramValueIndex <? 4), whole; reflexivity.
Qed.

Lemma passDefinition_sameVars s s' :
  sameVars s s' ->
  V2.isPassPattern s = V2.isPassPattern s'
  /\ sameVars (V2.passDefinition s) (V2.passDefinition s').
Proof.
  unfold sameVars. destruct s, s'. cbn.
  intros Hs. injection Hs as <- <- <- <- <- <- <- <- <- <- <- <- <- <-.
  split; [reflexivity |].
  unfold V2.passDefinition, V2.selectPass, V2.ttAt. cbn.
  destruct (nth 2 tt GLSLToken.Other); cbn; try reflexivity.
  all: match goal with
       | |- context [if ?c then _ else _] => destruct c
       end; reflexivity.
Qed.

Lemma handleToken_sameVars s s' token :
  sameVars s s' ->
  sameVars (V2.handleToken s token) (V2.handleToken s' token).
Proof.
  intros Hs. unfold V2.handleToken.
  generalize (lookup tokenMap token). intros newTT.
  generalize (contains "=" token) (contains ";" token). intros hasEq hasSemi.
  destruct (GLSLToken.eqb newTT GLSLToken.Ignored); [exact Hs |].
  assert (Hpush : sameVars (V2.pushHistory newTT s) (V2.pushHistory newTT s')).
  { unfold sameVars in *. destruct s, s'. cbn in *.
    injection Hs as <- <- <- <- <- <- <- <- <- <- <- <- <- <-. reflexivity. }
  revert Hpush.
  generalize (V2.pushHistory newTT s) (V2.pushHistory newTT s').
  clear s s' Hs. intros s s' Hs.
  pose proof (parseDefault_sameVars s s' token Hs) as Hpd.
  destruct (passDefinition_sameVars _ _ Hpd) as [Hpat Hdef].
  rewrite <- Hpat.
  destruct (V2.isPassPattern (V2.parseDefault s token)).
  all: revert Hpd Hdef;
       generalize (V2.passDefinition (V2.parseDefault s token))
                  (V2.passDefinition (V2.parseDefault s' token));
       intros d d';
       generalize (V2.parseDefault s token) (V2.parseDefault s' token);
       intros q q' Hq Hd.
  all: unfold sameVars in *; destruct s, s', q, q', d, d'; cbn in *.
  all: injection Hs as <- <- <- <- <- <- <- <- <- <- <- <- <- <-.
  all: injection Hq as <- <- <- <- <- <- <- <- <- <- <- <- <- <-.
  all: injection Hd as <- <- <- <- <- <- <- <- <- <- <- <- <- <-.
  all: unfold V2.ttAt, V2.newUniform, V2.hasParam, V2.ttAt; cbn.
  all: destruct (GLSLToken.eqb _ GLSLToken.Uniform);
       [destruct (V2.isUniformType _); reflexivity |].
  all: match goal with
       | |- context [if ?c then _ else _] => destruct c; [reflexivity |]
       end.
  all: destruct hasSemi; reflexivity.
Qed.

Lemma handleComment_sameVars s s' multi comment :
  sameVars s s' ->
  sameVars (V2.handleComment s multi comment)
           (V2.handleComment s' multi comment).
Proof.
  intros Hs. unfold V2.handleComment.
  destruct (commentContent multi comment) as [prev content].
  unfold extractTokens.
  assert (Hloop : forall fuel s s' prev kept rest,
             sameVars s s' ->
             sameVars (fst (tokenLoop V2.evalToken fuel s prev kept rest))
                      (fst (tokenLoop V2.evalToken fuel s' prev kept rest))
             /\ snd (tokenLoop V2.evalToken fuel s prev kept rest)
                = snd (tokenLoop V2.evalToken fuel s' prev kept rest)).
  { induction fuel as [| fuel IH]; intros a a' p k r Ha; [now split |].
    cbn. destruct r as [| c r]; [now split |].
    destruct (c =? "@")%char; [| now apply IH].
    destruct (isalnum p); [now apply IH |].
    destruct (splitToken r) as [[key value] r'].
    apply IH. now apply evalToken_sameVars. }
  destruct (Hloop (String.length content) s s' prev EmptyString content Hs)
    as [Hst Htext].
  destruct (tokenLoop V2.evalToken _ s prev EmptyString content) as [s1 t1].
  destruct (tokenLoop V2.evalToken _ s' prev EmptyString content) as [s1' t1'].
  cbn [fst snd] in Hst, Htext. subst t1'.
  unfold sameVars in *. destruct s1, s1'. cbn in *.
  injection Hst as <- <- <- <- <- <- <- <- <- <- <- <- <- <-.
  unfold V2.onParam. cbn.
  destruct param; [destruct (_ =? _)%string |]; reflexivity.
Qed.

Lemma analyze_sameVars lexemes :
  forall s s', sameVars s s' ->
               sameVars (V2.analyze lexemes s) (V2.analyze lexemes s').
Proof.
  induction lexemes as [| x lexemes IH]; intros s s' Hs; [exact Hs |].
  cbn. apply IH. destruct x as [multi comment | token]; cbn.
  - now apply handleComment_sameVars.
  - now apply handleToken_sameVars.
Qed.

End ErrIrrelevant.

(* --------------------------------------------------------------------- *)
(** ** Token types that differ                                            *)
(* --------------------------------------------------------------------- *)

Section TokenEquality.
Context `{Extern}.
Implicit Types (s : V2.LoadState).

Lemma GLSLToken_eqb_neq (x y : GLSLToken.t) :
  x <> y -> GLSLToken.eqb x y = false.
Proof.
  intros Hne. destruct x, y; try reflexivity; now contradiction Hne.
Qed.

End TokenEquality.

(* --------------------------------------------------------------------- *)
(** ** The pass mask                                                      *)
(* --------------------------------------------------------------------- *)

(** The mask arithmetic of the pass loop on the sixteen masks of four
    passes: the loop leaves at the first pass that was not declared, and
    what is left of the mask tells whether a pass behind the gap was
    declared. *)
Lemma loopEnd_spec mask :
  0 <= mask < 16 ->
  snd (loopEnd (Z.to_nat MaxPasses) mask 0) = contiguousPrefix mask
  /\ negb (fst (loopEnd (Z.to_nat MaxPasses) mask 0) =? 0)
     = declaredBehindGap mask
  /\ (Z.land mask 1 =? 0) = negb (declared mask 0)
  /\ 0 <= contiguousPrefix mask <= MaxPasses.
Proof.
  intros Hm.
  assert (Hcases : mask = 0 \/ mask = 1 \/ mask = 2 \/ mask = 3 \/ mask = 4
                   \/ mask = 5 \/ mask = 6 \/ mask = 7 \/ mask = 8 \/ mask = 9
                   \/ mask = 10 \/ mask = 11 \/ mask = 12 \/ mask = 13
                   \/ mask = 14 \/ mask = 15) by lia.
  repeat (destruct Hcases as [-> | Hcases];
          [vm_compute; repeat split; congruence |]).
  subst mask. vm_compute; repeat split; congruence.
Qed.

Lemma lor_pass_range mask cp :
  0 <= mask < 16 -> 0 <= cp < 4 -> 0 <= Z.lor mask (Z.shiftl 1 cp) < 16.
Proof.
  intros Hm Hc.
  assert (Hcp : cp = 0 \/ cp = 1 \/ cp = 2 \/ cp = 3) by lia.
  assert (Hcases : mask = 0 \/ mask = 1 \/ mask = 2 \/ mask = 3 \/ mask = 4
                   \/ mask = 5 \/ mask = 6 \/ mask = 7 \/ mask = 8 \/ mask = 9
                   \/ mask = 10 \/ mask = 11 \/ mask = 12 \/ mask = 13
                   \/ mask = 14 \/ mask = 15) by lia.
  destruct Hcp as [-> | [-> | [-> | ->]]];
    repeat (destruct Hcases as [-> | Hcases]; [cbn; lia |]);
    subst mask; cbn; lia.
Qed.

Lemma loopEnd_ge fuel : forall mask k, k <= snd (loopEnd fuel mask k).
Proof.
  induction fuel as [| fuel IH]; intros mask k; cbn; [lia |].
  destruct ((k <? MaxPasses) && negb (Z.land (Z.shiftr mask k) 1 =? 0));
    cbn; [| lia].
  specialize (IH (Z.land mask (Z.lnot (Z.shiftl 1 k))) (k + 1)). lia.
Qed.

Section PassMask.
Context `{Extern}.
Implicit Types (s : V2.LoadState).

Lemma parseDefault_passMask s token :
  V2.passMask (V2.parseDefault s token) = V2.passMask s.
Proof.
  unfold V2.parseDefault.
  destruct (V2.hasParam s && V2.inParamStatement s
            && (0 <=? V2.paramValueIndex s) && (V2.paramValueIndex s <? 4));
    [| reflexivity].
  destruct (strtof token) as [f whole]. destruct whole; [| reflexivity].
  unfold V2.onParam. destruct (V2.param s); reflexivity.
Qed.

Lemma passDefinition_passMask s :
  V2.isPassPattern s = true ->
  exists cp, 0 <= cp < 4
    /\ V2.passMask (V2.passDefinition s)
       = Z.lor (V2.passMask s) (Z.shiftl 1 cp).
Proof.
  unfold V2.isPassPattern. intros Hpat.
  apply andb_true_iff in Hpat as [Hpat _].
  apply andb_true_iff in Hpat as [Hpat _].
  apply andb_true_iff in Hpat as [_ Hrun].
  unfold V2.passDefinition, V2.selectPass.
  destruct (V2.ttAt s 2) eqn:Ht; cbn in Hrun; try discriminate Hrun.
  - exists 0. split; [lia | reflexivity].
  - exists 0. split; [lia | reflexivity].
  - exists 1. split; [lia | reflexivity].
  - exists 2. split; [lia | reflexivity].
  - exists 3. split; [lia | reflexivity].
Qed.

Lemma handleToken_passMask_range s token :
  0 <= V2.passMask s < 16 -> 0 <= V2.passMask (V2.handleToken s token) < 16.
Proof.
  intros Hm. unfold V2.handleToken.
  destruct (GLSLToken.eqb (lookup tokenMap token) GLSLToken.Ignored);
    [exact Hm |].
  set (s1 := V2.pushHistory (lookup tokenMap token) s).
  assert (H1 : V2.passMask s1 = V2.passMask s) by reflexivity.
  destruct (GLSLToken.eqb (V2.ttAt s1 2) GLSLToken.Uniform).
  { unfold V2.newUniform. destruct (V2.isUniformType (V2.ttAt s1 1)); exact Hm. }
  destruct (V2.hasParam s1 && V2.inParamStatement s1
            && (V2.paramValueIndex s1 <? 0) && contains "=" token);
    [exact Hm |].
  destruct (contains ";" token).
  { cbn. rewrite parseDefault_passMask. exact Hm. }
  destruct (V2.isPassPattern (V2.parseDefault s1 token)) eqn:Hpat.
  - destruct (passDefinition_passMask _ Hpat) as (cp & Hcp & ->).
    rewrite parseDefault_passMask, H1. now apply lor_pass_range.
  - rewrite parseDefault_passMask. exact Hm.
Qed.

Lemma analyze_passMask_range lexemes :
  forall s, 0 <= V2.passMask s < 16 ->
            0 <= V2.passMask (V2.analyze lexemes s) < 16.
Proof.
  induction lexemes as [| x lexemes IH]; intros s Hm; [exact Hm |].
  cbn [V2.analyze fold_left]. apply IH.
  destruct x as [multi comment | token]; cbn [V2.handleLexeme].
  - now rewrite handleComment_passMask.
  - now apply handleToken_passMask_range.
Qed.

End PassMask.

(* --------------------------------------------------------------------- *)
(** ** The fuel of the pass loop                                          *)
(* --------------------------------------------------------------------- *)

Section PassLoopFuel.
Context `{Extern}.
Implicit Types (g : V2.Gen).

Lemma passBody_currentPass code g :
  V2.currentPass (V2.vars (fst (V2.passBody code g)))
  = V2.currentPass (V2.vars g).
Proof.
  unfold V2.passBody, V2.logged.
  destruct (negb (PassInput.isCoord _));
    destruct (negb (good (fs_compile _)));
    destruct (haveLog (fs_compile _));
    try destruct (haveLog (prog_link _)); reflexivity.
Qed.

(** The fuel of the pass loop is enough: [currentPass] grows by one per
    turn and the loop is left when it reaches [MaxPasses], so more fuel
    than the passes that are left changes nothing. *)
Lemma passLoop_enough code fuel :
  forall g,
    MaxPasses - V2.currentPass (V2.vars g) <= Z.of_nat fuel ->
    V2.passLoop (S fuel) code g = V2.passLoop fuel code g.
Proof.
  induction fuel as [| fuel IH]; intros g Hg.
  - cbn. unfold V2.passDeclared.
    destruct (Z.ltb_spec (V2.currentPass (V2.vars g)) MaxPasses);
      [unfold MaxPasses in *; lia | reflexivity].
  - change (V2.passLoop (S (S fuel)) code g)
      with (if V2.passDeclared (V2.vars g)
            then let (g1, ok) := V2.passBody code g in
                 if ok
                 then V2.passLoop (S fuel) code
                        {| V2.vars := V2.set_currentPass
                                        (V2.currentPass (V2.vars g1) + 1)
                                        (V2.vars g1);
                           V2.shader := V2.shader g1;
                           V2.compiled := V2.compiled g1 |}
                 else (g1, false)
            else (g, true)).
    cbn [V2.passLoop].
    destruct (V2.passDeclared (V2.vars g)); [| reflexivity].
    pose proof (passBody_currentPass code g) as Hcp.
    destruct (V2.passBody code g) as [g1 ok]. cbn [fst] in Hcp.
    destruct ok; [| reflexivity].
    apply IH. cbn [V2.vars V2.currentPass V2.set_currentPass].
    rewrite Hcp. lia.
Qed.

End PassLoopFuel.

(* --------------------------------------------------------------------- *)
(** ** Pass assembly                                                      *)
(* --------------------------------------------------------------------- *)

Section Assembly.
Context `{Extern}.
Implicit Types (s : V2.LoadState) (g : V2.Gen).

(** C8: the text that is compiled for a pass ends with the output
    statement of that pass.  For a pass that returns RGB the call of the
    entry point is wrapped in [vec4(..., 1.0)] when the input is the
    position and in [vec4(..., color.a)] when the input is a colour,
    where [color] is the source pixel fetched in the prologue; for a
    pass that returns RGBA the call is not wrapped. *)
Theorem rgb_output_is_coerced code g singlePass currentPass input :
  V2.compiled (fst (V2.passBody code g))
  = V2.compiled g
    ++ [(V2.shader g
         ++ V2.boilerplate (V2.currentPass (V2.vars g))
              (V2.inputs (V2.vars g) (V2.currentPass (V2.vars g))) code
         ++ V2.prologue (V2.inputs (V2.vars g) (V2.currentPass (V2.vars g)))
         ++ V2.outputStatement (V2.singlePass (V2.vars g))
              (V2.currentPass (V2.vars g))
              (V2.inputs (V2.vars g) (V2.currentPass (V2.vars g)))
              (V2.outputs (V2.vars g) (V2.currentPass (V2.vars g))))%string]
  /\ V2.outputStatement singlePass currentPass PassInput.Coord PassOutput.RGB
     = ("  gips_frag = vec4(" ++ V2.entryPoint singlePass currentPass
        ++ "(gips_pos), 1.0);" ++ nl ++ "}" ++ nl)%string
  /\ V2.outputStatement singlePass currentPass PassInput.RGB PassOutput.RGB
     = ("  gips_frag = vec4(" ++ V2.entryPoint singlePass currentPass
        ++ "(color.rgb), color.a);" ++ nl ++ "}" ++ nl)%string
  /\ V2.outputStatement singlePass currentPass PassInput.RGBA PassOutput.RGB
     = ("  gips_frag = vec4(" ++ V2.entryPoint singlePass currentPass
        ++ "(color), color.a);" ++ nl ++ "}" ++ nl)%string
  /\ (input <> PassInput.Coord ->
      V2.prologue input
      = (nl ++ "#line 9000 0" ++ nl ++ "void main() {" ++ nl
         ++ "  vec4 color = texture(gips_tex, gips_pos);" ++ nl)%string)
  /\ V2.outputStatement singlePass currentPass input PassOutput.RGBA
     = ("  gips_frag = " ++ V2.entryPoint singlePass currentPass
        ++ V2.entryArgument input ++ ";" ++ nl ++ "}" ++ nl)%string.
Proof.
  split; [| split; [| split; [| split; [| split]]]];
    try reflexivity.
  - destruct g as [s sh c]. destruct s.
    unfold V2.passBody, V2.logged. cbn -[V2.passText append].
    destruct (PassInput.isCoord (inputs currentPass0));
      cbn -[V2.passText append].
    all: match goal with
         | |- context [fs_compile ?t] => destruct (good (fs_compile t))
         end; reflexivity.
  - intros Hin. destruct input; [now contradiction Hin | reflexivity ..].
Qed.

(** The pass loop leaves the coordinate mode of a position pass as the
    analysis has set it. *)
Lemma passBody_keeps_coordMode code g k :
  V2.inputs (V2.vars g) k = PassInput.Coord ->
  V2.inputs (V2.vars (fst (V2.passBody code g))) = V2.inputs (V2.vars g)
  /\ Pass.coordMode (V2.m_passes (V2.vars (fst (V2.passBody code g))) k)
     = Pass.coordMode (V2.m_passes (V2.vars g) k).
Proof.
  destruct g as [s sh c]. destruct s. cbn [V2.vars V2.inputs V2.m_passes].
  intros Hk.
  unfold V2.passBody, V2.logged. cbn -[V2.passText append].
  destruct (PassInput.isCoord (inputs currentPass)) eqn:Hcp;
    cbn -[V2.passText append].
  all: match goal with
       | |- context [fs_compile ?t] =>
           destruct (fs_compile t) as [gd hl lg];
           destruct (prog_link t) as [gd' hl' lg']
       end.
  all: destruct gd, hl, gd', hl'; cbn -[V2.passText append].
  all: split; [reflexivity |]; try reflexivity.
  all: unfold upd; destruct (Z.eqb_spec k currentPass) as [-> | Hne];
       [rewrite Hk in Hcp; discriminate Hcp | reflexivity].
Qed.

Lemma passLoop_keeps_coordMode code k fuel :
  forall g,
    V2.inputs (V2.vars g) k = PassInput.Coord ->
    V2.inputs (V2.vars (fst (V2.passLoop fuel code g))) = V2.inputs (V2.vars g)
    /\ Pass.coordMode (V2.m_passes (V2.vars (fst (V2.passLoop fuel code g))) k)
       = Pass.coordMode (V2.m_passes (V2.vars g) k).
Proof.
  induction fuel as [| fuel IH]; intros g Hk; [now split |].
  cbn [V2.passLoop].
  destruct (V2.passDeclared (V2.vars g)); [| now split].
  destruct (passBody_keeps_coordMode code g k Hk) as [Hin Hmode].
  destruct (V2.passBody code g) as [g1 ok]. cbn [fst] in *.
  destruct ok; [| now split].
  match goal with
  | |- context [V2.passLoop fuel code ?g2'] => set (g2 := g2')
  end.
  assert (Hin2 : V2.inputs (V2.vars g2) = V2.inputs (V2.vars g)) by exact Hin.
  assert (Hmode2 : Pass.coordMode (V2.m_passes (V2.vars g2) k)
                   = Pass.coordMode (V2.m_passes (V2.vars g) k)) by exact Hmode.
  destruct (IH g2) as [Hin3 Hmode3]; [now rewrite Hin2 |].
  split; [now rewrite Hin3 | now rewrite Hmode3].
Qed.

Lemma generate_keeps_coordMode code s k :
  V2.inputs s k = PassInput.Coord ->
  Pass.coordMode (V2.passes (V2.generate code s) k)
  = Pass.coordMode (V2.m_passes s k).
Proof.
  intros Hk. unfold V2.generate.
  match goal with
  | |- context [if ?c then _ else _] => destruct c; [reflexivity |]
  end.
  match goal with
  | |- context [V2.passLoop ?f code ?g0'] => set (g0 := g0'); set (fuel := f)
  end.
  destruct (passLoop_keeps_coordMode code k fuel g0 Hk) as [_ Hmode].
  destruct (V2.passLoop fuel code g0) as [g ok]. cbn [fst] in Hmode.
  destruct ok; [| exact Hmode].
  destruct (negb (V2.passMask (V2.vars g) =? 0)); exact Hmode.
Qed.

(** What the analysis does with a pass that takes the position and that
    no coordinate annotation precedes: the pass is given the coordinate
    mode Pixel, the value that the local variable [coordMode] is
    initialised with.  The lexemes are those of
    [vec4 run(vec2 x){ return vec4(0); }], which is none of the texts
    that this version of [Node::load] analyses. *)
Example position_pass_without_annotation code i0 o0 p0 :
  V2.coordMode (V2.initial i0 o0 p0) = CoordMapMode.Pixel
  /\ Pass.coordMode (V2.passes (V2.load code coordShader i0 o0 p0) 0)
     = CoordMapMode.Pixel.
Proof.
  split; [reflexivity |].
  unfold V2.load. rewrite generate_keeps_coordMode; reflexivity.
Qed.

End Assembly.

(* --------------------------------------------------------------------- *)
(** ** A uniform with a default value and no comment                      *)
(* --------------------------------------------------------------------- *)

Section UniformDefault.
Context `{Extern}.

Lemma generate_params code (s : V2.LoadState) :
  V2.m_params (V2.generate code s)
  = map GParameter.finalize (V2.newParams s).
Proof.
  unfold V2.generate.
  match goal with
  | |- context [if ?c then _ else _] => destruct c; [reflexivity |]
  end.
  match goal with
  | |- context [V2.passLoop ?f code ?g0'] => set (g0 := g0'); set (fuel := f)
  end.
  assert (Hloop : forall n g,
             V2.newParams (V2.vars (fst (V2.passLoop n code g)))
             = V2.newParams (V2.vars g)).
  { induction n as [| n IH]; intros g; [reflexivity |].
    cbn [V2.passLoop]. destruct (V2.passDeclared (V2.vars g)); [| reflexivity].
    assert (Hbody : V2.newParams (V2.vars (fst (V2.passBody code g)))
                    = V2.newParams (V2.vars g)).
    { unfold V2.passBody, V2.logged.
      destruct (negb (PassInput.isCoord _));
        destruct (negb (good (fs_compile _)));
        destruct (haveLog (fs_compile _));
        try destruct (haveLog (prog_link _)); reflexivity. }
    destruct (V2.passBody code g) as [g1 ok]. cbn [fst] in *.
    destruct ok; [| exact Hbody].
    rewrite IH. exact Hbody. }
  specialize (Hloop fuel g0).
  destruct (V2.passLoop fuel code g0) as [g ok]. cbn [fst] in Hloop.
  destruct ok; [| exact Hloop].
  destruct (negb (V2.passMask (V2.vars g) =? 0)); exact Hloop.
Qed.

(** C3 (amended): for [uniform vec3 c = vec3(1,0,0);] with no comment
    behind it both variants produce one parameter named [c] with the
    empty description and the default value (1,0,0); its semantic type
    is RGB in the older variant and Value3 in the richer one, where RGB
    has to be asked for with [@color]. *)
Theorem uniform_vec3_parameter (one zero : float) code i0 o0 p0 :
  strtof "1" = (one, true) ->
  strtof "0" = (zero, true) ->
  (forall t, In t ["vec3"; "("; ","; ");"] -> snd (strtof t) = false) ->
  V2.m_params (V2.load code uniformVec3 i0 o0 p0)
  = [ {| GParameter.m_name := "c";
         GParameter.m_desc := EmptyString;
         GParameter.m_type := ParameterType.Value3;
         GParameter.m_value := [one; zero; zero; fzero];
         GParameter.m_minValue := fzero;
         GParameter.m_maxValue := fone;
         GParameter.m_format := autoFormat fzero fone |} ]
  /\ V1.newParams (V1.analyze uniformVec3 (V1.initial i0 o0))
     = [ {| GParameter.m_name := "c";
            GParameter.m_desc := EmptyString;
            GParameter.m_type := ParameterType.RGB;
            GParameter.m_value := [one; zero; zero; fzero];
            GParameter.m_minValue := fzero;
            GParameter.m_maxValue := fone;
            GParameter.m_format := EmptyString |} ].
Proof.
  intros H1 H0 Hnon.
  assert (Hfalse : forall t, In t ["vec3"; "("; ","; ");"] ->
                             exists f, strtof t = (f, false)).
  { intros t Ht. specialize (Hnon t Ht).
    destruct (strtof t) as [f w]. cbn in *. subst w. now exists f. }
  destruct (Hfalse "vec3" ltac:(cbn; auto)) as [fv Ev].
  destruct (Hfalse "(" ltac:(cbn; auto)) as [fo Eo].
  destruct (Hfalse "," ltac:(cbn; auto)) as [fc Ec].
  destruct (Hfalse ");" ltac:(cbn; auto 6)) as [fe Ee].
  clear Hnon Hfalse.
  split.
  - unfold V2.load. rewrite generate_params.
    unfold V2.analyze, uniformVec3. cbn [fold_left].
    do 12 eval_innermost_token.
    reflexivity.
  - unfold V1.analyze, uniformVec3. cbn [fold_left].
    do 12 eval_innermost_token.
    reflexivity.
Qed.

End UniformDefault.

(* --------------------------------------------------------------------- *)
(** ** Instances on concrete inputs                                       *)
(* --------------------------------------------------------------------- *)

(** C7 on a pipeline of three nodes with stage 2 shown. *)
Lemma remove_renumbers_show_index_witness :
  0 < 2 <= Pipeline.nodeCount (App.m_pipeline (testApp ["a"; "b"; "c"] 2))
  /\ App.m_showIndex
       (@App.remove string testAppExtern (testApp ["a"; "b"; "c"] 2) 2) = 1.
Proof.
  assert (Hv : 0 < 2 <= Pipeline.nodeCount
                          (App.m_pipeline (testApp ["a"; "b"; "c"] 2)))
    by (cbn; lia).
  split; [exact Hv |].
  destruct (@remove_renumbers_show_index string testAppExtern
              (testApp ["a"; "b"; "c"] 2) 2 Hv)
    as (_ & _ & _ & _ & _ & _ & Hex).
  apply Hex; reflexivity.
Defined.

(** C6 on a pipeline of three nodes with stage 3 shown. *)
Lemma insert_renumbers_show_index_witness :
  @loadNode string testAppExtern "d" = Some "d"
  /\ App.m_showIndex
       (@App.insert string testAppExtern (testApp ["a"; "b"; "c"] 3) "d" 2) = 4.
Proof.
  split; [reflexivity |].
  destruct (@insert_renumbers_show_index string testAppExtern
              (testApp ["a"; "b"; "c"] 3) "d" 2 "d" eq_refl)
    as (_ & _ & Hex).
  apply Hex; [reflexivity | reflexivity | cbn; lia].
Defined.

(** C6 as the specification words it fails when the node is appended:
    with two nodes and the last stage shown, an insert with the index 0
    puts the node at place 3 and moves the show index from 2 to 3,
    although 2 is below the insertion point 3; with stage 1 shown the
    show index stays 1, although 1 is not below the index 0 that was
    asked for. *)
Lemma insert_show_index_counterexample :
  App.nodes (@App.insert string testAppExtern (testApp ["a"; "b"] 2) "c" 0)
  = ["a"; "b"; "c"]
  /\ App.m_showIndex
       (@App.insert string testAppExtern (testApp ["a"; "b"] 2) "c" 0)
     <> spec_insert_showIndex 3 2
  /\ App.m_showIndex
       (@App.insert string testAppExtern (testApp ["a"; "b"] 1) "c" 0)
     <> spec_insert_showIndex 0 1.
Proof.
  split; [reflexivity |].
  split; vm_compute; intros Heq; discriminate Heq.
Qed.

(** C1 on a pipeline of four nodes: the first node moves to place 3
    while stage 2 is shown. *)
Lemma move_renumbers_show_index_witness :
  0 < 1 <= Pipeline.nodeCount (App.m_pipeline (testApp ["a"; "b"; "c"; "d"] 2))
  /\ 0 < 3 <= Pipeline.nodeCount (App.m_pipeline (testApp ["a"; "b"; "c"; "d"] 2))
  /\ 1 <> 3
  /\ App.m_showIndex
       (@App.move string testAppExtern (testApp ["a"; "b"; "c"; "d"] 2) 1 3) = 1.
Proof.
  assert (Hf : 0 < 1 <= Pipeline.nodeCount
                          (App.m_pipeline (testApp ["a"; "b"; "c"; "d"] 2)))
    by (cbn; lia).
  assert (Ht : 0 < 3 <= Pipeline.nodeCount
                          (App.m_pipeline (testApp ["a"; "b"; "c"; "d"] 2)))
    by (cbn; lia).
  assert (Hne : 1 <> 3) by lia.
  split; [exact Hf |]. split; [exact Ht |]. split; [exact Hne |].
  destruct (@move_renumbers_show_index string testAppExtern
              (testApp ["a"; "b"; "c"; "d"] 2) 1 3 Hf Ht Hne)
    as (_ & _ & _ & _ & _ & Hshow & _).
  rewrite Hshow. reflexivity.
Defined.

(** C1 as the specification words it fails when the shown stage is the
    moved node: the show index stays at 1 and does not travel to 3. *)
Lemma move_show_index_counterexample :
  App.nodes (@App.move string testAppExtern (testApp ["a"; "b"; "c"] 1) 1 3)
  = ["b"; "c"; "a"]
  /\ App.m_showIndex
       (@App.move string testAppExtern (testApp ["a"; "b"; "c"] 1) 1 3) = 1
  /\ spec_move_showIndex 1 3 1 = 3
  /\ App.m_showIndex
       (@App.move string testAppExtern (testApp ["a"; "b"; "c"] 1) 1 3)
     <> spec_move_showIndex 1 3 1.
Proof.
  split; [reflexivity |]. split; [reflexivity |]. split; [reflexivity |].
  vm_compute. intros Heq. discriminate Heq.
Qed.

(** C3 with the concrete C library. *)
Lemma uniform_vec3_parameter_witness :
  @strtof testExtern "1" = (1, true)
  /\ @strtof testExtern "0" = (0, true)
  /\ (forall t, In t ["vec3"; "("; ","; ");"] ->
                snd (@strtof testExtern t) = false)
  /\ map GParameter.m_value
       (V2.m_params (@V2.load testExtern uniformVec3Code uniformVec3
                       inputs0 outputs0 passes0))
     = [[1; 0; 0; 0]].
Proof.
  assert (Hnon : forall t, In t ["vec3"; "("; ","; ");"] ->
                           snd (@strtof testExtern t) = false).
  { intros t [<- | [<- | [<- | [<- | []]]]]; reflexivity. }
  split; [reflexivity |]. split; [reflexivity |]. split; [exact Hnon |].
  destruct (@uniform_vec3_parameter testExtern 1 0 uniformVec3Code
              inputs0 outputs0 passes0 eq_refl eq_refl Hnon) as [Hnew _].
  rewrite Hnew. reflexivity.
Defined.

(** C3 as the specification words it fails in the richer variant: the
    parameter has the type Value3, not RGB. *)
Lemma uniform_vec3_type_counterexample :
  map GParameter.m_type
    (V2.m_params (@V2.load testExtern uniformVec3Code uniformVec3
                    inputs0 outputs0 passes0))
  = [ParameterType.Value3]
  /\ map GParameter.m_type
       (V2.m_params (@V2.load testExtern uniformVec3Code uniformVec3
                       inputs0 outputs0 passes0))
     <> [ParameterType.RGB].
Proof.
  split; [reflexivity |].
  vm_compute. intros Heq. discriminate Heq.
Qed.

(** C4 as the specification words it fails for a key of the table:
    [@rgb] in a comment of the richer variant is reported as an
    unrecognized token.  It also fails for every key behind the first
    load that has evaluated a token: the helpers are those of that
    load, and the evaluation of [@min=0] has no result. *)
Lemma rgb_key_counterexample :
  In "rgb" documentedKeys
  /\ option_map V2.err
       (@V2.handleCommentWith testExtern OwnHelpers atStart false "// @rgb")
     = Some [UnrecognizedToken "rgb"]
  /\ In "min" documentedKeys
  /\ helpersAfter OwnHelpers [Comment false "// @min=0"] = ForeignHelpers
  /\ @V2.handleCommentWith testExtern
       (helpersAfter OwnHelpers [Comment false "// @min=0"])
       atStart false "// @min=0"
     = Datatypes.None.
Proof.
  split; [cbn; tauto |]. split; [reflexivity |].
  split; [cbn; tauto |]. split; reflexivity.
Qed.

(** The header comment of the shipped filters, with its version tag, in
    the richer variant: the coordinate and filter modes are set, and
    the version tag is reported as an unrecognized token. *)
Example shipped_header_comment :
  V2.err (@V2.handleComment testExtern atStart false
            "// @gips_version=1 @coord=pixel @filter=off")
  = [UnrecognizedToken "gips_version"]
  /\ V2.coordMode (@V2.handleComment testExtern atStart false
                     "// @gips_version=1 @coord=pixel @filter=off")
     = CoordMapMode.Pixel
  /\ V2.texFilter (@V2.handleComment testExtern atStart false
                     "// @gips_version=1 @coord=pixel @filter=off")
     = false.
Proof.
  split; [reflexivity |]. split; reflexivity.
Qed.

(* ===================================================================== *)
(** * Part III: further properties of the code                            *)
(* ===================================================================== *)

(* --------------------------------------------------------------------- *)
(** ** The show index stays inside the pipeline                           *)
(* --------------------------------------------------------------------- *)

Section ShowIndexRange.
Context {Node : Type} `{AppExtern Node}.
Implicit Types (a : App.t Node).

Local Abbreviation count a := (Pipeline.nodeCount (App.m_pipeline a)).

Lemma nodeCount_addNode (p : Pipeline.t Node) filename index :
  Pipeline.nodeCount (fst (Pipeline.addNode p filename index))
  = if snd (Pipeline.addNode p filename index)
    then Pipeline.nodeCount p + 1 else Pipeline.nodeCount p.
Proof.
  unfold Pipeline.addNode, Pipeline.nodeCount.
  destruct (loadNode filename) as [n |]; [| reflexivity].
  destruct ((0 <=? index)
            && (index <? Z.of_nat (List.length (Pipeline.m_nodes p)))); cbn.
  - rewrite length_insert_at. lia.
  - rewrite length_app. cbn. lia.
Qed.

Lemma nodeCount_removeNode (p : Pipeline.t Node) index :
  0 <= index < Pipeline.nodeCount p ->
  Pipeline.nodeCount (Pipeline.removeNode p index) = Pipeline.nodeCount p - 1.
Proof.
  unfold Pipeline.removeNode, Pipeline.nodeCount. cbn. intros Hi.
  rewrite length_remove_at by lia. lia.
Qed.

Lemma nodeCount_moveNode (p : Pipeline.t Node) fromIndex toIndex :
  0 <= fromIndex < Pipeline.nodeCount p ->
  Pipeline.nodeCount (Pipeline.moveNode p fromIndex toIndex)
  = Pipeline.nodeCount p.
Proof.
  unfold Pipeline.moveNode, Pipeline.nodeCount. intros Hi.
  destruct (nth_error (Pipeline.m_nodes p) (Z.to_nat fromIndex)); [| reflexivity].
  cbn. rewrite length_insert_at, length_remove_at by lia. lia.
Qed.

Lemma nodeCount_reloadNodeAt (p : Pipeline.t Node) index :
  Pipeline.nodeCount (Pipeline.reloadNodeAt p index) = Pipeline.nodeCount p.
Proof.
  unfold Pipeline.reloadNodeAt, Pipeline.nodeCount. cbn.
  now rewrite length_modify_nth.
Qed.

(** X1: whatever the request is, [handlePCR] keeps the show index
    between the input stage 0 and the last stage of the pipeline. *)
Theorem handlePCR_keeps_show_index_in_range a :
  0 <= App.m_showIndex a <= count a ->
  0 <= App.m_showIndex (fst (App.handlePCR a))
    <= count (fst (App.handlePCR a)).
Proof.
  intros Hs. unfold App.handlePCR, App.dispatchPCR.
  destruct (PipelineChangeRequest.type (App.m_pcr a)); cbn [fst].
  - exact Hs.
  - (* InsertNode *)
    set (i := PipelineChangeRequest.nodeIndex (App.m_pcr a)).
    set (path := PipelineChangeRequest.path (App.m_pcr a)).
    destruct ((0 <? i) && (i <=? count a)).
    + pose proof (nodeCount_addNode (App.m_pipeline a) path (i - 1)) as Hc.
      destruct (Pipeline.addNode (App.m_pipeline a) path (i - 1)) as [p' ok].
      cbn [fst snd] in Hc.
      destruct ok; cbn [andb]; [destruct (Z.leb_spec i (App.m_showIndex a)) |];
        cbn; lia.
    + unfold Pipeline.addNodeAtEnd.
      pose proof (nodeCount_addNode (App.m_pipeline a) path (-1)) as Hc.
      destruct (Pipeline.addNode (App.m_pipeline a) path (-1)) as [p' ok].
      cbn [fst snd] in Hc.
      destruct ok; cbn [andb];
        [destruct (Z.eqb_spec (App.m_showIndex a) (count a)) |];
        cbn; lia.
  - (* ReloadNode *)
    destruct ((0 <? _) && _); cbn; [| exact Hs].
    rewrite nodeCount_reloadNodeAt. exact Hs.
  - (* RemoveNode *)
    set (i := PipelineChangeRequest.nodeIndex (App.m_pcr a)).
    destruct (Z.ltb_spec 0 i); cbn [andb]; [| exact Hs].
    destruct (Z.leb_spec i (count a)); [| exact Hs].
    pose proof (nodeCount_removeNode (App.m_pipeline a) (i - 1)) as Hc.
    destruct (Z.leb_spec i (App.m_showIndex a)); cbn; lia.
  - (* MoveNode *)
    set (i := PipelineChangeRequest.nodeIndex (App.m_pcr a)).
    set (t := PipelineChangeRequest.targetIndex (App.m_pcr a)).
    destruct (Z.ltb_spec 0 i); cbn [andb]; [| exact Hs].
    destruct (Z.leb_spec i (count a)); cbn [andb]; [| exact Hs].
    destruct (Z.eqb_spec i t); cbn [andb negb]; [exact Hs |].
    destruct (Z.ltb_spec 0 t); cbn [andb]; [| exact Hs].
    destruct (Z.leb_spec t (count a)); cbn [andb]; [| exact Hs].
    pose proof (nodeCount_moveNode (App.m_pipeline a) (i - 1) (t - 1)) as Hc.
    destruct (Z.ltb_spec (Z.min i t) (App.m_showIndex a)); cbn [andb];
      [destruct (Z.ltb_spec (App.m_showIndex a) (Z.max i t));
       [destruct (Z.ltb_spec i t) |] |]; cbn; lia.
  - (* UpdateSource *)
    destruct updateImage; exact Hs.
  - (* LoadImage *)
    destruct (loadImage _); exact Hs.
  - (* SaveResult *)
    destruct (isSaveImageFile _); exact Hs.
Qed.

(** The three ways in which [handlePCR] returns. *)
Lemma handlePCR_cases a :
  (PipelineChangeRequest.type (App.m_pcr a) = PipelineChangeRequest.None
   /\ App.handlePCR a = (a, false))
  \/ (PipelineChangeRequest.type (App.m_pcr a)
        = PipelineChangeRequest.SaveResult
      /\ isSaveImageFile (PipelineChangeRequest.path (App.m_pcr a)) = true
      /\ App.handlePCR a = (a, true))
  \/ (exists a' done, App.handlePCR a = (App.resetPCR a', done)).
Proof.
  unfold App.handlePCR.
  destruct (PipelineChangeRequest.type (App.m_pcr a)) eqn:Hty.
  1: left; split; reflexivity.
  all: destruct (App.dispatchPCR a) as [a' | [a' done]] eqn:Hd.
  all: try (right; right; exists a', done; reflexivity).
  all: unfold App.dispatchPCR in Hd; rewrite Hty in Hd.
  all: repeat match type of Hd with
       | (if ?c then _ else _) = _ => destruct c eqn:?
       | (let '(_, _) := ?c in _) = _ => destruct c
       end; try discriminate Hd.
  right; left. injection Hd as <-. repeat split; assumption.
Qed.

(** X2: a request is carried out at most once.  After [handlePCR] the
    request slot is empty, so that a second call does nothing and
    returns [false]; the one exception is a request to save to a
    supported file type, which is left in the slot, with the
    application as it is, for the caller to carry out. *)
Theorem handlePCR_consumes_the_request a :
  (PipelineChangeRequest.type (App.m_pcr a) = PipelineChangeRequest.SaveResult
   /\ isSaveImageFile (PipelineChangeRequest.path (App.m_pcr a)) = true
   /\ App.handlePCR a = (a, true))
  \/ (PipelineChangeRequest.type (App.m_pcr (fst (App.handlePCR a)))
        = PipelineChangeRequest.None
      /\ App.handlePCR (fst (App.handlePCR a))
         = (fst (App.handlePCR a), false)).
Proof.
  destruct (handlePCR_cases a)
    as [[Hty E] | [(Hty & Hs & E) | (a' & done & E)]].
  - right. rewrite E. cbn [fst]. split; [exact Hty | exact E].
  - left. repeat split; assumption.
  - right. rewrite E. cbn [fst]. split; reflexivity.
Qed.

End ShowIndexRange.

Section RequestOutcome.
Context {Node : Type} `{AppExtern Node}.
Implicit Types (a : App.t Node).

Local Abbreviation count a := (Pipeline.nodeCount (App.m_pipeline a)).

(** X3: when [handlePCR] returns [false], the nodes of the pipeline and
    the show index are what they were: a reload, remove or move request
    whose index is out of range (or a move onto itself) is dropped
    without touching the pipeline. *)
Theorem handlePCR_false_keeps_the_pipeline a :
  snd (App.handlePCR a) = false ->
  App.nodes (fst (App.handlePCR a)) = App.nodes a
  /\ App.m_showIndex (fst (App.handlePCR a)) = App.m_showIndex a.
Proof.
  unfold App.handlePCR, App.dispatchPCR.
  destruct (PipelineChangeRequest.type (App.m_pcr a)); cbn [fst snd].
  1: intros _; split; reflexivity.
  all: repeat match goal with
       | |- context [if ?c then _ else _] => destruct c
       | |- context [let '(_, _) := ?c in _] => destruct c
       end; cbn [fst snd]; try discriminate.
  all: intros _; split; reflexivity.
Qed.

End RequestOutcome.

(* --------------------------------------------------------------------- *)
(** ** Requests from the context menu                                     *)
(* --------------------------------------------------------------------- *)

Lemma nth_error_Some_lt {A} (l : list A) i :
  (i < List.length l)%nat -> exists x, nth_error l i = Some x.
Proof.
  intros Hi. destruct (nth_error l i) as [x |] eqn:E; [now exists x |].
  apply nth_error_None in E. lia.
Qed.

Section ContextMenu.
Context {Node : Type} `{AppExtern Node}.
Implicit Types (a : App.t Node).

Local Abbreviation count a := (Pipeline.nodeCount (App.m_pipeline a)).

(** X4: moving a node up or down from its context menu exchanges it
    with its neighbour and leaves every other stage and the show index
    as they are (so the show index then names the neighbour when it
    named the moved node).  "move up" files nothing for the first node
    and "move down" nothing for the last one, and every request that the
    menu of a node does file is one that [handlePCR] carries out. *)
Theorem menu_move_exchanges_neighbours a nodeIndex :
  0 < nodeIndex <= count a ->
  (1 < nodeIndex ->
   let a' := fst (App.handlePCR (UI.contextMenu a nodeIndex UI.MoveUp)) in
   snd (App.handlePCR (UI.contextMenu a nodeIndex UI.MoveUp)) = true
   /\ App.m_showIndex a' = App.m_showIndex a
   /\ App.nodeAtStage a' (nodeIndex - 1) = App.nodeAtStage a nodeIndex
   /\ App.nodeAtStage a' nodeIndex = App.nodeAtStage a (nodeIndex - 1)
   /\ (forall k, k <> nodeIndex -> k <> nodeIndex - 1 ->
       App.nodeAtStage a' k = App.nodeAtStage a k))
  /\ (nodeIndex < count a ->
      let a' := fst (App.handlePCR (UI.contextMenu a nodeIndex UI.MoveDown)) in
      snd (App.handlePCR (UI.contextMenu a nodeIndex UI.MoveDown)) = true
      /\ App.m_showIndex a' = App.m_showIndex a
      /\ App.nodeAtStage a' (nodeIndex + 1) = App.nodeAtStage a nodeIndex
      /\ App.nodeAtStage a' nodeIndex = App.nodeAtStage a (nodeIndex + 1)
      /\ (forall k, k <> nodeIndex -> k <> nodeIndex + 1 ->
          App.nodeAtStage a' k = App.nodeAtStage a k))
  /\ (nodeIndex = 1 -> UI.contextMenu a nodeIndex UI.MoveUp = a)
  /\ (nodeIndex = count a -> UI.contextMenu a nodeIndex UI.MoveDown = a)
  /\ (forall item,
         UI.contextMenu a nodeIndex item = a
         \/ snd (App.handlePCR (UI.contextMenu a nodeIndex item)) = true).
Proof.
  intros Hv.
  assert (Hlen : (Z.to_nat (nodeIndex - 1) < List.length (App.nodes a))%nat).
  { unfold Pipeline.nodeCount in Hv. fold (App.nodes a) in Hv. lia. }
  destruct (nth_error_Some_lt (App.nodes a) _ Hlen) as [n Hn].
  split; [| split; [| split; [| split]]].
  - intros Hup a'. subst a'. unfold UI.contextMenu.
    destruct (Z.ltb_spec 1 nodeIndex) as [_ | ?]; [| lia].
    fold (App.move a nodeIndex (nodeIndex - 1)).
    assert (Hdone : snd (App.handlePCR
                           (App.request a PipelineChangeRequest.MoveNode
                              nodeIndex (nodeIndex - 1) EmptyString)) = true).
    { unfold App.handlePCR, App.dispatchPCR, App.request. cbn.
      rewrite (proj2 (Z.ltb_lt 0 nodeIndex)) by lia.
      rewrite (proj2 (Z.leb_le nodeIndex (count a))) by lia.
      rewrite (proj2 (Z.eqb_neq nodeIndex (nodeIndex - 1))) by lia.
      rewrite (proj2 (Z.ltb_lt 0 (nodeIndex - 1))) by lia.
      rewrite (proj2 (Z.leb_le (nodeIndex - 1) (count a))) by lia.
      reflexivity. }
    split; [exact Hdone |].
    rewrite (move_valid a nodeIndex (nodeIndex - 1) n) by (try lia; exact Hn).
    unfold Pipeline.nodeCount in Hv. fold (App.nodes a) in Hv.
    set (l := App.nodes a) in *.
    split; [| split; [| split]].
    + cbn [App.m_showIndex].
      destruct (Z.ltb_spec (Z.min nodeIndex (nodeIndex - 1)) (App.m_showIndex a));
        cbn [andb]; [| reflexivity].
      destruct (Z.ltb_spec (App.m_showIndex a) (Z.max nodeIndex (nodeIndex - 1)));
        [lia | reflexivity].
    + rewrite !nodeAtStage_nth by lia. cbn. fold l. rewrite Hn.
      apply nth_error_insert_at_eq. rewrite length_remove_at by lia. lia.
    + rewrite !nodeAtStage_nth by lia. cbn. fold l.
      replace (Z.to_nat (nodeIndex - 1))
        with (S (Z.to_nat (nodeIndex - 1 - 1))) at 2 by lia.
      rewrite nth_error_insert_at_gt
        by (try rewrite length_remove_at by lia; lia).
      apply nth_error_remove_at_lt. lia.
    + intros k Hk1 Hk2. destruct (Z.le_gt_cases k 0) as [Hk0 | Hk0].
      * now rewrite !nodeAtStage_input.
      * rewrite !nodeAtStage_nth by lia. cbn. fold l.
        destruct (Z.lt_ge_cases k nodeIndex).
        -- rewrite nth_error_insert_at_lt
             by (try rewrite length_remove_at by lia; lia).
           apply nth_error_remove_at_lt. lia.
        -- replace (Z.to_nat (k - 1)) with (S (Z.to_nat (k - 2))) by lia.
           rewrite nth_error_insert_at_gt
             by (try rewrite length_remove_at by lia; lia).
           apply nth_error_remove_at_ge. lia.
  - intros Hdown a'. subst a'. unfold UI.contextMenu.
    destruct (Z.ltb_spec nodeIndex (count a)) as [_ | ?]; [| lia].
    fold (App.move a nodeIndex (nodeIndex + 1)).
    assert (Hdone : snd (App.handlePCR
                           (App.request a PipelineChangeRequest.MoveNode
                              nodeIndex (nodeIndex + 1) EmptyString)) = true).
    { unfold App.handlePCR, App.dispatchPCR, App.request. cbn.
      rewrite (proj2 (Z.ltb_lt 0 nodeIndex)) by lia.
      rewrite (proj2 (Z.leb_le nodeIndex (count a))) by lia.
      rewrite (proj2 (Z.eqb_neq nodeIndex (nodeIndex + 1))) by lia.
      rewrite (proj2 (Z.ltb_lt 0 (nodeIndex + 1))) by lia.
      rewrite (proj2 (Z.leb_le (nodeIndex + 1) (count a))) by lia.
      reflexivity. }
    split; [exact Hdone |].
    rewrite (move_valid a nodeIndex (nodeIndex + 1) n) by (try lia; exact Hn).
    unfold Pipeline.nodeCount in Hv, Hdown. fold (App.nodes a) in Hv, Hdown.
    set (l := App.nodes a) in *.
    split; [| split; [| split]].
    + cbn [App.m_showIndex].
      destruct (Z.ltb_spec (Z.min nodeIndex (nodeIndex + 1)) (App.m_showIndex a));
        cbn [andb]; [| reflexivity].
      destruct (Z.ltb_spec (App.m_showIndex a) (Z.max nodeIndex (nodeIndex + 1)));
        [lia | reflexivity].
    + rewrite !nodeAtStage_nth by lia. cbn. fold l. rewrite Hn.
      replace (nodeIndex + 1 - 1) with nodeIndex by lia.
      apply nth_error_insert_at_eq. rewrite length_remove_at by lia. lia.
    + rewrite !nodeAtStage_nth by lia. cbn. fold l.
      rewrite nth_error_insert_at_lt
        by (try rewrite length_remove_at by lia; lia).
      rewrite nth_error_remove_at_ge by lia.
      f_equal. lia.
    + intros k Hk1 Hk2. destruct (Z.le_gt_cases k 0) as [Hk0 | Hk0].
      * now rewrite !nodeAtStage_input.
      * rewrite !nodeAtStage_nth by lia. cbn. fold l.
        destruct (Z.lt_ge_cases k nodeIndex).
        -- rewrite nth_error_insert_at_lt
             by (try rewrite length_remove_at by lia; lia).
           apply nth_error_remove_at_lt. lia.
        -- replace (Z.to_nat (k - 1)) with (S (Z.to_nat (k - 2))) by lia.
           rewrite nth_error_insert_at_gt
             by (try rewrite length_remove_at by lia; lia).
           apply nth_error_remove_at_ge. lia.
  - intros ->. reflexivity.
  - intros ->. unfold UI.contextMenu. now rewrite Z.ltb_irrefl.
  - intros item.
    assert (Hvalid : (0 <? nodeIndex) && (nodeIndex <=? count a) = true)
      by (apply validNodeIndex_true; exact Hv).
    destruct item; unfold UI.contextMenu.
    + destruct (Z.ltb_spec 1 nodeIndex); [right | now left].
      unfold App.handlePCR, App.dispatchPCR, App.request. cbn.
      rewrite Hvalid.
      rewrite (proj2 (Z.eqb_neq nodeIndex (nodeIndex - 1))) by lia.
      rewrite (proj2 (Z.ltb_lt 0 (nodeIndex - 1))) by lia.
      rewrite (proj2 (Z.leb_le (nodeIndex - 1) (count a))) by lia.
      reflexivity.
    + destruct (Z.ltb_spec nodeIndex (count a)); [right | now left].
      unfold App.handlePCR, App.dispatchPCR, App.request. cbn.
      rewrite Hvalid.
      rewrite (proj2 (Z.eqb_neq nodeIndex (nodeIndex + 1))) by lia.
      rewrite (proj2 (Z.ltb_lt 0 (nodeIndex + 1))) by lia.
      rewrite (proj2 (Z.leb_le (nodeIndex + 1) (count a))) by lia.
      reflexivity.
    + right. unfold App.handlePCR, App.dispatchPCR, App.request. cbn.
      now rewrite Hvalid.
    + right. unfold App.handlePCR, App.dispatchPCR, App.request. cbn.
      rewrite Hvalid. now destruct (nodeIndex <=? App.m_showIndex a).
Qed.

End ContextMenu.

(* --------------------------------------------------------------------- *)
(** ** Files dropped on the window                                        *)
(* --------------------------------------------------------------------- *)

Section InputFiles.
Context {Node : Type} `{AppExtern Node} `{ExtCodes}.
Implicit Types (a : App.t Node).

Local Abbreviation count a := (Pipeline.nodeCount (App.m_pipeline a)).

(** What [handleInputFile] does with a shader file that loads. *)
Lemma handleInputFile_shader a filename n :
  AppFiles.isShaderFile (extractExtCode filename) = true ->
  loadNode filename = Some n ->
  0 <= App.m_showIndex a <= count a ->
  AppFiles.handleInputFile a filename =
  ({| App.m_pcr := App.m_pcr a;
      App.m_pipeline :=
        {| Pipeline.m_nodes :=
             insert_at (Z.to_nat (App.m_showIndex a)) n (App.nodes a);
           Pipeline.m_changed := true |};
      App.m_showIndex := App.m_showIndex a + 1 |},
   AppFiles.ShaderFile true).
Proof.
  intros Hsh Hload Hs. unfold AppFiles.handleInputFile.
  rewrite Hsh. unfold Pipeline.addNode. rewrite Hload.
  destruct (Z.leb_spec 0 (App.m_showIndex a)); [| lia]. cbn [andb].
  destruct (Z.ltb_spec (App.m_showIndex a) (count a)); [reflexivity |].
  cbn. unfold App.withShowIndex, App.withPipeline. cbn.
  do 3 f_equal. unfold insert_at, App.nodes.
  unfold Pipeline.nodeCount in *.
  rewrite firstn_all2, skipn_all2 by lia. reflexivity.
Qed.

(** X5: a shader file that loads is put right behind the stage that is
    shown, and the show index moves on to it: the new node is what is
    shown afterwards, the stages up to the old show index keep their
    node and the later ones move down by one.  A file that is no
    shader, or a shader that does not load, leaves the nodes and the
    show index alone.  In every case the show index stays inside the
    pipeline. *)
Theorem handleInputFile_shows_the_new_node a filename :
  0 <= App.m_showIndex a <= count a ->
  let a' := fst (AppFiles.handleInputFile a filename) in
  (forall n,
      AppFiles.isShaderFile (extractExtCode filename) = true ->
      loadNode filename = Some n ->
      App.m_showIndex a' = App.m_showIndex a + 1
      /\ count a' = count a + 1
      /\ App.nodeAtStage a' (App.m_showIndex a') = Some n
      /\ (forall k, k <= App.m_showIndex a ->
          App.nodeAtStage a' k = App.nodeAtStage a k)
      /\ (forall k, App.m_showIndex a < k ->
          App.nodeAtStage a' (k + 1) = App.nodeAtStage a k))
  /\ (AppFiles.isShaderFile (extractExtCode filename) = false
      \/ loadNode filename = Datatypes.None ->
      App.nodes a' = App.nodes a
      /\ App.m_showIndex a' = App.m_showIndex a)
  /\ 0 <= App.m_showIndex a' <= count a'.
Proof.
  intros Hs a'. subst a'.
  assert (Hkeep : AppFiles.isShaderFile (extractExtCode filename) = false
                  \/ loadNode filename = Datatypes.None ->
                  App.nodes (fst (AppFiles.handleInputFile a filename))
                  = App.nodes a
                  /\ App.m_showIndex (fst (AppFiles.handleInputFile a filename))
                     = App.m_showIndex a).
  { unfold AppFiles.handleInputFile, Pipeline.addNode.
    intros [Hsh | Hload].
    + rewrite Hsh.
      destruct (AppFiles.isImageFile _); [destruct (loadImage _) |];
        split; reflexivity.
    + rewrite Hload.
      destruct (AppFiles.isShaderFile _);
        [| destruct (AppFiles.isImageFile _); [destruct (loadImage _) |]];
        split; reflexivity. }
  split; [| split; [exact Hkeep |]].
  2: { destruct (AppFiles.isShaderFile (extractExtCode filename)) eqn:Hsh.
       - destruct (loadNode filename) as [n |] eqn:Hload.
         + rewrite (handleInputFile_shader a filename n Hsh Hload Hs).
           unfold Pipeline.nodeCount in *. cbn. rewrite length_insert_at.
           fold (App.nodes a) in Hs. lia.
         + destruct (Hkeep (or_intror eq_refl)) as [Hn Hi].
           unfold Pipeline.nodeCount.
           fold (App.nodes (fst (AppFiles.handleInputFile a filename))).
           rewrite Hn, Hi. exact Hs.
       - destruct (Hkeep (or_introl eq_refl)) as [Hn Hi].
         unfold Pipeline.nodeCount.
         fold (App.nodes (fst (AppFiles.handleInputFile a filename))).
         rewrite Hn, Hi. exact Hs. }
  - intros n Hsh Hload.
    rewrite (handleInputFile_shader a filename n Hsh Hload Hs). cbn [fst].
    unfold Pipeline.nodeCount in *. fold (App.nodes a) in *.
    set (l := App.nodes a) in *. set (i := App.m_showIndex a) in *.
    split; [reflexivity |].
    split; [cbn; rewrite length_insert_at; lia |].
    split; [| split].
    + cbn [App.m_showIndex]. rewrite nodeAtStage_nth by lia. cbn.
      replace (Z.to_nat (i + 1 - 1)) with (Z.to_nat i) by lia.
      apply nth_error_insert_at_eq. lia.
    + intros k Hk. destruct (Z.le_gt_cases k 0) as [Hk0 | Hk0].
      * now rewrite !nodeAtStage_input.
      * rewrite !nodeAtStage_nth by lia. cbn. fold l.
        apply nth_error_insert_at_lt; lia.
    + intros k Hk. rewrite !nodeAtStage_nth by lia. cbn. fold l.
      replace (Z.to_nat (k + 1 - 1)) with (S (Z.to_nat (k - 1))) by lia.
      apply nth_error_insert_at_gt; lia.
Qed.

(** X6: shader files given on the command line end up in the pipeline
    in the order in which they were given, one behind the other from
    the stage that was shown at the start, and the last of them is
    shown.  From the empty pipeline the nodes are the shaders in their
    order. *)
Theorem command_line_shaders_keep_their_order a files nodes :
  0 <= App.m_showIndex a <= count a ->
  Forall2 (fun filename n =>
             AppFiles.isShaderFile (extractExtCode filename) = true
             /\ loadNode filename = Some n) files nodes ->
  let a' := AppFiles.handleInputFiles a files in
  App.nodes a'
  = firstn (Z.to_nat (App.m_showIndex a)) (App.nodes a)
    ++ nodes ++ skipn (Z.to_nat (App.m_showIndex a)) (App.nodes a)
  /\ App.m_showIndex a'
     = App.m_showIndex a + Z.of_nat (List.length nodes)
  /\ (App.nodes a = [] -> App.nodes a' = nodes).
Proof.
  intros Hs Hall a'. subst a'.
  assert (Hgen :
    App.nodes (AppFiles.handleInputFiles a files)
    = firstn (Z.to_nat (App.m_showIndex a)) (App.nodes a)
      ++ nodes ++ skipn (Z.to_nat (App.m_showIndex a)) (App.nodes a)
    /\ App.m_showIndex (AppFiles.handleInputFiles a files)
       = App.m_showIndex a + Z.of_nat (List.length nodes)).
  { revert a Hs. induction Hall as [| filename n files nodes [Hsh Hload] _ IH];
      intros a Hs.
    - cbn. rewrite firstn_skipn. split; [reflexivity | lia].
    - unfold AppFiles.handleInputFiles in *. cbn [fold_left].
      rewrite (handleInputFile_shader a filename n Hsh Hload Hs). cbn [fst].
      unfold Pipeline.nodeCount in Hs. fold (App.nodes a) in Hs.
      set (l := App.nodes a) in *. set (i := App.m_showIndex a) in *.
      match goal with
      | |- context [fold_left _ files ?a1'] => set (a1 := a1')
      end.
      assert (Hn1 : App.nodes a1 = insert_at (Z.to_nat i) n l) by reflexivity.
      assert (Hi1 : App.m_showIndex a1 = i + 1) by reflexivity.
      destruct (IH a1) as [IHn IHi].
      { rewrite Hi1. unfold Pipeline.nodeCount.
        fold (App.nodes a1). rewrite Hn1, length_insert_at. lia. }
      rewrite IHn, IHi, Hn1, Hi1. split; [| cbn [List.length]; lia].
      unfold insert_at.
      replace (Z.to_nat (i + 1)) with (S (Z.to_nat i)) by lia.
      assert (Hlen : List.length (firstn (Z.to_nat i) l) = Z.to_nat i)
        by (rewrite length_firstn; lia).
      rewrite firstn_app, skipn_app, Hlen.
      replace (S (Z.to_nat i) - Z.to_nat i)%nat with 1%nat by lia.
      rewrite (firstn_all2 (n := S (Z.to_nat i)) (firstn (Z.to_nat i) l))
        by lia.
      rewrite (skipn_all2 (n := S (Z.to_nat i)) (firstn (Z.to_nat i) l))
        by lia.
      cbn [firstn skipn app]. rewrite <- app_assoc. reflexivity. }
  destruct Hgen as [Hn Hi]. split; [exact Hn |]. split; [exact Hi |].
  intros Hempty. rewrite Hn, Hempty.
  rewrite firstn_nil, skipn_nil, app_nil_r. reflexivity.
Qed.

(** X7: the file types for saving are consistent.  The extension
    codes that [isSaveImageFile] accepts are exactly those for which
    [saveResult] has a writer, and each of them is an input format as
    well: [isImageFile] accepts it and [handleInputFile] does not
    reject such a file as unrecognized.  When the check of a save path
    in [handlePCR] is the check of its extension code, a request to
    save is only left standing for [saveResult] with a path that has a
    writer, so that the save does not end in "unrecognized output file
    format"; a request with another path is dropped by [handlePCR]
    with the result false. *)
Theorem save_formats_are_consistent a filename :
  (forall path,
      isSaveImageFile path = AppFiles.isSaveImageFile (extractExtCode path)) ->
  (AppFiles.isSaveImageFile (extractExtCode filename) = true <->
   AppFiles.saveWriter (extractExtCode filename) <> AppFiles.NoWriter)
  /\ (AppFiles.isSaveImageFile (extractExtCode filename) = true ->
      AppFiles.isImageFile (extractExtCode filename) = true
      /\ snd (AppFiles.handleInputFile a filename) <> @AppFiles.Unrecognized)
  /\ AppFiles.saveAfterPCR a <> Some AppFiles.NoWriter
  /\ (PipelineChangeRequest.type (App.m_pcr a)
      = PipelineChangeRequest.SaveResult ->
      AppFiles.saveWriter
        (extractExtCode (PipelineChangeRequest.path (App.m_pcr a)))
      = AppFiles.NoWriter ->
      App.handlePCR a = (App.resetPCR a, false)
      /\ AppFiles.saveAfterPCR a = Datatypes.None).
Proof.
  intros Hcheck.
  assert (Hiff : forall e,
             AppFiles.isSaveImageFile e = true <->
             AppFiles.saveWriter e <> AppFiles.NoWriter).
  { intros e. unfold AppFiles.isSaveImageFile, AppFiles.saveWriter.
    destruct (e =? makeExtCode "jpg"), (e =? makeExtCode "jpeg"),
      (e =? makeExtCode "jpe"), (e =? makeExtCode "png"),
      (e =? makeExtCode "tga"), (e =? makeExtCode "bmp"); cbn;
      split; try discriminate; try reflexivity;
      try (intros Hn; now destruct Hn). }
  split; [apply Hiff |]. split; [| split].
  - set (e := extractExtCode filename). intros Hsave.
    assert (Himg : AppFiles.isImageFile e = true).
    { unfold AppFiles.isSaveImageFile in Hsave. unfold AppFiles.isImageFile.
      repeat (apply orb_true_iff in Hsave; destruct Hsave as [Hsave | Hsave]);
        rewrite Hsave; rewrite ?orb_true_r; reflexivity. }
    split; [exact Himg |].
    unfold AppFiles.handleInputFile. fold e. rewrite Himg.
    destruct (AppFiles.isShaderFile _).
    + destruct (Pipeline.addNode _ _ _) as [p' ok]. discriminate.
    + discriminate.
  - unfold AppFiles.saveAfterPCR, App.handlePCR.
    destruct (PipelineChangeRequest.type (App.m_pcr a)) eqn:Hty;
      try (cbn; rewrite ?Hty; discriminate).
    all: unfold App.dispatchPCR; rewrite Hty.
    all: try (repeat match goal with
                     | |- context [if ?b then _ else _] => destruct b
                     | |- context [let '(_, _) := ?x in _] => destruct x
                     end; cbn; discriminate).
    rewrite Hcheck.
    destruct (AppFiles.isSaveImageFile _) eqn:Hsave; cbn; [| discriminate].
    rewrite Hty. apply Hiff in Hsave. congruence.
  - intros Hty Hno.
    assert (Hsave : AppFiles.isSaveImageFile
                      (extractExtCode
                         (PipelineChangeRequest.path (App.m_pcr a))) = false).
    { destruct (AppFiles.isSaveImageFile _) eqn:Hs; [| reflexivity].
      apply Hiff in Hs. contradiction. }
    unfold AppFiles.saveAfterPCR, App.handlePCR, App.dispatchPCR.
    rewrite Hty, Hcheck, Hsave. split; reflexivity.
Qed.

End InputFiles.

(* --------------------------------------------------------------------- *)
(** ** The image on the screen                                            *)
(* --------------------------------------------------------------------- *)

Lemma int32_in_range z : is_int z -> int32 z = z.
Proof.
  unfold is_int, int32. intros Hz.
  rewrite Z.mod_small by lia. lia.
Qed.

(** X8: [sanitizePos] keeps the image on the screen.  An image smaller
    than the display is centred (the left margin is the right margin or
    one pixel less); an image that is at least as large as the display
    covers the display, and a position that already does so is kept.
    The result is a position that [sanitizePos] leaves alone. *)
Theorem sanitizePos_keeps_the_image_on_screen pos dispSize imgSize :
  0 <= dispSize <= 2147483647 -> 0 <= imgSize <= 2147483647 ->
  let r := View.sanitizePos pos dispSize imgSize in
  (imgSize < dispSize ->
   0 <= r /\ r <= dispSize - imgSize - r <= r + 1)
  /\ (dispSize <= imgSize ->
      r <= 0 /\ dispSize <= r + imgSize
      /\ (dispSize - imgSize <= pos <= 0 -> r = pos))
  /\ View.sanitizePos r dispSize imgSize = r.
Proof.
  intros Hd Hi r. subst r. unfold View.sanitizePos.
  rewrite int32_in_range by (unfold is_int; lia).
  destruct (Z.ltb_spec imgSize dispSize) as [Hlt | Hge].
  - split; [| split]; [| lia | reflexivity].
    intros _.
    pose proof (Z.quot_rem' (dispSize - imgSize) 2) as Hqr.
    pose proof (Z.rem_bound_pos (dispSize - imgSize) 2) as Hrem.
    assert (0 <= Z.quot (dispSize - imgSize) 2)
      by (apply Z.quot_pos; lia).
    lia.
  - split; [lia |]. split; [lia |].
    rewrite Z.min_l by lia. lia.
Qed.

(** X9: dragging moves the image by the way that the mouse has gone
    since [panStart], whatever positions were reported in between: the
    image does not drift.  (The ranges say that no position computed on
    the way leaves the [int] range.) *)
Theorem pan_follows_the_mouse (v : View.t) x y positions x' y' :
  is_int (View.m_imgX0 v - x) -> is_int (View.m_imgY0 v - y) ->
  Forall (fun p => is_int (View.m_imgX0 v - x + fst p)
                   /\ is_int (View.m_imgY0 v - y + snd p)) positions ->
  is_int (View.m_imgX0 v - x + x') -> is_int (View.m_imgY0 v - y + y') ->
  let v' := View.panUpdate
              (View.panUpdates (View.panStart v x y) positions) x' y' in
  View.m_imgX0 v' = View.m_imgX0 v + (x' - x)
  /\ View.m_imgY0 v' = View.m_imgY0 v + (y' - y)
  /\ View.m_panning v' = true.
Proof.
  intros Hrx Hry _ Hx Hy v'. subst v'.
  assert (Href : forall ps v0,
             View.m_panRefX (View.panUpdates v0 ps) = View.m_panRefX v0
             /\ View.m_panRefY (View.panUpdates v0 ps) = View.m_panRefY v0
             /\ View.m_panning (View.panUpdates v0 ps) = View.m_panning v0).
  { induction ps as [| p ps IH]; intros v0; [repeat split |].
    unfold View.panUpdates in *. cbn [fold_left].
    destruct (IH (View.panUpdate v0 (fst p) (snd p))) as (-> & -> & ->).
    repeat split. }
  destruct (Href positions (View.panStart v x y)) as (Hpx & Hpy & Hp).
  unfold View.panUpdate. cbn [View.m_imgX0 View.m_imgY0 View.m_panning].
  rewrite Hpx, Hpy, Hp. cbn [View.panStart View.m_panRefX View.m_panRefY
                             View.m_panning].
  rewrite (int32_in_range (View.m_imgX0 v - x)),
          (int32_in_range (View.m_imgY0 v - y)) by assumption.
  rewrite !int32_in_range by assumption.
  repeat split; lia.
Qed.

(* --------------------------------------------------------------------- *)
(** ** Loading the input image                                            *)
(* --------------------------------------------------------------------- *)

Section ImageSizes.
Context `{ImageLibrary}.

(** The size computed for an image that is too large, where no
    operation overflows. *)
Lemma scaledSize_fits rawWidth rawHeight targetWidth targetHeight :
  0 < rawWidth -> 0 < rawHeight -> 0 <= targetWidth -> 0 <= targetHeight ->
  rawHeight * targetWidth + rawWidth / 2 <= 2147483647 ->
  rawWidth * targetHeight + rawHeight / 2 <= 2147483647 ->
  let '(w, h) :=
    AppImage.scaledSize rawWidth rawHeight targetWidth targetHeight in
  0 <= w <= targetWidth /\ 0 <= h <= targetHeight
  /\ (w = targetWidth \/ h = targetHeight).
Proof.
  intros Hrw Hrh Htw Hth Ho1 Ho2. unfold AppImage.scaledSize.
  assert (Hq : forall a b, 0 <= a -> 0 < b -> Z.quot a b = a / b)
    by (intros; apply Z.quot_div_nonneg; lia).
  assert (0 <= rawWidth / 2) by (apply Z.div_pos; lia).
  assert (0 <= rawHeight / 2) by (apply Z.div_pos; lia).
  assert (0 <= rawHeight * targetWidth) by nia.
  assert (0 <= rawWidth * targetHeight) by nia.
  rewrite (Hq rawWidth 2), (Hq rawHeight 2) by lia.
  rewrite (int32_in_range (rawHeight * targetWidth)),
          (int32_in_range (rawWidth * targetHeight)),
          (int32_in_range (rawHeight * targetWidth + rawWidth / 2)),
          (int32_in_range (rawWidth * targetHeight + rawHeight / 2))
    by (unfold is_int; lia).
  rewrite !Hq by lia.
  set (h1 := (rawHeight * targetWidth + rawWidth / 2) / rawWidth).
  set (w2 := (rawWidth * targetHeight + rawHeight / 2) / rawHeight).
  assert (Hh1 : 0 <= h1) by (apply Z.div_pos; lia).
  assert (Hw2 : 0 <= w2) by (apply Z.div_pos; lia).
  destruct (Z.ltb_spec targetHeight h1) as [Hlt | Hge].
  - split; [| split; [lia | now right]].
    split; [exact Hw2 |].
    (* the height did not fit, so the width does *)
    assert (Hlow : (targetHeight + 1) * rawWidth
                   <= rawHeight * targetWidth + rawWidth / 2).
    { assert (Hle : targetHeight + 1 <= h1) by lia.
      pose proof (Z.mul_div_le (rawHeight * targetWidth + rawWidth / 2)
                    rawWidth Hrw) as Hm.
      fold h1 in Hm. nia. }
    assert (Hhalf : 2 * (rawWidth / 2) <= rawWidth)
      by (pose proof (Z.mul_div_le rawWidth 2); lia).
    apply Z.lt_succ_r. apply Z.div_lt_upper_bound; [lia |].
    pose proof (Z.mul_div_le rawHeight 2) as Hh2.
    nia.
  - split; [lia |]. split; [lia | now left].
Qed.

(** X10: an image that [loadImage] hands to [uploadImageTexture] fits
    into the target size (the size set by the user when resizing is on,
    the largest size of the GPU otherwise): an image that fits is
    uploaded as it is, a larger one is downscaled so that one side has
    the target length and the other side is not longer than its
    target. *)
Theorem loadImage_uploads_within_the_target cfg filename
    rawWidth rawHeight width height :
  let targetWidth :=
    if AppImage.m_imgResize cfg
    then AppImage.m_targetImgWidth cfg else AppImage.m_imgMaxSize cfg in
  let targetHeight :=
    if AppImage.m_imgResize cfg
    then AppImage.m_targetImgHeight cfg else AppImage.m_imgMaxSize cfg in
  stbi_load filename = Some (rawWidth, rawHeight) ->
  0 < rawWidth -> 0 < rawHeight -> 0 <= targetWidth -> 0 <= targetHeight ->
  rawHeight * targetWidth + rawWidth / 2 <= 2147483647 ->
  rawWidth * targetHeight + rawHeight / 2 <= 2147483647 ->
  AppImage.loadImage cfg filename = AppImage.Upload width height ->
  0 <= width <= targetWidth /\ 0 <= height <= targetHeight
  /\ (rawWidth <= targetWidth /\ rawHeight <= targetHeight ->
      width = rawWidth /\ height = rawHeight)
  /\ (targetWidth < rawWidth \/ targetHeight < rawHeight ->
      width = targetWidth \/ height = targetHeight).
Proof.
  intros targetWidth targetHeight Hload Hrw Hrh Htw Hth Ho1 Ho2.
  unfold AppImage.loadImage. rewrite Hload.
  fold targetWidth targetHeight.
  destruct (filename =? EmptyString)%string; [discriminate |].
  destruct (Z.leb_spec rawWidth targetWidth) as [Hw | Hw]; cbn [andb].
  1: destruct (Z.leb_spec rawHeight targetHeight) as [Hh | Hh].
  1: { intros [= <- <-]. repeat split; lia. }
  all: pose proof (scaledSize_fits rawWidth rawHeight targetWidth targetHeight
                     Hrw Hrh Htw Hth Ho1 Ho2) as Hfit.
  all: destruct (AppImage.scaledSize rawWidth rawHeight targetWidth
                   targetHeight) as [w h].
  all: destruct (malloc _); cbn [negb]; [| discriminate].
  all: destruct (stbir_resize_uint8 _ _ _ _); cbn [negb]; [| discriminate].
  all: intros [= <- <-].
  all: destruct Hfit as (Hfw & Hfh & Hside).
  all: split; [exact Hfw |]; split; [exact Hfh |]; split;
       [intros [? ?]; lia | intros _; exact Hside].
Qed.

End ImageSizes.

(* --------------------------------------------------------------------- *)
(** ** Pixel buffers                                                      *)
(* --------------------------------------------------------------------- *)

Lemma nth_error_modify_nth_neq {A} i j (f : A -> A) (l : list A) :
  i <> j -> nth_error (modify_nth i f l) j = nth_error l j.
Proof.
  revert i j; induction l as [| y l IH]; intros [| i] [| j] Hne; cbn;
    try reflexivity; try congruence.
  apply IH. congruence.
Qed.

Section OpaquePattern.
Context `{ImageLibrary}.

(** The loop writes [255] at the offsets [offset], [offset + 4], ...
    and nowhere else, and stays inside the buffer when its last offset
    does. *)
Lemma forceAlpha_spec i :
  forall offset data,
    (offset + 4 * i <= List.length data + 3)%nat ->
    exists data',
      AppImage.forceAlpha i offset data = Some data'
      /\ List.length data' = List.length data
      /\ forall j,
           nth_error data' j =
           if ((offset <=? j) && (j <? offset + 4 * i)
               && ((j - offset) mod 4 =? 0))%nat
           then Some 255 else nth_error data j.
Proof.
  induction i as [| i IH]; intros offset data Hlen.
  - exists data. split; [reflexivity |]. split; [reflexivity |].
    intros j. replace (offset + 4 * 0)%nat with offset by lia.
    destruct (Nat.leb_spec offset j), (Nat.ltb_spec j offset);
      try reflexivity; lia.
  - cbn [AppImage.forceAlpha]. unfold AppImage.poke.
    destruct (Nat.ltb_spec offset (List.length data)) as [Hin | Hout];
      [| lia].
    destruct (IH (offset + 4)%nat (modify_nth offset (fun _ => 255) data))
      as (data' & Hrun & Hl & Hnth).
    { rewrite length_modify_nth. lia. }
    exists data'. split; [exact Hrun |].
    split; [now rewrite Hl, length_modify_nth |].
    intros j. rewrite Hnth.
    destruct (Nat.eq_dec j offset) as [-> | Hne].
    + replace ((offset + 4 <=? offset)%nat) with false
        by (symmetry; apply Nat.leb_gt; lia).
      cbn [andb].
      replace ((offset <=? offset)%nat) with true
        by (symmetry; apply Nat.leb_le; lia).
      replace ((offset <? offset + 4 * S i)%nat) with true
        by (symmetry; apply Nat.ltb_lt; lia).
      rewrite Nat.sub_diag. cbn.
      destruct (nth_error data offset) as [x |] eqn:Hx.
      * now rewrite (nth_error_modify_nth_eq _ _ _ _ Hx).
      * apply nth_error_None in Hx. lia.
    + rewrite nth_error_modify_nth_neq by congruence.
      destruct (Nat.leb_spec (offset + 4) j) as [H4 | H4].
      * replace ((offset <=? j)%nat) with true
          by (symmetry; apply Nat.leb_le; lia).
        replace (offset + 4 + 4 * i)%nat with (offset + 4 * S i)%nat by lia.
        replace ((j - offset) mod 4)%nat with ((j - (offset + 4)) mod 4)%nat;
          [reflexivity |].
        replace (j - offset)%nat with ((j - (offset + 4)) + 1 * 4)%nat by lia.
        now rewrite Nat.Div0.mod_add.
      * cbn [andb].
        destruct (Nat.leb_spec offset j) as [Hle | Hgt]; [| reflexivity].
        cbn [andb].
        destruct (Nat.ltb_spec j (offset + 4 * S i)); [| reflexivity].
        cbn [andb].
        assert (Hsmall : (0 < j - offset < 4)%nat) by lia.
        rewrite Nat.mod_small by lia.
        destruct (Nat.eqb_spec (j - offset) 0); [lia | reflexivity].
Qed.

(** X11: making a pattern opaque writes inside the buffer of
    [width * height] pixels only, sets the alpha byte of every pixel to
    255 and leaves the three colour bytes of every pixel as the pattern
    drew them. *)
Theorem opaquePattern_sets_every_alpha width height data :
  0 <= width * height <= 2147483647 ->
  Z.of_nat (List.length data) = width * height * 4 ->
  exists data',
    AppImage.opaquePattern width height data = Some data'
    /\ List.length data' = List.length data
    /\ forall pixel channel,
         0 <= pixel < width * height -> 0 <= channel < 4 ->
         nth_error data' (Z.to_nat (pixel * 4 + channel)) =
         if channel =? 3 then Some 255
         else nth_error data (Z.to_nat (pixel * 4 + channel)).
Proof.
  intros Hn Hlen. unfold AppImage.opaquePattern.
  rewrite int32_in_range by (unfold is_int; lia).
  destruct (forceAlpha_spec (Z.to_nat (width * height)) 3 data)
    as (data' & Hrun & Hl & Hnth); [lia |].
  exists data'. split; [exact Hrun |]. split; [exact Hl |].
  intros pixel channel Hp Hc. rewrite Hnth.
  set (j := Z.to_nat (pixel * 4 + channel)).
  destruct (Z.eqb_spec channel 3) as [-> | Hne].
  - replace ((3 <=? j)%nat) with true by (symmetry; apply Nat.leb_le; lia).
    replace ((j <? 3 + 4 * Z.to_nat (width * height))%nat) with true
      by (symmetry; apply Nat.ltb_lt; lia).
    replace (j - 3)%nat with (0 + Z.to_nat pixel * 4)%nat by lia.
    rewrite Nat.Div0.mod_add. reflexivity.
  - destruct (Nat.leb_spec 3 j) as [H3 | H3]; [| reflexivity].
    cbn [andb].
    destruct (Nat.ltb_spec j (3 + 4 * Z.to_nat (width * height)));
      [| reflexivity].
    cbn [andb].
    replace (j - 3)%nat
      with (Z.to_nat (channel + 1) + Z.to_nat (pixel - 1) * 4)%nat by lia.
    rewrite Nat.Div0.mod_add. rewrite Nat.mod_small by lia.
    destruct (Nat.eqb_spec (Z.to_nat (channel + 1)) 0); [lia | reflexivity].
Qed.

End OpaquePattern.

(* --------------------------------------------------------------------- *)
(** ** The built-in test image                                            *)
(* --------------------------------------------------------------------- *)

Lemma length_row turns x y :
  List.length (DummyImage.row turns x y) = (4 * turns)%nat.
Proof.
  revert x; induction turns as [| n IH]; intros x; [reflexivity |].
  cbn [DummyImage.row]. rewrite length_app, IH. cbn. lia.
Qed.

Lemma length_rows turns w y :
  List.length (DummyImage.rows turns w y) = (turns * (4 * Z.to_nat w))%nat.
Proof.
  revert y; induction turns as [| n IH]; intros y; [reflexivity |].
  cbn [DummyImage.rows]. rewrite length_app, IH, length_row. lia.
Qed.

Lemma nth_error_row turns : forall x0 y i c,
  (i < turns)%nat -> (c < 4)%nat ->
  nth_error (DummyImage.row turns x0 y) (4 * i + c)
  = nth_error (DummyImage.pixel (x0 + Z.of_nat i) y) c.
Proof.
  induction turns as [| n IH]; intros x0 y i c Hi Hc; [lia |].
  cbn [DummyImage.row]. destruct i as [| i].
  - rewrite nth_error_app1 by (cbn; lia).
    replace (x0 + Z.of_nat 0) with x0 by lia.
    now replace (4 * 0 + c)%nat with c by lia.
  - rewrite nth_error_app2 by (cbn; lia).
    replace (4 * S i + c - List.length (DummyImage.pixel x0 y))%nat
      with (4 * i + c)%nat by (cbn; lia).
    rewrite IH by lia. do 2 f_equal. lia.
Qed.

Lemma nth_error_rows turns : forall w y0 j k,
  (j < turns)%nat -> (k < 4 * Z.to_nat w)%nat ->
  nth_error (DummyImage.rows turns w y0) (j * (4 * Z.to_nat w) + k)
  = nth_error (DummyImage.row (Z.to_nat w) 0 (y0 + Z.of_nat j)) k.
Proof.
  induction turns as [| n IH]; intros w y0 j k Hj Hk; [lia |].
  cbn [DummyImage.rows]. destruct j as [| j].
  - rewrite nth_error_app1 by (rewrite length_row; lia).
    replace (y0 + Z.of_nat 0) with y0 by lia.
    now replace (0 * (4 * Z.to_nat w) + k)%nat with k by lia.
  - rewrite nth_error_app2 by (rewrite length_row; lia).
    rewrite length_row.
    replace (S j * (4 * Z.to_nat w) + k - 4 * Z.to_nat w)%nat
      with (j * (4 * Z.to_nat w) + k)%nat by lia.
    rewrite IH by lia. do 2 f_equal. lia.
Qed.

(** X12: the test image fills the buffer of [w * h * 4] bytes exactly,
    and its pixel in column [x] of row [y] has the red value [x], the
    green value [y] and the blue value [x xor y], each modulo 256, and
    is opaque. *)
Theorem dummy_image_is_the_xor_pattern w h :
  0 <= w -> 0 <= h -> w * h * 4 <= 2147483647 ->
  Z.of_nat (List.length (DummyImage.image w h)) = DummyImage.bufferSize w h
  /\ forall x y, 0 <= x < w -> 0 <= y < h ->
       let at_ c :=
         nth_error (DummyImage.image w h) (Z.to_nat ((y * w + x) * 4 + c)) in
       at_ 0 = Some (x mod 256) /\ at_ 1 = Some (y mod 256)
       /\ at_ 2 = Some (Z.lxor (x mod 256) (y mod 256))
       /\ at_ 3 = Some 255.
Proof.
  intros Hw Hh Hsize. split.
  - unfold DummyImage.image, DummyImage.bufferSize.
    assert (0 <= w * h) by nia.
    rewrite (int32_in_range (w * h)) by (unfold is_int; lia).
    rewrite int32_in_range by (unfold is_int; lia).
    rewrite length_rows. nia.
  - intros x y Hx Hy at_.
    assert (Hat : forall c, 0 <= c < 4 ->
               at_ c = nth_error (DummyImage.pixel x y) (Z.to_nat c)).
    { intros c Hc. subst at_. cbv beta. unfold DummyImage.image.
      replace (Z.to_nat ((y * w + x) * 4 + c))
        with (Z.to_nat y * (4 * Z.to_nat w)
              + (4 * Z.to_nat x + Z.to_nat c))%nat by nia.
      rewrite nth_error_rows by lia.
      rewrite nth_error_row by lia.
      do 2 f_equal; lia. }
    rewrite !Hat by lia.
    change (Z.to_nat 0) with 0%nat. change (Z.to_nat 1) with 1%nat.
    change (Z.to_nat 2) with 2%nat. change (Z.to_nat 3) with 3%nat.
    cbn [nth_error DummyImage.pixel].
    unfold DummyImage.uint8_t.
    split; [reflexivity |]. split; [reflexivity |].
    split; [| reflexivity].
    f_equal. change 256 with (2 ^ 8).
    rewrite <- !Z.land_ones by lia.
    apply Z.bits_inj'. intros n Hn.
    rewrite Z.lxor_spec, !Z.land_spec, Z.lxor_spec.
    now destruct (Z.testbit x n), (Z.testbit y n), (Z.testbit (Z.ones 8) n).
Qed.

(* --------------------------------------------------------------------- *)
(** ** File fingerprints                                                  *)
(* --------------------------------------------------------------------- *)

Lemma fingerprint_eqb_iff (f g : FileFingerprint.t) :
  FileFingerprint.eqb f g = true <->
  f = g /\ FileFingerprint.m_size f <> 0 /\ FileFingerprint.m_mtime f <> 0.
Proof.
  destruct f as [fs fm], g as [gs gm]. unfold FileFingerprint.eqb. cbn.
  rewrite !andb_true_iff, !negb_true_iff, !Z.eqb_neq, !Z.eqb_eq.
  split.
  - intros [[[Hs Hm] ->] ->]. now repeat split.
  - intros ([= -> ->] & Hs & Hm). now repeat split.
Qed.

(** X13: two fingerprints compare equal exactly when they hold the same
    size and the same modification time and neither of the two is 0.
    So the comparison is symmetric and transitive and only holds
    between good fingerprints, but a fingerprint with a zero field, that
    of an empty file or the initial one, is not equal to itself: such a
    file always counts as changed. *)
Theorem fingerprint_equality (f g h : FileFingerprint.t) :
  (FileFingerprint.eqb f g = true <->
   f = g /\ FileFingerprint.m_size f <> 0 /\ FileFingerprint.m_mtime f <> 0)
  /\ FileFingerprint.eqb f g = FileFingerprint.eqb g f
  /\ (FileFingerprint.eqb f g = true -> FileFingerprint.eqb g h = true ->
      FileFingerprint.eqb f h = true)
  /\ (FileFingerprint.eqb f g = true ->
      FileFingerprint.good f = true /\ FileFingerprint.good g = true)
  /\ (FileFingerprint.m_size f = 0 \/ FileFingerprint.m_mtime f = 0 ->
      FileFingerprint.eqb f f = false)
  /\ FileFingerprint.eqb FileFingerprint.empty FileFingerprint.empty = false.
Proof.
  split; [apply fingerprint_eqb_iff |].
  split; [| split; [| split; [| split]]].
  - destruct (FileFingerprint.eqb f g) eqn:E1,
      (FileFingerprint.eqb g f) eqn:E2; try reflexivity.
    + apply fingerprint_eqb_iff in E1 as (-> & Hs & Hm).
      assert (FileFingerprint.eqb g g = true)
        by (apply fingerprint_eqb_iff; auto).
      congruence.
    + apply fingerprint_eqb_iff in E2 as (-> & Hs & Hm).
      assert (FileFingerprint.eqb f f = true)
        by (apply fingerprint_eqb_iff; auto).
      congruence.
  - intros E1 E2.
    apply fingerprint_eqb_iff in E1 as (-> & Hs & Hm).
    exact E2.
  - intros E1. apply fingerprint_eqb_iff in E1 as (<- & Hs & Hm).
    unfold FileFingerprint.good.
    now rewrite (proj2 (Z.eqb_neq _ 0) Hs).
  - intros Hz. destruct (FileFingerprint.eqb f f) eqn:E; [| reflexivity].
    apply fingerprint_eqb_iff in E as (_ & Hs & Hm). lia.
  - reflexivity.
Qed.

(* --------------------------------------------------------------------- *)
(** ** Tokens and plain text in comments                                  *)
(* --------------------------------------------------------------------- *)

Lemma append_assoc (a b c : string) :
  ((a ++ b) ++ c)%string = (a ++ (b ++ c))%string.
Proof.
  induction a as [| x a IH]; cbn; [reflexivity | now rewrite IH].
Qed.

Lemma tokenStart_app prev a b :
  tokenStart prev (a ++ b)
  = tokenStart prev a || tokenStart (lastChar prev a) b.
Proof.
  revert prev; induction a as [| c a IH]; intros prev; cbn; [reflexivity |].
  rewrite IH. now rewrite orb_assoc.
Qed.

Lemma lastChar_app prev a b :
  lastChar prev (a ++ b) = lastChar (lastChar prev a) b.
Proof.
  revert prev; induction a as [| c a IH]; intros prev; cbn; [reflexivity |].
  apply IH.
Qed.

Section PlainText.
Context {State : Type} (evalToken : State -> string -> option string -> State).

Lemma tokenLoop_plain_text fuel :
  forall st prev kept rest,
    tokenStart prev rest = false ->
    tokenLoop evalToken fuel st prev kept rest = (st, (kept ++ rest)%string).
Proof.
  induction fuel as [| fuel IH]; intros st prev kept rest Hno;
    [reflexivity |].
  cbn [tokenLoop]. destruct rest as [| c r].
  - now rewrite append_empty_r.
  - cbn [tokenStart] in Hno. apply orb_false_iff in Hno as [Hc Hr].
    assert (Hgo : tokenLoop evalToken fuel st c
                    (kept ++ String c EmptyString) r
                  = (st, (kept ++ String c r)%string)).
    { rewrite IH by exact Hr. now rewrite append_assoc. }
    destruct (c =? "@")%char; [| exact Hgo].
    cbn [andb] in Hc. apply negb_false_iff in Hc. rewrite Hc. exact Hgo.
Qed.

Lemma tokenLoop_leaves_no_token fuel :
  forall st prev kept rest prev0,
    (String.length rest <= fuel)%nat ->
    tokenStart prev0 kept = false ->
    lastChar prev0 kept = prev ->
    tokenStart prev0 (snd (tokenLoop evalToken fuel st prev kept rest))
    = false.
Proof.
  induction fuel as [| fuel IH]; intros st prev kept rest prev0 Hf Hk Hl.
  - destruct rest; [| cbn in Hf; lia]. cbn. now rewrite append_empty_r.
  - cbn [tokenLoop]. destruct rest as [| c r]; [exact Hk |].
    cbn [String.length] in Hf.
    assert (Hgo : isalnum prev = true \/ (c =? "@")%char = false ->
              tokenStart prev0
                (snd (tokenLoop evalToken fuel st c
                        (kept ++ String c EmptyString) r)) = false).
    { intros Hc. apply IH; [lia | |].
      - rewrite tokenStart_app, Hk, Hl. cbn.
        destruct Hc as [-> | ->]; cbn; now rewrite ?andb_false_r.
      - now rewrite lastChar_app. }
    destruct (c =? "@")%char eqn:Hat; [| apply Hgo; now right].
    destruct (isalnum prev) eqn:Hp; [apply Hgo; now left |].
    pose proof (splitToken_length r) as Hlen.
    destruct (splitToken r) as [[key value] r']. cbn [snd] in Hlen.
    apply IH; [lia | exact Hk | exact Hl].
Qed.

(** X14: the text that the loop leaves behind holds no token any more:
    every [@] that is left follows a letter or a digit.  The length of
    the comment is enough fuel for this. *)
Theorem extracted_text_holds_no_token st prev content fuel :
  (String.length content <= fuel)%nat ->
  tokenLoop evalToken fuel st prev EmptyString content
  = extractTokens evalToken st prev content
  /\ tokenStart prev (snd (extractTokens evalToken st prev content)) = false.
Proof.
  intros Hf. split.
  - now apply extractTokens_enough.
  - unfold extractTokens. now apply tokenLoop_leaves_no_token.
Qed.

End PlainText.

(* --------------------------------------------------------------------- *)
(** ** Keys and values are read in lower case                             *)
(* --------------------------------------------------------------------- *)

Lemma tolower_facts c :
  tolower (tolower c) = tolower c
  /\ isident (tolower c) = isident c
  /\ (tolower c =? "=")%char = (c =? "=")%char.
Proof.
  destruct c as [[] [] [] [] [] [] [] []]; vm_compute; repeat split.
Qed.

Lemma spanIdent_lower s :
  spanIdent (lower s)
  = (fst (spanIdent s), lower (snd (spanIdent s)))
  /\ lower (fst (spanIdent s)) = fst (spanIdent s).
Proof.
  induction s as [| c r [IH1 IH2]]; [split; reflexivity |].
  cbn [lower spanIdent].
  destruct (tolower_facts c) as (Hl & Hi & _). rewrite Hi.
  destruct (isident c); [| split; reflexivity].
  rewrite IH1. destruct (spanIdent r) as [k r']. cbn [fst snd] in *.
  rewrite Hl. split; [reflexivity |]. cbn [lower]. now rewrite Hl, IH2.
Qed.

(** X15: annotation tokens are read without regard to case, values
    included: the key and the value that the loop hands on are in lower
    case, and they are the same for a text and for its lower-case
    form.  So [@MIN=0] is [@min=0], [@coord=PIXEL] is [@coord=pixel],
    and a unit [@unit=Hz] is stored as [hz]. *)
Theorem tokens_are_read_in_lower_case s key value rest :
  splitToken s = (key, value, rest) ->
  splitToken (lower s) = (key, value, lower rest)
  /\ lower key = key
  /\ (forall v, value = Some v -> lower v = v).
Proof.
  unfold splitToken.
  destruct (spanIdent_lower s) as [Hs Hk]. rewrite Hs.
  destruct (spanIdent s) as [k r1]. cbn [fst snd] in *.
  destruct r1 as [| c r].
  - intros [= <- <- <-]. cbn. repeat split; [exact Hk | discriminate].
  - cbn [lower]. destruct (tolower_facts c) as (_ & _ & He). rewrite He.
    destruct (c =? "=")%char.
    + destruct (spanIdent_lower r) as [Hr Hv]. rewrite Hr.
      destruct (spanIdent r) as [v r']. cbn [fst snd] in *.
      intros [= <- <- <-]. split; [| split; [exact Hk |]].
      * now destruct r'.
      * now intros v0 [= <-].
    + intros [= <- <- <-]. cbn. repeat split; [exact Hk | discriminate].
Qed.

(* --------------------------------------------------------------------- *)
(** ** What a comment can change                                          *)
(* --------------------------------------------------------------------- *)

Lemma map_modify_nth {A B} (g : A -> B) (f : A -> A) i (l : list A) :
  (forall x, g (f x) = g x) -> map g (modify_nth i f l) = map g l.
Proof.
  intros Hg. revert i; induction l as [| x l IH]; intros [| i]; cbn;
    rewrite ?Hg, ?IH; reflexivity.
Qed.

Section CommentFrame.
Context `{Extern}.
Implicit Types (s : V2.LoadState).

(** An annotation token leaves the name and the default value of every
    parameter alone. *)
Lemma evalToken_keeps_declarations s key value :
  map GParameter.m_name (V2.newParams (V2.evalToken s key value))
  = map GParameter.m_name (V2.newParams s)
  /\ map GParameter.m_value (V2.newParams (V2.evalToken s key value))
     = map GParameter.m_value (V2.newParams s).
Proof.
  unfold V2.evalToken. unfold_conditions.
  key_cases key; cbn.
  all: try (destruct (V2.param s) eqn:Hp; cbn).
  all: try (destruct value as [v |]; cbn).
  all: repeat match goal with
       | |- context [if snd (strtof ?v) then _ else _] =>
           destruct (snd (strtof v)); cbn
       | |- context [GLSLToken.eqb ?a ?b] =>
           destruct (GLSLToken.eqb a b); cbn
       end.
  all: unfold V2.setCoordMode, V2.setTexFilter.
  all: repeat match goal with
       | |- context [(?a =? ?b)%string] => destruct (a =? b)%string; cbn
       end.
  all: unfold V2.onParam, V2.addErr; rewrite ?Hp; cbn.
  all: split; try reflexivity; apply map_modify_nth; reflexivity.
Qed.

(** The state behind a comment, in terms of the state in front of it. *)
Lemma handleComment_frame s multi comment :
  exists ps e cm tf,
    V2.handleComment s multi comment =
    V2.set_param Datatypes.None
      (V2.set_texFilter tf (V2.set_coordMode cm
         (V2.set_err e (V2.set_newParams ps s))))
    /\ map GParameter.m_name ps = map GParameter.m_name (V2.newParams s)
    /\ map GParameter.m_value ps = map GParameter.m_value (V2.newParams s).
Proof.
  unfold V2.handleComment.
  destruct (commentContent multi comment) as [prev content].
  pose proof (tokenLoop_invariant V2.evalToken
    (fun s' => exists ps e cm tf,
       s' = V2.set_texFilter tf (V2.set_coordMode cm
              (V2.set_err e (V2.set_newParams ps s)))
       /\ map GParameter.m_name ps = map GParameter.m_name (V2.newParams s)
       /\ map GParameter.m_value ps = map GParameter.m_value (V2.newParams s)))
    as Hinv.
  unfold extractTokens.
  specialize (Hinv ltac:(
    intros s' key value (ps & e & cm & tf & -> & Hn & Hv);
    destruct (evalToken_frame
                (V2.set_texFilter tf (V2.set_coordMode cm
                   (V2.set_err e (V2.set_newParams ps s)))) key value)
      as (ps' & e' & cm' & tf' & Heq & _);
    destruct (evalToken_keeps_declarations
                (V2.set_texFilter tf (V2.set_coordMode cm
                   (V2.set_err e (V2.set_newParams ps s)))) key value)
      as [Hn' Hv'];
    rewrite Heq in Hn', Hv' |- *; cbn in Hn', Hv';
    exists ps', e', cm', tf'; split; [reflexivity |];
    split; congruence)).
  specialize (Hinv (String.length content) s prev EmptyString content).
  destruct (tokenLoop V2.evalToken _ s prev EmptyString content)
    as [s1 content'].
  cbn [fst] in Hinv.
  destruct Hinv as (ps & e & cm & tf & -> & Hn & Hv).
  { exists (V2.newParams s), (V2.err s), (V2.coordMode s), (V2.texFilter s).
    split; [now destruct s |]. split; reflexivity. }
  cbn [V2.param V2.set_texFilter V2.set_coordMode V2.set_err V2.set_newParams].
  destruct (V2.param s) as [i |] eqn:Hp.
  - match goal with
    | |- context [if ?c then _ else _] => destruct c
    end.
    + exists ps, e, cm, tf. split; [reflexivity |]. now split.
    + unfold V2.onParam. cbn. rewrite Hp.
      eexists _, e, cm, tf. split; [reflexivity |].
      rewrite !map_modify_nth by reflexivity. now split.
  - exists ps, e, cm, tf. split; [reflexivity |]. now split.
Qed.

(** X16: a comment changes neither the passes nor the parser of the
    uniform statements: the pass mask, the pass that was declared last,
    the inputs, outputs and settings of the passes, the token history
    and the position in a uniform statement are behind the comment what
    they were in front of it, as are the names and the default values
    of the parameters.  What is behind a comment is no parameter
    comment any more. *)
Theorem comment_keeps_passes_and_declarations s multi comment :
  let s' := V2.handleComment s multi comment in
  V2.passMask s' = V2.passMask s
  /\ V2.currentPass s' = V2.currentPass s
  /\ V2.singlePass s' = V2.singlePass s
  /\ V2.inputs s' = V2.inputs s
  /\ V2.outputs s' = V2.outputs s
  /\ V2.m_passes s' = V2.m_passes s
  /\ V2.tt s' = V2.tt s
  /\ V2.paramDataType s' = V2.paramDataType s
  /\ V2.paramValueIndex s' = V2.paramValueIndex s
  /\ V2.inParamStatement s' = V2.inParamStatement s
  /\ map GParameter.m_name (V2.newParams s')
     = map GParameter.m_name (V2.newParams s)
  /\ map GParameter.m_value (V2.newParams s')
     = map GParameter.m_value (V2.newParams s)
  /\ V2.param s' = Datatypes.None.
Proof.
  intros s'. subst s'.
  destruct (handleComment_frame s multi comment)
    as (ps & e & cm & tf & -> & Hn & Hv).
  repeat split; assumption.
Qed.

(** X17: a comment in which every [@] follows a letter or a digit (as
    in a mail address) holds no token: the loop evaluates nothing and
    leaves the text as it is, so that the comment adds no diagnostic
    and changes neither the coordinate mode nor the filter mode, and in
    front of any declaration of a uniform it changes nothing at all.
    No helper is called, so that this is what the comment does in
    every execution, also with the helpers of an earlier one. *)
Theorem comment_without_token_is_plain_text s multi comment :
  let prev := fst (commentContent multi comment) in
  let content := snd (commentContent multi comment) in
  tokenStart prev content = false ->
  extractTokens V2.evalToken s prev content = (s, content)
  /\ V2.err (V2.handleComment s multi comment) = V2.err s
  /\ V2.coordMode (V2.handleComment s multi comment) = V2.coordMode s
  /\ V2.texFilter (V2.handleComment s multi comment) = V2.texFilter s
  /\ (V2.param s = Datatypes.None -> V2.handleComment s multi comment = s)
  /\ (forall h, V2.handleCommentWith h s multi comment
                = Some (V2.handleComment s multi comment)).
Proof.
  intros prev content Hno.
  assert (Hx : extractTokens V2.evalToken s prev content = (s, content)).
  { unfold extractTokens. now rewrite tokenLoop_plain_text by exact Hno. }
  split; [exact Hx |].
  assert (Hh : forall h, V2.handleCommentWith h s multi comment
                         = Some (V2.handleComment s multi comment)).
  { intros [|]; [apply handleCommentWith_own |].
    rewrite handleCommentWith_foreign.
    unfold evaluatesToken. cbn [existsb]. subst prev content.
    destruct (commentContent multi comment) as [prev content].
    cbn [fst snd] in Hno.
    unfold extractTokens. now rewrite tokenLoop_plain_text by exact Hno. }
  unfold V2.handleComment in *. subst prev content.
  destruct (commentContent multi comment) as [prev content].
  cbn [fst snd] in Hx. rewrite Hx in *.
  destruct (V2.param s) as [i |] eqn:Hp.
  - destruct (_ =? _)%string; unfold V2.onParam in *; rewrite ?Hp in *;
      repeat split; try exact Hh; intros [=].
  - repeat split; try exact Hh. intros _. destruct s. cbn in Hp. now subst.
Qed.

End CommentFrame.

(* --------------------------------------------------------------------- *)
(** ** Invariants of the analysis                                         *)
(* --------------------------------------------------------------------- *)

Section AnalysisInvariants.
Context `{Extern}.
Implicit Types (s : V2.LoadState).

(** What the analysis keeps true of its variables. *)
Local Abbreviation inBounds s :=
  (-1 <= V2.paramValueIndex s <= 4
   /\ (forall i, V2.param s = Some i -> S i = List.length (V2.newParams s))
   /\ List.length (V2.tt s) = 4%nat
   /\ 0 <= V2.currentPass s < MaxPasses
   /\ 0 <= V2.passMask s < 2 ^ MaxPasses
   /\ Forall (fun v => List.length v = 4%nat)
        (map GParameter.m_value (V2.newParams s))).

Lemma parseDefault_frame s token :
  exists ps k,
    V2.parseDefault s token = V2.set_paramValueIndex k (V2.set_newParams ps s)
    /\ List.length ps = List.length (V2.newParams s)
    /\ (k = V2.paramValueIndex s
        \/ (0 <= V2.paramValueIndex s < 4 /\ k = V2.paramValueIndex s + 1))
    /\ (Forall (fun v => List.length v = 4%nat)
          (map GParameter.m_value (V2.newParams s)) ->
        Forall (fun v => List.length v = 4%nat)
          (map GParameter.m_value ps)).
Proof.
  unfold V2.parseDefault.
  destruct (V2.hasParam s && V2.inParamStatement s) eqn:Hp; cbn [andb].
  2: { exists (V2.newParams s), (V2.paramValueIndex s).
       split; [now destruct s |]. split; [reflexivity |]. split; auto. }
  destruct (Z.leb_spec 0 (V2.paramValueIndex s)); cbn [andb].
  2: { exists (V2.newParams s), (V2.paramValueIndex s).
       split; [now destruct s |]. split; [reflexivity |]. split; auto. }
  destruct (Z.ltb_spec (V2.paramValueIndex s) 4).
  2: { exists (V2.newParams s), (V2.paramValueIndex s).
       split; [now destruct s |]. split; [reflexivity |]. split; auto. }
  destruct (strtof token) as [f whole]. destruct whole.
  2: { exists (V2.newParams s), (V2.paramValueIndex s).
       split; [now destruct s |]. split; [reflexivity |]. split; auto. }
  unfold V2.onParam. destruct (V2.param s) as [i |] eqn:Hpar.
  - eexists _, _. split; [reflexivity |].
    split; [apply length_modify_nth |]. split; [right; lia |].
    intros Hall. rewrite Forall_forall in *. intros v Hv.
    apply in_map_iff in Hv as (p & <- & Hin).
    apply In_nth_error in Hin as [j Hj].
    destruct (Nat.eq_dec i j) as [<- | Hne].
    + destruct (nth_error (V2.newParams s) i) as [p0 |] eqn:Hp0.
      * rewrite (nth_error_modify_nth_eq _ _ _ _ Hp0) in Hj.
        injection Hj as <-. cbn. rewrite length_modify_nth.
        apply Hall. apply in_map. eapply nth_error_In. exact Hp0.
      * apply nth_error_None in Hp0.
        assert (Hsome : nth_error
                  (modify_nth i (GParameter.set_valueAt (V2.paramValueIndex s) f)
                     (V2.newParams s)) i <> Datatypes.None) by congruence.
        apply nth_error_Some in Hsome. rewrite length_modify_nth in Hsome. lia.
    + rewrite nth_error_modify_nth_neq in Hj by exact Hne.
      apply Hall. apply in_map. eapply nth_error_In. exact Hj.
  - exists (V2.newParams s), (V2.paramValueIndex s + 1).
    split; [now destruct s |]. split; [reflexivity |]. split; [right; lia | auto].
Qed.

Lemma handleToken_inBounds s token :
  inBounds s -> inBounds (V2.handleToken s token).
Proof.
  intros (Hidx & Hpar & Htt & Hcp & Hmask & Hval). unfold V2.handleToken.
  destruct (GLSLToken.eqb (lookup tokenMap token) GLSLToken.Ignored);
    [repeat split; try assumption; lia |].
  assert (B1 : inBounds (V2.pushHistory (lookup tokenMap token) s))
    by (cbn -[MaxPasses Z.pow]; repeat split; try assumption; lia).
  set (s1 := V2.pushHistory (lookup tokenMap token) s) in *.
  clearbody s1. clear Hidx Hpar Htt Hcp Hmask Hval s.
  destruct B1 as (Hidx & Hpar & Htt & Hcp & Hmask & Hval).
  destruct (GLSLToken.eqb (V2.ttAt s1 2) GLSLToken.Uniform).
  { unfold V2.newUniform.
    destruct (V2.isUniformType (V2.ttAt s1 1));
      cbn -[MaxPasses Z.pow]; repeat split; try assumption; try lia.
    - intros i [= <-]. rewrite length_app. cbn. lia.
    - rewrite map_app. apply Forall_app. split; [exact Hval |].
      constructor; [| constructor].
      destruct (V2.ttAt s1 1); reflexivity. }
  destruct (V2.hasParam s1 && V2.inParamStatement s1
            && (V2.paramValueIndex s1 <? 0) && contains "=" token).
  { cbn -[MaxPasses Z.pow]. repeat split; try assumption; lia. }
  destruct (parseDefault_frame s1 token) as (ps & k & Hpd & Hlen & Hk & Hv).
  assert (B2 : inBounds (V2.parseDefault s1 token)).
  { rewrite Hpd. cbn -[MaxPasses Z.pow].
    repeat split; try assumption; try lia; auto.
    intros i Hi. rewrite Hlen. now apply Hpar. }
  destruct (contains ";" token); [exact B2 |].
  destruct (V2.isPassPattern (V2.parseDefault s1 token)) eqn:Hpat;
    [| exact B2].
  set (s2 := V2.parseDefault s1 token) in *. clearbody s2.
  clear Hidx Hpar Htt Hcp Hmask Hval Hpd Hlen Hk Hv.
  destruct B2 as (Hidx & Hpar & Htt & Hcp & Hmask & Hval).
  destruct (passDefinition_passMask s2 Hpat) as (cp & Hcpr & Hm).
  assert (Hframe :
    V2.paramValueIndex (V2.passDefinition s2) = V2.paramValueIndex s2
    /\ V2.param (V2.passDefinition s2) = V2.param s2
    /\ V2.newParams (V2.passDefinition s2) = V2.newParams s2
    /\ V2.tt (V2.passDefinition s2) = V2.tt s2
    /\ 0 <= V2.currentPass (V2.passDefinition s2) < MaxPasses).
  { unfold V2.isPassPattern in Hpat.
    apply andb_true_iff in Hpat as [Hpat _].
    apply andb_true_iff in Hpat as [Hpat _].
    apply andb_true_iff in Hpat as [_ Hrun].
    unfold V2.passDefinition, V2.selectPass.
    destruct (V2.ttAt s2 2); cbn in Hrun; try discriminate Hrun;
      cbn; repeat split; unfold MaxPasses; lia. }
  destruct Hframe as (E1 & E2 & E3 & E4 & E5).
  rewrite E1, E2, E3, E4, Hm.
  repeat split; try assumption; try lia.
  - apply (lor_pass_range _ _ Hmask Hcpr).
  - apply (lor_pass_range _ _ Hmask Hcpr).
Qed.

Lemma handleComment_inBounds s multi comment :
  inBounds s -> inBounds (V2.handleComment s multi comment).
Proof.
  intros (Hidx & Hpar & Htt & Hcp & Hmask & Hval).
  destruct (handleComment_frame s multi comment)
    as (ps & e & cm & tf & -> & Hn & Hv).
  cbn -[MaxPasses Z.pow]. rewrite Hv.
  repeat split; try assumption; try lia.
  intros i [=].
Qed.

(** X18: the analysis never leaves its arrays.  Whatever the lexemes
    are, the index of the next default value stays between -1 and 4 (a
    value is stored below 4 only), so that every parameter keeps its
    four values; [param], when it is set, points to the last element of
    [newParams]; the token history keeps its four entries; and the pass
    that was declared last is below [MaxPasses], with a pass mask that
    only has the bits of the passes 0 to [MaxPasses - 1]. *)
Theorem analysis_stays_in_bounds lexemes i0 o0 p0 :
  let s := V2.analyze lexemes (V2.initial i0 o0 p0) in
  -1 <= V2.paramValueIndex s <= 4
  /\ (forall i, V2.param s = Some i -> S i = List.length (V2.newParams s))
  /\ List.length (V2.tt s) = 4%nat
  /\ 0 <= V2.currentPass s < MaxPasses
  /\ 0 <= V2.passMask s < 2 ^ MaxPasses
  /\ Forall (fun v => List.length v = 4%nat)
       (map GParameter.m_value (V2.newParams s)).
Proof.
  cbv zeta.
  assert (Hgen : forall lx s, inBounds s -> inBounds (V2.analyze lx s)).
  { induction lx as [| x lx IH]; intros s Hs; [exact Hs |].
    cbn [V2.analyze fold_left]. apply IH.
    destruct x as [multi comment | token].
    - now apply handleComment_inBounds.
    - now apply handleToken_inBounds. }
  apply Hgen. cbn -[MaxPasses Z.pow].
  repeat split; try lia; try constructor. intros i [=].
Qed.

End AnalysisInvariants.

(* --------------------------------------------------------------------- *)
(** ** Declarations of uniforms                                           *)
(* --------------------------------------------------------------------- *)

Section UniformDeclarations.
Context `{Extern}.
Implicit Types (s : V2.LoadState).

(** A token that only enters the history: it is no comment, it is not
    ignored, it does not complete the declaration of a uniform, it
    comes behind no parameter, it ends no statement and it completes no
    declaration of a pass. *)
Lemma handleToken_history_only s token :
  GLSLToken.eqb (lookup tokenMap token) GLSLToken.Ignored = false ->
  GLSLToken.eqb (V2.ttAt s 1) GLSLToken.Uniform = false ->
  V2.param s = Datatypes.None ->
  contains ";" token = false ->
  V2.isPassPattern (V2.pushHistory (lookup tokenMap token) s) = false ->
  V2.handleToken s token = V2.pushHistory (lookup tokenMap token) s.
Proof.
  intros Hig Hu Hp Hsemi Hpat. unfold V2.handleToken. rewrite Hig.
  set (s1 := V2.pushHistory (lookup tokenMap token) s) in *.
  assert (H2 : V2.ttAt s1 2 = V2.ttAt s 1) by reflexivity.
  assert (Hp1 : V2.param s1 = Datatypes.None) by exact Hp.
  rewrite H2, Hu.
  assert (Hhas : V2.hasParam s1 = false) by (unfold V2.hasParam; now rewrite Hp1).
  rewrite Hhas. cbn [andb].
  assert (Hpd : V2.parseDefault s1 token = s1)
    by (unfold V2.parseDefault; now rewrite Hhas).
  rewrite Hpd, Hsemi, Hpat. reflexivity.
Qed.

(** X19: the three tokens [uniform], a type and a name, in front of
    which no parameter is pending and no [uniform] stands, declare a
    parameter exactly when the type is float, vec2, vec3 or vec4.  Then
    a parameter of that name, with the default type of its data type and
    the initial values, is added at the end of the list and becomes the
    parameter that a default value or a comment behind it refers to;
    the diagnostics are left as they are.  With another type no
    parameter is added and "has unsupported data type" is reported for
    the name. *)
Theorem uniform_declaration_adds_a_parameter s type name :
  V2.param s = Datatypes.None ->
  GLSLToken.eqb (V2.ttAt s 0) GLSLToken.Uniform = false ->
  GLSLToken.eqb (V2.ttAt s 1) GLSLToken.Uniform = false ->
  GLSLToken.eqb (lookup tokenMap type) GLSLToken.Ignored = false ->
  GLSLToken.eqb (lookup tokenMap name) GLSLToken.Ignored = false ->
  contains ";" type = false ->
  let s' := V2.analyze [Token "uniform"; Token type; Token name] s in
  (V2.isUniformType (lookup tokenMap type) = true ->
   V2.newParams s'
   = V2.newParams s
     ++ [V2.defaultType (lookup tokenMap type)
           (GParameter.set_name name GParameter.fresh)]
   /\ V2.param s' = Some (List.length (V2.newParams s))
   /\ V2.paramDataType s' = lookup tokenMap type
   /\ V2.paramValueIndex s' = -1
   /\ V2.inParamStatement s' = true
   /\ V2.err s' = V2.err s)
  /\ (V2.isUniformType (lookup tokenMap type) = false ->
      V2.newParams s' = V2.newParams s
      /\ V2.param s' = Datatypes.None
      /\ V2.inParamStatement s' = false
      /\ V2.err s' = V2.err s ++ [UnsupportedUniform name]).
Proof.
  intros Hp H0 H1 Hty Hname Hsemi s'. subst s'.
  cbn [V2.analyze fold_left V2.handleLexeme].
  rewrite (handleToken_history_only s "uniform");
    [| reflexivity | exact H1 | exact Hp | reflexivity | ].
  2: { unfold V2.isPassPattern. cbn. now rewrite andb_false_r. }
  set (s1 := V2.pushHistory (lookup tokenMap "uniform") s).
  assert (Hs1 : V2.ttAt s1 0 = GLSLToken.Uniform) by reflexivity.
  assert (Hs1' : V2.ttAt s1 1 = V2.ttAt s 0) by reflexivity.
  rewrite (handleToken_history_only s1 type);
    [| exact Hty | now rewrite Hs1' | exact Hp | exact Hsemi | ].
  2: { unfold V2.isPassPattern.
       change (V2.ttAt (V2.pushHistory (lookup tokenMap type) s1) 1)
         with GLSLToken.Uniform.
       cbn [GLSLToken.eqb GLSLToken.code Z.eqb]. cbn.
       now rewrite andb_false_r. }
  set (s2 := V2.pushHistory (lookup tokenMap type) s1).
  unfold V2.handleToken. rewrite Hname.
  set (s3 := V2.pushHistory (lookup tokenMap name) s2).
  change (V2.ttAt s3 2) with GLSLToken.Uniform.
  cbn [GLSLToken.eqb GLSLToken.code Z.eqb Pos.eqb].
  unfold V2.newUniform.
  change (V2.ttAt s3 1) with (lookup tokenMap type).
  destruct (V2.isUniformType (lookup tokenMap type)).
  - split; [intros _ | discriminate]. repeat split.
  - split; [discriminate | intros _]. repeat split. exact Hp.
Qed.

End UniformDeclarations.

(* --------------------------------------------------------------------- *)
(** ** The declaration of a pass                                          *)
(* --------------------------------------------------------------------- *)

Section PassDeclarations.
Context `{Extern}.
Implicit Types (s : V2.LoadState).

(** A token that holds neither [=] nor [;] and does not complete the
    declaration of a uniform: it enters the history, it may be read as
    a number of a default value, and it is then looked at as the end of
    the declaration of a pass. *)
Lemma handleToken_plain s token :
  GLSLToken.eqb (lookup tokenMap token) GLSLToken.Ignored = false ->
  GLSLToken.eqb (V2.ttAt s 1) GLSLToken.Uniform = false ->
  contains "=" token = false ->
  contains ";" token = false ->
  exists ps k,
    let s1 := V2.set_paramValueIndex k
                (V2.set_newParams ps
                   (V2.pushHistory (lookup tokenMap token) s)) in
    V2.handleToken s token
    = if V2.isPassPattern s1 then V2.passDefinition s1 else s1.
Proof.
  intros Hig Hu Heq Hsemi. unfold V2.handleToken. rewrite Hig.
  set (s0 := V2.pushHistory (lookup tokenMap token) s).
  change (V2.ttAt s0 2) with (V2.ttAt s 1). rewrite Hu, Heq, Hsemi.
  rewrite andb_false_r.
  destruct (parseDefault_frame s0 token) as (ps & k & -> & _).
  exists ps, k. reflexivity.
Qed.

(** X26: the four tokens of the head of an entry point, the type of the
    result, the name, the parenthesis and the type of the argument,
    declare the pass of that name: its bit is set in the mask, the
    kinds of its input and output are those of the two types, and its
    texture filter and coordinate mode become the ones that the
    annotations in front of the declaration have selected.  The other
    passes and the diagnostics are left as they are, and [run] and
    [run_pass1] tell whether the shader is a single pass.  The tokens
    stand behind no [uniform], and the first one does not end the head
    of another entry point. *)
Theorem pass_declaration_is_recorded s out name inp o cp i :
  In (out, o) passOutputTypes ->
  In (name, cp) passEntryPoints ->
  In (inp, i) passInputTypes ->
  GLSLToken.eqb (V2.ttAt s 0) GLSLToken.Uniform = false ->
  GLSLToken.eqb (V2.ttAt s 1) GLSLToken.Uniform = false ->
  GLSLToken.eqb (V2.ttAt s 0) GLSLToken.OpenParens = false ->
  let s' := V2.analyze [Token out; Token name; Token "("; Token inp] s in
  V2.passMask s' = Z.lor (V2.passMask s) (Z.shiftl 1 cp)
  /\ V2.currentPass s' = cp
  /\ V2.inputs s' cp = i
  /\ V2.outputs s' cp = o
  /\ V2.m_passes s' cp
     = Pass.set_coordMode (V2.coordMode s)
         (Pass.set_texFilter (V2.texFilter s) (V2.m_passes s cp))
  /\ (forall j, j <> cp ->
        V2.inputs s' j = V2.inputs s j
        /\ V2.outputs s' j = V2.outputs s j
        /\ V2.m_passes s' j = V2.m_passes s j)
  /\ V2.singlePass s'
     = (if (name =? "run")%string then true
        else if (name =? "run_pass1")%string then false
        else V2.singlePass s)
  /\ V2.err s' = V2.err s.
Proof.
  intros Hout Hname Hinp Hu0 Hu1 Hparen s'. subst s'.
  cbn [V2.analyze fold_left V2.handleLexeme].
  assert (Ho : exists O, lookup tokenMap out = O
                 /\ contains "=" out = false /\ contains ";" out = false
                 /\ (O = GLSLToken.Vec3 \/ O = GLSLToken.Vec4)
                 /\ forall old, V2.outputOf O old = o).
  { cbn in Hout. destruct Hout as [E | [E | []]]; injection E as <- <-;
      eexists; repeat split; auto. }
  assert (Hr : exists R, lookup tokenMap name = R
                 /\ contains "=" name = false /\ contains ";" name = false
                 /\ (R = GLSLToken.RunSingle \/ R = GLSLToken.RunPass1
                     \/ R = GLSLToken.RunPass2 \/ R = GLSLToken.RunPass3
                     \/ R = GLSLToken.RunPass4)
                 /\ (forall s0, V2.ttAt s0 2 = R ->
                       V2.selectPass s0
                       = (if (name =? "run")%string
                          then V2.set_singlePass true
                          else if (name =? "run_pass1")%string
                               then V2.set_singlePass false
                               else fun x => x)
                           (V2.set_currentPass cp s0))).
  { cbn in Hname.
    destruct Hname as [E | [E | [E | [E | [E | []]]]]]; injection E as <- <-;
      eexists; (split; [reflexivity |]); (split; [reflexivity |]);
      (split; [reflexivity |]); (split; [tauto |]);
      intros s0 Hs0; unfold V2.selectPass; rewrite Hs0; reflexivity. }
  assert (Hi : exists I, lookup tokenMap inp = I
                 /\ contains "=" inp = false /\ contains ";" inp = false
                 /\ (I = GLSLToken.Vec2 \/ I = GLSLToken.Vec3
                     \/ I = GLSLToken.Vec4)
                 /\ forall old, V2.inputOf I old = i).
  { cbn in Hinp. destruct Hinp as [E | [E | [E | []]]]; injection E as <- <-;
      eexists; repeat split; auto. }
  destruct Ho as (O & HO & Ho1 & Ho2 & HOc & Hoo).
  destruct Hr as (R & HR & Hr1 & Hr2 & HRc & Hsel).
  destruct Hi as (I & HI & Hi1 & Hi2 & HIc & Hii).
  (* the type of the result *)
  destruct (handleToken_plain s out) as (ps1 & k1 & E1);
    [rewrite HO; now destruct HOc as [-> | ->] | exact Hu1 | exact Ho1
    | exact Ho2 |].
  cbv zeta in E1. rewrite HO in E1.
  set (s1 := V2.set_paramValueIndex k1
               (V2.set_newParams ps1 (V2.pushHistory O s))) in *.
  assert (P1 : V2.isPassPattern s1 = false).
  { unfold V2.isPassPattern.
    change (V2.ttAt s1 1) with (V2.ttAt s 0). rewrite Hparen.
    now rewrite andb_false_r. }
  rewrite P1 in E1. rewrite E1. clear E1.
  (* the name *)
  destruct (handleToken_plain s1 name) as (ps2 & k2 & E2);
    [rewrite HR; now destruct HRc as [-> | [-> | [-> | [-> | ->]]]]
    | exact Hu0 | exact Hr1 | exact Hr2 |].
  cbv zeta in E2. rewrite HR in E2.
  set (s2 := V2.set_paramValueIndex k2
               (V2.set_newParams ps2 (V2.pushHistory R s1))) in *.
  assert (P2 : V2.isPassPattern s2 = false).
  { unfold V2.isPassPattern.
    change (V2.ttAt s2 0) with R.
    destruct HRc as [-> | [-> | [-> | [-> | ->]]]]; cbn;
      now rewrite andb_false_r. }
  rewrite P2 in E2. rewrite E2. clear E2.
  (* the parenthesis *)
  destruct (handleToken_plain s2 "(") as (ps3 & k3 & E3);
    [reflexivity
    | change (V2.ttAt s2 1) with O; now destruct HOc as [-> | ->]
    | reflexivity | reflexivity |].
  cbv zeta in E3. change (lookup tokenMap "(") with GLSLToken.OpenParens in E3.
  set (s3 := V2.set_paramValueIndex k3
               (V2.set_newParams ps3
                  (V2.pushHistory GLSLToken.OpenParens s2))) in *.
  assert (P3 : V2.isPassPattern s3 = false).
  { unfold V2.isPassPattern.
    change (V2.ttAt s3 0) with GLSLToken.OpenParens. cbn.
    now rewrite andb_false_r. }
  rewrite P3 in E3. rewrite E3. clear E3.
  (* the type of the argument *)
  destruct (handleToken_plain s3 inp) as (ps4 & k4 & E4);
    [rewrite HI; now destruct HIc as [-> | [-> | ->]]
    | change (V2.ttAt s3 1) with R;
      now destruct HRc as [-> | [-> | [-> | [-> | ->]]]]
    | exact Hi1 | exact Hi2 |].
  cbv zeta in E4. rewrite HI in E4.
  set (s4 := V2.set_paramValueIndex k4
               (V2.set_newParams ps4 (V2.pushHistory I s3))) in *.
  assert (P4 : V2.isPassPattern s4 = true).
  { unfold V2.isPassPattern.
    change (V2.ttAt s4 0) with I. change (V2.ttAt s4 1) with GLSLToken.OpenParens.
    change (V2.ttAt s4 2) with R. change (V2.ttAt s4 3) with O.
    destruct HOc as [-> | ->];
      destruct HRc as [-> | [-> | [-> | [-> | ->]]]];
      destruct HIc as [-> | [-> | ->]]; reflexivity. }
  rewrite P4 in E4. rewrite E4. clear E4.
  unfold V2.passDefinition. rewrite (Hsel s4 eq_refl).
  assert (Hcp : 0 <= cp < MaxPasses).
  { cbn in Hname. unfold MaxPasses.
    destruct Hname as [E | [E | [E | [E | [E | []]]]]]; injection E as _ <-;
      lia. }
  set (sel := if (name =? "run")%string then V2.set_singlePass true
              else if (name =? "run_pass1")%string
                   then V2.set_singlePass false else fun x => x).
  assert (Hsel' : forall x,
             V2.currentPass (sel x) = V2.currentPass x
             /\ V2.passMask (sel x) = V2.passMask x
             /\ V2.inputs (sel x) = V2.inputs x
             /\ V2.outputs (sel x) = V2.outputs x
             /\ V2.m_passes (sel x) = V2.m_passes x
             /\ V2.texFilter (sel x) = V2.texFilter x
             /\ V2.coordMode (sel x) = V2.coordMode x
             /\ V2.err (sel x) = V2.err x
             /\ V2.tt (sel x) = V2.tt x
             /\ V2.singlePass (sel x)
                = (if (name =? "run")%string then true
                   else if (name =? "run_pass1")%string then false
                   else V2.singlePass x)).
  { intros x. subst sel.
    destruct (name =? "run")%string; [repeat split |].
    destruct (name =? "run_pass1")%string; repeat split. }
  destruct (Hsel' (V2.set_currentPass cp s4))
    as (S1 & S2 & S3 & S4 & S5 & S6 & S7 & S8 & S9 & S10).
  generalize dependent (sel (V2.set_currentPass cp s4)). intros x.
  intros S1 S2 S3 S4 S5 S6 S7 S8 S9 S10.
  cbn in S1. rewrite S1.
  destruct (Z.leb_spec MaxPasses cp) as [Hge | _]; [lia |].
  cbn. unfold V2.ttAt. cbn. rewrite S9. cbn.
  rewrite S2, S3, S4, S5, S6, S7, S8, S10. cbn. unfold upd.
  rewrite Z.eqb_refl, Hii, Hoo.
  repeat split; try reflexivity.
  1: exact S1.
  all: match goal with
       | Hj : ?j <> ?c |- _ => now destruct (Z.eqb_spec j c)
       end.
Qed.

End PassDeclarations.

(* --------------------------------------------------------------------- *)
(** ** Default values of uniforms                                         *)
(* --------------------------------------------------------------------- *)

Lemma lookup_named (x : GLSLToken.t) token :
  lookup tokenMap token = x ->
  (x = GLSLToken.Ignored -> token = "in")
  /\ (x = GLSLToken.Uniform -> token = "uniform").
Proof.
  unfold tokenMap. cbn [lookup].
  repeat match goal with
         | |- context [(?a =? token)%string] =>
             destruct (String.eqb_spec a token) as [<- | _];
             [intros <-; split; intros E; first [reflexivity | discriminate E] |]
         end.
  unfold tokenMapDefault. intros <-. split; intros E; discriminate E.
Qed.

Lemma lookup_with_equals_sign token :
  contains "=" token = true -> lookup tokenMap token = GLSLToken.Other.
Proof.
  unfold tokenMap. cbn [lookup]. intros Heq.
  repeat match goal with
         | |- context [(?a =? token)%string] =>
             destruct (String.eqb_spec a token) as [<- | _];
             [discriminate Heq |]
         end.
  reflexivity.
Qed.

Section DefaultValues.
Context `{Extern}.
Implicit Types (s : V2.LoadState).

Lemma passDefinition_keeps_parameters s :
  V2.newParams (V2.passDefinition s) = V2.newParams s
  /\ V2.param (V2.passDefinition s) = V2.param s
  /\ V2.paramValueIndex (V2.passDefinition s) = V2.paramValueIndex s
  /\ V2.inParamStatement (V2.passDefinition s) = V2.inParamStatement s
  /\ V2.err (V2.passDefinition s) = V2.err s
  /\ V2.tt (V2.passDefinition s) = V2.tt s.
Proof.
  unfold V2.passDefinition, V2.selectPass.
  destruct (V2.ttAt s 2); cbn;
    try match goal with
        | |- context [if ?b then _ else _] => destruct b
        end; repeat split.
Qed.

Lemma stored_values (v : list float) (k : nat) (f : float) (rest : list float) :
  List.length v = 4%nat -> (k < 4)%nat ->
  firstn (S k) (modify_nth k (fun _ => f) v)
  ++ firstn (4 - S k) rest
  ++ skipn (S k + List.length (firstn (4 - S k) rest))
       (modify_nth k (fun _ => f) v)
  = firstn k v
    ++ firstn (4 - k) (f :: rest)
    ++ skipn (k + List.length (firstn (4 - k) (f :: rest))) v.
Proof.
  intros Hv Hk.
  destruct v as [| a [| b [| c [| d [| e v]]]]]; try discriminate Hv.
  destruct k as [| [| [| [| k]]]]; [| | | | lia]; reflexivity.
Qed.

(** The loop over the tokens behind the [=] of a default value, from
    the value index [k] on. *)
Lemma default_values_from tokens i :
  forall s p (k : nat),
    V2.param s = Some i ->
    nth_error (V2.newParams s) i = Some p ->
    List.length (GParameter.m_value p) = 4%nat ->
    V2.inParamStatement s = true ->
    V2.paramValueIndex s = Z.of_nat k ->
    (k <= 4)%nat ->
    GLSLToken.eqb (V2.ttAt s 0) GLSLToken.Uniform = false ->
    GLSLToken.eqb (V2.ttAt s 1) GLSLToken.Uniform = false ->
    Forall (fun token => contains ";" token = false
                         /\ token <> "uniform" /\ token <> "in") tokens ->
    let s' := V2.analyze (map Token tokens) s in
    let nums := firstn (4 - k) (numbersOf tokens) in
    nth_error (V2.newParams s') i
    = Some (GParameter.set_value
              (firstn k (GParameter.m_value p) ++ nums
               ++ skipn (k + List.length nums) (GParameter.m_value p)) p)
    /\ (forall j, j <> i ->
          nth_error (V2.newParams s') j = nth_error (V2.newParams s) j)
    /\ V2.paramValueIndex s' = Z.of_nat (k + List.length nums)
    /\ V2.param s' = Some i
    /\ V2.inParamStatement s' = true
    /\ V2.err s' = V2.err s.
Proof.
  induction tokens as [| token tokens IH];
    intros s p k Hpar Hp Hlen Hin Hidx Hk Hu0 Hu1 Hall s' nums.
  - subst s' nums. cbn [map V2.analyze fold_left numbersOf flat_map].
    rewrite firstn_nil. cbn [List.length app]. rewrite Nat.add_0_r.
    rewrite firstn_skipn.
    split; [rewrite Hp; now destruct p |].
    split; [reflexivity |]. split; [now rewrite Hidx |]. auto.
  - inversion Hall as [| ? ? (Hsemi & Hnu & Hni) Hall']; subst.
    subst s' nums.
    cbn [map V2.analyze fold_left V2.handleLexeme].
    fold (V2.analyze (map Token tokens) (V2.handleToken s token)).
    (* one token *)
    destruct (lookup_named _ token eq_refl) as [Hig Hun].
    assert (Hig' : GLSLToken.eqb (lookup tokenMap token) GLSLToken.Ignored
                   = false).
    { destruct (lookup tokenMap token); try reflexivity.
      now specialize (Hig eq_refl). }
    assert (Hun' : GLSLToken.eqb (lookup tokenMap token) GLSLToken.Uniform
                   = false).
    { destruct (lookup tokenMap token); try reflexivity.
      now specialize (Hun eq_refl). }
    assert (Hstep : exists s1,
               V2.handleToken s token = s1
               /\ V2.param s1 = Some i
               /\ V2.inParamStatement s1 = true
               /\ V2.err s1 = V2.err s
               /\ GLSLToken.eqb (V2.ttAt s1 0) GLSLToken.Uniform = false
               /\ GLSLToken.eqb (V2.ttAt s1 1) GLSLToken.Uniform = false
               /\ (if (k <? 4)%nat && snd (strtof token)
                   then V2.newParams s1
                        = modify_nth i
                            (GParameter.set_valueAt (Z.of_nat k)
                               (fst (strtof token))) (V2.newParams s)
                        /\ V2.paramValueIndex s1 = Z.of_nat (S k)
                   else V2.newParams s1 = V2.newParams s
                        /\ V2.paramValueIndex s1 = Z.of_nat k)).
    { eexists. split; [reflexivity |].
      unfold V2.handleToken. rewrite Hig'.
      set (s0 := V2.pushHistory (lookup tokenMap token) s).
      change (V2.ttAt s0 2) with (V2.ttAt s 1). rewrite Hu1.
      change (V2.paramValueIndex s0) with (V2.paramValueIndex s).
      rewrite Hidx.
      destruct (Z.ltb_spec (Z.of_nat k) 0) as [Hneg | _]; [lia |].
      rewrite andb_false_r. cbn [andb].
      assert (Hpd : exists s1,
                 V2.parseDefault s0 token = s1
                 /\ V2.param s1 = Some i
                 /\ V2.inParamStatement s1 = true
                 /\ V2.err s1 = V2.err s
                 /\ V2.tt s1 = V2.tt s0
                 /\ (if (k <? 4)%nat && snd (strtof token)
                     then V2.newParams s1
                          = modify_nth i
                              (GParameter.set_valueAt (Z.of_nat k)
                                 (fst (strtof token))) (V2.newParams s)
                          /\ V2.paramValueIndex s1 = Z.of_nat (S k)
                     else V2.newParams s1 = V2.newParams s
                          /\ V2.paramValueIndex s1 = Z.of_nat k)).
      { eexists. split; [reflexivity |].
        unfold V2.parseDefault, V2.hasParam, V2.onParam.
        change (V2.param s0) with (V2.param s).
        change (V2.inParamStatement s0) with (V2.inParamStatement s).
        change (V2.paramValueIndex s0) with (V2.paramValueIndex s).
        change (V2.newParams s0) with (V2.newParams s).
        rewrite Hpar, Hin, Hidx. cbn [andb].
        destruct (Z.leb_spec 0 (Z.of_nat k)) as [_ | Hneg]; [| lia].
        cbn [andb].
        destruct (Nat.ltb_spec k 4) as [Hlt | Hge];
          [destruct (Z.ltb_spec (Z.of_nat k) 4) as [_ | Hge]; [| lia]
          | destruct (Z.ltb_spec (Z.of_nat k) 4) as [Hlt | _]; [lia |]].
        - destruct (strtof token) as [f whole]. cbn [fst snd andb].
          destruct whole.
          + repeat split; try assumption.
            cbn. f_equal. lia.
          + repeat split; assumption.
        - cbn [andb]. repeat split; assumption. }
      destruct Hpd as (s1 & -> & Q1 & Q2 & Q3 & Q4 & Q5).
      rewrite Hsemi.
      assert (T0 : V2.ttAt s1 0 = lookup tokenMap token)
        by (unfold V2.ttAt; now rewrite Q4).
      assert (T1 : V2.ttAt s1 1 = V2.ttAt s 0)
        by (unfold V2.ttAt; now rewrite Q4).
      destruct (passDefinition_keeps_parameters s1)
        as (D1 & D2 & D3 & D4 & D5 & D6).
      destruct (V2.isPassPattern s1).
      - unfold V2.ttAt. rewrite D1, D2, D3, D4, D5, D6.
        fold (V2.ttAt s1 0). fold (V2.ttAt s1 1). rewrite T0, T1.
        repeat split; assumption.
      - rewrite T0, T1. repeat split; assumption. }
    destruct Hstep as (s1 & -> & Q1 & Q2 & Q3 & Q4 & Q5 & Q6).
    cbn [numbersOf flat_map]. fold (numbersOf tokens).
    destruct (Nat.ltb_spec k 4) as [Hlt | Hge]; cbn [andb] in Q6.
    + destruct (strtof token) as [f whole]. cbn [fst snd] in Q6.
      destruct whole; destruct Q6 as [Q6 Q7].
      * (* a number is stored *)
        assert (Hp1 : nth_error (V2.newParams s1) i
                      = Some (GParameter.set_valueAt (Z.of_nat k) f p))
          by (rewrite Q6; now apply nth_error_modify_nth_eq).
        destruct (IH s1 _ (S k) Q1 Hp1
                    ltac:(cbn; now rewrite length_modify_nth) Q2 Q7
                    ltac:(lia) Q4 Q5 Hall')
          as (R1 & R2 & R3 & R4 & R5 & R6).
        cbv zeta in R1. rewrite R1, R3, R4, R5, R6, Q3.
        cbn [GParameter.set_valueAt GParameter.m_value GParameter.set_value]
          in *.
        rewrite Nat2Z.id.
        change ([f] ++ numbersOf tokens) with (f :: numbersOf tokens).
        rewrite (stored_values (GParameter.m_value p) k f (numbersOf tokens)
                   Hlen Hlt).
        split; [reflexivity |].
        split.
        { intros j Hj. rewrite R2 by exact Hj. rewrite Q6.
          apply nth_error_modify_nth_neq. congruence. }
        split; [| auto].
        f_equal. replace (4 - k)%nat with (S (4 - S k)) by lia.
        cbn [firstn List.length]. lia.
      * (* the token is no number *)
        rewrite <- Q6 in Hp.
        destruct (IH s1 p k Q1 Hp Hlen Q2 Q7 Hk Q4 Q5 Hall')
          as (R1 & R2 & R3 & R4 & R5 & R6).
        cbv zeta in R1. cbn [app].
        rewrite R1, R3, R4, R5, R6, Q3.
        split; [reflexivity |].
        split; [| auto].
        intros j Hj. rewrite R2 by exact Hj. now rewrite Q6.
    + (* the four values have been read *)
      destruct Q6 as [Q6 Q7].
      rewrite <- Q6 in Hp.
      destruct (IH s1 p k Q1 Hp Hlen Q2 Q7 Hk Q4 Q5 Hall')
        as (R1 & R2 & R3 & R4 & R5 & R6).
      cbv zeta in R1.
      replace (4 - k)%nat with 0%nat in * by lia.
      rewrite firstn_0 in *.
      rewrite R1, R3, R4, R5, R6, Q3.
      split; [reflexivity |].
      split; [| auto].
      intros j Hj. rewrite R2 by exact Hj. now rewrite Q6.
Qed.

(** X27: behind the declaration of a uniform, the token that holds [=]
    starts the default value, and the numbers among the tokens behind
    it become the values of the parameter in their order: the first
    number is value 0, at most four numbers are stored, the values
    behind the last number keep what they held, and tokens that are no
    numbers are passed over.  No other parameter changes, the
    parameter stays open for its comment, and nothing is reported.
    The tokens hold no [;], which ends the statement, and none of them
    is [uniform] or [in]. *)
Theorem default_values_are_stored_in_order s i p eq tokens :
  V2.param s = Some i ->
  nth_error (V2.newParams s) i = Some p ->
  List.length (GParameter.m_value p) = 4%nat ->
  V2.inParamStatement s = true ->
  V2.paramValueIndex s < 0 ->
  GLSLToken.eqb (V2.ttAt s 0) GLSLToken.Uniform = false ->
  GLSLToken.eqb (V2.ttAt s 1) GLSLToken.Uniform = false ->
  contains "=" eq = true ->
  Forall (fun token => contains ";" token = false
                       /\ token <> "uniform" /\ token <> "in") tokens ->
  let s' := V2.analyze (map Token (eq :: tokens)) s in
  let nums := firstn 4 (numbersOf tokens) in
  nth_error (V2.newParams s') i
  = Some (GParameter.set_value
            (nums ++ skipn (List.length nums) (GParameter.m_value p)) p)
  /\ (forall j, j <> i ->
        nth_error (V2.newParams s') j = nth_error (V2.newParams s) j)
  /\ V2.paramValueIndex s' = Z.of_nat (List.length nums)
  /\ V2.param s' = Some i
  /\ V2.inParamStatement s' = true
  /\ V2.err s' = V2.err s.
Proof.
  intros Hpar Hp Hlen Hin Hidx Hu0 Hu1 Heq Hall s' nums. subst s' nums.
  cbn [map V2.analyze fold_left V2.handleLexeme].
  fold (V2.analyze (map Token tokens) (V2.handleToken s eq)).
  assert (Hstart : V2.handleToken s eq
                   = V2.set_paramValueIndex 0
                       (V2.pushHistory GLSLToken.Other s)).
  { unfold V2.handleToken. rewrite (lookup_with_equals_sign eq Heq).
    cbn [GLSLToken.eqb GLSLToken.code Z.eqb].
    set (s0 := V2.pushHistory GLSLToken.Other s).
    change (V2.ttAt s0 2) with (V2.ttAt s 1). rewrite Hu1.
    unfold V2.hasParam.
    change (V2.param s0) with (V2.param s).
    change (V2.inParamStatement s0) with (V2.inParamStatement s).
    change (V2.paramValueIndex s0) with (V2.paramValueIndex s).
    rewrite Hpar, Hin, Heq.
    destruct (Z.ltb_spec (V2.paramValueIndex s) 0) as [_ | Hge]; [| lia].
    reflexivity. }
  rewrite Hstart.
  exact (default_values_from tokens i
           (V2.set_paramValueIndex 0 (V2.pushHistory GLSLToken.Other s))
           p 0%nat Hpar Hp Hlen Hin eq_refl ltac:(lia) eq_refl Hu0 Hall).
Qed.

End DefaultValues.

(* --------------------------------------------------------------------- *)
(** ** Shaders without a first pass                                       *)
(* --------------------------------------------------------------------- *)

Lemma lookup_first_pass token :
  lookup tokenMap token = GLSLToken.RunSingle
  \/ lookup tokenMap token = GLSLToken.RunPass1 ->
  In token firstPassNames.
Proof.
  unfold tokenMap, firstPassNames. cbn [lookup].
  repeat match goal with
         | |- context [(?a =? token)%string] =>
             destruct (String.eqb_spec a token) as [<- | _];
             [first [ intros [E | E]; discriminate E
                    | intros _; cbn [In]; tauto ] |]
         end.
  unfold tokenMapDefault. intros [E | E]; discriminate E.
Qed.

Lemma land_1_testbit m : (Z.land m 1 =? 0) = negb (Z.testbit m 0).
Proof.
  change 1 with (Z.ones 1). rewrite Z.land_ones by lia.
  change (2 ^ 1) with 2. rewrite <- Z.bit0_mod.
  now destruct (Z.testbit m 0).
Qed.

Section NoFirstPass.
Context `{Extern}.
Implicit Types (s : V2.LoadState).

(** No entry of the token history names the first pass, and the first
    pass is not in the mask. *)
Local Abbreviation noFirstPass s :=
  (Forall (fun x => x <> GLSLToken.RunSingle /\ x <> GLSLToken.RunPass1)
     (V2.tt s)
   /\ Z.testbit (V2.passMask s) 0 = false).

Lemma ttAt_Forall (P : GLSLToken.t -> Prop) s i :
  P GLSLToken.Other -> Forall P (V2.tt s) -> P (V2.ttAt s i).
Proof.
  intros Hd Hall. unfold V2.ttAt.
  destruct (nth_in_or_default i (V2.tt s) GLSLToken.Other) as [Hin | ->];
    [| exact Hd].
  rewrite Forall_forall in Hall. now apply Hall.
Qed.

Lemma handleToken_noFirstPass s token :
  ~ In token firstPassNames ->
  noFirstPass s -> noFirstPass (V2.handleToken s token).
Proof.
  intros Hname [Htt Hbit]. unfold V2.handleToken.
  destruct (GLSLToken.eqb (lookup tokenMap token) GLSLToken.Ignored);
    [now split |].
  assert (B1 : noFirstPass (V2.pushHistory (lookup tokenMap token) s)).
  { split; [| exact Hbit]. cbn.
    repeat constructor;
      try (intros E; apply Hname, lookup_first_pass; auto; fail);
      apply (ttAt_Forall
               (fun x => x <> GLSLToken.RunSingle /\ x <> GLSLToken.RunPass1));
      solve [split; discriminate | exact Htt]. }
  set (s1 := V2.pushHistory (lookup tokenMap token) s) in *.
  clearbody s1. clear Htt Hbit s. destruct B1 as [Htt Hbit].
  destruct (GLSLToken.eqb (V2.ttAt s1 2) GLSLToken.Uniform).
  { unfold V2.newUniform.
    destruct (V2.isUniformType (V2.ttAt s1 1)); now split. }
  destruct (V2.hasParam s1 && V2.inParamStatement s1
            && (V2.paramValueIndex s1 <? 0) && contains "=" token);
    [now split |].
  destruct (parseDefault_frame s1 token) as (ps & k & Hpd & _).
  assert (B2 : noFirstPass (V2.parseDefault s1 token))
    by (rewrite Hpd; now split).
  destruct (contains ";" token); [exact B2 |].
  destruct (V2.isPassPattern (V2.parseDefault s1 token)) eqn:Hpat;
    [| exact B2].
  set (s2 := V2.parseDefault s1 token) in *. clearbody s2.
  clear Htt Hbit Hpd. destruct B2 as [Htt Hbit].
  assert (Hrun2 : V2.ttAt s2 2 <> GLSLToken.RunSingle
                  /\ V2.ttAt s2 2 <> GLSLToken.RunPass1).
  { apply (ttAt_Forall
             (fun x => x <> GLSLToken.RunSingle /\ x <> GLSLToken.RunPass1));
      [split; discriminate | exact Htt]. }
  destruct Hrun2 as [Hn1 Hn2].
  unfold V2.isPassPattern in Hpat.
  apply andb_true_iff in Hpat as [Hpat _].
  apply andb_true_iff in Hpat as [Hpat _].
  apply andb_true_iff in Hpat as [_ Hrun].
  unfold V2.passDefinition, V2.selectPass.
  destruct (V2.ttAt s2 2); cbn in Hrun; try discriminate Hrun;
    try congruence.
  all: cbn -[Z.lor Z.shiftl Z.testbit]; split; [exact Htt |].
  all: rewrite Z.lor_spec, Hbit; reflexivity.
Qed.

(** X20: a shader text in which no token is [run] or [run_pass1] does
    not load: the pass count is 0, nothing is handed to the compiler,
    the last diagnostic is "no valid 'run' or 'run_pass1' function
    found", and the parameters that were found are still delivered. *)
Theorem shader_without_first_pass_does_not_load code lexemes i0 o0 p0 :
  (forall token, In (Token token) lexemes -> ~ In token firstPassNames) ->
  let s := V2.analyze lexemes (V2.initial i0 o0 p0) in
  let r := V2.load code lexemes i0 o0 p0 in
  V2.m_passCount r = 0
  /\ V2.loadSucceeds r = false
  /\ V2.sources r = []
  /\ V2.errors r = V2.err s ++ [NoRunFunction]
  /\ V2.m_params r = map GParameter.finalize (V2.newParams s).
Proof.
  intros Hno s r.
  assert (Hgen : forall lx s0,
             (forall token, In (Token token) lx -> ~ In token firstPassNames) ->
             noFirstPass s0 -> noFirstPass (V2.analyze lx s0)).
  { induction lx as [| x lx IH]; intros s0 Hlx Hs0; [exact Hs0 |].
    cbn [V2.analyze fold_left]. apply IH; [intros t Ht; apply Hlx; now right |].
    destruct x as [multi comment | token]; cbn [V2.handleLexeme].
    - destruct (handleComment_frame s0 multi comment)
        as (ps & e & cm & tf & -> & _). exact Hs0.
    - apply handleToken_noFirstPass; [apply Hlx; now left | exact Hs0]. }
  destruct (Hgen lexemes (V2.initial i0 o0 p0) Hno) as [_ Hbit].
  { split; [| reflexivity]. cbn. repeat constructor; discriminate. }
  fold s in Hbit. subst r. unfold V2.load. fold s.
  unfold V2.generate, V2.loadSucceeds.
  change (V2.passMask
            (V2.set_newParams (map GParameter.finalize (V2.newParams s)) s))
    with (V2.passMask s).
  rewrite land_1_testbit, Hbit. cbn [negb].
  repeat split.
Qed.

(** X21: the qualifier [in] is invisible to the analysis: the lexemes
    without their [in] tokens leave the same variables, and with them
    the same result of the load, so that [vec4 run(in vec2 pos)]
    declares the pass that [vec4 run(vec2 pos)] declares. *)
Theorem in_qualifier_is_invisible code lexemes i0 o0 p0 s :
  V2.analyze (withoutIn lexemes) s = V2.analyze lexemes s
  /\ V2.load code (withoutIn lexemes) i0 o0 p0
     = V2.load code lexemes i0 o0 p0
  /\ withoutIn [Token "vec4"; Token "run"; Token "("; Token "in";
                Token "vec2"; Token "pos"; Token "){"]
     = [Token "vec4"; Token "run"; Token "("; Token "vec2"; Token "pos";
        Token "){"].
Proof.
  assert (Hgen : forall lx s0,
             V2.analyze (withoutIn lx) s0 = V2.analyze lx s0).
  { induction lx as [| x lx IH]; intros s0; [reflexivity |].
    unfold withoutIn in *. cbn [filter].
    destruct x as [multi comment | token]; cbn [isInToken negb].
    - cbn [V2.analyze fold_left]. apply IH.
    - destruct (String.eqb_spec token "in") as [-> | Hne]; cbn [negb].
      + rewrite IH. reflexivity.
      + cbn [V2.analyze fold_left]. apply IH. }
  split; [apply Hgen |]. split; [| reflexivity].
  unfold V2.load. now rewrite Hgen.
Qed.

End NoFirstPass.

(* --------------------------------------------------------------------- *)
(** ** The pass loop with any driver                                      *)
(* --------------------------------------------------------------------- *)

Section PassLoopAnyDriver.
Context `{Extern}.
Implicit Types (s : V2.LoadState) (g : V2.Gen).

(** The text of the turn of the pass loop that starts in [g]. *)
Local Abbreviation turnText code g :=
  (V2.shader g
   ++ V2.passText (V2.singlePass (V2.vars g)) (V2.currentPass (V2.vars g))
        (V2.inputs (V2.vars g) (V2.currentPass (V2.vars g)))
        (V2.outputs (V2.vars g) (V2.currentPass (V2.vars g))) code)%string.

(** The state in which the next turn starts. *)
Local Abbreviation nextTurn g1 :=
  {| V2.vars := V2.set_currentPass (V2.currentPass (V2.vars g1) + 1)
                  (V2.vars g1);
     V2.shader := V2.shader g1; V2.compiled := V2.compiled g1 |}.

(** One turn of the pass loop: what it compiles, what it leaves in the
    stream, and what it does to the settings of the pass. *)
Lemma passBody_turn code g :
  let g1 := fst (V2.passBody code g) in
  V2.shader g1 = turnText code g
  /\ V2.compiled g1 = V2.compiled g ++ [turnText code g]
  /\ (snd (V2.passBody code g) = true -> driverAccepts (turnText code g))
  /\ V2.inputs (V2.vars g1) = V2.inputs (V2.vars g)
  /\ V2.outputs (V2.vars g1) = V2.outputs (V2.vars g)
  /\ V2.singlePass (V2.vars g1) = V2.singlePass (V2.vars g)
  /\ V2.currentPass (V2.vars g1) = V2.currentPass (V2.vars g)
  /\ V2.m_passes (V2.vars g1)
     = if PassInput.isCoord
            (V2.inputs (V2.vars g) (V2.currentPass (V2.vars g)))
       then V2.m_passes (V2.vars g)
       else upd (V2.m_passes (V2.vars g)) (V2.currentPass (V2.vars g))
              (Pass.set_coordMode CoordMapMode.None
                 (V2.m_passes (V2.vars g) (V2.currentPass (V2.vars g)))).
Proof.
  destruct g as [s sh c]. destruct s.
  unfold V2.passBody, V2.logged, driverAccepts. cbn -[V2.passText append].
  destruct (PassInput.isCoord (inputs currentPass));
    cbn -[V2.passText append].
  all: match goal with
       | |- context [fs_compile ?t] =>
           destruct (fs_compile t) as [gd hl lg];
           destruct (prog_link t) as [gd' hl' lg']
       end.
  all: destruct gd, hl, gd', hl'; cbn -[V2.passText append].
  all: repeat split; try reflexivity; discriminate.
Qed.

(** X22: the k-th text that is handed to the compiler is the text of the
    passes 0 to k one behind the other, since the stream [shader] is not
    emptied between the passes: it starts with the whole text that was
    compiled for the pass before.  This holds for every text that is
    compiled, whether the load succeeds or not. *)
Theorem compiled_texts_accumulate code s k text :
  nth_error (V2.sources (V2.generate code s)) k = Some text ->
  text = shaderAfter s code (S k).
Proof.
  set (inv := fun g =>
         V2.inputs (V2.vars g) = V2.inputs s
         /\ V2.outputs (V2.vars g) = V2.outputs s
         /\ V2.singlePass (V2.vars g) = V2.singlePass s
         /\ 0 <= V2.currentPass (V2.vars g)
         /\ V2.shader g
            = shaderAfter s code (Z.to_nat (V2.currentPass (V2.vars g)))
         /\ V2.compiled g
            = map (fun n => shaderAfter s code (S n))
                (seq 0 (Z.to_nat (V2.currentPass (V2.vars g))))).
  assert (Hturn : forall g, inv g ->
            turnText code g
            = shaderAfter s code (S (Z.to_nat (V2.currentPass (V2.vars g))))).
  { intros g (Hi & Ho & Hs & Hc & Hsh & _).
    cbn [shaderAfter]. rewrite Hsh, Hi, Ho, Hs.
    now rewrite Z2Nat.id by exact Hc. }
  assert (Hloop : forall fuel g, inv g ->
            exists n,
              V2.compiled (fst (V2.passLoop fuel code g))
              = map (fun n => shaderAfter s code (S n)) (seq 0 n)).
  { induction fuel as [| fuel IH]; intros g Hg.
    - exists (Z.to_nat (V2.currentPass (V2.vars g))). apply Hg.
    - cbn [V2.passLoop].
      destruct (V2.passDeclared (V2.vars g));
        [| exists (Z.to_nat (V2.currentPass (V2.vars g))); apply Hg].
      pose proof (passBody_turn code g) as Hb. cbv zeta in Hb.
      destruct Hb as (Hsh1 & Hc1 & _ & Hi1 & Ho1 & Hs1 & Hcp1 & _).
      pose proof (Hturn g Hg) as Ht.
      destruct Hg as (Hi & Ho & Hs & Hc & Hsh & Hcomp).
      destruct (V2.passBody code g) as [g1 ok]. cbn [fst] in *.
      assert (Hcomp1 : V2.compiled g1
                = map (fun n => shaderAfter s code (S n))
                    (seq 0 (S (Z.to_nat (V2.currentPass (V2.vars g)))))).
      { rewrite Hc1, Hcomp, Ht. rewrite seq_S, map_app. reflexivity. }
      destruct ok.
      + apply IH. unfold inv.
        cbn [V2.vars V2.shader V2.compiled V2.inputs V2.outputs
             V2.singlePass V2.currentPass V2.set_currentPass].
        rewrite Hcp1.
        replace (Z.to_nat (V2.currentPass (V2.vars g) + 1))
          with (S (Z.to_nat (V2.currentPass (V2.vars g)))) by lia.
        split; [congruence |]. split; [congruence |].
        split; [congruence |]. split; [lia |].
        split; [congruence | exact Hcomp1].
      + eexists. exact Hcomp1. }
  unfold V2.generate.
  match goal with
  | |- context [if ?c then _ else _] => destruct c
  end.
  { cbn. now destruct k. }
  match goal with
  | |- context [V2.passLoop ?f code ?g0'] => set (g0 := g0'); set (fuel := f)
  end.
  destruct (Hloop fuel g0) as [n Hn].
  { unfold inv. subst g0. cbn. repeat split; lia. }
  destruct (V2.passLoop fuel code g0) as [g ok]. cbn [fst] in Hn.
  assert (Hsrc : forall r, V2.sources r = V2.compiled g ->
                   nth_error (V2.sources r) k = Some text ->
                   text = shaderAfter s code (S k)).
  { intros r -> Hk. rewrite Hn in Hk.
    rewrite nth_error_map, nth_error_seq in Hk.
    destruct (k <? n)%nat; [| discriminate].
    cbn [option_map Nat.add] in Hk. congruence. }
  destruct ok; apply Hsrc; reflexivity.
Qed.

(** The pass loop when it is left through its condition. *)
Lemma passLoop_completed code fuel :
  forall g g',
    V2.passLoop fuel code g = (g', true) ->
    V2.currentPass (V2.vars g) <= V2.currentPass (V2.vars g')
    /\ (V2.currentPass (V2.vars g) <= MaxPasses ->
        V2.currentPass (V2.vars g') <= MaxPasses)
    /\ V2.inputs (V2.vars g') = V2.inputs (V2.vars g)
    /\ (exists new,
          V2.compiled g' = V2.compiled g ++ new
          /\ Forall driverAccepts new
          /\ Z.of_nat (List.length new)
             = V2.currentPass (V2.vars g') - V2.currentPass (V2.vars g))
    /\ forall k,
         V2.m_passes (V2.vars g') k
         = if (V2.currentPass (V2.vars g) <=? k)
              && (k <? V2.currentPass (V2.vars g'))
              && negb (PassInput.isCoord (V2.inputs (V2.vars g) k))
           then Pass.set_coordMode CoordMapMode.None
                  (V2.m_passes (V2.vars g) k)
           else V2.m_passes (V2.vars g) k.
Proof.
  induction fuel as [| fuel IH]; intros g g' Hrun.
  - injection Hrun as <-. split; [lia |]. split; [auto |].
    split; [reflexivity |]. split.
    + exists []. rewrite app_nil_r.
      split; [reflexivity |]. split; [constructor | cbn; lia].
    + intros k.
      destruct (Z.leb_spec (V2.currentPass (V2.vars g)) k); [| reflexivity].
      destruct (Z.ltb_spec k (V2.currentPass (V2.vars g))); [lia | reflexivity].
  - cbn [V2.passLoop] in Hrun.
    destruct (V2.passDeclared (V2.vars g)) eqn:Hdecl.
    2: { injection Hrun as <-. split; [lia |]. split; [auto |].
         split; [reflexivity |]. split.
         - exists []. rewrite app_nil_r.
           split; [reflexivity |]. split; [constructor | cbn; lia].
         - intros k.
           destruct (Z.leb_spec (V2.currentPass (V2.vars g)) k);
             [| reflexivity].
           destruct (Z.ltb_spec k (V2.currentPass (V2.vars g)));
             [lia | reflexivity]. }
    pose proof (passBody_turn code g) as Hb. cbv zeta in Hb.
    destruct Hb as (_ & Hc1 & Hacc & Hi1 & _ & _ & Hcp1 & Hp1).
    destruct (V2.passBody code g) as [g1 ok]. cbn [fst snd] in *.
    destruct ok; [| discriminate Hrun].
    specialize (Hacc eq_refl).
    destruct (IH _ _ Hrun) as (Hle & Hmax & Hin & (new & Hnew & Hall & Hlen)
                               & Hpass).
    cbn [V2.vars V2.compiled V2.inputs V2.m_passes V2.currentPass
         V2.set_currentPass] in Hle, Hmax, Hin, Hnew, Hlen, Hpass.
    rewrite Hcp1 in *.
    unfold V2.passDeclared in Hdecl. apply andb_true_iff in Hdecl as [Hlt _].
    apply Z.ltb_lt in Hlt.
    split; [lia |]. split; [intros _; apply Hmax; lia |].
    split; [congruence |]. split.
    + eexists (_ :: new). rewrite Hnew, Hc1, <- app_assoc.
      split; [reflexivity |]. split; [now constructor |].
      cbn [List.length]. lia.
    + intros k. rewrite Hpass, Hi1, Hp1.
      set (cp := V2.currentPass (V2.vars g)) in *.
      destruct (Z.eq_dec k cp) as [-> | Hne].
      * replace ((cp + 1 <=? cp)) with false by (symmetry; apply Z.leb_gt; lia).
        replace ((cp <=? cp)) with true by (symmetry; apply Z.leb_le; lia).
        replace ((cp <? V2.currentPass (V2.vars g'))) with true
          by (symmetry; apply Z.ltb_lt; lia).
        cbn [andb].
        destruct (PassInput.isCoord (V2.inputs (V2.vars g) cp));
          [reflexivity |].
        cbn [negb]. unfold upd. now rewrite Z.eqb_refl.
      * assert (Hupd : (if PassInput.isCoord (V2.inputs (V2.vars g) cp)
                        then V2.m_passes (V2.vars g)
                        else upd (V2.m_passes (V2.vars g)) cp
                               (Pass.set_coordMode CoordMapMode.None
                                  (V2.m_passes (V2.vars g) cp))) k
                       = V2.m_passes (V2.vars g) k).
        { destruct (PassInput.isCoord _); [reflexivity |].
          unfold upd. now rewrite (proj2 (Z.eqb_neq k cp) Hne). }
        rewrite Hupd.
        destruct (Z.leb_spec (cp + 1) k), (Z.leb_spec cp k);
          try reflexivity; lia.
Qed.

(** What [generate] returns when the load succeeds. *)
Lemma generate_succeeded code s :
  V2.loadSucceeds (V2.generate code s) = true ->
  exists g,
    V2.passLoop (Z.to_nat MaxPasses) code
      {| V2.vars := V2.set_currentPass 0
                      (V2.set_newParams
                         (map GParameter.finalize (V2.newParams s)) s);
         V2.shader := EmptyString; V2.compiled := [] |} = (g, true)
    /\ Z.testbit (V2.passMask s) 0 = true
    /\ V2.m_passCount (V2.generate code s) = V2.currentPass (V2.vars g)
    /\ V2.sources (V2.generate code s) = V2.compiled g
    /\ V2.passes (V2.generate code s) = V2.m_passes (V2.vars g).
Proof.
  unfold V2.generate, V2.loadSucceeds.
  change (V2.passMask
            (V2.set_newParams (map GParameter.finalize (V2.newParams s)) s))
    with (V2.passMask s).
  rewrite land_1_testbit.
  destruct (Z.testbit (V2.passMask s) 0); cbn [negb]; [| discriminate].
  destruct (V2.passLoop _ code _) as [g ok].
  destruct ok; [| discriminate].
  intros _. exists g. split; [reflexivity |]. split; [reflexivity |].
  destruct (negb (V2.passMask (V2.vars g) =? 0)); repeat split.
Qed.

(** X23: a load succeeds only when the driver has accepted every text
    it was given: the pass count is then the number of texts compiled,
    between 1 and [MaxPasses], and the first pass was declared.  One
    text that fails to compile or to link makes the whole load fail
    with the pass count 0, also when passes before it were accepted. *)
Theorem load_succeeds_only_with_every_pass_accepted code s :
  let r := V2.generate code s in
  (V2.loadSucceeds r = true ->
   Forall driverAccepts (V2.sources r)
   /\ Z.of_nat (List.length (V2.sources r)) = V2.m_passCount r
   /\ 1 <= V2.m_passCount r <= MaxPasses
   /\ Z.testbit (V2.passMask s) 0 = true)
  /\ (forall text, In text (V2.sources r) -> ~ driverAccepts text ->
      V2.m_passCount r = 0 /\ V2.loadSucceeds r = false).
Proof.
  intros r.
  assert (Hok : V2.loadSucceeds r = true ->
            Forall driverAccepts (V2.sources r)
            /\ Z.of_nat (List.length (V2.sources r)) = V2.m_passCount r
            /\ 1 <= V2.m_passCount r <= MaxPasses
            /\ Z.testbit (V2.passMask s) 0 = true).
  { intros Hs. pose proof Hs as Hpos.
    unfold V2.loadSucceeds in Hpos. apply Z.ltb_lt in Hpos.
    destruct (generate_succeeded code s Hs)
      as (g & Hrun & Hbit & Hcount & Hsrc & _).
    destruct (passLoop_completed _ _ _ _ Hrun)
      as (_ & Hmax & _ & (new & Hnew & Hall & Hlen) & _).
    cbn [V2.vars V2.compiled V2.currentPass V2.set_currentPass app]
      in Hmax, Hnew, Hlen.
    subst r. rewrite Hsrc, Hcount, Hnew in *.
    split; [exact Hall |]. split; [lia |]. split; [| exact Hbit].
    split; [lia |]. apply Hmax. unfold MaxPasses. lia. }
  split; [exact Hok |].
  intros text Hin Hrej.
  destruct (V2.loadSucceeds r) eqn:Hs.
  - destruct (Hok eq_refl) as (Hall & _).
    rewrite Forall_forall in Hall. now destruct (Hrej (Hall _ Hin)).
  - split; [| reflexivity].
    unfold V2.loadSucceeds in Hs. apply Z.ltb_ge in Hs.
    subst r. unfold V2.generate in *.
    destruct (Z.land _ 1 =? 0); [reflexivity |].
    destruct (V2.passLoop _ code _) as [g ok] eqn:Hrun.
    destruct ok; [| reflexivity].
    destruct (passLoop_completed _ _ _ _ Hrun) as (Hle & _).
    cbn [V2.vars V2.currentPass V2.set_currentPass] in Hle.
    destruct (negb (V2.passMask (V2.vars g) =? 0));
      cbn [V2.m_passCount V2.finish V2.currentPass V2.vars] in *;
      unfold V2.addErr in *; cbn in Hs |- *; lia.
Qed.

(** X24: the coordinate mapping is for position passes only.  When the
    load succeeds, every assembled pass whose input is a colour has the
    coordinate mode None, whatever was annotated; a pass whose input is
    the position, and every pass that was not assembled, has the
    settings that the analysis has left for it; the texture filter of
    no pass is touched. *)
Theorem colour_passes_get_no_coordinate_mapping code s k :
  let r := V2.generate code s in
  V2.loadSucceeds r = true ->
  V2.passes r k
  = (if (0 <=? k) && (k <? V2.m_passCount r)
        && negb (PassInput.isCoord (V2.inputs s k))
     then Pass.set_coordMode CoordMapMode.None (V2.m_passes s k)
     else V2.m_passes s k)
  /\ Pass.texFilter (V2.passes r k) = Pass.texFilter (V2.m_passes s k).
Proof.
  intros r Hs.
  destruct (generate_succeeded code s Hs)
    as (g & Hrun & _ & Hcount & _ & Hpasses).
  destruct (passLoop_completed _ _ _ _ Hrun) as (_ & _ & _ & _ & Hp).
  cbn [V2.vars V2.currentPass V2.set_currentPass V2.inputs V2.m_passes
       V2.set_newParams] in Hp.
  subst r. rewrite Hpasses, Hcount, Hp.
  split; [reflexivity |].
  now destruct ((0 <=? k) && (k <? V2.currentPass (V2.vars g))
                && negb (PassInput.isCoord (V2.inputs s k))).
Qed.

End PassLoopAnyDriver.

(* --------------------------------------------------------------------- *)
(** ** Comments that belong to no parameter                               *)
(* --------------------------------------------------------------------- *)

Section NoParameterComment.
Context `{Extern}.
Implicit Types (s : V2.LoadState).

(** A token that is not ignored enters the history, whatever else it
    does. *)
Lemma handleToken_tt s token :
  V2.tt (V2.handleToken s token)
  = if GLSLToken.eqb (lookup tokenMap token) GLSLToken.Ignored
    then V2.tt s
    else V2.tt (V2.pushHistory (lookup tokenMap token) s).
Proof.
  unfold V2.handleToken.
  destruct (GLSLToken.eqb (lookup tokenMap token) GLSLToken.Ignored);
    [reflexivity |].
  set (s1 := V2.pushHistory (lookup tokenMap token) s).
  destruct (GLSLToken.eqb (V2.ttAt s1 2) GLSLToken.Uniform).
  { unfold V2.newUniform. now destruct (V2.isUniformType (V2.ttAt s1 1)). }
  destruct (V2.hasParam s1 && V2.inParamStatement s1
            && (V2.paramValueIndex s1 <? 0) && contains "=" token);
    [reflexivity |].
  destruct (parseDefault_frame s1 token) as (ps & k & -> & _).
  destruct (contains ";" token); [reflexivity |].
  match goal with
  | |- context [if V2.isPassPattern ?x then _ else _] =>
      destruct (V2.isPassPattern x); [| reflexivity];
      destruct (passDefinition_keeps_parameters x) as (_ & _ & _ & _ & _ & ->)
  end.
  reflexivity.
Qed.

(** [param] stays null over tokens that declare no uniform: there is no
    [uniform] among them nor in the two tokens in front of them. *)
Lemma tokens_without_uniform tokens :
  forall s,
    V2.param s = Datatypes.None ->
    GLSLToken.eqb (V2.ttAt s 0) GLSLToken.Uniform = false ->
    GLSLToken.eqb (V2.ttAt s 1) GLSLToken.Uniform = false ->
    ~ In "uniform" tokens ->
    V2.param (V2.analyze (map Token tokens) s) = Datatypes.None.
Proof.
  induction tokens as [| token tokens IH]; intros s Hp H0 H1 Hno;
    [exact Hp |].
  cbn [map V2.analyze fold_left V2.handleLexeme].
  fold (V2.analyze (map Token tokens) (V2.handleToken s token)).
  assert (Hu : GLSLToken.eqb (lookup tokenMap token) GLSLToken.Uniform
               = false).
  { destruct (lookup_named _ token eq_refl) as [_ Hun].
    destruct (lookup tokenMap token); try reflexivity.
    destruct Hno. left. now apply Hun. }
  pose proof (handleToken_tt s token) as Htt.
  apply IH.
  - destruct (handleToken_param s token Hp) as [Hnull | [Hu1 _]];
      [exact Hnull |].
    rewrite Hu1 in H1. discriminate H1.
  - unfold V2.ttAt. rewrite Htt.
    destruct (GLSLToken.eqb (lookup tokenMap token) GLSLToken.Ignored);
      [exact H0 | exact Hu].
  - unfold V2.ttAt. rewrite Htt.
    destruct (GLSLToken.eqb (lookup tokenMap token) GLSLToken.Ignored);
      [exact H1 | exact H0].
  - intros Hin. apply Hno. now right.
Qed.

Lemma handleComment_tt s multi comment :
  V2.tt (V2.handleComment s multi comment) = V2.tt s.
Proof.
  destruct (handleComment_frame s multi comment)
    as (ps & e & cm & tf & -> & _).
  reflexivity.
Qed.

(** C10 (amended): a comment belongs to no parameter when no uniform
    has been declared since the comment before it, or since the start
    of the file: [param] is null in front of the tokens [tokens], which
    hold no [uniform] and stand behind none.  In such a comment, in the
    execution that has created the helpers, a token with one of the keys
    min, max, off, on, unit, toggle, switch and color adds the
    diagnostic "only valid inside a parameter comment" and changes
    nothing else: the parameters, the coordinate mode and the filter
    mode stay as they are.  The loop goes on behind the token with the
    rest of the comment, so that a coord or filter key further on takes
    effect.  The older variant does the same for its parameter keys.
    [param] is null at the start of the file and behind every comment,
    and a comment leaves the token history alone. *)
Theorem parameter_key_outside_parameter_comment s0 tokens key value :
  V2.param s0 = Datatypes.None ->
  GLSLToken.eqb (V2.ttAt s0 0) GLSLToken.Uniform = false ->
  GLSLToken.eqb (V2.ttAt s0 1) GLSLToken.Uniform = false ->
  ~ In "uniform" tokens ->
  In key parameterKeys ->
  let s := V2.analyze (map Token tokens) s0 in
  V2.param s = Datatypes.None
  /\ V2.evalTokenWith OwnHelpers (Some s) key value
     = Some (V2.addErr (OnlyInParamComment key) s)
  /\ V2.err (V2.addErr (OnlyInParamComment key) s)
     = V2.err s ++ [OnlyInParamComment key]
  /\ V2.newParams (V2.addErr (OnlyInParamComment key) s) = V2.newParams s
  /\ V2.coordMode (V2.addErr (OnlyInParamComment key) s) = V2.coordMode s
  /\ V2.texFilter (V2.addErr (OnlyInParamComment key) s) = V2.texFilter s
  /\ (forall fuel prev kept text rest,
         isalnum prev = false ->
         splitToken text = (key, value, rest) ->
         tokenLoop (V2.evalTokenWith OwnHelpers) (S fuel) (Some s) prev kept
           (String "@" text)
         = tokenLoop (V2.evalTokenWith OwnHelpers) fuel
             (Some (V2.addErr (OnlyInParamComment key) s)) prev kept rest)
  /\ V2.handleCommentWith OwnHelpers s false
       "// @unit=px @coord=rel @filter=off"
     = Some (V2.set_param Datatypes.None
               (V2.set_texFilter false
                  (V2.set_coordMode CoordMapMode.Relative
                     (V2.addErr (OnlyInParamComment "unit") s))))
  /\ (forall (s1 : V1.LoadState) key1,
         V1.param s1 = Datatypes.None ->
         In key1 olderKeys ->
         V1.evalTokenWith OwnHelpers (Some s1) key1 value
         = Some (V1.addErr (OnlyInParamComment key1) s1))
  /\ (forall i0 o0 p0,
         V2.param (V2.initial i0 o0 p0) = Datatypes.None
         /\ GLSLToken.eqb (V2.ttAt (V2.initial i0 o0 p0) 0) GLSLToken.Uniform
            = false
         /\ GLSLToken.eqb (V2.ttAt (V2.initial i0 o0 p0) 1) GLSLToken.Uniform
            = false)
  /\ (forall s00 multi comment,
         V2.param (V2.handleComment s00 multi comment) = Datatypes.None
         /\ V2.tt (V2.handleComment s00 multi comment) = V2.tt s00).
Proof.
  intros Hp0 H0 H1 Hno Hkey s.
  assert (Hp : V2.param s = Datatypes.None)
    by (subst s; now apply tokens_without_uniform).
  clearbody s.
  pose proof (parameter_key_without_parameter s key value Hp Hkey) as Hev.
  split; [exact Hp |].
  split; [cbn [V2.evalTokenWith]; now rewrite Hev |].
  split; [reflexivity |]. split; [reflexivity |].
  split; [reflexivity |]. split; [reflexivity |].
  split; [| split; [| split; [| split]]].
  - intros fuel prev kept text rest Hprev Hsplit.
    rewrite tokenLoop_at_token by exact Hprev. rewrite Hsplit.
    cbn [V2.evalTokenWith]. now rewrite Hev.
  - rewrite handleCommentWith_own. f_equal.
    destruct s. cbn in Hp. subst. reflexivity.
  - intros s1 key1 Hp1 Hkey1. cbn [V1.evalTokenWith]. f_equal.
    unfold olderKeys in Hkey1. cbn in Hkey1.
    unfold V1.evalToken. unfold_conditions.
    repeat (destruct Hkey1 as [<- | Hkey1]; [cbn; rewrite Hp1; reflexivity |]).
    destruct Hkey1.
  - intros i0 o0 p0. repeat split.
  - intros s00 multi comment.
    split; [apply handleComment_param | apply handleComment_tt].
Qed.

End NoParameterComment.

(** C10 on [@min=1] in a comment behind [float y ;] at the start of a
    file. *)
Lemma parameter_key_outside_parameter_comment_witness :
  V2.param atStart = Datatypes.None
  /\ ~ In "uniform" ["float"; "y"; ";"]
  /\ In "min" parameterKeys
  /\ option_map V2.err
       (V2.evalTokenWith OwnHelpers
          (Some (@V2.analyze testExtern (map Token ["float"; "y"; ";"])
                   atStart))
          "min" (Some "1"))
     = Some [OnlyInParamComment "min"].
Proof.
  assert (Hin : In "min" parameterKeys) by (cbn; tauto).
  assert (Hno : ~ In "uniform" ["float"; "y"; ";"]).
  { cbn. intros [E | [E | [E | []]]]; discriminate E. }
  split; [reflexivity |]. split; [exact Hno |]. split; [exact Hin |].
  destruct (@parameter_key_outside_parameter_comment testExtern
              atStart ["float"; "y"; ";"] "min" (Some "1")
              eq_refl eq_refl eq_refl Hno Hin) as (_ & Hev & _).
  rewrite Hev. reflexivity.
Defined.

(** C10 as the specification words it fails for a comment that does
    not follow the declaration of a uniform immediately: the parameter
    stays pending over the statement [float y ;], and [@min=3] in the
    comment behind it sets the minimum of [gain] without a
    diagnostic. *)
Lemma late_comment_counterexample :
  V2.err
    (@V2.analyze testExtern
       [Token "uniform"; Token "float"; Token "gain"; Token ";";
        Token "float"; Token "y"; Token ";"; Comment false "// @min=3"]
       atStart)
  = []
  /\ map GParameter.m_minValue
       (V2.newParams
          (@V2.analyze testExtern
             [Token "uniform"; Token "float"; Token "gain"; Token ";";
              Token "float"; Token "y"; Token ";"; Comment false "// @min=3"]
             atStart))
     = [3]
  /\ @V2.analyzeWith testExtern OwnHelpers
       [Token "uniform"; Token "float"; Token "gain"; Token ";";
        Token "float"; Token "y"; Token ";"; Comment false "// @min=3"]
       atStart
     = Some
         (@V2.analyze testExtern
            [Token "uniform"; Token "float"; Token "gain"; Token ";";
             Token "float"; Token "y"; Token ";"; Comment false "// @min=3"]
            atStart).
Proof.
  split; [reflexivity |]. split; reflexivity.
Qed.

(* --------------------------------------------------------------------- *)
(** ** Type overrides that do not fit the uniform                         *)
(* --------------------------------------------------------------------- *)

Section TypeOverrides.
Context `{Extern}.
Implicit Types (s : V2.LoadState).

(** The three tokens of the declaration of a uniform of a supported
    type. *)
Lemma declared_uniform s type name dt pt :
  In (type, (dt, pt)) arityTypes ->
  V2.param s = Datatypes.None ->
  GLSLToken.eqb (V2.ttAt s 0) GLSLToken.Uniform = false ->
  GLSLToken.eqb (V2.ttAt s 1) GLSLToken.Uniform = false ->
  GLSLToken.eqb (lookup tokenMap name) GLSLToken.Ignored = false ->
  let s1 := V2.analyze [Token "uniform"; Token type; Token name] s in
  V2.newParams s1
  = V2.newParams s
    ++ [GParameter.set_type pt (GParameter.set_name name GParameter.fresh)]
  /\ V2.param s1 = Some (List.length (V2.newParams s))
  /\ V2.paramDataType s1 = dt
  /\ V2.err s1 = V2.err s
  /\ V2.ttAt s1 0 = lookup tokenMap name
  /\ V2.ttAt s1 1 = dt.
Proof.
  intros Hty Hp H0 H1 Hname s1. subst s1.
  assert (Hcases : lookup tokenMap type = dt
                   /\ contains ";" type = false
                   /\ V2.isUniformType dt = true
                   /\ V2.defaultType dt
                        (GParameter.set_name name GParameter.fresh)
                      = GParameter.set_type pt
                          (GParameter.set_name name GParameter.fresh)).
  { cbn in Hty.
    destruct Hty as [E | [E | [E | [E | []]]]]; injection E as <- <- <-;
      repeat split. }
  destruct Hcases as (Hdt & Hsemi & Hut & Hdef).
  cbn [V2.analyze fold_left V2.handleLexeme].
  rewrite (handleToken_history_only s "uniform");
    [| reflexivity | exact H1 | exact Hp | reflexivity | ].
  2: { unfold V2.isPassPattern. cbn. now rewrite andb_false_r. }
  set (s1 := V2.pushHistory (lookup tokenMap "uniform") s).
  assert (Hs1' : V2.ttAt s1 1 = V2.ttAt s 0) by reflexivity.
  rewrite (handleToken_history_only s1 type);
    [| rewrite Hdt; now destruct dt | now rewrite Hs1' | exact Hp
     | exact Hsemi | ].
  2: { unfold V2.isPassPattern.
       change (V2.ttAt (V2.pushHistory (lookup tokenMap type) s1) 1)
         with GLSLToken.Uniform.
       cbn [GLSLToken.eqb GLSLToken.code Z.eqb]. cbn.
       now rewrite andb_false_r. }
  set (s2 := V2.pushHistory (lookup tokenMap type) s1).
  unfold V2.handleToken. rewrite Hname.
  set (s3 := V2.pushHistory (lookup tokenMap name) s2).
  change (V2.ttAt s3 2) with GLSLToken.Uniform.
  cbn [GLSLToken.eqb GLSLToken.code Z.eqb Pos.eqb].
  unfold V2.newUniform.
  change (V2.ttAt s3 1) with (lookup tokenMap type).
  rewrite Hdt, Hut, Hdef. repeat split. exact Hdt.
Qed.

Lemma parseDefault_keeps_types s token :
  V2.paramDataType (V2.parseDefault s token) = V2.paramDataType s
  /\ V2.err (V2.parseDefault s token) = V2.err s
  /\ V2.tt (V2.parseDefault s token) = V2.tt s
  /\ map GParameter.m_type (V2.newParams (V2.parseDefault s token))
     = map GParameter.m_type (V2.newParams s)
  /\ map GParameter.m_name (V2.newParams (V2.parseDefault s token))
     = map GParameter.m_name (V2.newParams s).
Proof.
  unfold V2.parseDefault.
  destruct (V2.hasParam s && V2.inParamStatement s
            && (0 <=? V2.paramValueIndex s) && (V2.paramValueIndex s <? 4));
    [| now repeat split].
  destruct (strtof token) as [f whole]. destruct whole; [| now repeat split].
  unfold V2.onParam. destruct (V2.param s); [| now repeat split].
  cbn. repeat split; apply map_modify_nth; reflexivity.
Qed.

(** Tokens that declare no uniform leave the pending parameter
    pending, with its name and its type, and report nothing. *)
Lemma tokens_keep_the_parameter tokens :
  forall s,
    GLSLToken.eqb (V2.ttAt s 0) GLSLToken.Uniform = false ->
    GLSLToken.eqb (V2.ttAt s 1) GLSLToken.Uniform = false ->
    ~ In "uniform" tokens ->
    let s' := V2.analyze (map Token tokens) s in
    V2.param s' = V2.param s
    /\ V2.paramDataType s' = V2.paramDataType s
    /\ V2.err s' = V2.err s
    /\ map GParameter.m_type (V2.newParams s')
       = map GParameter.m_type (V2.newParams s)
    /\ map GParameter.m_name (V2.newParams s')
       = map GParameter.m_name (V2.newParams s).
Proof.
  induction tokens as [| token tokens IH]; intros s H0 H1 Hno s';
    [now repeat split |].
  subst s'. cbn [map V2.analyze fold_left V2.handleLexeme].
  fold (V2.analyze (map Token tokens) (V2.handleToken s token)).
  assert (Hu : GLSLToken.eqb (lookup tokenMap token) GLSLToken.Uniform
               = false).
  { destruct (lookup_named _ token eq_refl) as [_ Hun].
    destruct (lookup tokenMap token); try reflexivity.
    destruct Hno. left. now apply Hun. }
  assert (Hstep : V2.param (V2.handleToken s token) = V2.param s
            /\ V2.paramDataType (V2.handleToken s token) = V2.paramDataType s
            /\ V2.err (V2.handleToken s token) = V2.err s
            /\ map GParameter.m_type (V2.newParams (V2.handleToken s token))
               = map GParameter.m_type (V2.newParams s)
            /\ map GParameter.m_name (V2.newParams (V2.handleToken s token))
               = map GParameter.m_name (V2.newParams s)).
  { unfold V2.handleToken.
    destruct (GLSLToken.eqb (lookup tokenMap token) GLSLToken.Ignored);
      [now repeat split |].
    set (s1 := V2.pushHistory (lookup tokenMap token) s).
    change (V2.ttAt s1 2) with (V2.ttAt s 1). rewrite H1.
    destruct (V2.hasParam s1 && V2.inParamStatement s1
              && (V2.paramValueIndex s1 <? 0) && contains "=" token);
      [now repeat split |].
    pose proof (parseDefault_param s1 token) as Q0.
    destruct (parseDefault_keeps_types s1 token) as (Q1 & Q2 & _ & Q3 & Q4).
    destruct (contains ";" token); [now repeat split |].
    destruct (passDefinition_keeps_parameters (V2.parseDefault s1 token))
      as (D1 & D2 & _ & _ & D5 & _).
    assert (D6 : V2.paramDataType (V2.passDefinition (V2.parseDefault s1 token))
                 = V2.paramDataType (V2.parseDefault s1 token)).
    { unfold V2.passDefinition, V2.selectPass.
      destruct (V2.ttAt (V2.parseDefault s1 token) 2); cbn;
        try match goal with
            | |- context [if ?b then _ else _] => destruct b
            end; reflexivity. }
    destruct (V2.isPassPattern (V2.parseDefault s1 token));
      [rewrite D1, D2, D5, D6 |]; now repeat split. }
  pose proof (handleToken_tt s token) as Htt.
  destruct Hstep as (S1 & S2 & S3 & S4 & S5).
  destruct (IH (V2.handleToken s token)) as (R1 & R2 & R3 & R4 & R5).
  - unfold V2.ttAt. rewrite Htt.
    destruct (GLSLToken.eqb (lookup tokenMap token) GLSLToken.Ignored);
      [exact H0 | exact Hu].
  - unfold V2.ttAt. rewrite Htt.
    destruct (GLSLToken.eqb (lookup tokenMap token) GLSLToken.Ignored);
      [exact H1 | exact H0].
  - intros Hin. apply Hno. now right.
  - repeat split; congruence.
Qed.

(** An override that does not fit only reports. *)
Lemma incompatible_override s key value i p :
  V2.param s = Some i ->
  nth_error (V2.newParams s) i = Some p ->
  incompatibleKey key (V2.paramDataType s) ->
  V2.evalToken s key value
  = V2.addErr (IncompatibleFormat key (GParameter.m_name p)) s.
Proof.
  intros Hp Hn Hcase.
  unfold V2.evalToken. unfold_conditions.
  destruct Hcase as [[[-> | ->] Hdt] | (-> & Hdt3 & Hdt4)]; cbn; rewrite Hp; cbn.
  - rewrite (GLSLToken_eqb_neq _ _ Hdt). cbn.
    unfold V2.paramName. now rewrite Hp, Hn.
  - rewrite (GLSLToken_eqb_neq _ _ Hdt). cbn.
    unfold V2.paramName. now rewrite Hp, Hn.
  - rewrite (GLSLToken_eqb_neq _ _ Hdt3). cbn.
    rewrite (GLSLToken_eqb_neq _ _ Hdt4). cbn.
    unfold V2.paramName. now rewrite Hp, Hn.
Qed.

(** C9 (amended): in the execution that has created the helpers, an
    annotation that asks for a semantic type which the declared data
    type of the parameter does not allow ([@toggle] or [@switch] on
    anything but a [float], [@color] on anything but a [vec3] or
    [vec4]) only records a diagnostic.  The parameter keeps the type
    that it had in front of the annotation, and all the rest of it; the
    pass count that the load arrives at, hence its success, is the
    same as without the annotation, also behind whatever lexemes
    follow, for neither the analysis nor the pass loop reads the
    diagnostics.  In front of every annotation the type is the one that
    the number of components implies: behind the declaration
    [uniform type name] and tokens that declare no further uniform, the
    parameter has the type Value for [float], Value2 for [vec2], Value3
    for [vec3] and Value4 for [vec4], and still has it behind the
    annotation. *)
Theorem incompatible_type_override_is_local s key value i p code :
  V2.param s = Some i ->
  nth_error (V2.newParams s) i = Some p ->
  incompatibleKey key (V2.paramDataType s) ->
  let s' := V2.addErr (IncompatibleFormat key (GParameter.m_name p)) s in
  V2.evalTokenWith OwnHelpers (Some s) key value = Some s'
  /\ V2.err s' = V2.err s ++ [IncompatibleFormat key (GParameter.m_name p)]
  /\ nth_error (V2.newParams s') i = Some p
  /\ V2.m_passCount (V2.generate code s') = V2.m_passCount (V2.generate code s)
  /\ V2.loadSucceeds (V2.generate code s')
     = V2.loadSucceeds (V2.generate code s)
  /\ (forall rest,
         V2.m_passCount (V2.generate code (V2.analyze rest s'))
         = V2.m_passCount (V2.generate code (V2.analyze rest s)))
  /\ (forall k : V2.LoadState -> V2.LoadState,
         (forall a b, sameVars a b -> sameVars (k a) (k b)) ->
         V2.loadSucceeds (V2.generate code (k s'))
         = V2.loadSucceeds (V2.generate code (k s)))
  /\ (forall s0 type name dt pt tokens,
         In (type, (dt, pt)) arityTypes ->
         V2.param s0 = Datatypes.None ->
         GLSLToken.eqb (V2.ttAt s0 0) GLSLToken.Uniform = false ->
         GLSLToken.eqb (V2.ttAt s0 1) GLSLToken.Uniform = false ->
         name <> "in" -> name <> "uniform" ->
         ~ In "uniform" tokens ->
         incompatibleKey key dt ->
         let s1 := V2.analyze
                     ([Token "uniform"; Token type; Token name]
                      ++ map Token tokens) s0 in
         exists s1',
           V2.evalTokenWith OwnHelpers (Some s1) key value = Some s1'
           /\ V2.err s1' = V2.err s0 ++ [IncompatibleFormat key name]
           /\ map GParameter.m_type (V2.newParams s1')
              = map GParameter.m_type (V2.newParams s0) ++ [pt]
           /\ V2.param s1' = Some (List.length (V2.newParams s0))).
Proof.
  intros Hp Hn Hcase s'.
  assert (Heq : V2.evalToken s key value = s')
    by (now apply (incompatible_override s key value i p)).
  destruct (generate_err_irrelevant code s
              (V2.err s ++ [IncompatibleFormat key (GParameter.m_name p)]))
    as (Hcount & _ & _).
  assert (Hsame : sameVars s' s) by reflexivity.
  split; [cbn [V2.evalTokenWith]; now rewrite Heq |].
  split; [reflexivity |]. split; [exact Hn |].
  split; [exact Hcount |].
  split; [unfold V2.loadSucceeds; subst s'; unfold V2.addErr;
          now rewrite Hcount |].
  split; [| split].
  - intros rest. apply generate_sameVars. now apply analyze_sameVars.
  - intros k Hk. unfold V2.loadSucceeds.
    now rewrite (generate_sameVars code _ _ (Hk _ _ Hsame)).
  - clear s i p Hp Hn Hcase s' Heq Hcount Hsame.
    intros s0 type name dt pt tokens Hty Hp0 H0 H1 Hnin Hnun Hno Hinc s1.
    assert (Hname : GLSLToken.eqb (lookup tokenMap name) GLSLToken.Ignored
                    = false
                    /\ GLSLToken.eqb (lookup tokenMap name) GLSLToken.Uniform
                       = false).
    { destruct (lookup_named _ name eq_refl) as [Hig Hun].
      destruct (lookup tokenMap name); split; try reflexivity;
        [now destruct (Hnin (Hig eq_refl)) | now destruct (Hnun (Hun eq_refl))]. }
    destruct Hname as [Hnig Hnu].
    pose proof (declared_uniform s0 type name dt pt Hty Hp0 H0 H1 Hnig) as Hd.
    cbv zeta in Hd. destruct Hd as (D1 & D2 & D3 & D4 & D5 & D6).
    subst s1. unfold V2.analyze in *. rewrite fold_left_app.
    fold (V2.analyze [Token "uniform"; Token type; Token name] s0) in *.
    set (sd := V2.analyze [Token "uniform"; Token type; Token name] s0) in *.
    fold (V2.analyze (map Token tokens) sd).
    assert (Hdu : GLSLToken.eqb dt GLSLToken.Uniform = false).
    { cbn in Hty.
      destruct Hty as [E | [E | [E | [E | []]]]]; injection E as _ <- _;
        reflexivity. }
    assert (Hsd0 : GLSLToken.eqb (V2.ttAt sd 0) GLSLToken.Uniform = false)
      by (now rewrite D5).
    assert (Hsd1 : GLSLToken.eqb (V2.ttAt sd 1) GLSLToken.Uniform = false)
      by (now rewrite D6).
    pose proof (tokens_keep_the_parameter tokens sd Hsd0 Hsd1 Hno) as Hk.
    cbv zeta in Hk. destruct Hk as (K1 & K2 & K3 & K4 & K5).
    set (s1 := V2.analyze (map Token tokens) sd) in *.
    assert (Hnth : exists p1,
               nth_error (V2.newParams s1) (List.length (V2.newParams s0))
               = Some p1
               /\ GParameter.m_name p1 = name).
    { assert (Hm : nth_error (map GParameter.m_name (V2.newParams s1))
                     (List.length (V2.newParams s0)) = Some name).
      { rewrite K5, D1, map_app, nth_error_app2 by (rewrite length_map; lia).
        rewrite length_map, Nat.sub_diag. reflexivity. }
      rewrite nth_error_map in Hm.
      destruct (nth_error (V2.newParams s1) (List.length (V2.newParams s0)))
        as [p1 |]; [| discriminate Hm].
      exists p1. split; [reflexivity |]. now injection Hm. }
    destruct Hnth as (p1 & Hp1 & Hn1).
    assert (Hev : V2.evalToken s1 key value
                  = V2.addErr (IncompatibleFormat key name) s1).
    { rewrite <- Hn1.
      apply (incompatible_override s1 key value
               (List.length (V2.newParams s0)) p1);
        [now rewrite K1, D2 | exact Hp1 | now rewrite K2, D3]. }
    exists (V2.addErr (IncompatibleFormat key name) s1).
    split; [cbn [V2.evalTokenWith]; now rewrite Hev |].
    cbn. rewrite K3, D4, K4, D1, K1, D2, map_app. repeat split.
Qed.

End TypeOverrides.

(** C9 on [uniform float x;] followed by [@color]. *)
Lemma incompatible_type_override_witness :
  V2.param afterFloatUniform = Some 0%nat
  /\ nth_error (V2.newParams afterFloatUniform) 0
     = Some (GParameter.set_type ParameterType.Value
               (GParameter.set_name "x" (@GParameter.fresh testExtern)))
  /\ incompatibleKey "color" (V2.paramDataType afterFloatUniform)
  /\ option_map V2.err
       (V2.evalTokenWith OwnHelpers (Some afterFloatUniform) "color"
          Datatypes.None)
     = Some [IncompatibleFormat "color" "x"]
  /\ option_map (fun s => map GParameter.m_type (V2.newParams s))
       (V2.evalTokenWith OwnHelpers (Some afterFloatUniform) "color"
          Datatypes.None)
     = Some [ParameterType.Value].
Proof.
  assert (Hinc : incompatibleKey "color" (V2.paramDataType afterFloatUniform)).
  { right. split; [reflexivity |]. split; vm_compute; discriminate. }
  split; [reflexivity |]. split; [reflexivity |]. split; [exact Hinc |].
  destruct (@incompatible_type_override_is_local testExtern
              afterFloatUniform "color" Datatypes.None 0%nat
              (GParameter.set_type ParameterType.Value
                 (GParameter.set_name "x" (@GParameter.fresh testExtern)))
              EmptyString eq_refl eq_refl Hinc)
    as (Heq & _).
  rewrite Heq. split; reflexivity.
Defined.

(** C9 as the specification words it fails when an annotation in front
    of the one that does not fit has changed the type: behind
    [uniform float x;] the comment [// @toggle @color] reports that
    [@color] does not fit and leaves the parameter a toggle, which is
    not the type Value that the number of components implies. *)
Lemma toggle_color_counterexample :
  V2.err
    (@V2.analyze testExtern
       [Token "uniform"; Token "float"; Token "x"; Token ";";
        Comment false "// @toggle @color"] atStart)
  = [IncompatibleFormat "color" "x"]
  /\ map GParameter.m_type
       (V2.newParams
          (@V2.analyze testExtern
             [Token "uniform"; Token "float"; Token "x"; Token ";";
              Comment false "// @toggle @color"] atStart))
     = [ParameterType.Toggle]
  /\ In ("float", (GLSLToken.Float, ParameterType.Value)) arityTypes.
Proof.
  split; [reflexivity |]. split; [reflexivity |]. cbn. tauto.
Qed.

(* --------------------------------------------------------------------- *)
(** ** The pass loop when the driver accepts the texts of the passes      *)
(* --------------------------------------------------------------------- *)

Section AcceptedTexts.
Context `{Extern}.
Implicit Types (s : V2.LoadState) (g : V2.Gen).

(** The text of the turn of the pass loop that starts in [g]. *)
Local Abbreviation textOfTurn code g :=
  (V2.shader g
   ++ V2.passText (V2.singlePass (V2.vars g)) (V2.currentPass (V2.vars g))
        (V2.inputs (V2.vars g) (V2.currentPass (V2.vars g)))
        (V2.outputs (V2.vars g) (V2.currentPass (V2.vars g))) code)%string.

Lemma passBody_accepted_text code g :
  driverAccepts (textOfTurn code g) ->
  exists logs,
    snd (V2.passBody code g) = true
    /\ V2.passMask (V2.vars (fst (V2.passBody code g)))
       = Z.land (V2.passMask (V2.vars g))
           (Z.lnot (Z.shiftl 1 (V2.currentPass (V2.vars g))))
    /\ V2.err (V2.vars (fst (V2.passBody code g))) = V2.err (V2.vars g) ++ logs
    /\ onlyLogs logs.
Proof.
  destruct g as [s sh c]. destruct s.
  unfold V2.passBody, V2.logged, driverAccepts. cbn -[V2.passText append].
  intros [Hc Hl]. revert Hc Hl.
  destruct (PassInput.isCoord (inputs currentPass));
    cbn -[V2.passText append].
  all: match goal with
       | |- context [fs_compile ?t] =>
           destruct (fs_compile t) as [gd hl lg];
           destruct (prog_link t) as [gd' hl' lg']
       end.
  all: cbn; intros -> ->.
  all: destruct hl, hl'; cbn -[V2.passText append].
  all: eexists; split; [reflexivity |].
  all: split; [reflexivity |].
  all: unfold V2.addErr; cbn -[V2.passText append];
       rewrite <- ?app_assoc; cbn [app].
  all: try (split; [reflexivity |]).
  all: try (split; [symmetry; apply app_nil_r |]).
  all: intros d Hd; cbn in Hd; intuition eauto.
Qed.

(** The pass loop on the variables [s] of the analysis: the turn for
    pass [n] compiles the text of the passes 0 to [n]. *)
Local Abbreviation onPassesOf s code g :=
  (V2.inputs (V2.vars g) = V2.inputs s
   /\ V2.outputs (V2.vars g) = V2.outputs s
   /\ V2.singlePass (V2.vars g) = V2.singlePass s
   /\ 0 <= V2.currentPass (V2.vars g)
   /\ V2.shader g
      = shaderAfter s code (Z.to_nat (V2.currentPass (V2.vars g)))).

Lemma passLoop_accepted_texts code s fuel :
  forall g,
    onPassesOf s code g ->
    (forall n,
        V2.currentPass (V2.vars g) <= Z.of_nat n
        < snd (loopEnd fuel (V2.passMask (V2.vars g))
                 (V2.currentPass (V2.vars g))) ->
        driverAccepts (shaderAfter s code (S n))) ->
    exists logs,
      snd (V2.passLoop fuel code g) = true
      /\ (V2.passMask (V2.vars (fst (V2.passLoop fuel code g))),
          V2.currentPass (V2.vars (fst (V2.passLoop fuel code g))))
         = loopEnd fuel (V2.passMask (V2.vars g)) (V2.currentPass (V2.vars g))
      /\ V2.err (V2.vars (fst (V2.passLoop fuel code g)))
         = V2.err (V2.vars g) ++ logs
      /\ onlyLogs logs
      /\ V2.compiled (fst (V2.passLoop fuel code g))
         = V2.compiled g
           ++ map (fun n => shaderAfter s code (S n))
                (seq (Z.to_nat (V2.currentPass (V2.vars g)))
                   (Z.to_nat
                      (V2.currentPass (V2.vars (fst (V2.passLoop fuel code g)))
                       - V2.currentPass (V2.vars g)))).
Proof.
  induction fuel as [| fuel IH]; intros g Hon Hacc.
  - exists []. cbn [V2.passLoop loopEnd fst snd].
    rewrite Z.sub_diag, !app_nil_r.
    repeat split. intros d [].
  - cbn [V2.passLoop loopEnd] in *. unfold V2.passDeclared.
    destruct ((V2.currentPass (V2.vars g) <? MaxPasses)
              && negb (Z.land (Z.shiftr (V2.passMask (V2.vars g))
                                 (V2.currentPass (V2.vars g))) 1 =? 0)).
    + pose proof (loopEnd_ge fuel
                    (Z.land (V2.passMask (V2.vars g))
                       (Z.lnot (Z.shiftl 1 (V2.currentPass (V2.vars g)))))
                    (V2.currentPass (V2.vars g) + 1)) as Hge.
      destruct Hon as (Hi & Ho & Hs & Hc & Hsh).
      assert (Htext : textOfTurn code g
                      = shaderAfter s code
                          (S (Z.to_nat (V2.currentPass (V2.vars g))))).
      { cbn [shaderAfter]. rewrite Hsh, Hi, Ho, Hs.
        now rewrite Z2Nat.id by exact Hc. }
      pose proof (passBody_turn code g) as Hb. cbv zeta in Hb.
      destruct Hb as (Hsh1 & Hc1 & _ & Hi1 & Ho1 & Hs1 & Hcp1 & _).
      destruct (passBody_accepted_text code g)
        as (logs1 & Hok & Hmask & Herr & Hlogs1).
      { rewrite Htext.
        apply (Hacc (Z.to_nat (V2.currentPass (V2.vars g)))). lia. }
      destruct (V2.passBody code g) as [g1 ok]. cbn [fst snd] in *.
      subst ok.
      match goal with
      | |- context [V2.passLoop fuel code ?g2'] => set (g2 := g2')
      end.
      assert (Hm2 : V2.passMask (V2.vars g2)
                    = Z.land (V2.passMask (V2.vars g))
                        (Z.lnot (Z.shiftl 1 (V2.currentPass (V2.vars g)))))
        by exact Hmask.
      assert (Hc2 : V2.currentPass (V2.vars g2)
                    = V2.currentPass (V2.vars g) + 1)
        by (subst g2; cbn; now rewrite Hcp1).
      assert (He2 : V2.err (V2.vars g2) = V2.err (V2.vars g) ++ logs1)
        by exact Herr.
      assert (Hl2 : V2.compiled g2
                    = V2.compiled g
                      ++ [shaderAfter s code
                            (S (Z.to_nat (V2.currentPass (V2.vars g))))])
        by (subst g2; cbn [V2.compiled]; now rewrite Hc1, Htext).
      destruct (IH g2) as (logs2 & Hok2 & Hend & Herr2 & Hlogs2 & Hcomp2).
      { subst g2.
        cbn [V2.vars V2.shader V2.inputs V2.outputs V2.singlePass
             V2.currentPass V2.set_currentPass].
        rewrite Hcp1.
        replace (Z.to_nat (V2.currentPass (V2.vars g) + 1))
          with (S (Z.to_nat (V2.currentPass (V2.vars g)))) by lia.
        split; [congruence |]. split; [congruence |].
        split; [congruence |]. split; [lia |]. now rewrite Hsh1. }
      { intros n Hn. apply Hacc. rewrite Hm2, Hc2 in Hn. lia. }
      pose proof (f_equal snd Hend) as Hend2. cbn [snd] in Hend2.
      rewrite Hm2, Hc2 in Hend, Hend2. rewrite He2 in Herr2.
      rewrite Hl2, Hc2 in Hcomp2.
      exists (logs1 ++ logs2).
      split; [exact Hok2 |]. split; [exact Hend |].
      split; [rewrite Herr2; symmetry; apply app_assoc |].
      split; [intros d Hd; apply in_app_or in Hd; destruct Hd; auto |].
      rewrite Hcomp2, <- app_assoc. f_equal.
      set (cp := V2.currentPass (V2.vars g)) in *.
      set (e := V2.currentPass (V2.vars (fst (V2.passLoop fuel code g2)))) in *.
      replace (Z.to_nat (e - cp)) with (S (Z.to_nat (e - (cp + 1)))) by lia.
      cbn [seq map app].
      now replace (Z.to_nat (cp + 1)) with (S (Z.to_nat cp)) by lia.
    + exists []. cbn [fst snd]. rewrite Z.sub_diag, !app_nil_r.
      repeat split. intros d [].
Qed.

(** One turn of the pass loop with any driver: the pass is taken out of
    the mask, and what is added to the diagnostics are logs of the
    driver. *)
Lemma passBody_any_driver code g :
  exists logs,
    onlyLogs logs
    /\ V2.err (V2.vars (fst (V2.passBody code g))) = V2.err (V2.vars g) ++ logs
    /\ V2.passMask (V2.vars (fst (V2.passBody code g)))
       = Z.land (V2.passMask (V2.vars g))
           (Z.lnot (Z.shiftl 1 (V2.currentPass (V2.vars g))))
    /\ V2.currentPass (V2.vars (fst (V2.passBody code g)))
       = V2.currentPass (V2.vars g).
Proof.
  destruct g as [s sh c]. destruct s.
  unfold V2.passBody, V2.logged. cbn -[V2.passText append Z.land].
  destruct (PassInput.isCoord (inputs currentPass));
    cbn -[V2.passText append Z.land].
  all: match goal with
       | |- context [fs_compile ?t] =>
           destruct (fs_compile t) as [gd hl lg];
           destruct (prog_link t) as [gd' hl' lg']
       end.
  all: destruct gd, hl, gd', hl'; cbn -[V2.passText append Z.land].
  all: unfold V2.addErr; cbn -[V2.passText append Z.land];
       rewrite <- ?app_assoc; cbn [app].
  all: eexists; split; [| split; [reflexivity || (symmetry; apply app_nil_r)
                                 | split; reflexivity]].
  all: intros d Hd; cbn in Hd; intuition eauto.
Qed.

(** The pass loop with any driver: what it adds to the diagnostics are
    logs of the driver, and when it is left through its condition the
    mask and the pass index are those of [loopEnd]. *)
Lemma passLoop_any_driver code fuel :
  forall g,
  exists logs,
    onlyLogs logs
    /\ V2.err (V2.vars (fst (V2.passLoop fuel code g)))
       = V2.err (V2.vars g) ++ logs
    /\ (snd (V2.passLoop fuel code g) = true ->
        (V2.passMask (V2.vars (fst (V2.passLoop fuel code g))),
         V2.currentPass (V2.vars (fst (V2.passLoop fuel code g))))
        = loopEnd fuel (V2.passMask (V2.vars g))
            (V2.currentPass (V2.vars g))).
Proof.
  induction fuel as [| fuel IH]; intros g.
  - exists []. cbn. rewrite app_nil_r. repeat split. intros d [].
  - cbn [V2.passLoop loopEnd]. unfold V2.passDeclared.
    destruct ((V2.currentPass (V2.vars g) <? MaxPasses)
              && negb (Z.land (Z.shiftr (V2.passMask (V2.vars g))
                                 (V2.currentPass (V2.vars g))) 1 =? 0)).
    2: { exists []. cbn. rewrite app_nil_r. repeat split. intros d []. }
    destruct (passBody_any_driver code g) as (logs1 & Hl1 & He1 & Hm1 & Hc1).
    destruct (V2.passBody code g) as [g1 ok]. cbn [fst snd] in *.
    destruct ok.
    + match goal with
      | |- context [V2.passLoop fuel code ?g2'] => set (g2 := g2')
      end.
      destruct (IH g2) as (logs2 & Hl2 & He2 & Hend).
      assert (Hm2 : V2.passMask (V2.vars g2)
                    = Z.land (V2.passMask (V2.vars g))
                        (Z.lnot (Z.shiftl 1 (V2.currentPass (V2.vars g)))))
        by exact Hm1.
      assert (Hc2 : V2.currentPass (V2.vars g2)
                    = V2.currentPass (V2.vars g) + 1)
        by (subst g2; cbn; now rewrite Hc1).
      assert (He2' : V2.err (V2.vars g2) = V2.err (V2.vars g) ++ logs1)
        by exact He1.
      rewrite Hm2, Hc2 in Hend. rewrite He2' in He2.
      exists (logs1 ++ logs2).
      split; [intros d Hd; apply in_app_or in Hd; destruct Hd; auto |].
      split; [rewrite He2; symmetry; apply app_assoc | exact Hend].
    + exists logs1. cbn [fst snd].
      split; [exact Hl1 |]. split; [exact He1 | discriminate].
Qed.

(** The diagnostics of a load with any driver: those of the analysis,
    logs of the driver, and the diagnostic about missing passes exactly
    when the load succeeds and a pass behind the gap was declared. *)
Lemma generate_any_driver code s :
  0 <= V2.passMask s < 16 ->
  declared (V2.passMask s) 0 = true ->
  exists logs,
    onlyLogs logs
    /\ V2.errors (V2.generate code s)
       = V2.err s ++ logs
         ++ (if V2.loadSucceeds (V2.generate code s)
                && declaredBehindGap (V2.passMask s)
             then [PassesMissing] else []).
Proof.
  intros Hm Hd.
  destruct (loopEnd_spec _ Hm) as (Hsnd & Hfst & Hland & Hrange).
  assert (Hpos : 0 < contiguousPrefix (V2.passMask s)).
  { assert (Hge : forall n m k, k <= prefixFrom n m k).
    { induction n as [| n IHn]; intros m k; cbn [prefixFrom]; [lia |].
      destruct (declared m k); [| lia]. specialize (IHn m (k + 1)). lia. }
    unfold contiguousPrefix.
    change (prefixFrom (Z.to_nat MaxPasses) (V2.passMask s) 0)
      with (if declared (V2.passMask s) 0
            then prefixFrom 3 (V2.passMask s) (0 + 1) else 0).
    rewrite Hd.
    specialize (Hge 3%nat (V2.passMask s) (0 + 1)). lia. }
  unfold V2.generate, V2.loadSucceeds.
  change (V2.passMask
            (V2.set_newParams (map GParameter.finalize (V2.newParams s)) s))
    with (V2.passMask s).
  rewrite Hland, Hd. cbn [negb].
  match goal with
  | |- context [V2.passLoop ?f code ?g0'] => set (g0 := g0')
  end.
  destruct (passLoop_any_driver code (Z.to_nat MaxPasses) g0)
    as (logs & Hlogs & Herr & Hend).
  change (V2.passMask (V2.vars g0)) with (V2.passMask s) in Hend.
  change (V2.currentPass (V2.vars g0)) with 0 in Hend.
  change (V2.err (V2.vars g0)) with (V2.err s) in Herr.
  destruct (V2.passLoop (Z.to_nat MaxPasses) code g0) as [g ok].
  cbn [fst snd] in *. exists logs. split; [exact Hlogs |].
  destruct ok.
  - specialize (Hend eq_refl).
    rewrite <- Hend in Hsnd, Hfst. cbn [fst snd] in Hsnd, Hfst.
    rewrite Hfst.
    destruct (declaredBehindGap (V2.passMask s));
      cbn -[contiguousPrefix Z.to_nat].
    + rewrite Hsnd.
      destruct (Z.ltb_spec 0 (contiguousPrefix (V2.passMask s))); [| lia].
      cbn [andb]. rewrite Herr. symmetry. apply app_assoc.
    + rewrite andb_false_r, Herr, app_nil_r. reflexivity.
  - cbn. now rewrite Herr, app_nil_r.
Qed.

Lemma generate_accepted_texts code s :
  0 <= V2.passMask s < 16 ->
  declared (V2.passMask s) 0 = true ->
  (forall n, Z.of_nat n < contiguousPrefix (V2.passMask s) ->
             driverAccepts (shaderAfter s code (S n))) ->
  exists logs,
    onlyLogs logs
    /\ V2.m_passCount (V2.generate code s) = contiguousPrefix (V2.passMask s)
    /\ V2.errors (V2.generate code s)
       = V2.err s ++ logs
         ++ (if declaredBehindGap (V2.passMask s) then [PassesMissing] else [])
    /\ V2.sources (V2.generate code s)
       = map (fun n => shaderAfter s code (S n))
           (seq 0 (Z.to_nat (contiguousPrefix (V2.passMask s)))).
Proof.
  intros Hm Hd Hacc.
  destruct (loopEnd_spec _ Hm) as (Hsnd & Hfst & Hland & Hrange).
  unfold V2.generate.
  change (V2.passMask
            (V2.set_newParams (map GParameter.finalize (V2.newParams s)) s))
    with (V2.passMask s).
  rewrite Hland, Hd. cbn [negb].
  match goal with
  | |- context [V2.passLoop ?f code ?g0'] => set (g0 := g0')
  end.
  destruct (passLoop_accepted_texts code s (Z.to_nat MaxPasses) g0)
    as (logs & Hok & Hend & Herr & Hlogs & Hcomp).
  { subst g0. cbn. repeat split; lia. }
  { intros n Hn. apply Hacc.
    change (V2.passMask (V2.vars g0)) with (V2.passMask s) in Hn.
    change (V2.currentPass (V2.vars g0)) with 0 in Hn.
    rewrite Hsnd in Hn. lia. }
  change (V2.passMask (V2.vars g0)) with (V2.passMask s) in Hend.
  change (V2.currentPass (V2.vars g0)) with 0 in Hend, Hcomp.
  change (V2.err (V2.vars g0)) with (V2.err s) in Herr.
  change (V2.compiled g0) with (@nil string) in Hcomp.
  destruct (V2.passLoop (Z.to_nat MaxPasses) code g0) as [g ok].
  cbn [fst snd] in *. subst ok.
  rewrite <- Hend in Hsnd, Hfst. cbn [fst snd] in Hsnd, Hfst.
  rewrite Z.sub_0_r in Hcomp. cbn [app Z.to_nat] in Hcomp.
  exists logs. split; [exact Hlogs |].
  rewrite Hfst.
  destruct (declaredBehindGap (V2.passMask s));
    cbn -[contiguousPrefix Z.to_nat].
  - split; [exact Hsnd |]. split.
    + rewrite Herr. symmetry. apply app_assoc.
    + rewrite <- Hsnd. exact Hcomp.
  - split; [exact Hsnd |]. split.
    + rewrite Herr, app_nil_r. reflexivity.
    + rewrite <- Hsnd. exact Hcomp.
Qed.


End AcceptedTexts.



(* --------------------------------------------------------------------- *)
(** ** The coordinate mode of the built-in texts                          *)
(* --------------------------------------------------------------------- *)

Lemma lookup_vec2 token :
  lookup tokenMap token = GLSLToken.Vec2 -> token = "vec2".
Proof.
  unfold tokenMap. cbn [lookup].
  repeat match goal with
         | |- context [(?a =? token)%string] =>
             destruct (String.eqb_spec a token) as [<- | _];
             [intros E; first [reflexivity | discriminate E] |]
         end.
  unfold tokenMapDefault. intros E. discriminate E.
Qed.

Section NoPositionPass.
Context `{Extern}.
Implicit Types (s : V2.LoadState) (g : V2.Gen).

(** No pass that was declared takes the position. *)
Local Abbreviation colourPasses s :=
  (forall k, 0 <= k -> Z.testbit (V2.passMask s) k = true ->
             PassInput.isCoord (V2.inputs s k) = false).

Lemma passDefinition_colourPasses s :
  V2.isPassPattern s = true ->
  V2.ttAt s 0 <> GLSLToken.Vec2 ->
  colourPasses s -> colourPasses (V2.passDefinition s).
Proof.
  intros Hpat Hv Hinv.
  unfold V2.isPassPattern in Hpat.
  apply andb_true_iff in Hpat as [Hpat H0].
  apply andb_true_iff in Hpat as [Hpat _].
  apply andb_true_iff in Hpat as [_ H2].
  assert (Hin : forall old, PassInput.isCoord (V2.inputOf (V2.ttAt s 0) old)
                            = false).
  { intros old. destruct (V2.ttAt s 0); try discriminate H0;
      [now destruct Hv | reflexivity | reflexivity]. }
  assert (Hone : forall n, Z.testbit 1 n = true -> n = 0).
  { intros n Hb. destruct (Z.eq_dec n 0) as [E | E]; [exact E |].
    destruct (Z.lt_ge_cases n 0) as [Hlt | Hge];
      [rewrite Z.testbit_neg_r in Hb by exact Hlt; discriminate Hb |].
    replace n with (Z.succ (n - 1)) in Hb by lia.
    change 1 with (2 * 0 + 1) in Hb at 1.
    rewrite Z.testbit_odd_succ in Hb by lia.
    rewrite Z.bits_0 in Hb. discriminate Hb. }
  assert (Hcase : forall cp v,
             PassInput.isCoord v = false ->
             forall k, 0 <= k ->
                       Z.testbit (Z.lor (V2.passMask s) (Z.shiftl 1 cp)) k
                       = true ->
                       PassInput.isCoord (upd (V2.inputs s) cp v k) = false).
  { intros cp v Hcv k Hk Hb. unfold upd.
    destruct (Z.eqb_spec k cp) as [-> | Hne]; [exact Hcv |].
    apply Hinv; [exact Hk |].
    rewrite Z.lor_spec, Z.shiftl_spec in Hb by exact Hk.
    apply orb_true_iff in Hb as [Hb | Hb]; [exact Hb |].
    apply Hone in Hb. lia. }
  unfold V2.passDefinition, V2.selectPass.
  destruct (V2.ttAt s 2) eqn:Ht2; try discriminate H2.
  all: cbn -[Z.testbit Z.lor Z.shiftl upd V2.ttAt].
  all: apply Hcase; apply Hin.
Qed.

Lemma handleToken_colourPasses s token :
  token <> "vec2" -> colourPasses s -> colourPasses (V2.handleToken s token).
Proof.
  intros Hne Hinv. unfold V2.handleToken.
  destruct (GLSLToken.eqb (lookup tokenMap token) GLSLToken.Ignored);
    [exact Hinv |].
  set (s1 := V2.pushHistory (lookup tokenMap token) s).
  destruct (GLSLToken.eqb (V2.ttAt s1 2) GLSLToken.Uniform).
  { unfold V2.newUniform.
    destruct (V2.isUniformType (V2.ttAt s1 1)); exact Hinv. }
  destruct (V2.hasParam s1 && V2.inParamStatement s1
            && (V2.paramValueIndex s1 <? 0) && contains "=" token);
    [exact Hinv |].
  destruct (parseDefault_frame s1 token) as (ps & k0 & -> & _).
  destruct (contains ";" token); [exact Hinv |].
  match goal with
  | |- context [if V2.isPassPattern ?x then _ else _] =>
      destruct (V2.isPassPattern x) eqn:Hpat; [| exact Hinv];
      apply passDefinition_colourPasses; [exact Hpat | | exact Hinv]
  end.
  change (lookup tokenMap token <> GLSLToken.Vec2).
  intros E. apply Hne. now apply lookup_vec2.
Qed.

Lemma analyze_colourPasses lexemes :
  forall s,
    ~ In (Token "vec2") lexemes ->
    colourPasses s -> colourPasses (V2.analyze lexemes s).
Proof.
  induction lexemes as [| x lexemes IH]; intros s Hno Hinv; [exact Hinv |].
  cbn [V2.analyze fold_left].
  apply IH; [intros Hin; apply Hno; now right |].
  destruct x as [multi comment | token]; cbn [V2.handleLexeme].
  - destruct (handleComment_frame s multi comment)
      as (ps & e & cm & tf & -> & _).
    exact Hinv.
  - apply handleToken_colourPasses; [| exact Hinv].
    intros ->. apply Hno. now left.
Qed.

(** The passes that the pass loop has gone through were declared. *)
Lemma passLoop_declared code fuel :
  forall g g',
    0 <= V2.currentPass (V2.vars g) ->
    V2.passLoop fuel code g = (g', true) ->
    forall k, V2.currentPass (V2.vars g) <= k < V2.currentPass (V2.vars g') ->
              Z.testbit (V2.passMask (V2.vars g)) k = true.
Proof.
  induction fuel as [| fuel IH]; intros g g' Hc Hrun k Hk.
  - injection Hrun as <-. lia.
  - cbn [V2.passLoop] in Hrun.
    destruct (V2.passDeclared (V2.vars g)) eqn:Hdecl.
    2: { injection Hrun as <-. lia. }
    unfold V2.passDeclared in Hdecl.
    apply andb_true_iff in Hdecl as [_ Hbit].
    rewrite land_1_testbit, negb_involutive in Hbit.
    rewrite Z.shiftr_spec in Hbit by lia. cbn [Z.add] in Hbit.
    pose proof (passBody_turn code g) as Hb. cbv zeta in Hb.
    destruct Hb as (_ & _ & _ & _ & _ & _ & Hcp1 & _).
    assert (Hmask : V2.passMask (V2.vars (fst (V2.passBody code g)))
                    = Z.land (V2.passMask (V2.vars g))
                        (Z.lnot (Z.shiftl 1 (V2.currentPass (V2.vars g))))).
    { destruct g as [s sh c]. destruct s.
      unfold V2.passBody, V2.logged. cbn -[V2.passText append Z.land].
      destruct (PassInput.isCoord (inputs currentPass));
        cbn -[V2.passText append Z.land].
      all: match goal with
           | |- context [fs_compile ?t] =>
               destruct (fs_compile t) as [gd hl lg];
               destruct (prog_link t) as [gd' hl' lg']
           end.
      all: destruct gd, hl, gd', hl'; reflexivity. }
    destruct (V2.passBody code g) as [g1 ok]. cbn [fst snd] in *.
    destruct ok; [| discriminate Hrun].
    destruct (Z.eq_dec k (V2.currentPass (V2.vars g))) as [-> | Hne];
      [exact Hbit |].
    match type of Hrun with
    | V2.passLoop _ _ ?g2 = _ =>
        assert (Hc2 : 0 <= V2.currentPass (V2.vars g2))
          by (cbn [V2.vars V2.currentPass V2.set_currentPass]; lia);
        pose proof (IH g2 g' Hc2 Hrun k) as Hk2
    end.
    cbn [V2.vars V2.currentPass V2.set_currentPass V2.passMask] in Hk2.
    rewrite Hcp1, Hmask in Hk2.
    specialize (Hk2 ltac:(lia)).
    rewrite Z.land_spec in Hk2. now apply andb_true_iff in Hk2 as [Hk2 _].
Qed.

Lemma generate_colourPasses code s k :
  colourPasses s ->
  0 <= k < V2.m_passCount (V2.generate code s) ->
  Pass.coordMode (V2.passes (V2.generate code s) k) = CoordMapMode.None.
Proof.
  intros Hinv Hk.
  assert (Hs : V2.loadSucceeds (V2.generate code s) = true)
    by (unfold V2.loadSucceeds; apply Z.ltb_lt; lia).
  destruct (generate_succeeded code s Hs)
    as (g & Hrun & _ & Hcount & _ & Hpasses).
  destruct (passLoop_completed _ _ _ _ Hrun) as (_ & _ & _ & _ & Hp).
  assert (Hdecl : 0 <= k < V2.currentPass (V2.vars g) ->
                  Z.testbit (V2.passMask s) k = true).
  { intros Hin.
    refine (passLoop_declared _ _ _ _ _ Hrun k _); [cbn; lia | exact Hin]. }
  cbn [V2.vars V2.currentPass V2.set_currentPass V2.inputs V2.m_passes
       V2.set_newParams V2.passMask] in Hp.
  rewrite Hcount in Hk. specialize (Hdecl Hk).
  rewrite Hpasses, Hp.
  destruct (Z.leb_spec 0 k) as [_ | Hneg]; [| lia].
  destruct (Z.ltb_spec k (V2.currentPass (V2.vars g))) as [_ | Hge]; [| lia].
  rewrite (Hinv k ltac:(lia) Hdecl). reflexivity.
Qed.

Lemma analyzeWith_defined h lexemes :
  forall s s', V2.analyzeWith h lexemes s = Some s' ->
               s' = V2.analyze lexemes s.
Proof.
  intros s s'. destruct h.
  - rewrite analyzeWith_own. now intros [= <-].
  - rewrite analyzeWith_foreign.
    destruct (evaluatesToken lexemes); [discriminate | now intros [= <-]].
Qed.

(** The tokenizer (string_util) is not among the source files.  What
    the theorem needs of it is that a token of a text occurs in the
    text. *)
Variable tokenize : string -> list Lexeme.
Hypothesis tokens_occur :
  forall code token, In (Token token) (tokenize code) ->
                     occurs token code = true.


End NoPositionPass.

Lemma testTokenize_occur code token :
  In (Token token) (testTokenize code) -> occurs token code = true.
Proof.
  unfold testTokenize.
  destruct (String.eqb_spec code V2.saturationCode) as [-> | _];
    [| intros []].
  unfold saturationLexemes. cbn [In].
  intros Hin.
  repeat (destruct Hin as [Hin | Hin];
          [first [ discriminate Hin
                 | injection Hin as <-; vm_compute; reflexivity ] |]).
  destruct Hin.
Qed.


(* --------------------------------------------------------------------- *)
(** ** The colour keys of the older variant                               *)
(* --------------------------------------------------------------------- *)

Lemma nth_error_map_Some {A B} (f : A -> B) (l l' : list A) i x :
  map f l' = map f l -> nth_error l i = Some x ->
  exists x', nth_error l' i = Some x' /\ f x' = f x.
Proof.
  intros Hmap Hx.
  assert (Hm : nth_error (map f l') i = Some (f x))
    by (rewrite Hmap; now apply map_nth_error).
  rewrite nth_error_map in Hm.
  destruct (nth_error l' i) as [x' |]; [| discriminate].
  exists x'. split; [reflexivity |]. now injection Hm.
Qed.

Lemma map_modify_nth_at {A B} (g : A -> B) (f : A -> A) i (l : list A) x :
  nth_error l i = Some x -> g (f x) = g x ->
  map g (modify_nth i f l) = map g l.
Proof.
  revert i; induction l as [| y l IH]; intros [| i] Hx Hg; cbn in *;
    try discriminate.
  - injection Hx as ->. now rewrite Hg.
  - now rewrite (IH i Hx Hg).
Qed.

Lemma modify_nth_id {A} (f : A -> A) i (l : list A) x :
  nth_error l i = Some x -> f x = x -> modify_nth i f l = l.
Proof.
  revert i; induction l as [| y l IH]; intros [| i] Hx Hf; cbn in *;
    try discriminate.
  - injection Hx as ->. now rewrite Hf.
  - now rewrite (IH i Hx Hf).
Qed.

Section OlderColourKeys.
Context `{Extern}.
Implicit Types (s : V1.LoadState).

(** An annotation token of the older variant leaves the types alone when
    the parameter that [param] points to has the type that its
    declaration gave it. *)
Lemma older_evalToken_keeps_types s i p key value :
  V1.param s = Some i ->
  nth_error (V1.newParams s) i = Some p ->
  GParameter.m_type (V1.defaultType (V1.paramDataType s) p)
  = GParameter.m_type p ->
  V1.param (V1.evalToken s key value) = V1.param s
  /\ V1.paramDataType (V1.evalToken s key value) = V1.paramDataType s
  /\ map GParameter.m_type (V1.newParams (V1.evalToken s key value))
     = map GParameter.m_type (V1.newParams s).
Proof.
  intros Hp Hnth Hty.
  unfold V1.evalToken. unfold_conditions.
  key_cases key; cbn.
  all: rewrite ?Hp; cbn.
  all: try (destruct value as [v |]; cbn).
  all: try (destruct (snd (strtof _)); cbn).
  all: unfold V1.setParamType, V1.onParam, V1.addErr; rewrite ?Hp.
  all: try (destruct (GLSLToken.eqb (V1.paramDataType s) _) eqn:Hdt; cbn).
  all: repeat split; try reflexivity; try exact Hp.
  all: try (apply map_modify_nth; reflexivity).
  all: apply (map_modify_nth_at _ _ _ _ p Hnth); cbn.
  all: destruct (V1.paramDataType s); try discriminate Hdt; exact Hty.
Qed.

(** X25: in the older variant the keys [rgb] and [rgba] are redundant
    in the execution that has created the helpers.  The declaration of
    a uniform gives the parameter its type: Value for a [float], RGB
    for a [vec3], RGBA for a [vec4].  On a parameter that has this type
    a token [rgb] or [rgba] changes no parameter: where the key is the
    one for the data type it sets the type that the parameter has and
    reports nothing, and where it is not it reports "format is
    incompatible" for the parameter; and a whole comment leaves the
    types of all parameters as they are. *)
Theorem older_colour_keys_are_redundant s i p dt pt key value multi comment :
  In (dt, pt) olderTypes ->
  V1.param s = Some i ->
  nth_error (V1.newParams s) i = Some p ->
  V1.paramDataType s = dt ->
  GParameter.m_type p = pt ->
  key = "rgb" \/ key = "rgba" ->
  (exists s' : V1.LoadState,
      V1.evalTokenWith OwnHelpers (Some s) key value = Some s'
      /\ V1.newParams s' = V1.newParams s
      /\ V1.err s'
         = V1.err s
           ++ (if colourKeyFits key dt then []
               else [IncompatibleFormat key (GParameter.m_name p)]))
  /\ (exists s' : V1.LoadState,
         V1.handleCommentWith OwnHelpers s multi comment = Some s'
         /\ map GParameter.m_type (V1.newParams s')
            = map GParameter.m_type (V1.newParams s))
  /\ (forall s0 token,
         V1.ttAt s0 1 = dt ->
         V1.param (V1.newUniform s0 token)
         = Some (List.length (V1.newParams s0))
         /\ V1.newParams (V1.newUniform s0 token)
            = V1.newParams s0
              ++ [GParameter.set_type pt
                    (GParameter.set_name token GParameter.fresh)]
         /\ V1.paramDataType (V1.newUniform s0 token) = dt).
Proof.
  intros Hty Hp Hnth Hdt Hpt Hkey.
  assert (Hcases : (dt = GLSLToken.Float /\ pt = ParameterType.Value)
                   \/ (dt = GLSLToken.Vec3 /\ pt = ParameterType.RGB)
                   \/ (dt = GLSLToken.Vec4 /\ pt = ParameterType.RGBA)).
  { cbn in Hty. destruct Hty as [E | [E | [E | []]]]; injection E as <- <-;
      tauto. }
  assert (Hset : GParameter.set_type pt p = p)
    by (destruct p; cbn in Hpt; now subst).
  split; [| split].
  - eexists. split; [reflexivity |].
    unfold V1.evalToken. unfold_conditions. unfold colourKeyFits.
    destruct Hkey as [-> | ->]; cbn; rewrite Hp; cbn.
    all: unfold V1.setParamType, V1.onParam, V1.addErr, V1.paramName.
    all: rewrite Hp, Hnth, Hdt.
    all: destruct Hcases as [[-> ->] | [[-> ->] | [-> ->]]]; cbn.
    all: rewrite ?app_nil_r.
    all: split; try reflexivity.
    all: now apply (modify_nth_id _ _ _ p).
  - rewrite older_handleCommentWith_own. eexists. split; [reflexivity |].
    assert (Hdef : GParameter.m_type (V1.defaultType (V1.paramDataType s) p)
                   = GParameter.m_type p).
    { rewrite Hdt.
      destruct Hcases as [[-> ->] | [[-> ->] | [-> ->]]]; cbn; now rewrite Hpt. }
    unfold V1.handleComment.
    destruct (commentContent multi comment) as [prev content].
    assert (Hstep : forall s' key value,
              V1.param s' = V1.param s
              /\ V1.paramDataType s' = V1.paramDataType s
              /\ map GParameter.m_type (V1.newParams s')
                 = map GParameter.m_type (V1.newParams s) ->
              V1.param (V1.evalToken s' key value) = V1.param s
              /\ V1.paramDataType (V1.evalToken s' key value)
                 = V1.paramDataType s
              /\ map GParameter.m_type (V1.newParams (V1.evalToken s' key value))
                 = map GParameter.m_type (V1.newParams s)).
    { intros s' key' value' (E1 & E2 & E3).
      destruct (nth_error_map_Some _ _ _ _ _ E3 Hnth) as (p' & Hn' & Ht').
      destruct (older_evalToken_keeps_types s' i p' key' value')
        as (F1 & F2 & F3).
      - congruence.
      - exact Hn'.
      - rewrite E2. clear - Hdef Ht'.
        destruct (V1.paramDataType s); cbn in *; congruence.
      - repeat split; congruence. }
    pose proof (tokenLoop_invariant V1.evalToken _ Hstep) as Hinv.
    unfold extractTokens.
    specialize (Hinv (String.length content) s prev EmptyString content
                  (conj eq_refl (conj eq_refl eq_refl))).
    destruct (tokenLoop V1.evalToken _ s prev EmptyString content)
      as [s1 content'].
    cbn [fst] in Hinv. destruct Hinv as (E1 & _ & E3).
    rewrite E1, Hp.
    destruct (_ =? _)%string; [exact E3 |].
    unfold V1.onParam. rewrite E1, Hp. cbn.
    rewrite map_modify_nth by reflexivity. exact E3.
  - intros s0 token Hu. unfold V1.newUniform. rewrite Hu.
    destruct Hcases as [[-> ->] | [[-> ->] | [-> ->]]]; cbn; repeat split.
Qed.

End OlderColourKeys.

(* --------------------------------------------------------------------- *)
(** ** Further instances on concrete inputs                               *)
(* --------------------------------------------------------------------- *)

(** X1 on the removal of the first of three nodes while the last one is
    shown. *)
Lemma handlePCR_keeps_show_index_in_range_witness :
  0 <= 3 <= Pipeline.nodeCount (App.m_pipeline (testApp ["a"; "b"; "c"] 3))
  /\ App.m_showIndex
       (fst (@App.handlePCR string testAppExtern
               (App.request (testApp ["a"; "b"; "c"] 3)
                  PipelineChangeRequest.RemoveNode 1 0 EmptyString)))
     <= 2.
Proof.
  assert (Hs : 0 <= 3 <= Pipeline.nodeCount
                          (App.m_pipeline (testApp ["a"; "b"; "c"] 3)))
    by (cbn; lia).
  split; [exact Hs |].
  pose proof (@handlePCR_keeps_show_index_in_range string testAppExtern
                (App.request (testApp ["a"; "b"; "c"] 3)
                   PipelineChangeRequest.RemoveNode 1 0 EmptyString) Hs)
    as [_ Hle].
  exact Hle.
Defined.

(** X3 on a request to remove node 5 of a pipeline of two nodes. *)
Lemma handlePCR_false_keeps_the_pipeline_witness :
  snd (@App.handlePCR string testAppExtern
         (App.request (testApp ["a"; "b"] 1)
            PipelineChangeRequest.RemoveNode 5 0 EmptyString)) = false
  /\ App.nodes
       (fst (@App.handlePCR string testAppExtern
               (App.request (testApp ["a"; "b"] 1)
                  PipelineChangeRequest.RemoveNode 5 0 EmptyString)))
     = ["a"; "b"].
Proof.
  split; [reflexivity |].
  destruct (@handlePCR_false_keeps_the_pipeline string testAppExtern
              (App.request (testApp ["a"; "b"] 1)
                 PipelineChangeRequest.RemoveNode 5 0 EmptyString) eq_refl)
    as [Hn _].
  exact Hn.
Defined.

(** X4 on "move down" for the second of three nodes while it is
    shown. *)
Lemma menu_move_exchanges_neighbours_witness :
  0 < 2 <= Pipeline.nodeCount (App.m_pipeline (testApp ["a"; "b"; "c"] 2))
  /\ App.m_showIndex
       (fst (@App.handlePCR string testAppExtern
               (UI.contextMenu (testApp ["a"; "b"; "c"] 2) 2 UI.MoveDown)))
     = 2.
Proof.
  assert (Hv : 0 < 2 <= Pipeline.nodeCount
                          (App.m_pipeline (testApp ["a"; "b"; "c"] 2)))
    by (cbn; lia).
  split; [exact Hv |].
  destruct (@menu_move_exchanges_neighbours string testAppExtern
              (testApp ["a"; "b"; "c"] 2) 2 Hv) as (_ & Hdown & _).
  destruct (Hdown ltac:(cbn; lia)) as (_ & Hshow & _).
  exact Hshow.
Defined.

(** X5 on a shader file dropped while the first of two nodes is
    shown. *)
Lemma handleInputFile_shows_the_new_node_witness :
  0 <= 1 <= Pipeline.nodeCount (App.m_pipeline (testApp ["a"; "b"] 1))
  /\ App.nodeAtStage
       (fst (@AppFiles.handleInputFile string testAppExtern testExtCodes
               (testApp ["a"; "b"] 1) "blur.glsl")) 2
     = Some "blur.glsl".
Proof.
  assert (Hs : 0 <= 1 <= Pipeline.nodeCount
                          (App.m_pipeline (testApp ["a"; "b"] 1)))
    by (cbn; lia).
  split; [exact Hs |].
  destruct (@handleInputFile_shows_the_new_node string testAppExtern
              testExtCodes (testApp ["a"; "b"] 1) "blur.glsl" Hs)
    as (Hnew & _).
  destruct (Hnew "blur.glsl" eq_refl eq_refl) as (Hi & _ & Hat & _).
  rewrite Hi in Hat. exact Hat.
Defined.

(** X6 on two shader files given to the empty pipeline. *)
Lemma command_line_shaders_keep_their_order_witness :
  0 <= 0 <= Pipeline.nodeCount (App.m_pipeline (testApp [] 0))
  /\ App.nodes
       (@AppFiles.handleInputFiles string testAppExtern testExtCodes
          (testApp [] 0) ["a.glsl"; "b.frag"])
     = ["a.glsl"; "b.frag"].
Proof.
  assert (Hs : 0 <= 0 <= Pipeline.nodeCount (App.m_pipeline (testApp [] 0)))
    by (cbn; lia).
  split; [exact Hs |].
  destruct (@command_line_shaders_keep_their_order string testAppExtern
              testExtCodes (testApp [] 0) ["a.glsl"; "b.frag"]
              ["a.glsl"; "b.frag"] Hs) as (_ & _ & Hempty).
  - repeat constructor.
  - apply Hempty. reflexivity.
Defined.

(** X7 on a request to save to [out.xyz]. *)
Lemma save_formats_are_consistent_witness :
  (forall path,
      @isSaveImageFile string savingAppExtern path
      = @AppFiles.isSaveImageFile testExtCodes
          (@extractExtCode testExtCodes path))
  /\ @AppFiles.saveAfterPCR string savingAppExtern testExtCodes
       (App.request (testApp ["a"] 1) PipelineChangeRequest.SaveResult
          0 0 "out.xyz")
     <> Some AppFiles.NoWriter.
Proof.
  assert (Hcheck : forall path,
             @isSaveImageFile string savingAppExtern path
             = @AppFiles.isSaveImageFile testExtCodes
                 (@extractExtCode testExtCodes path))
    by reflexivity.
  split; [exact Hcheck |].
  destruct (@save_formats_are_consistent string savingAppExtern testExtCodes
              (App.request (testApp ["a"] 1) PipelineChangeRequest.SaveResult
                 0 0 "out.xyz") "out.xyz" Hcheck)
    as (_ & _ & Hsave & _).
  exact Hsave.
Defined.

(** X8 on an image of 300 pixels on a display of 1000 pixels. *)
Lemma sanitizePos_keeps_the_image_on_screen_witness :
  0 <= 1000 <= 2147483647 /\ 0 <= 300 <= 2147483647
  /\ View.sanitizePos (View.sanitizePos (-40) 1000 300) 1000 300
     = View.sanitizePos (-40) 1000 300.
Proof.
  assert (Hd : 0 <= 1000 <= 2147483647) by lia.
  assert (Hi : 0 <= 300 <= 2147483647) by lia.
  split; [exact Hd |]. split; [exact Hi |].
  destruct (sanitizePos_keeps_the_image_on_screen (-40) 1000 300 Hd Hi)
    as (_ & _ & Hfix).
  exact Hfix.
Defined.

(** X9 on a drag from (10, 20) over (500, 7) to (13, 25). *)
Lemma pan_follows_the_mouse_witness :
  is_int (View.m_imgX0 testView - 10) /\ is_int (View.m_imgY0 testView - 20)
  /\ View.m_imgX0
       (View.panUpdate
          (View.panUpdates (View.panStart testView 10 20) [(500, 7)]) 13 25)
     = 3.
Proof.
  assert (Hx : is_int (View.m_imgX0 testView - 10))
    by (unfold is_int; cbn; lia).
  assert (Hy : is_int (View.m_imgY0 testView - 20))
    by (unfold is_int; cbn; lia).
  split; [exact Hx |]. split; [exact Hy |].
  destruct (pan_follows_the_mouse testView 10 20 [(500, 7)] 13 25 Hx Hy)
    as (Hx' & _).
  - constructor; [| constructor]. unfold is_int; cbn; lia.
  - unfold is_int; cbn; lia.
  - unfold is_int; cbn; lia.
  - exact Hx'.
Defined.

(** X10 on an image of 3000 x 2000 pixels with the target 1024 x
    1024. *)
Lemma loadImage_uploads_within_the_target_witness :
  @AppImage.loadImage testImageLibrary testSettings "photo.jpg"
  = AppImage.Upload 1024 683
  /\ 683 <= 1024.
Proof.
  assert (Hrun : @AppImage.loadImage testImageLibrary testSettings "photo.jpg"
                 = AppImage.Upload 1024 683) by reflexivity.
  split; [exact Hrun |].
  destruct (@loadImage_uploads_within_the_target testImageLibrary
              testSettings "photo.jpg" 3000 2000 1024 683 eq_refl
              ltac:(lia) ltac:(lia) ltac:(cbn; lia) ltac:(cbn; lia)
              ltac:(cbn; lia) ltac:(cbn; lia) Hrun)
    as (_ & [_ Hh] & _).
  exact Hh.
Defined.

(** X11 on a pattern of two pixels. *)
Lemma opaquePattern_sets_every_alpha_witness :
  0 <= 2 * 1 <= 2147483647
  /\ Z.of_nat (List.length [1; 2; 3; 4; 5; 6; 7; 8]) = 2 * 1 * 4
  /\ exists data',
       AppImage.opaquePattern 2 1 [1; 2; 3; 4; 5; 6; 7; 8] = Some data'
       /\ List.length data' = 8%nat.
Proof.
  assert (Hn : 0 <= 2 * 1 <= 2147483647) by lia.
  assert (Hl : Z.of_nat (List.length [1; 2; 3; 4; 5; 6; 7; 8]) = 2 * 1 * 4)
    by reflexivity.
  split; [exact Hn |]. split; [exact Hl |].
  destruct (opaquePattern_sets_every_alpha 2 1 [1; 2; 3; 4; 5; 6; 7; 8]
              Hn Hl) as (data' & Hrun & Hlen & _).
  exists data'. split; [exact Hrun | exact Hlen].
Defined.

(** X12 on the test image of 300 x 2 pixels. *)
Lemma dummy_image_is_the_xor_pattern_witness :
  0 <= 300 /\ 0 <= 2 /\ 300 * 2 * 4 <= 2147483647
  /\ Z.of_nat (List.length (DummyImage.image 300 2)) = 2400.
Proof.
  assert (Hw : 0 <= 300) by lia.
  assert (Hh : 0 <= 2) by lia.
  assert (Hs : 300 * 2 * 4 <= 2147483647) by lia.
  split; [exact Hw |]. split; [exact Hh |]. split; [exact Hs |].
  destruct (dummy_image_is_the_xor_pattern 300 2 Hw Hh Hs) as [Hlen _].
  exact Hlen.
Defined.

(** X14 on a comment with two tokens. *)
Lemma extracted_text_holds_no_token_witness :
  (String.length " gain @min=0 @max=5" <= 19)%nat
  /\ tokenStart "/"
       (snd (extractTokens (@V2.evalToken testExtern) atStart "/"
               " gain @min=0 @max=5")) = false.
Proof.
  assert (Hf : (String.length " gain @min=0 @max=5" <= 19)%nat)
    by (cbn; lia).
  split; [exact Hf |].
  destruct (extracted_text_holds_no_token (@V2.evalToken testExtern)
              atStart "/" " gain @min=0 @max=5" 19 Hf) as [_ Hno].
  exact Hno.
Defined.

(** X15 on a token in capital letters. *)
Lemma tokens_are_read_in_lower_case_witness :
  splitToken "UNIT=Hz rest" = ("unit", Some "hz", "rest")
  /\ splitToken (lower "UNIT=Hz rest") = ("unit", Some "hz", "rest").
Proof.
  assert (Hsplit : splitToken "UNIT=Hz rest" = ("unit", Some "hz", "rest"))
    by reflexivity.
  split; [exact Hsplit |].
  destruct (tokens_are_read_in_lower_case "UNIT=Hz rest" "unit" (Some "hz")
              "rest" Hsplit) as [Hlow _].
  exact Hlow.
Defined.

(** X17 on a comment that holds a mail address. *)
Lemma comment_without_token_is_plain_text_witness :
  tokenStart "/" " mail to keyj@emphy.de" = false
  /\ V2.err (@V2.handleComment testExtern atStart false
               "// mail to keyj@emphy.de") = [].
Proof.
  assert (Hno : tokenStart
                  (fst (commentContent false "// mail to keyj@emphy.de"))
                  (snd (commentContent false "// mail to keyj@emphy.de"))
                = false) by reflexivity.
  split; [exact Hno |].
  destruct (@comment_without_token_is_plain_text testExtern atStart false
              "// mail to keyj@emphy.de" Hno) as (_ & Herr & _).
  exact Herr.
Defined.

(** X19 on [uniform float gain] at the start of a file. *)
Lemma uniform_declaration_adds_a_parameter_witness :
  V2.param atStart = Datatypes.None
  /\ map GParameter.m_name
       (V2.newParams
          (@V2.analyze testExtern
             [Token "uniform"; Token "float"; Token "gain"] atStart))
     = ["gain"].
Proof.
  split; [reflexivity |].
  destruct (@uniform_declaration_adds_a_parameter testExtern atStart
              "float" "gain" eq_refl eq_refl eq_refl eq_refl eq_refl eq_refl)
    as [Hadd _].
  destruct (Hadd eq_refl) as (Hnew & _).
  rewrite Hnew. reflexivity.
Defined.

(** X20 on a text that only holds a helper function. *)
Lemma shader_without_first_pass_does_not_load_witness :
  (forall token, In (Token token) helperOnly -> ~ In token firstPassNames)
  /\ V2.errors (@V2.load testExtern EmptyString helperOnly
                  inputs0 outputs0 passes0) = [NoRunFunction].
Proof.
  assert (Hno : forall token,
             In (Token token) helperOnly -> ~ In token firstPassNames).
  { intros token Hin Hname. unfold helperOnly in Hin. cbn in Hin, Hname.
    repeat (destruct Hin as [[= <-] | Hin];
            [destruct Hname as [E | [E | []]]; discriminate E |]).
    destruct Hin. }
  split; [exact Hno |].
  destruct (@shader_without_first_pass_does_not_load testExtern EmptyString
              helperOnly inputs0 outputs0 passes0 Hno)
    as (_ & _ & _ & Herr & _).
  exact Herr.
Defined.

(** X22 on the second of three passes. *)
Lemma compiled_texts_accumulate_witness :
  nth_error
    (V2.sources
       (@V2.generate testExtern threePassesCode
          (@V2.analyze testExtern threePasses
             (@V2.initial testExtern inputs0 outputs0 passes0)))) 1
  = Some (@shaderAfter testExtern
            (@V2.analyze testExtern threePasses
               (@V2.initial testExtern inputs0 outputs0 passes0))
            threePassesCode 2).
Proof.
  destruct (nth_error
              (V2.sources
                 (@V2.generate testExtern threePassesCode
                    (@V2.analyze testExtern threePasses
                       (@V2.initial testExtern inputs0 outputs0 passes0)))) 1)
    as [text |] eqn:Hk.
  - f_equal.
    exact (@compiled_texts_accumulate testExtern threePassesCode
             (@V2.analyze testExtern threePasses
                (@V2.initial testExtern inputs0 outputs0 passes0))
             1%nat text Hk).
  - vm_compute in Hk. discriminate Hk.
Defined.

(** X24 on a single pass with a colour input. *)
Lemma colour_passes_get_no_coordinate_mapping_witness :
  V2.loadSucceeds
    (@V2.generate testExtern EmptyString
       (@V2.analyze testExtern (passDecl "vec4" "run" "vec4")
          (@V2.initial testExtern inputs0 outputs0 passes0))) = true
  /\ Pass.coordMode
       (V2.passes
          (@V2.generate testExtern EmptyString
             (@V2.analyze testExtern (passDecl "vec4" "run" "vec4")
                (@V2.initial testExtern inputs0 outputs0 passes0))) 0)
     = CoordMapMode.None.
Proof.
  assert (Hs : V2.loadSucceeds
                 (@V2.generate testExtern EmptyString
                    (@V2.analyze testExtern (passDecl "vec4" "run" "vec4")
                       (@V2.initial testExtern inputs0 outputs0 passes0)))
               = true) by reflexivity.
  split; [exact Hs |].
  destruct (@colour_passes_get_no_coordinate_mapping testExtern EmptyString
              (@V2.analyze testExtern (passDecl "vec4" "run" "vec4")
                 (@V2.initial testExtern inputs0 outputs0 passes0)) 0 Hs)
    as [Hp _].
  rewrite Hp. reflexivity.
Defined.

(** X25 on the comment of the built-in text of the older variant,
    behind [uniform vec3 key]. *)
Lemma older_colour_keys_are_redundant_witness :
  V1.param olderAfterVec3 = Some 0%nat
  /\ In (GLSLToken.Vec3, ParameterType.RGB) olderTypes
  /\ option_map (fun s => map GParameter.m_type (V1.newParams s))
       (V1.handleCommentWith OwnHelpers olderAfterVec3 false
          "// @rgb key color")
     = Some [ParameterType.RGB].
Proof.
  assert (Hin : In (GLSLToken.Vec3, ParameterType.RGB) olderTypes)
    by (cbn; tauto).
  split; [reflexivity |]. split; [exact Hin |].
  destruct (@older_colour_keys_are_redundant testExtern olderAfterVec3 0%nat
              (GParameter.set_type ParameterType.RGB
                 (GParameter.set_name "key" (@GParameter.fresh testExtern)))
              GLSLToken.Vec3 ParameterType.RGB "rgb" Datatypes.None
              false "// @rgb key color"
              Hin eq_refl eq_refl eq_refl eq_refl (or_introl eq_refl))
    as (_ & (s' & Hc & Hty) & _).
  rewrite Hc. cbn [option_map]. rewrite Hty. reflexivity.
Defined.

(** X26 on [vec3 run_pass2 ( vec2] at the start of a file. *)
Lemma pass_declaration_is_recorded_witness :
  In ("run_pass2", 1) passEntryPoints
  /\ V2.passMask
       (@V2.analyze testExtern
          [Token "vec3"; Token "run_pass2"; Token "("; Token "vec2"] atStart)
     = 2
  /\ V2.inputs
       (@V2.analyze testExtern
          [Token "vec3"; Token "run_pass2"; Token "("; Token "vec2"] atStart)
       1
     = PassInput.Coord.
Proof.
  assert (Hname : In ("run_pass2", 1) passEntryPoints)
    by (cbn; tauto).
  split; [exact Hname |].
  destruct (@pass_declaration_is_recorded testExtern atStart
              "vec3" "run_pass2" "vec2" PassOutput.RGB 1 PassInput.Coord
              (or_introl eq_refl) Hname (or_introl eq_refl)
              eq_refl eq_refl eq_refl)
    as (Hmask & _ & Hinput & _).
  split; [rewrite Hmask; reflexivity | exact Hinput].
Defined.

(** X27 on [uniform vec3 c = vec3(1,0,0] at the start of a file. *)
Lemma default_values_are_stored_in_order_witness :
  V2.paramValueIndex
    (@V2.analyze testExtern
       [Token "uniform"; Token "vec3"; Token "c"] atStart) < 0
  /\ option_map GParameter.m_value
       (nth_error
          (V2.newParams
             (@V2.analyze testExtern
                (map Token
                   ["="; "vec3"; "("; "1"; ","; "0"; ","; "0"])
                (@V2.analyze testExtern
                   [Token "uniform"; Token "vec3"; Token "c"] atStart)))
          0)
     = Some [1; 0; 0; 0].
Proof.
  split; [reflexivity |].
  assert (Hall : Forall (fun token => contains ";" token = false
                                      /\ token <> "uniform" /\ token <> "in")
                   ["vec3"; "("; "1"; ","; "0"; ","; "0"])
    by (repeat constructor; discriminate).
  destruct (@default_values_are_stored_in_order testExtern
              (@V2.analyze testExtern
                 [Token "uniform"; Token "vec3"; Token "c"] atStart)
              0%nat
              (@V2.defaultType testExtern GLSLToken.Vec3
                 (@GParameter.set_name testExtern "c"
                    (@GParameter.fresh testExtern)))
              "=" ["vec3"; "("; "1"; ","; "0"; ","; "0"]
              eq_refl eq_refl eq_refl eq_refl eq_refl eq_refl eq_refl
              eq_refl Hall)
    as (Hvalue & _).
  rewrite Hvalue. reflexivity.
Defined.

